(** * select/linear: a shallow embedding of [select_linear.c]

    The node selection plugin for a one-dimensional address space is
    embedded function by function.  C integers are integers of [Z] whose
    conversions and wrap-around are written out, bitmaps are lists of
    booleans, linked lists and arrays are lists, pointers into the job
    and partition tables are indices, and the global variables of the
    plugin are the fields of two records: [globals] for what the
    functions below only read and [world] for what they update.
    Logging calls ([error], [info], [debug]) have no counterpart.
    [_will_run_test] and [_run_now] are embedded a second time with the
    registries in memory blocks behind addresses, which tells a registry
    from its clone. *)

From Stdlib Require Import ZArith List Bool Lia.
From Stdlib Require Finite.
Import ListNotations.
Local Open Scope Z_scope.

(** ** C integer types *)

Module CInt.

Definition to_uint16 (x : Z) : Z := x mod 2 ^ 16.

Definition to_uint32 (x : Z) : Z := x mod 2 ^ 32.

(** Conversion to a 32-bit [int] (two's complement). *)
Definition to_int (x : Z) : Z := (x + 2 ^ 31) mod 2 ^ 32 - 2 ^ 31.

End CInt.
Import CInt.

(** [#define NO_SHARE_LIMIT 0xfffe], [NODEINFO_MAGIC 0x82ad],
    [RUN_JOB_INCR 16]. *)
Definition NO_SHARE_LIMIT : Z := 0xfffe.
Definition NODEINFO_MAGIC : Z := 0x82ad.
Definition RUN_JOB_INCR : nat := 16.

(** Return codes.  [SLURM_SUCCESS] is the zero of the C code: a test
    [if (error_code)] is a test for a constructor other than
    [SLURM_SUCCESS]. *)
Inductive errno : Type :=
| SLURM_SUCCESS
| SLURM_ERROR
| EINVAL.

Definition errno_eqb (a b : errno) : bool :=
  match a, b with
  | SLURM_SUCCESS, SLURM_SUCCESS | SLURM_ERROR, SLURM_ERROR | EINVAL, EINVAL => true
  | _, _ => false
  end.

(** ** Arrays and bitmaps *)

(** An array read or written at a C index; an index outside the array
    (undefined behaviour in C) reads the default and writes nothing. *)
Definition zth {A : Type} (l : list A) (i : Z) (d : A) : A :=
  if i <? 0 then d else nth (Z.to_nat i) l d.

Fixpoint list_set {A : Type} (l : list A) (n : nat) (x : A) : list A :=
  match l, n with
  | [], _ => []
  | _ :: r, O => x :: r
  | y :: r, S n' => y :: list_set r n' x
  end.

Definition zset {A : Type} (l : list A) (i : Z) (x : A) : list A :=
  if i <? 0 then l else list_set l (Z.to_nat i) x.

(** The indices [first, first+1, ..., last] of a loop
    [for (i = first; i <= last; i++)]. *)
Definition index_range (first last : Z) : list Z :=
  map (fun k => first + Z.of_nat k) (seq 0 (Z.to_nat (last - first + 1))).

(** Modelled from the spec: the bitmap primitives of
    [src/common/bitstring.c] are not part of the sources.  A bitmap is a
    fixed-length bit-set over node indices with test, set, clear,
    first-set, last-set, count, copy, and, super-set and overlap. *)
Definition bitstr_t : Type := list bool.

Definition bit_test (b : bitstr_t) (i : Z) : bool := zth b i false.

Definition bit_set (b : bitstr_t) (i : Z) : bitstr_t := zset b i true.

Definition bit_clear (b : bitstr_t) (i : Z) : bitstr_t := zset b i false.

Fixpoint ffs_from (b : bitstr_t) (i : Z) : Z :=
  match b with
  | [] => -1
  | x :: r => if x then i else ffs_from r (i + 1)
  end.

(** Index of the first set bit, -1 when there is none. *)
Definition bit_ffs (b : bitstr_t) : Z := ffs_from b 0.

Fixpoint fls_from (b : bitstr_t) (i last : Z) : Z :=
  match b with
  | [] => last
  | x :: r => fls_from r (i + 1) (if x then i else last)
  end.

(** Index of the last set bit, -1 when there is none. *)
Definition bit_fls (b : bitstr_t) : Z := fls_from b 0 (-1).

Definition bit_set_count (b : bitstr_t) : Z :=
  Z.of_nat (length (filter (fun x => x) b)).

Definition bit_copy (b : bitstr_t) : bitstr_t := b.

(** [bit_super_set b1 b2]: every bit set in [b1] is set in [b2]. *)
Fixpoint bit_super_set (b1 b2 : bitstr_t) : bool :=
  match b1, b2 with
  | [], _ => true
  | x :: r1, [] => negb x && bit_super_set r1 []
  | x :: r1, y :: r2 => implb x y && bit_super_set r1 r2
  end.

(** [bit_and b1 b2]: [b1 &= b2]. *)
Fixpoint bit_and (b1 b2 : bitstr_t) : bitstr_t :=
  match b1, b2 with
  | [], _ => []
  | _ :: r1, [] => false :: bit_and r1 []
  | x :: r1, y :: r2 => (x && y) :: bit_and r1 r2
  end.

(** Number of bits set in both bitmaps. *)
Definition bit_overlap (b1 b2 : bitstr_t) : Z := bit_set_count (bit_and b1 b2).

(** ** [_enough_nodes] *)

(** [avail_nodes] and [rem_nodes] are [int], [min_nodes] and [req_nodes]
    are [uint32_t]: the sum [rem_nodes + min_nodes - req_nodes] is taken
    in unsigned 32-bit arithmetic and stored in the [int]
    [needed_nodes]. *)
Definition _enough_nodes (avail_nodes rem_nodes min_nodes req_nodes : Z) : bool :=
  let needed_nodes :=
    if min_nodes <? req_nodes
    then to_int (to_uint32 (to_uint32 (to_uint32 rem_nodes + min_nodes) - req_nodes))
    else rem_nodes in
  needed_nodes <=? avail_nodes.

(** The predicate as the specification words it, over the integers:
    [avail >= (req > min ? rem + min - req : rem)]. *)
Definition enough_nodes_spec (avail rem min req : Z) : Prop :=
  avail >= (if min <? req then rem + min - req else rem).

(** ** Per-node information and its wire format *)

Record select_nodeinfo : Type := mk_nodeinfo {
  magic : Z;        (* uint16_t *)
  alloc_cpus : Z    (* uint16_t *)
}.

(** Modelled from the spec: the buffer type [Buf] and [pack16] /
    [unpack16] of [src/common/pack.c] are not part of the sources.  A
    buffer is its bytes and the offset [processed] of the next byte to
    write or read; a 16-bit unsigned integer occupies two bytes, most
    significant first. *)
Record Buf : Type := mk_buf {
  head : list Z;
  processed : nat
}.

Definition remaining_buf (buffer : Buf) : nat :=
  (length (head buffer) - processed buffer)%nat.

Definition pack16 (val : Z) (buffer : Buf) : Buf :=
  let ns := to_uint16 val in
  let p := processed buffer in
  let h := head buffer in
  {| head := firstn p h ++ [ns / 256; ns mod 256] ++ skipn (p + 2) h;
     processed := (p + 2)%nat |}.

Definition unpack16 (buffer : Buf) : option (Z * Buf) :=
  if (remaining_buf buffer <? 2)%nat then None
  else
    let p := processed buffer in
    let hi := nth p (head buffer) 0 in
    let lo := nth (S p) (head buffer) 0 in
    Some (256 * hi + lo, {| head := head buffer; processed := (p + 2)%nat |}).

(** [xmalloc] returns zeroed memory. *)
Definition select_p_select_nodeinfo_alloc (size : Z) : select_nodeinfo :=
  {| magic := NODEINFO_MAGIC; alloc_cpus := 0 |}.

Definition select_p_select_nodeinfo_free (nodeinfo : option select_nodeinfo) : errno :=
  match nodeinfo with
  | Some ni => if negb (magic ni =? NODEINFO_MAGIC) then EINVAL else SLURM_SUCCESS
  | None => SLURM_SUCCESS
  end.

Definition select_p_select_nodeinfo_pack (nodeinfo : select_nodeinfo)
    (buffer : Buf) (protocol_version : Z) : errno * Buf :=
  (SLURM_SUCCESS, pack16 (alloc_cpus nodeinfo) buffer).

(** Returns the code, the value stored in [*nodeinfo] and the buffer. *)
Definition select_p_select_nodeinfo_unpack (buffer : Buf) (protocol_version : Z)
    : errno * option select_nodeinfo * Buf :=
  let nodeinfo_ptr := select_p_select_nodeinfo_alloc 0xfffffffe in
  match unpack16 buffer with
  | Some (v, buffer') =>
      (SLURM_SUCCESS,
       Some {| magic := magic nodeinfo_ptr; alloc_cpus := v |}, buffer')
  | None => (SLURM_ERROR, None, buffer)
  end.

(** Rewinding a buffer to an earlier offset, as a reader of the packed
    bytes does. *)
Definition set_buf_offset (buffer : Buf) (off : nat) : Buf :=
  {| head := head buffer; processed := off |}.

(** ** Collaborators *)

(** What the plugin takes from the rest of SLURM and what the absent
    headers declare.

    - [NO_VAL], [CR_MEMORY] and [SHARED_FORCE] are constants of
      [slurm.h]; [cnt_bits] is the width of the counters
      [exclusive_cnt], [run_job_cnt] and [tot_job_cnt], which
      [select_linear.h] declares.
    - The GRES plugin owns the state behind every GRES list; a list is a
      handle ([gres_job_t], [gres_node_t]) into that state ([gres_heap])
      and [None] is the NULL list.
    - [slurm_get_avail_procs] is the CPU oracle, called with the values
      [_get_avail_cpus] passes (job id and node index last).
    - [time] gives the successive readings of the clock. *)
Class Slurm : Type := {
  NO_VAL : Z;
  CR_MEMORY : Z;
  SHARED_FORCE : Z;
  cnt_bits : positive;
  gres_job_t : Type;
  gres_node_t : Type;
  gres_heap : Type;
  gres_plugin_job_test :
    option gres_job_t -> option gres_node_t -> bool -> Z -> Z -> gres_heap -> Z;
  gres_plugin_job_alloc :
    option gres_job_t -> option gres_node_t -> Z -> Z -> Z -> Z -> Z -> gres_heap -> gres_heap;
  gres_plugin_job_dealloc :
    option gres_job_t -> option gres_node_t -> Z -> Z -> Z -> gres_heap -> gres_heap;
  gres_plugin_node_state_dup :
    option gres_node_t -> gres_heap -> option gres_node_t * gres_heap;
  gres_plugin_node_state_dealloc_all :
    option gres_node_t -> gres_heap -> gres_heap;
  list_destroy : gres_node_t -> gres_heap -> gres_heap;
  slurm_get_avail_procs :
    Z -> Z -> Z -> Z -> Z -> Z -> Z -> Z -> Z -> Z -> Z -> Z -> Z -> Z;
  time : nat -> Z
}.

(** Modelled from the spec: [MEM_PER_CPU] of [slurm.h] is the high bit
    of the 32-bit memory field; the rest of the field is the value. *)
Definition MEM_PER_CPU : Z := 0x80000000.

Section DataModel.

Context {SL : Slurm}.

(** A counter of [cnt_bits] bits after [++]. *)
Definition cnt_incr (x : Z) : Z := (x + 1) mod 2 ^ Zpos cnt_bits.

(** ** Records of slurmctld *)

Record config_record : Type := mk_config {
  cfg_cpus : Z;
  cfg_sockets : Z;
  cfg_cores : Z;
  cfg_threads : Z;
  cfg_real_memory : Z
}.

Record node_record : Type := mk_node {
  cpus : Z;
  sockets : Z;
  cores : Z;
  threads : Z;
  real_memory : Z;
  config_ptr : config_record;
  node_gres_list : option gres_node_t
}.

Record part_record : Type := mk_part {
  part_node_bitmap : option bitstr_t;
  max_share : Z
}.

Record multi_core_data_t : Type := mk_mc {
  ntasks_per_socket : Z;
  ntasks_per_core : Z;
  sockets_per_node : Z;
  cores_per_socket : Z;
  threads_per_core : Z
}.

Record job_details : Type := mk_details {
  min_cpus : Z;
  req_node_bitmap : option bitstr_t;
  exc_node_bitmap : option bitstr_t;
  contiguous : Z;
  shared : Z;
  pn_min_memory : Z;
  cpus_per_task : Z;
  ntasks_per_node : Z;
  mc_ptr : option multi_core_data_t
}.

(** The fields of [job_resources_t] this file fills in. *)
Record job_resources_t : Type := mk_resrcs {
  res_node_bitmap : option bitstr_t;
  ncpus : Z;
  nhosts : Z;
  res_cpus : list Z;
  cpus_used : list Z;
  memory_allocated : list Z;
  memory_used : list Z;
  cpu_array_value : list Z;
  cpu_array_reps : list Z;
  cpu_array_cnt : Z
}.

Inductive job_states : Type :=
| JOB_PENDING
| JOB_RUNNING
| JOB_SUSPENDED
| JOB_COMPLETE.

(** [part_ptr] is the index of the job's partition in [part_list]. *)
Record job_record : Type := mk_job {
  job_id : Z;
  job_state : job_states;
  priority : Z;
  part_ptr : option nat;
  details : option job_details;
  job_resrcs : option job_resources_t;
  node_bitmap : bitstr_t;
  node_cnt : Z;
  total_cpus : Z;
  start_time : Z;
  end_time : Z;
  part_nodes_missing : bool;
  job_gres_list : option gres_job_t
}.

Definition IS_JOB_RUNNING (j : job_record) : bool :=
  match job_state j with JOB_RUNNING => true | _ => false end.

Definition IS_JOB_SUSPENDED (j : job_record) : bool :=
  match job_state j with JOB_SUSPENDED => true | _ => false end.

Record switch_record : Type := mk_switch {
  level : Z;
  switch_node_bitmap : bitstr_t
}.

(** ** The consumable-resource records ([select_linear.h]) *)

Record part_cr_record : Type := mk_part_cr {
  cr_part_ptr : nat;
  run_job_cnt : Z;
  tot_job_cnt : Z
}.

(** [parts] is the linked list headed at [parts], in the order of its
    [next] pointers. *)
Record node_cr_record : Type := mk_node_cr {
  parts : list part_cr_record;
  alloc_memory : Z;
  exclusive_cnt : Z;
  cr_gres_list : option gres_node_t
}.

(** A job-id array and its length are one list; a NULL array is the
    empty list (every function below treats a NULL array and an array of
    length 0 alike). *)
Record cr_record : Type := mk_cr {
  nodes : list node_cr_record;
  run_job_ids : list Z;
  tot_job_ids : list Z
}.

(** Memory returned by [xmalloc] is zeroed. *)
Definition zero_config : config_record := mk_config 0 0 0 0 0.
Definition zero_node : node_record := mk_node 0 0 0 0 0 zero_config None.
Definition zero_node_cr : node_cr_record := mk_node_cr [] 0 0 None.
Definition zero_details : job_details := mk_details 0 None None 0 0 0 0 0 None.
Definition zero_job : job_record :=
  mk_job 0 JOB_PENDING 0 None None None [] 0 0 0 0 false None.

(** ** Global variables *)

(** The globals the functions of this development only read. *)
Record globals : Type := mk_globals {
  select_node_ptr : list node_record;
  select_node_cnt : Z;
  node_record_table_ptr : list node_record;
  node_record_count : Z;
  select_fast_schedule : Z;
  cr_type : Z;
  part_list : list part_record;
  switch_record_cnt : Z;
  switch_record_table : option (list switch_record)
}.

(** The state they update: the registry [cr_ptr], the job records
    behind [job_list] (a job pointer is an index into it), the state of
    the GRES plugin and the number of clock readings made so far. *)
Record world : Type := mk_world {
  cr_ptr : option cr_record;
  job_list : list job_record;
  gres : gres_heap;
  ticks : nat
}.

(** A dereference of [job_ptr->details] the code does not guard reads a
    zeroed record when the pointer is NULL (undefined in C). *)
Definition details_of (j : job_record) : job_details :=
  match details j with Some d => d | None => zero_details end.

(** ** Registry: the job-id arrays *)

Fixpoint fill_hole (ids : list Z) (job_id : Z) : option (list Z) :=
  match ids with
  | [] => None
  | x :: r =>
      if x =? 0 then Some (job_id :: r)
      else option_map (cons x) (fill_hole r job_id)
  end.

(** The array after [_add_run_job] / [_add_tot_job]: created with
    [RUN_JOB_INCR] slots when NULL, else the first hole filled, else
    extended by [RUN_JOB_INCR] slots.

    The length of the array is kept in [run_job_len] / [tot_job_len],
    fields of [struct cr_record] that [select_linear.h] (not part of
    the sources) declares as [uint16_t]: when the sum
    [len + RUN_JOB_INCR] no longer fits 16 bits the length wraps,
    [xrealloc] cuts the array down to the wrapped length, and the write
    at the old length is past the array (undefined in C): the id is not
    stored. *)
Definition add_job_id (ids : list Z) (job_id : Z) : list Z :=
  match ids with
  | [] => job_id :: repeat 0 (RUN_JOB_INCR - 1)
  | _ =>
      match fill_hole ids job_id with
      | Some ids' => ids'
      | None =>
          let len := Z.of_nat (length ids) + Z.of_nat RUN_JOB_INCR in
          if len <? 2 ^ 16
          then ids ++ job_id :: repeat 0 (RUN_JOB_INCR - 1)
          else firstn (Z.to_nat (to_uint16 len)) ids
      end
  end.

Definition _add_run_job (cr : cr_record) (job_id : Z) : cr_record :=
  mk_cr (nodes cr) (add_job_id (run_job_ids cr) job_id) (tot_job_ids cr).

Definition _add_tot_job (cr : cr_record) (job_id : Z) : cr_record :=
  mk_cr (nodes cr) (run_job_ids cr) (add_job_id (tot_job_ids cr) job_id).

(** The loop of [_ck_run_job] / [_ck_tot_job]: every slot holding
    [job_id] is found, and cleared when [clear_it]. *)
Fixpoint ck_job_id (ids : list Z) (job_id : Z) (clear_it : bool) : bool * list Z :=
  match ids with
  | [] => (false, [])
  | x :: r =>
      let '(rc, r') := ck_job_id r job_id clear_it in
      if negb (x =? job_id) then (rc, x :: r')
      else (true, (if clear_it then 0 else x) :: r')
  end.

Definition _ck_run_job (cr : cr_record) (job_id : Z) (clear_it : bool) : bool * cr_record :=
  let '(rc, ids) := ck_job_id (run_job_ids cr) job_id clear_it in
  (rc, mk_cr (nodes cr) ids (tot_job_ids cr)).

Definition _rem_run_job (cr : cr_record) (job_id : Z) : bool * cr_record :=
  _ck_run_job cr job_id true.

Definition _test_run_job (cr : cr_record) (job_id : Z) : bool :=
  fst (_ck_run_job cr job_id false).

Definition _ck_tot_job (cr : cr_record) (job_id : Z) (clear_it : bool) : bool * cr_record :=
  let '(rc, ids) := ck_job_id (tot_job_ids cr) job_id clear_it in
  (rc, mk_cr (nodes cr) (run_job_ids cr) ids).

Definition _rem_tot_job (cr : cr_record) (job_id : Z) : bool * cr_record :=
  _ck_tot_job cr job_id true.

Definition _test_tot_job (cr : cr_record) (job_id : Z) : bool :=
  fst (_ck_tot_job cr job_id false).

(** The run set and the total set: the job ids stored in the arrays,
    0 marking an empty slot. *)
Definition in_run_set (cr : cr_record) (id : Z) : Prop :=
  id <> 0 /\ In id (run_job_ids cr).

Definition in_tot_set (cr : cr_record) (id : Z) : Prop :=
  id <> 0 /\ In id (tot_job_ids cr).

(** ** CPU counts *)

Definition _get_avail_cpus (G : globals) (job_ptr : job_record) (index : Z) : Z :=
  match details job_ptr with
  | None => 0
  | Some d =>
      let cpus_per_task' := if cpus_per_task d =? 0 then 1 else cpus_per_task d in
      let ntasks_per_node' := ntasks_per_node d in
      let '(ntasks_per_socket', ntasks_per_core', min_sockets, min_cores, min_threads) :=
        match mc_ptr d with
        | Some mc =>
            (ntasks_per_socket mc, ntasks_per_core mc, sockets_per_node mc,
             cores_per_socket mc, threads_per_core mc)
        | None => (0, 0, to_uint16 NO_VAL, to_uint16 NO_VAL, to_uint16 NO_VAL)
        end in
      let node_ptr := zth (select_node_ptr G) index zero_node in
      let '(cpus', sockets', cores', threads') :=
        if negb (select_fast_schedule G =? 0)
        then (cfg_cpus (config_ptr node_ptr), cfg_sockets (config_ptr node_ptr),
              cfg_cores (config_ptr node_ptr), cfg_threads (config_ptr node_ptr))
        else (cpus node_ptr, sockets node_ptr, cores node_ptr, threads node_ptr) in
      to_uint16
        (slurm_get_avail_procs min_sockets min_cores min_threads cpus_per_task'
           ntasks_per_node' ntasks_per_socket' ntasks_per_core'
           cpus' sockets' cores' threads' (job_id job_ptr) index)
  end.

Definition _get_total_cpus (G : globals) (index : Z) : Z :=
  let node_ptr := zth (select_node_ptr G) index zero_node in
  if negb (select_fast_schedule G =? 0)
  then cfg_cpus (config_ptr node_ptr)
  else cpus node_ptr.

(** The CPU count of a node as [_job_count_bitmap], [_add_job_to_nodes]
    and [_rm_job_from_nodes] read it from [node_record_table_ptr]. *)
Definition node_cpu_cnt (G : globals) (i : Z) : Z :=
  let node_ptr := zth (node_record_table_ptr G) i zero_node in
  if negb (select_fast_schedule G =? 0)
  then cfg_cpus (config_ptr node_ptr)
  else cpus node_ptr.

(** The pair [(job_memory_cpu, job_memory_node)] the functions below
    compute from [pn_min_memory] when [cr_type == CR_MEMORY]. *)
Definition job_memory_request (G : globals) (d : option job_details) : Z * Z :=
  match d with
  | None => (0, 0)
  | Some d =>
      if negb (pn_min_memory d =? 0) && (cr_type G =? CR_MEMORY) then
        if negb (Z.land (pn_min_memory d) MEM_PER_CPU =? 0)
        then (Z.land (pn_min_memory d) (Z.lnot MEM_PER_CPU), 0)
        else (0, pn_min_memory d)
      else (0, 0)
  end.

(** The GRES list used for node [i]: the registry's when it has one,
    else the node's own. *)
Definition gres_list_of (G : globals) (cr : cr_record) (i : Z) : option gres_node_t :=
  match cr_gres_list (zth (nodes cr) i zero_node_cr) with
  | Some g => Some g
  | None => node_gres_list (zth (node_record_table_ptr G) i zero_node)
  end.

(** ** Availability filter *)

Inductive select_mode : Type :=
| SELECT_MODE_RUN_NOW
| SELECT_MODE_TEST_ONLY
| SELECT_MODE_WILL_RUN
| SELECT_MODE_OTHER (mode : Z).

Definition is_test_only (mode : select_mode) : bool :=
  match mode with SELECT_MODE_TEST_ONLY => true | _ => false end.

Definition sum_run_jobs (ps : list part_cr_record) : Z :=
  fold_left (fun acc p => acc + run_job_cnt p) ps 0.

Definition sum_tot_jobs (ps : list part_cr_record) : Z :=
  fold_left (fun acc p => acc + tot_job_cnt p) ps 0.

(** The body of the loop of [_job_count_bitmap] for a node [i] whose
    bit is set in [bitmap]: [true] when the bit is set in [jobmap] and
    counted, [false] when it is cleared. *)
Definition node_usable (G : globals) (h : gres_heap) (cr : cr_record)
    (job_ptr : job_record) (run_job_cnt' tot_job_cnt' : Z) (mode : select_mode)
    (i : Z) : bool :=
  let use_total_gres := is_test_only mode in
  let '(job_memory_cpu, job_memory_node) :=
    if negb (is_test_only mode)
    then job_memory_request G (Some (details_of job_ptr))
    else (0, 0) in
  let node_ptr := zth (node_record_table_ptr G) i zero_node in
  let cpu_cnt := node_cpu_cnt G i in
  let node_cr := zth (nodes cr) i zero_node_cr in
  let gres_cpus :=
    to_uint32 (gres_plugin_job_test (job_gres_list job_ptr) (gres_list_of G cr i)
                 use_total_gres (job_id job_ptr) i h) in
  if negb (gres_cpus =? NO_VAL) && (gres_cpus <? cpu_cnt) then false
  else if is_test_only mode then true
  else
    let alloc_mem := alloc_memory node_cr in
    let avail_mem :=
      if negb (select_fast_schedule G =? 0)
      then cfg_real_memory (config_ptr node_ptr)
      else real_memory node_ptr in
    let job_mem :=
      if negb (job_memory_cpu =? 0)
      then to_uint32 (job_memory_cpu * cpu_cnt)
      else job_memory_node in
    if (negb (job_memory_cpu =? 0) || negb (job_memory_node =? 0))
       && (avail_mem <? to_uint32 (alloc_mem + job_mem)) then false
    else if negb (exclusive_cnt node_cr =? 0) then false
    else
      let total_run_jobs := sum_run_jobs (parts node_cr) in
      let total_jobs := sum_tot_jobs (parts node_cr) in
      (total_run_jobs <=? run_job_cnt') && (total_jobs <=? tot_job_cnt').

Definition _job_count_bitmap (G : globals) (h : gres_heap) (cr : cr_record)
    (job_ptr : job_record) (bitmap jobmap : bitstr_t)
    (run_job_cnt' tot_job_cnt' : Z) (mode : select_mode) : Z * bitstr_t :=
  let i_first := bit_ffs bitmap in
  let i_last := if i_first =? -1 then -2 else bit_fls bitmap in
  fold_left
    (fun (st : Z * bitstr_t) (i : Z) =>
       let '(count, jobmap) := st in
       if negb (bit_test bitmap i) then (count, bit_clear jobmap i)
       else if node_usable G h cr job_ptr run_job_cnt' tot_job_cnt' mode i
            then (count + 1, bit_set jobmap i)
            else (count, bit_clear jobmap i))
    (index_range i_first i_last) (0, jobmap).

(** ** Allocator *)

(** The walk of a node's [parts] list: the first record of the job's
    partition is replaced by [f] of it; [None] when the walk ends with
    [part_cr_ptr == NULL].  A record never holds a NULL partition
    pointer, so a job without partition finds none. *)
Fixpoint update_part (ps : list part_cr_record) (p : option nat)
    (f : part_cr_record -> part_cr_record) : option (list part_cr_record) :=
  match ps with
  | [] => None
  | x :: r =>
      if match p with Some q => Nat.eqb (cr_part_ptr x) q | None => false end
      then Some (f x :: r)
      else option_map (cons x) (update_part r p f)
  end.

(** [job_resrcs_ptr->node_bitmap], read without a NULL test. *)
Definition resrcs_bitmap (r : job_resources_t) : bitstr_t :=
  match res_node_bitmap r with Some b => b | None => [] end.

(** State of the loops over the nodes of a job. *)
Record nodes_loop : Type := mk_loop {
  lp_nodes : list node_cr_record;
  lp_gres : gres_heap;
  lp_offset : Z;
  lp_missing : bool;
  lp_rc : errno
}.

Definition add_part_counts (alloc_all : bool) (p : part_cr_record) : part_cr_record :=
  mk_part_cr (cr_part_ptr p)
    (if alloc_all then cnt_incr (run_job_cnt p) else run_job_cnt p)
    (cnt_incr (tot_job_cnt p)).

Definition add_job_to_node (G : globals) (cr : cr_record) (job_ptr : job_record)
    (job_resrcs_ptr : job_resources_t) (alloc_all : bool)
    (job_memory_cpu job_memory_node node_cnt' : Z) (exclusive : bool)
    (st : nodes_loop) (i : Z) : nodes_loop :=
  if negb (bit_test (resrcs_bitmap job_resrcs_ptr) i) then st
  else
    let node_offset := lp_offset st + 1 in
    if negb (bit_test (node_bitmap job_ptr) i)
    then mk_loop (lp_nodes st) (lp_gres st) node_offset (lp_missing st) (lp_rc st)
    else
      let cpu_cnt := to_uint16 (node_cpu_cnt G i) in
      let n := zth (lp_nodes st) i zero_node_cr in
      let mem :=
        if negb (job_memory_cpu =? 0)
        then to_uint32 (alloc_memory n + to_uint32 (job_memory_cpu * cpu_cnt))
        else to_uint32 (alloc_memory n + job_memory_node) in
      let h :=
        if alloc_all
        then gres_plugin_job_alloc (job_gres_list job_ptr) (gres_list_of G cr i)
               node_cnt' node_offset cpu_cnt (job_id job_ptr) i (lp_gres st)
        else lp_gres st in
      let excl := if exclusive then cnt_incr (exclusive_cnt n) else exclusive_cnt n in
      match update_part (parts n) (part_ptr job_ptr) (add_part_counts alloc_all) with
      | Some ps =>
          mk_loop (zset (lp_nodes st) i (mk_node_cr ps mem excl (cr_gres_list n)))
            h node_offset (lp_missing st) (lp_rc st)
      | None =>
          mk_loop (zset (lp_nodes st) i (mk_node_cr (parts n) mem excl (cr_gres_list n)))
            h node_offset true SLURM_ERROR
      end.

Definition set_part_nodes_missing (j : job_record) (b : bool) : job_record :=
  mk_job (job_id j) (job_state j) (priority j) (part_ptr j) (details j)
    (job_resrcs j) (node_bitmap j) (node_cnt j) (total_cpus j) (start_time j)
    (end_time j) b (job_gres_list j).

(** [_add_job_to_nodes], for a registry that is not NULL.  The result
    is the code, the registry, the job record and the GRES state. *)
Definition _add_job_to_nodes (G : globals) (cr : cr_record) (job_ptr : job_record)
    (alloc_all : bool) (h : gres_heap)
    : errno * cr_record * job_record * gres_heap :=
  let '(job_memory_cpu, job_memory_node) :=
    if alloc_all then job_memory_request G (details job_ptr) else (0, 0) in
  match job_resrcs job_ptr with
  | None => (SLURM_ERROR, cr, job_ptr, h)
  | Some job_resrcs_ptr =>
      let exclusive := shared (details_of job_ptr) =? 0 in
      let cr1 := if alloc_all then _add_run_job cr (job_id job_ptr) else cr in
      let cr2 := _add_tot_job cr1 (job_id job_ptr) in
      let i_first := bit_ffs (resrcs_bitmap job_resrcs_ptr) in
      let i_last :=
        if i_first =? -1 then -2 else bit_fls (resrcs_bitmap job_resrcs_ptr) in
      let node_cnt' := bit_set_count (resrcs_bitmap job_resrcs_ptr) in
      let st :=
        fold_left
          (add_job_to_node G cr2 job_ptr job_resrcs_ptr alloc_all
             job_memory_cpu job_memory_node node_cnt' exclusive)
          (index_range i_first i_last)
          (mk_loop (nodes cr2) h (-1) false SLURM_SUCCESS) in
      (lp_rc st,
       mk_cr (lp_nodes st) (run_job_ids cr2) (tot_job_ids cr2),
       (if lp_missing st then set_part_nodes_missing job_ptr true else job_ptr),
       lp_gres st)
  end.

Definition rm_part_counts (is_job_running remove_all : bool) (p : part_cr_record)
    : part_cr_record :=
  let run1 :=
    if negb is_job_running then run_job_cnt p
    else if 0 <? run_job_cnt p then run_job_cnt p - 1
    else run_job_cnt p in
  if remove_all then
    let tot1 := if 0 <? tot_job_cnt p then tot_job_cnt p - 1 else tot_job_cnt p in
    let run2 := if (tot1 =? 0) && negb (run1 =? 0) then 0 else run1 in
    mk_part_cr (cr_part_ptr p) run2 tot1
  else mk_part_cr (cr_part_ptr p) run1 (tot_job_cnt p).

Definition rm_job_from_node (G : globals) (cr : cr_record) (job_ptr : job_record)
    (job_resrcs_ptr : job_resources_t) (remove_all : bool)
    (job_memory_cpu job_memory_node : Z) (exclusive is_job_running : bool)
    (st : nodes_loop) (i : Z) : nodes_loop :=
  if negb (bit_test (resrcs_bitmap job_resrcs_ptr) i) then st
  else
    let node_offset := lp_offset st + 1 in
    if negb (bit_test (node_bitmap job_ptr) i)
    then mk_loop (lp_nodes st) (lp_gres st) node_offset (lp_missing st) (lp_rc st)
    else
      let cpu_cnt := to_uint16 (node_cpu_cnt G i) in
      let n := zth (lp_nodes st) i zero_node_cr in
      let job_memory :=
        if negb (job_memory_cpu =? 0)
        then to_uint32 (job_memory_cpu * cpu_cnt)
        else job_memory_node in
      let mem :=
        if job_memory <=? alloc_memory n then alloc_memory n - job_memory else 0 in
      let h :=
        if remove_all
        then gres_plugin_job_dealloc (job_gres_list job_ptr) (gres_list_of G cr i)
               node_offset (job_id job_ptr) i (lp_gres st)
        else lp_gres st in
      let excl :=
        if exclusive
        then (if negb (exclusive_cnt n =? 0) then exclusive_cnt n - 1
              else exclusive_cnt n)
        else exclusive_cnt n in
      match update_part (parts n) (part_ptr job_ptr)
              (rm_part_counts is_job_running remove_all) with
      | Some ps =>
          mk_loop (zset (lp_nodes st) i (mk_node_cr ps mem excl (cr_gres_list n)))
            h node_offset (lp_missing st) (lp_rc st)
      | None =>
          mk_loop (zset (lp_nodes st) i (mk_node_cr (parts n) mem excl (cr_gres_list n)))
            h node_offset true SLURM_ERROR
      end.

(** [_rm_job_from_nodes], for a registry that is not NULL. *)
Definition _rm_job_from_nodes (G : globals) (cr : cr_record) (job_ptr : job_record)
    (remove_all : bool) (h : gres_heap)
    : errno * cr_record * job_record * gres_heap :=
  let '(found, cr1) := _rem_tot_job cr (job_id job_ptr) in
  if negb found then (SLURM_ERROR, cr1, job_ptr, h)
  else
    let '(job_memory_cpu, job_memory_node) :=
      if remove_all then job_memory_request G (details job_ptr) else (0, 0) in
    match job_resrcs job_ptr with
    | None => (SLURM_ERROR, cr1, job_ptr, h)
    | Some job_resrcs_ptr =>
        let '(is_job_running, cr2) := _rem_run_job cr1 (job_id job_ptr) in
        let exclusive := shared (details_of job_ptr) =? 0 in
        let i_first := bit_ffs (resrcs_bitmap job_resrcs_ptr) in
        let i_last :=
          if i_first =? -1 then -2 else bit_fls (resrcs_bitmap job_resrcs_ptr) in
        let st :=
          fold_left
            (rm_job_from_node G cr2 job_ptr job_resrcs_ptr remove_all
               job_memory_cpu job_memory_node exclusive is_job_running)
            (index_range i_first i_last)
            (mk_loop (nodes cr2) h (-1) false SLURM_SUCCESS) in
        (lp_rc st,
         mk_cr (lp_nodes st) (run_job_ids cr2) (tot_job_ids cr2),
         (if lp_missing st then set_part_nodes_missing job_ptr true else job_ptr),
         lp_gres st)
    end.

(** ** Clone, free and build of the registry *)

(** [_dup_cr]: each [part_cr_record] is pushed on the head of the new
    list, which reverses the list. *)
Definition _dup_cr (G : globals) (cr : cr_record) (h : gres_heap)
    : cr_record * gres_heap :=
  let '(new_nodes, h') :=
    fold_left
      (fun (st : list node_cr_record * gres_heap) (i : Z) =>
         let '(acc, h) := st in
         let n := zth (nodes cr) i zero_node_cr in
         let '(g, h1) := gres_plugin_node_state_dup (gres_list_of G cr i) h in
         (acc ++ [mk_node_cr (rev (parts n)) (alloc_memory n) (exclusive_cnt n) g], h1))
      (index_range 0 (select_node_cnt G - 1)) ([], h) in
  (mk_cr new_nodes (run_job_ids cr) (tot_job_ids cr), h').

Definition _free_cr (G : globals) (cr : option cr_record) (h : gres_heap) : gres_heap :=
  match cr with
  | None => h
  | Some cr =>
      fold_left
        (fun (h : gres_heap) (i : Z) =>
           match cr_gres_list (zth (nodes cr) i zero_node_cr) with
           | Some g => list_destroy g h
           | None => h
           end)
        (index_range 0 (select_node_cnt G - 1)) h
  end.

(** The partition records of [_init_node_cr]: a record of partition
    [p] is pushed on the list of every node of its bitmap. *)
Definition init_part_records (G : globals) (p : nat) (part : part_record)
    (ns : list node_cr_record) : list node_cr_record :=
  match part_node_bitmap part with
  | None => ns
  | Some bm =>
      fold_left
        (fun (ns : list node_cr_record) (i : Z) =>
           if negb (bit_test bm i) then ns
           else
             let n := zth ns i zero_node_cr in
             zset ns i (mk_node_cr (mk_part_cr p 0 0 :: parts n) (alloc_memory n)
                          (exclusive_cnt n) (cr_gres_list n)))
        (index_range 0 (select_node_cnt G - 1)) ns
  end.

Fixpoint init_parts (G : globals) (p : nat) (ps : list part_record)
    (ns : list node_cr_record) : list node_cr_record :=
  match ps with
  | [] => ns
  | part :: r => init_parts G (S p) r (init_part_records G p part ns)
  end.

Definition job_is_run (j : job_record) : bool :=
  IS_JOB_RUNNING j || (IS_JOB_SUSPENDED j && negb (priority j =? 0)).

Definition init_part_counts (run : bool) (p : part_cr_record) : part_cr_record :=
  mk_part_cr (cr_part_ptr p)
    (if run then cnt_incr (run_job_cnt p) else run_job_cnt p)
    (cnt_incr (tot_job_cnt p)).

Definition init_job_on_node (G : globals) (job_ptr : job_record)
    (job_resrcs_ptr : job_resources_t) (bm : bitstr_t)
    (job_memory_cpu job_memory_node : Z) (exclusive : bool)
    (st : nodes_loop) (i : Z) : nodes_loop :=
  if negb (bit_test bm i) then st
  else
    let node_offset := lp_offset st + 1 in
    let node_ptr := zth (node_record_table_ptr G) i zero_node in
    let n := zth (lp_nodes st) i zero_node_cr in
    let excl := if exclusive then cnt_incr (exclusive_cnt n) else exclusive_cnt n in
    let mem :=
      if job_memory_cpu =? 0 then to_uint32 (alloc_memory n + job_memory_node)
      else if negb (select_fast_schedule G =? 0)
      then to_uint32 (alloc_memory n
                      + to_uint32 (job_memory_cpu * cfg_cpus (config_ptr node_ptr)))
      else to_uint32 (alloc_memory n + to_uint32 (job_memory_cpu * cpus node_ptr)) in
    let h :=
      if bit_test (node_bitmap job_ptr) i
      then gres_plugin_job_alloc (job_gres_list job_ptr) (node_gres_list node_ptr)
             (nhosts job_resrcs_ptr) node_offset
             (zth (res_cpus job_resrcs_ptr) node_offset 0) (job_id job_ptr) i
             (lp_gres st)
      else lp_gres st in
    match update_part (parts n) (part_ptr job_ptr)
            (init_part_counts (job_is_run job_ptr)) with
    | Some ps =>
        mk_loop (zset (lp_nodes st) i (mk_node_cr ps mem excl (cr_gres_list n)))
          h node_offset (lp_missing st) (lp_rc st)
    | None =>
        mk_loop (zset (lp_nodes st) i (mk_node_cr (parts n) mem excl (cr_gres_list n)))
          h node_offset true (lp_rc st)
    end.

(** One turn of the loop of [_init_node_cr] over [job_list]. *)
Definition init_job (G : globals) (st : cr_record * gres_heap) (job_ptr : job_record)
    : cr_record * gres_heap * job_record :=
  let '(cr, h) := st in
  if negb (IS_JOB_RUNNING job_ptr) && negb (IS_JOB_SUSPENDED job_ptr)
  then (cr, h, job_ptr)
  else
    match job_resrcs job_ptr with
    | None => (cr, h, job_ptr)
    | Some job_resrcs_ptr =>
        let cr1 := if job_is_run job_ptr then _add_run_job cr (job_id job_ptr) else cr in
        let cr2 := _add_tot_job cr1 (job_id job_ptr) in
        let '(job_memory_cpu, job_memory_node) :=
          job_memory_request G (details job_ptr) in
        match res_node_bitmap job_resrcs_ptr with
        | None => (cr2, h, job_ptr)
        | Some bm =>
            let exclusive := shared (details_of job_ptr) =? 0 in
            let i_first := bit_ffs bm in
            let i_last := if i_first =? -1 then -2 else bit_fls bm in
            let st :=
              fold_left
                (init_job_on_node G job_ptr job_resrcs_ptr bm
                   job_memory_cpu job_memory_node exclusive)
                (index_range i_first i_last)
                (mk_loop (nodes cr2) h (-1) false SLURM_SUCCESS) in
            (mk_cr (lp_nodes st) (run_job_ids cr2) (tot_job_ids cr2), lp_gres st,
             if lp_missing st then set_part_nodes_missing job_ptr true else job_ptr)
        end
    end.

Fixpoint init_jobs (G : globals) (st : cr_record * gres_heap) (jobs : list job_record)
    : cr_record * gres_heap * list job_record :=
  match jobs with
  | [] => (st, [])
  | j :: r =>
      let '(cr, h, j') := init_job G st j in
      let '(st', r') := init_jobs G (cr, h) r in
      (st', j' :: r')
  end.

Definition _init_node_cr (G : globals) (w : world) : world :=
  match cr_ptr w with
  | Some _ => w
  | None =>
      let ns0 := repeat zero_node_cr (Z.to_nat (select_node_cnt G)) in
      let ns := init_parts G 0 (part_list G) ns0 in
      let h :=
        fold_left
          (fun (h : gres_heap) (i : Z) =>
             gres_plugin_node_state_dealloc_all
               (node_gres_list (zth (node_record_table_ptr G) i zero_node)) h)
          (index_range 0 (node_record_count G - 1)) (gres w) in
      let '(cr, h', jobs) := init_jobs G (mk_cr ns [] [], h) (job_list w) in
      mk_world (Some cr) jobs h' (ticks w)
  end.

(** ** Flat best-fit selector *)

(** What the scheduler answers for a job and what the topology-aware
    selector computes.  For the entry points [job_test_topo_result]
    stands for the code of [_job_test_topo], the bitmap it leaves and
    the [total_cpus] it has summed when it reaches its label [fini];
    the function itself is embedded further down, as
    [job_test_topo_code]. *)
Inductive preempt_modes : Type :=
| PREEMPT_MODE_OFF
| PREEMPT_MODE_SUSPEND
| PREEMPT_MODE_REQUEUE
| PREEMPT_MODE_CHECKPOINT
| PREEMPT_MODE_CANCEL.

Class Slurmctld : Type := {
  slurm_job_preempt_mode : job_record -> preempt_modes;
  job_test_topo_result :
    globals -> job_record -> bitstr_t -> Z -> Z -> Z -> errno * bitstr_t * Z
}.

Context {CT : Slurmctld}.

Definition set_total_cpus (j : job_record) (n : Z) : job_record :=
  mk_job (job_id j) (job_state j) (priority j) (part_ptr j) (details j)
    (job_resrcs j) (node_bitmap j) (node_cnt j) n (start_time j)
    (end_time j) (part_nodes_missing j) (job_gres_list j).

Definition set_start_time (j : job_record) (t : Z) : job_record :=
  mk_job (job_id j) (job_state j) (priority j) (part_ptr j) (details j)
    (job_resrcs j) (node_bitmap j) (node_cnt j) (total_cpus j) t
    (end_time j) (part_nodes_missing j) (job_gres_list j).

Definition set_job_resrcs (j : job_record) (r : option job_resources_t) : job_record :=
  mk_job (job_id j) (job_state j) (priority j) (part_ptr j) (details j)
    r (node_bitmap j) (node_cnt j) (total_cpus j) (start_time j)
    (end_time j) (part_nodes_missing j) (job_gres_list j).

Definition set_pn_min_memory (j : job_record) (m : Z) : job_record :=
  mk_job (job_id j) (job_state j) (priority j) (part_ptr j)
    (match details j with
     | Some d =>
         Some (mk_details (min_cpus d) (req_node_bitmap d) (exc_node_bitmap d)
                 (contiguous d) (shared d) m (cpus_per_task d) (ntasks_per_node d)
                 (mc_ptr d))
     | None => None
     end)
    (job_resrcs j) (node_bitmap j) (node_cnt j) (total_cpus j) (start_time j)
    (end_time j) (part_nodes_missing j) (job_gres_list j).

Definition _job_test_topo (G : globals) (job_ptr : job_record) (bitmap : bitstr_t)
    (min_nodes max_nodes req_nodes : Z) : errno * bitstr_t * job_record :=
  let '(rc, bitmap', total_cpus') :=
    job_test_topo_result G job_ptr bitmap min_nodes max_nodes req_nodes in
  (rc, bitmap',
   if errno_eqb rc SLURM_SUCCESS
   then set_total_cpus job_ptr (to_uint32 total_cpus') else job_ptr).

(** One entry of the arrays [consec_cpus], [consec_nodes],
    [consec_start], [consec_end] and [consec_req]. *)
Record consec : Type := mk_consec {
  consec_cpus : Z;
  consec_nodes : Z;
  consec_start : Z;
  consec_end : Z;
  consec_req : Z
}.

Definition new_consec : consec := mk_consec 0 0 0 0 (-1).

(** The bitmap and the counters of [_job_test]. *)
Record sel_state : Type := mk_sel {
  sel_bitmap : bitstr_t;
  sel_rem_cpus : Z;
  sel_rem_nodes : Z;
  sel_max_nodes : Z;
  sel_alloc_cpus : Z;
  sel_total_cpus : Z
}.

(** A node is taken: the statements shared by the required nodes of the
    table loop and by the three commit loops. *)
Definition count_node (G : globals) (job_ptr : job_record) (s : sel_state)
    (bitmap : bitstr_t) (i : Z) : sel_state :=
  let avail_cpus := _get_avail_cpus G job_ptr i in
  mk_sel bitmap (sel_rem_cpus s - avail_cpus) (sel_rem_nodes s - 1)
    (sel_max_nodes s - 1) (sel_alloc_cpus s + avail_cpus)
    (sel_total_cpus s + _get_total_cpus G i).

(** The table loop: [runs] holds the entries below [consec_index],
    [cur] the entry at [consec_index]. *)
Definition build_step (G : globals) (job_ptr : job_record)
    (st : sel_state * list consec * consec) (index : Z)
    : sel_state * list consec * consec :=
  let '(s, runs, cur) := st in
  if bit_test (sel_bitmap s) index then
    let cur1 :=
      if consec_nodes cur =? 0
      then mk_consec (consec_cpus cur) (consec_nodes cur) index (consec_end cur)
             (consec_req cur)
      else cur in
    let avail_cpus := _get_avail_cpus G job_ptr index in
    if match req_node_bitmap (details_of job_ptr) with
       | Some rb => (0 <? sel_max_nodes s) && bit_test rb index
       | None => false
       end
    then
      let cur2 :=
        if consec_req cur1 =? -1
        then mk_consec (consec_cpus cur1) (consec_nodes cur1) (consec_start cur1)
               (consec_end cur1) index
        else cur1 in
      (count_node G job_ptr s (sel_bitmap s) index, runs, cur2)
    else
      (mk_sel (bit_clear (sel_bitmap s) index) (sel_rem_cpus s) (sel_rem_nodes s)
         (sel_max_nodes s) (sel_alloc_cpus s) (sel_total_cpus s),
       runs,
       mk_consec (consec_cpus cur1 + avail_cpus) (consec_nodes cur1 + 1)
         (consec_start cur1) (consec_end cur1) (consec_req cur1))
  else if consec_nodes cur =? 0 then
    (s, runs,
     mk_consec (consec_cpus cur) (consec_nodes cur) (consec_start cur)
       (consec_end cur) (-1))
  else
    (s,
     runs ++ [mk_consec (consec_cpus cur) (consec_nodes cur) (consec_start cur)
                (index - 1) (consec_req cur)],
     new_consec).

Definition build_table (G : globals) (job_ptr : job_record) (s : sel_state)
    : sel_state * list consec :=
  let '(s', runs, cur) :=
    fold_left (build_step G job_ptr) (index_range 0 (select_node_cnt G - 1))
      (s, [], new_consec) in
  if negb (consec_nodes cur =? 0)
  then (s', runs ++ [mk_consec (consec_cpus cur) (consec_nodes cur)
                       (consec_start cur) (select_node_cnt G - 1) (consec_req cur)])
  else (s', runs).

(** The best fit found so far by the scan of the table. *)
Record best_fit : Type := mk_bf {
  best_fit_cpus : Z;
  best_fit_nodes : Z;
  best_fit_location : Z;
  best_fit_req : Z;
  best_fit_sufficient : bool
}.

(** The scan [for (i = 0; i < consec_index; i++)]; [contig_req] is
    [contiguous && req_node_bitmap]. *)
Fixpoint best_fit_scan (contig_req : bool) (rem_cpus rem_nodes min_nodes req_nodes : Z)
    (runs : list consec) (i : Z) (bf : best_fit) : best_fit :=
  match runs with
  | [] => bf
  | r :: rest =>
      if consec_nodes r =? 0
      then best_fit_scan contig_req rem_cpus rem_nodes min_nodes req_nodes rest (i + 1) bf
      else if contig_req && (consec_req r =? -1)
      then best_fit_scan contig_req rem_cpus rem_nodes min_nodes req_nodes rest (i + 1) bf
      else
        let sufficient :=
          (rem_cpus <=? consec_cpus r)
          && _enough_nodes (consec_nodes r) rem_nodes min_nodes req_nodes in
        let bf1 :=
          if (best_fit_nodes bf =? 0)
             || ((best_fit_req bf =? -1) && negb (consec_req r =? -1))
             || (sufficient && negb (best_fit_sufficient bf))
             || (sufficient && (consec_cpus r <? best_fit_cpus bf))
             || (negb sufficient && (best_fit_cpus bf <? consec_cpus r))
          then mk_bf (consec_cpus r) (consec_nodes r) i (consec_req r) sufficient
          else bf in
        if contig_req && existsb (fun r' => negb (consec_req r' =? -1)) rest
        then mk_bf (best_fit_cpus bf1) 0 (best_fit_location bf1) (best_fit_req bf1)
               (best_fit_sufficient bf1)
        else best_fit_scan contig_req rem_cpus rem_nodes min_nodes req_nodes rest
               (i + 1) bf1
  end.

Definition sel_done (s : sel_state) : bool :=
  (sel_max_nodes s <=? 0) || ((sel_rem_nodes s <=? 0) && (sel_rem_cpus s <=? 0)).

(** A commit loop over the indices [idxs], in their order. *)
Fixpoint commit_scan (G : globals) (job_ptr : job_record) (idxs : list Z)
    (s : sel_state) : sel_state :=
  match idxs with
  | [] => s
  | i :: rest =>
      if sel_done s then s
      else if bit_test (sel_bitmap s) i then commit_scan G job_ptr rest s
      else commit_scan G job_ptr rest
             (count_node G job_ptr s (bit_set (sel_bitmap s) i) i)
  end.

(** The commit of the chosen run: up from the required node to the end
    of the run, then down from the node below it to the start; without
    required node, from start to end. *)
Definition commit_run (G : globals) (job_ptr : job_record) (bf : best_fit)
    (run : consec) (s : sel_state) : sel_state :=
  if negb (best_fit_req bf =? -1) then
    let s1 := commit_scan G job_ptr (index_range (best_fit_req bf) (consec_end run)) s in
    commit_scan G job_ptr (rev (index_range (consec_start run) (best_fit_req bf - 1))) s1
  else commit_scan G job_ptr (index_range (consec_start run) (consec_end run)) s.

(** The loop [while (consec_index && (max_nodes > 0))]; [None] when
    [fuel] turns are not enough. *)
Fixpoint select_loop (fuel : nat) (G : globals) (job_ptr : job_record)
    (min_nodes req_nodes : Z) (runs : list consec) (location : Z) (s : sel_state)
    : option (errno * sel_state) :=
  match fuel with
  | O => None
  | S fuel' =>
      if match runs with [] => true | _ => false end || negb (0 <? sel_max_nodes s)
      then Some (EINVAL, s)
      else
        let d := details_of job_ptr in
        let contig := negb (contiguous d =? 0) in
        let contig_req :=
          contig && match req_node_bitmap d with Some _ => true | None => false end in
        let bf :=
          best_fit_scan contig_req (sel_rem_cpus s) (sel_rem_nodes s) min_nodes
            req_nodes runs 0 (mk_bf 0 0 location (-1) false) in
        if best_fit_nodes bf =? 0 then Some (EINVAL, s)
        else if contig
                && ((best_fit_cpus bf <? sel_rem_cpus s)
                    || negb (_enough_nodes (best_fit_nodes bf) (sel_rem_nodes s)
                               min_nodes req_nodes))
        then Some (EINVAL, s)
        else
          let run := zth runs (best_fit_location bf) new_consec in
          let s' := commit_run G job_ptr bf run s in
          if contig || ((sel_rem_nodes s' <=? 0) && (sel_rem_cpus s' <=? 0))
          then Some (SLURM_SUCCESS, s')
          else
            select_loop fuel' G job_ptr min_nodes req_nodes
              (zset runs (best_fit_location bf)
                 (mk_consec 0 0 (consec_start run) (consec_end run) (consec_req run)))
              (best_fit_location bf) s'
  end.

(** The flat selector after its pre-checks, with the fuel the loop is
    given: one turn more than the table has entries. *)
Definition job_test_flat (G : globals) (job_ptr : job_record) (bitmap : bitstr_t)
    (min_nodes max_nodes req_nodes : Z) : option (errno * bitstr_t * job_record) :=
  let rem_cpus := to_int (min_cpus (details_of job_ptr)) in
  let rem_nodes :=
    if min_nodes <? req_nodes then to_int req_nodes else to_int min_nodes in
  let '(s, runs) :=
    build_table G job_ptr (mk_sel bitmap rem_cpus rem_nodes max_nodes 0 0) in
  match select_loop (S (length runs)) G job_ptr min_nodes req_nodes runs 0 s with
  | None => None
  | Some (error_code, s') =>
      let error_code' :=
        if negb (errno_eqb error_code SLURM_SUCCESS)
           && (sel_rem_cpus s' <=? 0)
           && _enough_nodes 0 (sel_rem_nodes s') min_nodes req_nodes
        then SLURM_SUCCESS else error_code in
      Some (error_code', sel_bitmap s',
            if errno_eqb error_code' SLURM_SUCCESS
            then set_total_cpus job_ptr (to_uint32 (sel_total_cpus s'))
            else job_ptr)
  end.

(** [_job_test].  The last case is never taken: the loop ends within
    its fuel (lemma [job_test_flat_returns]). *)
Definition _job_test (G : globals) (job_ptr : job_record) (bitmap : bitstr_t)
    (min_nodes max_nodes req_nodes : Z) : errno * bitstr_t * job_record :=
  if bit_set_count bitmap <? min_nodes then (EINVAL, bitmap, job_ptr)
  else if match req_node_bitmap (details_of job_ptr) with
          | Some rb => negb (bit_super_set rb bitmap)
          | None => false
          end
  then (EINVAL, bitmap, job_ptr)
  else if negb (switch_record_cnt G =? 0)
          && match switch_record_table G with Some _ => true | None => false end
  then _job_test_topo G job_ptr bitmap min_nodes max_nodes req_nodes
  else
    match job_test_flat G job_ptr bitmap min_nodes max_nodes req_nodes with
    | Some r => r
    | None => (EINVAL, bitmap, job_ptr)
    end.

(** ** Planner *)

Fixpoint _find_job_mate_scan (job_ptr : job_record) (bitmap : bitstr_t)
    (req_nodes : Z) (jobs : list job_record) : option (bitstr_t * Z) :=
  match jobs with
  | [] => None
  | job_scan_ptr :: rest =>
      if negb (IS_JOB_RUNNING job_scan_ptr)
         || negb (node_cnt job_scan_ptr =? req_nodes)
         || (total_cpus job_scan_ptr <? min_cpus (details_of job_ptr))
         || negb (bit_super_set (node_bitmap job_scan_ptr) bitmap)
      then _find_job_mate_scan job_ptr bitmap req_nodes rest
      else if match details job_scan_ptr, details job_ptr with
              | Some ds, Some d => negb (contiguous ds =? contiguous d)
              | _, _ => false
              end
      then _find_job_mate_scan job_ptr bitmap req_nodes rest
      else if match req_node_bitmap (details_of job_ptr) with
              | Some rb => negb (bit_super_set rb (node_bitmap job_scan_ptr))
              | None => false
              end
      then _find_job_mate_scan job_ptr bitmap req_nodes rest
      else if match exc_node_bitmap (details_of job_ptr) with
              | Some eb => negb (bit_overlap eb (node_bitmap job_scan_ptr) =? 0)
              | None => false
              end
      then _find_job_mate_scan job_ptr bitmap req_nodes rest
      else Some (bit_and bitmap (node_bitmap job_scan_ptr), total_cpus job_scan_ptr)
  end.

Definition _find_job_mate (jobs : list job_record) (job_ptr : job_record)
    (bitmap : bitstr_t) (min_nodes max_nodes req_nodes : Z)
    : errno * bitstr_t * job_record :=
  match _find_job_mate_scan job_ptr bitmap req_nodes jobs with
  | Some (bitmap', cpus') => (SLURM_SUCCESS, bitmap', set_total_cpus job_ptr cpus')
  | None => (EINVAL, bitmap, job_ptr)
  end.

(** The run-length encoding of the CPU counts kept in
    [cpu_array_value] and [cpu_array_reps]. *)
Fixpoint cpu_array_add (rle : list (Z * Z)) (node_cpus : Z) : list (Z * Z) :=
  match rle with
  | [] => [(node_cpus, 1)]
  | [(v, n)] => if v =? node_cpus then [(v, n + 1)] else [(v, n); (node_cpus, 1)]
  | x :: r => x :: cpu_array_add r node_cpus
  end.

Definition pad (l : list Z) (n : nat) : list Z := l ++ repeat 0 (n - length l).

(** [_build_select_struct]: the job's new [job_resrcs]. *)
Definition _build_select_struct (G : globals) (job_ptr : job_record)
    (bitmap : bitstr_t) : job_record :=
  let '(job_memory_cpu, job_memory_node) :=
    job_memory_request G (Some (details_of job_ptr)) in
  let node_cnt' := Z.to_nat (bit_set_count bitmap) in
  let first_bit := bit_ffs bitmap in
  let last_bit := if bit_fls bitmap =? -1 then -2 else bit_fls bitmap in
  let '(cpus', mem', rle) :=
    fold_left
      (fun (st : list Z * list Z * list (Z * Z)) (i : Z) =>
         let '(cpus', mem', rle) := st in
         if negb (bit_test bitmap i) then st
         else
           let node_cpus := _get_total_cpus G i in
           (cpus' ++ [node_cpus],
            mem' ++ [if negb (job_memory_node =? 0) then job_memory_node
                     else if negb (job_memory_cpu =? 0)
                     then to_uint32 (job_memory_cpu * node_cpus) else 0],
            cpu_array_add rle node_cpus))
      (index_range first_bit last_bit) ([], [], []) in
  set_job_resrcs job_ptr
    (Some (mk_resrcs (Some (bit_copy bitmap)) (total_cpus job_ptr)
             (Z.of_nat node_cnt') cpus' (repeat 0 node_cnt') mem' (repeat 0 node_cnt')
             (pad (map fst rle) node_cnt') (pad (map snd rle) node_cnt')
             (Z.of_nat (length rle)))).

(** A call either returns, with a result and the state it leaves, or
    ends the process.

    Modelled from the spec: [fatal] of [src/common/log.c] is not part of
    the sources; it aborts the process.  A failed [xassert] does the
    same. *)
Inductive outcome (A : Type) : Type :=
| Returns (a : A) (w : world)
| Aborts.

Arguments Returns {A} a w.
Arguments Aborts {A}.

Definition job_at (w : world) (job_ptr : nat) : job_record :=
  nth job_ptr (job_list w) zero_job.

Definition set_job (w : world) (job_ptr : nat) (j : job_record) : world :=
  mk_world (cr_ptr w) (list_set (job_list w) job_ptr j) (gres w) (ticks w).

Definition set_gres (w : world) (h : gres_heap) : world :=
  mk_world (cr_ptr w) (job_list w) h (ticks w).

Definition set_cr_ptr (w : world) (cr : option cr_record) : world :=
  mk_world cr (job_list w) (gres w) (ticks w).

(** [time(NULL)]: the next reading of the clock. *)
Definition read_time (w : world) : Z * world :=
  (time (ticks w), mk_world (cr_ptr w) (job_list w) (gres w) (S (ticks w))).

(** [_job_test] on the job behind a pointer. *)
Definition job_test_at (G : globals) (w : world) (job_ptr : nat) (bitmap : bitstr_t)
    (min_nodes max_nodes req_nodes : Z) : errno * bitstr_t * world :=
  let '(rc, bitmap', j) :=
    _job_test G (job_at w job_ptr) bitmap min_nodes max_nodes req_nodes in
  (rc, bitmap', set_job w job_ptr j).

(** [_rm_job_from_nodes] on a scratch registry and the job behind a
    pointer. *)
Definition rm_job_at (G : globals) (exp_cr : cr_record) (w : world) (tmp_job_ptr : nat)
    (remove_all : bool) : cr_record * world :=
  let '(_, exp_cr', j, h) :=
    _rm_job_from_nodes G exp_cr (job_at w tmp_job_ptr) remove_all (gres w) in
  (exp_cr', set_gres (set_job w tmp_job_ptr j) h).

Definition _is_preemptable (job_ptr : nat) (preemptee_candidates : option (list nat))
    : bool :=
  match preemptee_candidates with
  | None => false
  | Some l => existsb (Nat.eqb job_ptr) l
  end.

Definition preempt_remove_all (j : job_record) : bool :=
  match slurm_job_preempt_mode j with
  | PREEMPT_MODE_REQUEUE | PREEMPT_MODE_CHECKPOINT | PREEMPT_MODE_CANCEL => true
  | _ => false
  end.

(** The caller's [List *preemptee_job_list]: [None] for a NULL pointer,
    [Some None] for a pointer to a NULL list. *)
Definition preemptee_out : Type := option (option (list nat)).

(** The list of the preemptees whose nodes overlap the bitmap, appended
    to the caller's list. *)
Definition build_preemptee_list (w : world) (bitmap : bitstr_t) (rc : errno)
    (preemptee_candidates : option (list nat)) (preemptee_job_list : preemptee_out)
    : preemptee_out :=
  match preemptee_job_list, preemptee_candidates with
  | Some l, Some cands =>
      if errno_eqb rc SLURM_SUCCESS then
        Some (Some ((match l with Some l' => l' | None => [] end)
                    ++ filter (fun k =>
                                 negb (bit_overlap bitmap (node_bitmap (job_at w k)) =? 0))
                         cands))
      else preemptee_job_list
  | _, _ => preemptee_job_list
  end.

(** [_test_only], the registry being the global [cr_ptr]. *)
Definition _test_only (G : globals) (w : world) (job_ptr : nat) (bitmap : bitstr_t)
    (min_nodes max_nodes req_nodes max_share : Z) : outcome (errno * bitstr_t) :=
  match cr_ptr w with
  | None => Aborts
  | Some cr =>
      let orig_map := bit_copy bitmap in
      let '(i, bitmap1) :=
        _job_count_bitmap G (gres w) cr (job_at w job_ptr) orig_map bitmap
          NO_SHARE_LIMIT NO_SHARE_LIMIT SELECT_MODE_TEST_ONLY in
      if min_nodes <=? i then
        let save_mem := pn_min_memory (details_of (job_at w job_ptr)) in
        let w1 := set_job w job_ptr (set_pn_min_memory (job_at w job_ptr) 0) in
        let '(rc, bitmap2, w2) :=
          job_test_at G w1 job_ptr bitmap1 min_nodes max_nodes req_nodes in
        Returns (rc, bitmap2)
          (set_job w2 job_ptr (set_pn_min_memory (job_at w2 job_ptr) save_mem))
      else Returns (SLURM_ERROR, bitmap1) w
  end.

(** State of the loops of [_run_now]. *)
Record run_now_state : Type := mk_rn {
  rn_rc : errno;
  rn_prev_cnt : Z;
  rn_bitmap : bitstr_t;
  rn_world : world
}.

Definition run_now_try (G : globals) (cr : cr_record) (job_ptr : nat)
    (orig_map : bitstr_t) (min_nodes max_nodes req_nodes max_run_job : Z)
    (st : run_now_state) (sus_jobs : Z) : run_now_state :=
  if errno_eqb (rn_rc st) SLURM_SUCCESS then st
  else
    let w := rn_world st in
    let '(j, bitmap1) :=
      _job_count_bitmap G (gres w) cr (job_at w job_ptr) orig_map (rn_bitmap st)
        max_run_job (max_run_job + sus_jobs) SELECT_MODE_RUN_NOW in
    if (j =? rn_prev_cnt st) || (j <? min_nodes)
    then mk_rn (rn_rc st) (rn_prev_cnt st) bitmap1 w
    else
      let '(rc1, bitmap2, w1) :=
        if 0 <? max_run_job then
          let '(rc, b, jr) :=
            _find_job_mate (job_list w) (job_at w job_ptr) bitmap1
              min_nodes max_nodes req_nodes in
          (rc, b, set_job w job_ptr jr)
        else (rn_rc st, bitmap1, w) in
      if (0 <? max_run_job) && errno_eqb rc1 SLURM_SUCCESS
      then mk_rn rc1 j bitmap2 w1
      else
        let '(rc2, bitmap3, w2) :=
          job_test_at G w1 job_ptr bitmap2 min_nodes max_nodes req_nodes in
        mk_rn rc2 j bitmap3 w2.

Definition run_now_share (G : globals) (cr : cr_record) (job_ptr : nat)
    (orig_map : bitstr_t) (min_nodes max_nodes req_nodes max_share : Z)
    (st : run_now_state) (max_run_job : Z) : run_now_state :=
  if errno_eqb (rn_rc st) SLURM_SUCCESS then st
  else
    let last_iteration := max_run_job =? max_share - 1 in
    fold_left
      (run_now_try G cr job_ptr orig_map min_nodes max_nodes req_nodes max_run_job)
      (if last_iteration then [NO_SHARE_LIMIT] else [0; 4]) st.

(** State of the loops that remove jobs from a scratch registry. *)
Record preempt_state : Type := mk_ps {
  ps_rc : errno;
  ps_bitmap : bitstr_t;
  ps_exp_cr : cr_record;
  ps_world : world
}.

Fixpoint run_now_preempt (G : globals) (job_ptr : nat) (orig_map : bitstr_t)
    (min_nodes max_nodes req_nodes max_share : Z)
    (preemptee_candidates : option (list nat)) (jobs : list nat) (st : preempt_state)
    : preempt_state :=
  match jobs with
  | [] => st
  | k :: rest =>
      let w := ps_world st in
      let tmp := job_at w k in
      if negb (IS_JOB_RUNNING tmp) && negb (IS_JOB_SUSPENDED tmp)
      then run_now_preempt G job_ptr orig_map min_nodes max_nodes req_nodes max_share
             preemptee_candidates rest st
      else if _is_preemptable k preemptee_candidates then
        let '(exp_cr, w1) :=
          rm_job_at G (ps_exp_cr st) w k (preempt_remove_all tmp) in
        let '(j, bitmap1) :=
          _job_count_bitmap G (gres w1) exp_cr (job_at w1 job_ptr) orig_map
            (ps_bitmap st) (max_share - 1) NO_SHARE_LIMIT SELECT_MODE_RUN_NOW in
        if j <? min_nodes
        then run_now_preempt G job_ptr orig_map min_nodes max_nodes req_nodes
               max_share preemptee_candidates rest (mk_ps (ps_rc st) bitmap1 exp_cr w1)
        else
          let '(rc, bitmap2, w2) :=
            job_test_at G w1 job_ptr bitmap1 min_nodes max_nodes req_nodes in
          if errno_eqb rc SLURM_SUCCESS then mk_ps rc bitmap2 exp_cr w2
          else run_now_preempt G job_ptr orig_map min_nodes max_nodes req_nodes
                 max_share preemptee_candidates rest (mk_ps rc bitmap2 exp_cr w2)
      else run_now_preempt G job_ptr orig_map min_nodes max_nodes req_nodes max_share
             preemptee_candidates rest st
  end.

Definition job_pointers (w : world) : list nat := seq 0 (length (job_list w)).

(** [_run_now], the registry being the global [cr_ptr]. *)
Definition _run_now (G : globals) (w : world) (job_ptr : nat) (bitmap : bitstr_t)
    (min_nodes max_nodes max_share req_nodes : Z)
    (preemptee_candidates : option (list nat)) (preemptee_job_list : preemptee_out)
    : outcome (errno * bitstr_t * preemptee_out) :=
  match cr_ptr w with
  | None => Aborts
  | Some cr =>
      let orig_map := bit_copy bitmap in
      let st :=
        fold_left
          (run_now_share G cr job_ptr orig_map min_nodes max_nodes req_nodes max_share)
          (index_range 0 (max_share - 1)) (mk_rn EINVAL (-1) bitmap w) in
      let '(rc, bitmap1, out, w1) :=
        match preemptee_candidates with
        | Some _ =>
            if negb (errno_eqb (rn_rc st) SLURM_SUCCESS) then
              let '(exp_cr, h) := _dup_cr G cr (gres (rn_world st)) in
              let ps :=
                run_now_preempt G job_ptr orig_map min_nodes max_nodes req_nodes
                  max_share preemptee_candidates (job_pointers (rn_world st))
                  (mk_ps (rn_rc st) (rn_bitmap st) exp_cr (set_gres (rn_world st) h)) in
              let out :=
                build_preemptee_list (ps_world ps) (ps_bitmap ps) (ps_rc ps)
                  preemptee_candidates preemptee_job_list in
              (ps_rc ps, ps_bitmap ps, out,
               set_gres (ps_world ps)
                 (_free_cr G (Some (ps_exp_cr ps)) (gres (ps_world ps))))
            else (rn_rc st, rn_bitmap st, preemptee_job_list, rn_world st)
        | None => (rn_rc st, rn_bitmap st, preemptee_job_list, rn_world st)
        end in
      let w2 :=
        if errno_eqb rc SLURM_SUCCESS
        then set_job w1 job_ptr (_build_select_struct G (job_at w1 job_ptr) bitmap1)
        else w1 in
      Returns (rc, bitmap1, out) w2
  end.

(** The first loop of [_will_run_test] over [job_list]: preemptable jobs
    leave the scratch registry, the others are listed in
    [cr_job_list]. *)
Fixpoint will_run_split (G : globals) (preemptee_candidates : option (list nat))
    (jobs : list nat) (st : cr_record * world * list nat) : cr_record * world * list nat :=
  match jobs with
  | [] => st
  | k :: rest =>
      let '(exp_cr, w, cr_job_list) := st in
      let tmp := job_at w k in
      if negb (IS_JOB_RUNNING tmp) && negb (IS_JOB_SUSPENDED tmp)
      then will_run_split G preemptee_candidates rest st
      else if end_time tmp =? 0
      then will_run_split G preemptee_candidates rest st
      else if _is_preemptable k preemptee_candidates then
        let '(exp_cr', w') := rm_job_at G exp_cr w k (preempt_remove_all tmp) in
        will_run_split G preemptee_candidates rest (exp_cr', w', cr_job_list)
      else will_run_split G preemptee_candidates rest (exp_cr, w, cr_job_list ++ [k])
  end.

(** Modelled from the spec: [list_sort] of [src/common/list.c] is not
    part of the sources; with [_cr_job_list_sort] it sorts the list by
    ascending [end_time]. *)
Fixpoint insert_by_end_time (w : world) (k : nat) (l : list nat) : list nat :=
  match l with
  | [] => [k]
  | x :: r =>
      if end_time (job_at w k) <? end_time (job_at w x) then k :: l
      else x :: insert_by_end_time w k r
  end.

Definition list_sort (w : world) (l : list nat) : list nat :=
  fold_left (fun acc k => insert_by_end_time w k acc) l [].

(** The second loop: the listed jobs leave the scratch registry one at
    a time, in the order of the list. *)
Fixpoint will_run_replay (G : globals) (job_ptr : nat) (orig_map : bitstr_t)
    (min_nodes max_nodes req_nodes max_run_jobs now : Z) (jobs : list nat)
    (st : preempt_state) : preempt_state :=
  match jobs with
  | [] => st
  | k :: rest =>
      let '(exp_cr, w1) := rm_job_at G (ps_exp_cr st) (ps_world st) k true in
      let '(i, bitmap1) :=
        _job_count_bitmap G (gres w1) exp_cr (job_at w1 job_ptr) orig_map
          (ps_bitmap st) max_run_jobs NO_SHARE_LIMIT SELECT_MODE_RUN_NOW in
      if i <? min_nodes
      then will_run_replay G job_ptr orig_map min_nodes max_nodes req_nodes
             max_run_jobs now rest (mk_ps (ps_rc st) bitmap1 exp_cr w1)
      else
        let '(rc, bitmap2, w2) :=
          job_test_at G w1 job_ptr bitmap1 min_nodes max_nodes req_nodes in
        if negb (errno_eqb rc SLURM_SUCCESS)
        then will_run_replay G job_ptr orig_map min_nodes max_nodes req_nodes
               max_run_jobs now rest (mk_ps rc bitmap2 exp_cr w2)
        else
          let tmp := job_at w2 k in
          let t := if end_time tmp <=? now then now + 1 else end_time tmp in
          mk_ps rc bitmap2 exp_cr
            (set_job w2 job_ptr (set_start_time (job_at w2 job_ptr) t))
  end.

(** [_will_run_test], the registry being the global [cr_ptr]. *)
Definition _will_run_test (G : globals) (w : world) (job_ptr : nat) (bitmap : bitstr_t)
    (min_nodes max_nodes max_share req_nodes : Z)
    (preemptee_candidates : option (list nat)) (preemptee_job_list : preemptee_out)
    : outcome (errno * bitstr_t * preemptee_out) :=
  match cr_ptr w with
  | None => Aborts
  | Some cr =>
      let '(now, w0) := read_time w in
      let max_run_jobs := Z.max (max_share - 1) 1 in
      let orig_map := bit_copy bitmap in
      let '(i, bitmap1) :=
        _job_count_bitmap G (gres w0) cr (job_at w0 job_ptr) orig_map bitmap
          max_run_jobs NO_SHARE_LIMIT SELECT_MODE_WILL_RUN in
      let '(rc1, bitmap2, w1) :=
        if min_nodes <=? i
        then job_test_at G w0 job_ptr bitmap1 min_nodes max_nodes req_nodes
        else (SLURM_ERROR, bitmap1, w0) in
      if (min_nodes <=? i) && errno_eqb rc1 SLURM_SUCCESS then
        let '(t, w2) := read_time w1 in
        Returns (SLURM_SUCCESS, bitmap2, preemptee_job_list)
          (set_job w2 job_ptr (set_start_time (job_at w2 job_ptr) t))
      else
        let '(exp_cr0, h) := _dup_cr G cr (gres w1) in
        let '(exp_cr1, w2, cr_job_list) :=
          will_run_split G preemptee_candidates (job_pointers w1)
            (exp_cr0, set_gres w1 h, []) in
        let '(rc2, bitmap3, w3) :=
          match preemptee_candidates with
          | Some _ =>
              let '(i', b) :=
                _job_count_bitmap G (gres w2) exp_cr1 (job_at w2 job_ptr) orig_map
                  bitmap2 max_run_jobs NO_SHARE_LIMIT SELECT_MODE_RUN_NOW in
              if min_nodes <=? i' then
                let '(rc, b', w') :=
                  job_test_at G w2 job_ptr b min_nodes max_nodes req_nodes in
                (rc, b',
                 if errno_eqb rc SLURM_SUCCESS
                 then set_job w' job_ptr (set_start_time (job_at w' job_ptr) (now + 1))
                 else w')
              else (rc1, b, w2)
          | None => (rc1, bitmap2, w2)
          end in
        let ps :=
          if negb (errno_eqb rc2 SLURM_SUCCESS)
          then will_run_replay G job_ptr orig_map min_nodes max_nodes req_nodes
                 max_run_jobs now (list_sort w3 cr_job_list)
                 (mk_ps rc2 bitmap3 exp_cr1 w3)
          else mk_ps rc2 bitmap3 exp_cr1 w3 in
        let out :=
          build_preemptee_list (ps_world ps) (ps_bitmap ps) (ps_rc ps)
            preemptee_candidates preemptee_job_list in
        Returns (ps_rc ps, ps_bitmap ps, out)
          (set_gres (ps_world ps)
             (_free_cr G (Some (ps_exp_cr ps)) (gres (ps_world ps))))
  end.

(** ** The plugin interface *)

(** [max_share] as [select_p_job_test] computes it; [None] when the
    job shares nodes and has no partition (a NULL [part_ptr] is
    dereferenced, which ends the process). *)
Definition job_max_share (G : globals) (job : job_record) : option Z :=
  if negb (shared (details_of job) =? 0) then
    match part_ptr job with
    | Some p =>
        Some (Z.land (max_share (nth p (part_list G) (mk_part None 0)))
                (Z.lnot SHARED_FORCE))
    | None => None
    end
  else Some 1.

(** [select_p_job_test].  The registry is built on the first call; a
    mode that is none of the three ends in [fatal]. *)
Definition select_p_job_test (G : globals) (w : world) (job_ptr : nat)
    (bitmap : bitstr_t) (min_nodes max_nodes req_nodes : Z) (mode : select_mode)
    (preemptee_candidates : option (list nat)) (preemptee_job_list : preemptee_out)
    : outcome (errno * bitstr_t * preemptee_out) :=
  match details (job_at w job_ptr) with
  | None => Returns (EINVAL, bitmap, preemptee_job_list) w
  | Some _ =>
      let w1 := match cr_ptr w with None => _init_node_cr G w | Some _ => w end in
      match cr_ptr w1 with
      | None => Returns (SLURM_ERROR, bitmap, preemptee_job_list) w1
      | Some _ =>
          if bit_set_count bitmap <? min_nodes
          then Returns (EINVAL, bitmap, preemptee_job_list) w1
          else
            match job_max_share G (job_at w1 job_ptr) with
            | None => Aborts
            | Some max_share' =>
                match mode with
                | SELECT_MODE_WILL_RUN =>
                    _will_run_test G w1 job_ptr bitmap min_nodes max_nodes max_share'
                      req_nodes preemptee_candidates preemptee_job_list
                | SELECT_MODE_TEST_ONLY =>
                    match _test_only G w1 job_ptr bitmap min_nodes max_nodes req_nodes
                            max_share' with
                    | Returns (rc, b) w2 => Returns (rc, b, preemptee_job_list) w2
                    | Aborts => Aborts
                    end
                | SELECT_MODE_RUN_NOW =>
                    _run_now G w1 job_ptr bitmap min_nodes max_nodes max_share'
                      req_nodes preemptee_candidates preemptee_job_list
                | SELECT_MODE_OTHER _ => Aborts
                end
            end
      end
  end.

(** The entry points that allocate and release: the registry is built
    when it is NULL, then [f] is applied to it and to the job. *)
Definition with_registry (G : globals) (w : world)
    (f : cr_record -> job_record -> gres_heap -> errno * cr_record * job_record * gres_heap)
    (job_ptr : nat) : world :=
  let w1 := _init_node_cr G w in
  match cr_ptr w1 with
  | None => w1
  | Some cr =>
      let '(_, cr', j, h) := f cr (job_at w1 job_ptr) (gres w1) in
      mk_world (Some cr') (list_set (job_list w1) job_ptr j) h (ticks w1)
  end.

Definition select_p_job_begin (G : globals) (w : world) (job_ptr : nat) : world :=
  with_registry G w (fun cr j h => _add_job_to_nodes G cr j true h) job_ptr.

Definition select_p_job_fini (G : globals) (w : world) (job_ptr : nat) : world :=
  with_registry G w (fun cr j h => _rm_job_from_nodes G cr j true h) job_ptr.

Definition select_p_job_suspend (G : globals) (w : world) (job_ptr : nat) : world :=
  with_registry G w (fun cr j h => _rm_job_from_nodes G cr j false h) job_ptr.

Definition select_p_job_resume (G : globals) (w : world) (job_ptr : nat) : world :=
  with_registry G w (fun cr j h => _add_job_to_nodes G cr j false h) job_ptr.

End DataModel.

Arguments Returns {SL A} a w.
Arguments Aborts {SL A}.

(** ** The filter's test, in words *)

Section FilterSpec.

Context {SL : Slurm}.

(** The real memory of a node: configured under fast schedule, live
    otherwise. *)
Definition node_real_memory (G : globals) (i : Z) : Z :=
  let node_ptr := zth (node_record_table_ptr G) i zero_node in
  if negb (select_fast_schedule G =? 0)
  then cfg_real_memory (config_ptr node_ptr)
  else real_memory node_ptr.

(** GRES bound: the GRES test answers [NO_VAL] or a CPU count that is
    not below the node's. *)
Definition gres_bound_ok (G : globals) (h : gres_heap) (cr : cr_record)
    (job_ptr : job_record) (use_total_gres : bool) (i : Z) : bool :=
  let gres_cpus :=
    to_uint32 (gres_plugin_job_test (job_gres_list job_ptr) (gres_list_of G cr i)
                 use_total_gres (job_id job_ptr) i h) in
  (gres_cpus =? NO_VAL) || (node_cpu_cnt G i <=? gres_cpus).

(** Memory fit as the code has it: there is a test only for a job with a
    memory request under [cr_type == CR_MEMORY], and then the sums are
    unsigned 32-bit sums. *)
Definition memory_fits (G : globals) (cr : cr_record) (job_ptr : job_record)
    (i : Z) : bool :=
  let '(job_memory_cpu, job_memory_node) :=
    job_memory_request G (Some (details_of job_ptr)) in
  if (job_memory_cpu =? 0) && (job_memory_node =? 0) then true
  else
    let job_mem :=
      if negb (job_memory_cpu =? 0)
      then to_uint32 (job_memory_cpu * node_cpu_cnt G i)
      else job_memory_node in
    to_uint32 (alloc_memory (zth (nodes cr) i zero_node_cr) + job_mem)
    <=? node_real_memory G i.

(** Memory fit as the specification words it:
    [job_mem = per_cpu_mem ? per_cpu_mem * cpu_cnt : per_node_mem] and
    [alloc_memory + job_mem <= real_memory]. *)
Definition claimed_memory_fits (G : globals) (cr : cr_record) (job_ptr : job_record)
    (i : Z) : bool :=
  let m := pn_min_memory (details_of job_ptr) in
  let job_mem :=
    if negb (Z.land m MEM_PER_CPU =? 0)
    then Z.land m (Z.lnot MEM_PER_CPU) * node_cpu_cnt G i
    else m in
  alloc_memory (zth (nodes cr) i zero_node_cr) + job_mem <=? node_real_memory G i.

End FilterSpec.

(** * Reservations: [select_p_resv_test] *)

(** [bit_pick_cnt] of [src/common/bitstring.c], which is not part of the
    sources, picks the nodes when no topology is configured. *)
Class Bitstring : Type := {
  bit_pick_cnt : bitstr_t -> Z -> option bitstr_t
}.

(** Modelled from the spec: [bit_alloc] of [src/common/bitstring.c]
    returns a bitmap of the given number of bits, all clear. *)
Definition bit_alloc (nbits : Z) : bitstr_t := repeat false (Z.to_nat nbits).

Section Reservation.

Context {SL : Slurm} {BS : Bitstring}.

Definition zero_switch : switch_record := mk_switch 0 [].

(** The loop that looks for the lowest-level switch with enough nodes,
    the tightest one among those of the same level. *)
Definition resv_best_switch (table : list switch_record) (switches_node_cnt : list Z)
    (rem_nodes : Z) (best_fit_inx j : Z) : Z :=
  if zth switches_node_cnt j 0 <? rem_nodes then best_fit_inx
  else if (best_fit_inx =? -1)
          || (level (zth table j zero_switch)
              <? level (zth table best_fit_inx zero_switch))
          || ((level (zth table j zero_switch)
               =? level (zth table best_fit_inx zero_switch))
              && (zth switches_node_cnt j 0 <? zth switches_node_cnt best_fit_inx 0))
  then j else best_fit_inx.

(** The loop that keeps the node counts of the leaf switches below the
    chosen switch and clears the others. *)
Definition resv_leafs (table : list switch_record) (switches_bitmap : list bitstr_t)
    (switches_node_cnt : list Z) (best_fit_inx : Z) (cnt : Z) : list Z :=
  fold_left
    (fun (cnts : list Z) (j : Z) =>
       if negb (level (zth table j zero_switch) =? 0)
          || negb (bit_super_set (zth switches_bitmap j [])
                     (zth switches_bitmap best_fit_inx []))
       then zset cnts j 0 else cnts)
    (index_range 0 (cnt - 1)) switches_node_cnt.

(** The best fit among the leaves: [best_fit_nodes],
    [best_fit_location] and [best_fit_sufficient]. *)
Record leaf_fit : Type := mk_leaf {
  lf_nodes : Z;
  lf_location : Z;
  lf_sufficient : bool
}.

Definition resv_leaf_scan (switches_node_cnt : list Z) (rem_nodes : Z)
    (bf : leaf_fit) (j : Z) : leaf_fit :=
  let c := zth switches_node_cnt j 0 in
  if c =? 0 then bf
  else
    let sufficient := rem_nodes <=? c in
    if (lf_nodes bf =? 0)
       || (sufficient && negb (lf_sufficient bf))
       || (sufficient && (c <? lf_nodes bf))
       || (negb sufficient && (lf_nodes bf <? c))
    then mk_leaf c j sufficient else bf.

(** State of the loop that takes the nodes of the chosen leaf: the
    leaf's bitmap and node count, the bitmap being built and
    [rem_nodes]. *)
Record resv_state : Type := mk_resv {
  rv_switch : bitstr_t;
  rv_cnt : Z;
  rv_avail : bitstr_t;
  rv_rem : Z
}.

Fixpoint resv_take (idxs : list Z) (st : resv_state) : resv_state :=
  match idxs with
  | [] => st
  | i :: rest =>
      if negb (bit_test (rv_switch st) i) then resv_take rest st
      else
        let sw := bit_clear (rv_switch st) i in
        let c := rv_cnt st - 1 in
        if bit_test (rv_avail st) i
        then resv_take rest (mk_resv sw c (rv_avail st) (rv_rem st))
        else
          let st' := mk_resv sw c (bit_set (rv_avail st) i) (rv_rem st - 1) in
          if rv_rem st' <=? 0 then st' else resv_take rest st'
  end.

(** The loop [while (rem_nodes > 0)]; [None] when [fuel] turns are not
    enough. *)
Fixpoint resv_loop (fuel : nat) (cnt : Z) (switches_bitmap : list bitstr_t)
    (switches_node_cnt : list Z) (avail_nodes_bitmap : bitstr_t)
    (rem_nodes best_fit_location : Z) : option (bitstr_t * Z) :=
  match fuel with
  | O => None
  | S fuel' =>
      if negb (0 <? rem_nodes) then Some (avail_nodes_bitmap, rem_nodes)
      else
        let bf :=
          fold_left (resv_leaf_scan switches_node_cnt rem_nodes)
            (index_range 0 (cnt - 1)) (mk_leaf 0 best_fit_location false) in
        if lf_nodes bf =? 0 then Some (avail_nodes_bitmap, rem_nodes)
        else
          let loc := lf_location bf in
          let sw := zth switches_bitmap loc [] in
          let first := bit_ffs sw in
          let last := bit_fls sw in
          let st :=
            resv_take (if 0 <=? first then index_range first last else [])
              (mk_resv sw (zth switches_node_cnt loc 0) avail_nodes_bitmap
                 rem_nodes) in
          resv_loop fuel' cnt (zset switches_bitmap loc (rv_switch st))
            (zset switches_node_cnt loc 0) (rv_avail st) (rv_rem st) loc
  end.

(** The topology path of [select_p_resv_test], with the fuel its loop
    is given: one turn more than there are switches.  The outer [None]
    stands for a loop that has not ended, the inner one for the NULL
    bitmap. *)
Definition resv_test_topo (G : globals) (table : list switch_record)
    (avail_bitmap : bitstr_t) (node_cnt : Z) : option (option bitstr_t) :=
  if bit_set_count avail_bitmap <? node_cnt then Some None
  else
    let rem_nodes := to_int node_cnt in
    let cnt := switch_record_cnt G in
    let switches_bitmap :=
      map (fun i => bit_and (bit_copy (switch_node_bitmap (zth table i zero_switch)))
                      avail_bitmap)
        (index_range 0 (cnt - 1)) in
    let switches_node_cnt := map bit_set_count switches_bitmap in
    let best_fit_inx :=
      fold_left (resv_best_switch table switches_node_cnt rem_nodes)
        (index_range 0 (cnt - 1)) (-1) in
    if best_fit_inx =? -1 then Some None
    else
      let leafs := resv_leafs table switches_bitmap switches_node_cnt best_fit_inx cnt in
      match resv_loop (S (length leafs)) cnt switches_bitmap leafs
              (bit_alloc (node_record_count G)) rem_nodes 0 with
      | None => None
      | Some (avail_nodes_bitmap, rem_nodes') =>
          Some (if 0 <? rem_nodes' then None else Some avail_nodes_bitmap)
      end.

(** [select_p_resv_test].  The last case is never taken: the loop ends
    within its fuel (lemma [resv_test_topo_total]). *)
Definition select_p_resv_test (G : globals) (avail_bitmap : bitstr_t) (node_cnt : Z)
    : option bitstr_t :=
  match switch_record_table G with
  | Some table =>
      if switch_record_cnt G =? 0 then bit_pick_cnt avail_bitmap node_cnt
      else
        match resv_test_topo G table avail_bitmap node_cnt with
        | Some r => r
        | None => None
        end
  | None => bit_pick_cnt avail_bitmap node_cnt
  end.

End Reservation.

(** * The topology-aware selector: the code of [_job_test_topo] *)

(** Modelled from the spec: [bit_or] and [bit_nclear] of
    [src/common/bitstring.c]: [b1 |= b2], and the bits from [start] to
    [stop] cleared. *)
Fixpoint bit_or (b1 b2 : bitstr_t) : bitstr_t :=
  match b1, b2 with
  | [], _ => []
  | x :: r1, [] => x :: bit_or r1 []
  | x :: r1, y :: r2 => (x || y) :: bit_or r1 r2
  end.

Definition bit_nclear (b : bitstr_t) (start stop : Z) : bitstr_t :=
  fold_left bit_clear (index_range start stop) b.

Section TopologySelector.

Context {SL : Slurm}.

(** The bitmap and the counters of the selector, [avail_nodes_bitmap]
    and the arrays [switches_bitmap], [switches_node_cnt] and
    [switches_cpu_cnt]. *)
Record topo_state : Type := mk_topo {
  tp_sel : sel_state;
  tp_avail : bitstr_t;
  tp_bitmaps : list bitstr_t;
  tp_node_cnt : list Z;
  tp_cpu_cnt : list Z
}.

(** A step that goes on, or leaves for the label [fini] with a code. *)
Inductive topo_exit : Type :=
| Goes_on (t : topo_state)
| Leaves (rc : errno) (t : topo_state).

(** The loop [for (j=0; j<switch_record_cnt; j++)] that takes a required
    node out of every switch that holds it. *)
Definition topo_drop_node (cnt i : Z) (bitmaps : list bitstr_t) (cnts : list Z)
    : list bitstr_t * list Z :=
  fold_left
    (fun (st : list bitstr_t * list Z) (j : Z) =>
       if negb (bit_test (zth (fst st) j []) i) then st
       else (zset (fst st) j (bit_clear (zth (fst st) j []) i),
             zset (snd st) j (zth (snd st) j 0 - 1)))
    (index_range 0 (cnt - 1)) (bitmaps, cnts).

(** The loop over the required nodes. *)
Fixpoint topo_required (G : globals) (job_ptr : job_record) (cnt : Z)
    (req_nodes_bitmap : bitstr_t) (idxs : list Z) (t : topo_state) : topo_exit :=
  match idxs with
  | [] => Goes_on t
  | i :: rest =>
      if negb (bit_test req_nodes_bitmap i)
      then topo_required G job_ptr cnt req_nodes_bitmap rest t
      else if sel_max_nodes (tp_sel t) <=? 0 then Leaves EINVAL t
      else
        let s := tp_sel t in
        let '(bitmaps, cnts) := topo_drop_node cnt i (tp_bitmaps t) (tp_node_cnt t) in
        topo_required G job_ptr cnt req_nodes_bitmap rest
          (mk_topo (count_node G job_ptr s (bit_set (sel_bitmap s) i) i)
             (bit_clear (tp_avail t) i) bitmaps cnts (tp_cpu_cnt t))
  end.

(** The test of the two [while] loops. *)
Definition topo_wants_more (s : sel_state) : bool :=
  (0 <? sel_max_nodes s) && ((0 <? sel_rem_nodes s) || (0 <? sel_rem_cpus s)).

(** The test [(rem_nodes <= 0) && (rem_cpus <= 0)]. *)
Definition topo_satisfied (s : sel_state) : bool :=
  (sel_rem_nodes s <=? 0) && (sel_rem_cpus s <=? 0).

(** The loop [while] that takes the nodes of the leaf [j], first node
    first; [None] when [fuel] turns are not enough. *)
Fixpoint topo_leaf_fill (fuel : nat) (G : globals) (job_ptr : job_record) (j : Z)
    (t : topo_state) : option topo_state :=
  match fuel with
  | O => None
  | S fuel' =>
      let s := tp_sel t in
      if negb (topo_wants_more s) then Some t
      else
        let sw := zth (tp_bitmaps t) j [] in
        let i := bit_ffs sw in
        if i =? -1 then Some t
        else
          let bitmaps := zset (tp_bitmaps t) j (bit_clear sw i) in
          let cnts := zset (tp_node_cnt t) j (zth (tp_node_cnt t) j 0 - 1) in
          if bit_test (sel_bitmap s) i
          then topo_leaf_fill fuel' G job_ptr j
                 (mk_topo s (tp_avail t) bitmaps cnts (tp_cpu_cnt t))
          else topo_leaf_fill fuel' G job_ptr j
                 (mk_topo (count_node G job_ptr s (bit_set (sel_bitmap s) i) i)
                    (bit_clear (tp_avail t) i) bitmaps cnts (tp_cpu_cnt t))
  end.

(** The loop over the leaves that hold a required node; the fuel of a
    leaf is one turn more than its bitmap has bits. *)
Definition topo_leafs_fill (G : globals) (job_ptr : job_record)
    (table : list switch_record) (switches_required : list bool) (cnt : Z)
    (t : topo_state) : option topo_state :=
  fold_left
    (fun (ot : option topo_state) (j : Z) =>
       match ot with
       | None => None
       | Some t =>
           if negb (level (zth table j zero_switch) =? 0)
              || (zth (tp_node_cnt t) j 0 =? 0)
              || negb (zth switches_required j false)
           then Some t
           else topo_leaf_fill (S (length (zth (tp_bitmaps t) j []))) G job_ptr j t
       end)
    (index_range 0 (cnt - 1)) (Some t).

(** One node of a switch in the loop that updates the switches once the
    required nodes are taken: the switch's bitmap, node count and CPU
    count. *)
Definition topo_update_node (G : globals) (job_ptr : job_record) (avail : bitstr_t)
    (st : bitstr_t * Z * Z) (i : Z) : bitstr_t * Z * Z :=
  let '(sw, n, c) := st in
  if negb (bit_test sw i) then st
  else if negb (bit_test avail i) then (bit_clear sw i, n - 1, c)
  else (sw, n, c + _get_avail_cpus G job_ptr i).

Definition topo_update (G : globals) (job_ptr : job_record) (cnt : Z) (t : topo_state)
    : topo_state :=
  fold_left
    (fun (t : topo_state) (j : Z) =>
       if zth (tp_node_cnt t) j 0 =? 0 then t
       else
         let sw := zth (tp_bitmaps t) j [] in
         let first := bit_ffs sw in
         if first <? 0 then t
         else
           let '(sw', n, c) :=
             fold_left (topo_update_node G job_ptr (tp_avail t))
               (index_range first (bit_fls sw))
               (sw, zth (tp_node_cnt t) j 0, zth (tp_cpu_cnt t) j 0) in
           mk_topo (tp_sel t) (tp_avail t) (zset (tp_bitmaps t) j sw')
             (zset (tp_node_cnt t) j n) (zset (tp_cpu_cnt t) j c))
    (index_range 0 (cnt - 1)) t.

(** The loop that sums the CPUs of each switch when the job requires no
    node. *)
Definition topo_cpu_counts (G : globals) (job_ptr : job_record) (cnt : Z)
    (t : topo_state) : topo_state :=
  fold_left
    (fun (t : topo_state) (j : Z) =>
       let sw := zth (tp_bitmaps t) j [] in
       let first := bit_ffs sw in
       if first <? 0 then t
       else
         mk_topo (tp_sel t) (tp_avail t) (tp_bitmaps t) (tp_node_cnt t)
           (zset (tp_cpu_cnt t) j
              (fold_left
                 (fun (c : Z) (i : Z) =>
                    if bit_test sw i then c + _get_avail_cpus G job_ptr i else c)
                 (index_range first (bit_fls sw)) (zth (tp_cpu_cnt t) j 0))))
    (index_range 0 (cnt - 1)) t.

(** The loop that looks for the lowest-level switch with enough CPUs
    and nodes, the one with fewest nodes among those of the same
    level. *)
Definition topo_best_switch (table : list switch_record) (t : topo_state)
    (min_nodes req_nodes : Z) (best_fit_inx j : Z) : Z :=
  if (zth (tp_cpu_cnt t) j 0 <? sel_rem_cpus (tp_sel t))
     || negb (_enough_nodes (zth (tp_node_cnt t) j 0) (sel_rem_nodes (tp_sel t))
                min_nodes req_nodes)
  then best_fit_inx
  else if (best_fit_inx =? -1)
          || (level (zth table j zero_switch)
              <? level (zth table best_fit_inx zero_switch))
          || ((level (zth table j zero_switch)
               =? level (zth table best_fit_inx zero_switch))
              && (zth (tp_node_cnt t) j 0 <? zth (tp_node_cnt t) best_fit_inx 0))
  then j else best_fit_inx.

(** The best fit among the leaves: [best_fit_cpus], [best_fit_nodes],
    [best_fit_location] and [best_fit_sufficient]. *)
Record topo_fit : Type := mk_tfit {
  tf_cpus : Z;
  tf_nodes : Z;
  tf_location : Z;
  tf_sufficient : bool
}.

Definition topo_leaf_scan (t : topo_state) (min_nodes req_nodes : Z)
    (bf : topo_fit) (j : Z) : topo_fit :=
  if zth (tp_node_cnt t) j 0 =? 0 then bf
  else
    let cpus' := zth (tp_cpu_cnt t) j 0 in
    let sufficient :=
      (sel_rem_cpus (tp_sel t) <=? cpus')
      && _enough_nodes (zth (tp_node_cnt t) j 0) (sel_rem_nodes (tp_sel t))
           min_nodes req_nodes in
    if (tf_nodes bf =? 0)
       || (sufficient && negb (tf_sufficient bf))
       || (sufficient && (cpus' <? tf_cpus bf))
       || (negb sufficient && (tf_cpus bf <? cpus'))
    then mk_tfit cpus' (zth (tp_node_cnt t) j 0) j sufficient else bf.

(** The loop that takes the nodes of the chosen leaf. *)
Fixpoint topo_take (G : globals) (job_ptr : job_record) (location : Z)
    (idxs : list Z) (t : topo_state) : topo_state :=
  match idxs with
  | [] => t
  | i :: rest =>
      let sw := zth (tp_bitmaps t) location [] in
      if negb (bit_test sw i) then topo_take G job_ptr location rest t
      else
        let avail_cpus := _get_avail_cpus G job_ptr i in
        let bitmaps := zset (tp_bitmaps t) location (bit_clear sw i) in
        let cnts := zset (tp_node_cnt t) location (zth (tp_node_cnt t) location 0 - 1) in
        let cpus' :=
          zset (tp_cpu_cnt t) location (zth (tp_cpu_cnt t) location 0 - avail_cpus) in
        let s := tp_sel t in
        if bit_test (sel_bitmap s) i
        then topo_take G job_ptr location rest
               (mk_topo s (tp_avail t) bitmaps cnts cpus')
        else
          let s' := count_node G job_ptr s (bit_set (sel_bitmap s) i) i in
          let t' := mk_topo s' (tp_avail t) bitmaps cnts cpus' in
          if (sel_max_nodes s' <=? 0) || topo_satisfied s' then t'
          else topo_take G job_ptr location rest t'
  end.

(** The loop [while] over the leaves of the chosen switch; [None] when
    [fuel] turns are not enough. *)
Fixpoint topo_loop (fuel : nat) (G : globals) (job_ptr : job_record)
    (min_nodes req_nodes cnt : Z) (t : topo_state) (best_fit_location : Z)
    : option topo_state :=
  match fuel with
  | O => None
  | S fuel' =>
      if negb (topo_wants_more (tp_sel t)) then Some t
      else
        let bf :=
          fold_left (topo_leaf_scan t min_nodes req_nodes) (index_range 0 (cnt - 1))
            (mk_tfit 0 0 best_fit_location false) in
        if tf_nodes bf =? 0 then Some t
        else
          let loc := tf_location bf in
          let sw := zth (tp_bitmaps t) loc [] in
          let first := bit_ffs sw in
          let last := bit_fls sw in
          let t1 :=
            topo_take G job_ptr loc (if 0 <=? first then index_range first last else [])
              t in
          topo_loop fuel' G job_ptr min_nodes req_nodes cnt
            (mk_topo (tp_sel t1) (tp_avail t1) (tp_bitmaps t1)
               (zset (tp_node_cnt t1) loc 0) (tp_cpu_cnt t1))
            loc
  end.

(** From the search of the best switch to the end of the function.
    ([avail_nodes_bitmap] is and-ed with the bitmap of the best switch
    and not read again.) *)
Definition topo_select (G : globals) (job_ptr : job_record)
    (table : list switch_record) (min_nodes req_nodes : Z) (t : topo_state)
    : option (errno * topo_state) :=
  let cnt := switch_record_cnt G in
  let best_fit_inx :=
    fold_left (topo_best_switch table t min_nodes req_nodes)
      (index_range 0 (cnt - 1)) (-1) in
  if best_fit_inx =? -1 then Some (EINVAL, t)
  else
    let leafs := resv_leafs table (tp_bitmaps t) (tp_node_cnt t) best_fit_inx cnt in
    match topo_loop (S (length leafs)) G job_ptr min_nodes req_nodes cnt
            (mk_topo (tp_sel t) (tp_avail t) (tp_bitmaps t) leafs (tp_cpu_cnt t)) 0 with
    | None => None
    | Some t' =>
        Some (if (sel_rem_cpus (tp_sel t') <=? 0)
                 && _enough_nodes 0 (sel_rem_nodes (tp_sel t')) min_nodes req_nodes
              then SLURM_SUCCESS else EINVAL,
              t')
    end.

(** What a call of [_job_test_topo] comes to: it returns a code, with
    the bitmap it leaves and the [total_cpus] it has summed; or it has
    no defined result; or the fuel of a loop was not enough. *)
Inductive topo_result : Type :=
| Topo_returns (rc : errno) (bitmap : bitstr_t) (total_cpus : Z)
| Topo_undefined
| Topo_no_fuel.

(** The code of [_job_test_topo] for the switch table [table].  When
    the job requires more nodes than [max_nodes] the function leaves for
    the label [fini] before it has allocated the switch arrays, and the
    loop at [fini] that frees [switches_bitmap[i]] reads the pointer
    [switches_bitmap], which has no value yet: the call has no defined
    result. *)
Definition job_test_topo_code (G : globals) (table : list switch_record)
    (job_ptr : job_record) (bitmap : bitstr_t) (min_nodes max_nodes req_nodes : Z)
    : topo_result :=
  let rem_cpus := to_int (min_cpus (details_of job_ptr)) in
  let rem_nodes :=
    if min_nodes <? req_nodes then to_int req_nodes else to_int min_nodes in
  let req_nodes_bitmap := option_map bit_copy (req_node_bitmap (details_of job_ptr)) in
  if match req_nodes_bitmap with
     | Some rb => max_nodes <? bit_set_count rb
     | None => false
     end
  then Topo_undefined
  else
    let cnt := switch_record_cnt G in
    let switches_bitmap :=
      map (fun i => bit_and (bit_copy (switch_node_bitmap (zth table i zero_switch)))
                      bitmap)
        (index_range 0 (cnt - 1)) in
    let avail_nodes_bitmap :=
      fold_left bit_or switches_bitmap (bit_alloc (node_record_count G)) in
    let switches_node_cnt := map bit_set_count switches_bitmap in
    let switches_required :=
      map (fun sw =>
             match req_nodes_bitmap with
             | Some rb => negb (bit_overlap rb sw =? 0)
             | None => false
             end)
        switches_bitmap in
    let t0 :=
      mk_topo
        (mk_sel (bit_nclear bitmap 0 (node_record_count G - 1)) rem_cpus rem_nodes
           max_nodes 0 0)
        avail_nodes_bitmap switches_bitmap switches_node_cnt
        (map (fun _ => 0) switches_bitmap) in
    let finish (r : option (errno * topo_state)) :=
      match r with
      | Some (rc, t) => Topo_returns rc (sel_bitmap (tp_sel t)) (sel_total_cpus (tp_sel t))
      | None => Topo_no_fuel
      end in
    match req_nodes_bitmap with
    | Some rb =>
        if negb (bit_super_set rb avail_nodes_bitmap) then finish (Some (EINVAL, t0))
        else
          let first := bit_ffs rb in
          let last := bit_fls rb in
          match topo_required G job_ptr cnt rb
                  (if 0 <=? first then index_range first last else []) t0 with
          | Leaves rc t1 => finish (Some (rc, t1))
          | Goes_on t1 =>
              if topo_satisfied (tp_sel t1) then finish (Some (SLURM_SUCCESS, t1))
              else
                match topo_leafs_fill G job_ptr table switches_required cnt t1 with
                | None => Topo_no_fuel
                | Some t2 =>
                    if topo_satisfied (tp_sel t2)
                    then finish (Some (SLURM_SUCCESS, t2))
                    else finish (topo_select G job_ptr table min_nodes req_nodes
                                   (topo_update G job_ptr cnt t2))
                end
          end
    | None =>
        finish (topo_select G job_ptr table min_nodes req_nodes
                  (topo_cpu_counts G job_ptr cnt t0))
    end.

End TopologySelector.

(** ** Release of one node of a job *)

(** [build_job_resources_cpu_array] of [src/common/job_resources.c] is
    not part of the sources: it stands here for what the call leaves in
    the [job_resources] record it is given. *)
Class JobResources : Type := {
  build_job_resources_cpu_array : job_resources_t -> job_resources_t
}.

Section OneNode.

Context {SL : Slurm} {JR : JobResources}.

Definition set_res_cpus (r : job_resources_t) (cpus' : list Z) : job_resources_t :=
  mk_resrcs (res_node_bitmap r) (ncpus r) (nhosts r) cpus' (cpus_used r)
    (memory_allocated r) (memory_used r) (cpu_array_value r) (cpu_array_reps r)
    (cpu_array_cnt r).

(** The loop [for (i = first_bit; i <= node_inx; i++)] that counts the
    nodes of the job up to [node_inx]: the pair of [i] and
    [node_offset] it ends with. *)
Definition one_node_offset (r : job_resources_t) (node_inx : Z) : Z * Z :=
  let first_bit := bit_ffs (resrcs_bitmap r) in
  fold_left
    (fun (st : Z * Z) (i : Z) =>
       (i + 1, if bit_test (resrcs_bitmap r) i then snd st + 1 else snd st))
    (index_range first_bit node_inx) (first_bit, -1).

(** [_rm_job_from_one_node], for a registry that is not NULL;
    [node_inx] is [node_ptr - node_record_table_ptr].  The array [cpus]
    of a [job_resources] record is never NULL here.  The GRES list is
    read from [cr_ptr->nodes[i]] with the [i] the counting loop ends
    with; a read past the arrays gives a zeroed record (undefined
    in C). *)
Definition _rm_job_from_one_node (G : globals) (cr : cr_record) (job_ptr : job_record)
    (node_inx : Z) (h : gres_heap) : errno * cr_record * job_record * gres_heap :=
  if negb (_test_tot_job cr (job_id job_ptr)) then (SLURM_ERROR, cr, job_ptr, h)
  else
    let '(job_memory_cpu, job_memory_node) := job_memory_request G (details job_ptr) in
    match job_resrcs job_ptr with
    | None => (SLURM_ERROR, cr, job_ptr, h)
    | Some job_resrcs_ptr =>
        if negb (bit_test (resrcs_bitmap job_resrcs_ptr) node_inx)
        then (SLURM_ERROR, cr, job_ptr, h)
        else
          let '(i, node_offset) := one_node_offset job_resrcs_ptr node_inx in
          if zth (res_cpus job_resrcs_ptr) node_offset 0 =? 0
          then (SLURM_ERROR, cr, job_ptr, h)
          else
            let job1 :=
              set_job_resrcs job_ptr
                (Some (build_job_resources_cpu_array
                         (set_res_cpus job_resrcs_ptr
                            (zset (res_cpus job_resrcs_ptr) node_offset 0)))) in
            let is_job_running := _test_run_job cr (job_id job_ptr) in
            let cpu_cnt := to_uint16 (node_cpu_cnt G node_inx) in
            let n := zth (nodes cr) node_inx zero_node_cr in
            let job_memory :=
              if negb (job_memory_cpu =? 0)
              then to_uint32 (job_memory_cpu * cpu_cnt)
              else job_memory_node in
            let mem :=
              if job_memory <=? alloc_memory n then alloc_memory n - job_memory else 0 in
            let gres_list :=
              match cr_gres_list (zth (nodes cr) i zero_node_cr) with
              | Some g => Some g
              | None => node_gres_list (zth (node_record_table_ptr G) node_inx zero_node)
              end in
            let h1 :=
              gres_plugin_job_dealloc (job_gres_list job_ptr) gres_list node_offset
                (job_id job_ptr) node_inx h in
            let excl :=
              if shared (details_of job_ptr) =? 0
              then (if negb (exclusive_cnt n =? 0) then exclusive_cnt n - 1
                    else exclusive_cnt n)
              else exclusive_cnt n in
            match update_part (parts n) (part_ptr job_ptr)
                    (rm_part_counts is_job_running true) with
            | Some ps =>
                (SLURM_SUCCESS,
                 mk_cr (zset (nodes cr) node_inx (mk_node_cr ps mem excl (cr_gres_list n)))
                   (run_job_ids cr) (tot_job_ids cr),
                 job1, h1)
            | None =>
                (SLURM_ERROR,
                 mk_cr (zset (nodes cr) node_inx
                          (mk_node_cr (parts n) mem excl (cr_gres_list n)))
                   (run_job_ids cr) (tot_job_ids cr),
                 job1, h1)
            end
    end.

(** [select_p_job_resized]: its result is always [SLURM_SUCCESS]. *)
Definition select_p_job_resized (G : globals) (w : world) (job_ptr : nat)
    (node_inx : Z) : world :=
  with_registry G w (fun cr j h => _rm_job_from_one_node G cr j node_inx h) job_ptr.

End OneNode.

(** * The registries in memory *)

(** The functions above pass registries by value and so cannot tell a
    registry from a copy of it.  Here the [cr_record]s of the process
    live in blocks: a [struct cr_record *] is NULL or the address of a
    block, [xmalloc] gives a block that was never in use, [xfree]
    empties a block, and a read or a write through the address of an
    empty block is undefined.  A block holds the record together with
    the arrays and the partition lists it owns; the GRES lists are the
    plugin's and stay in its state.

    Modelled from the spec: [xmalloc] and [xfree] of
    [src/common/xmalloc.c] are not part of the sources. *)
Section RegistryMemory.

Context {SL : Slurm} {CT : Slurmctld}.

Definition cr_heap : Type := list (option cr_record).

Definition cr_load (m : cr_heap) (p : nat) : option cr_record := nth p m None.

Definition cr_xmalloc (m : cr_heap) (cr : cr_record) : nat * cr_heap :=
  (length m, m ++ [Some cr]).

Definition cr_write (m : cr_heap) (p : nat) (cr : cr_record) : cr_heap :=
  list_set m p (Some cr).

Definition cr_xfree (m : cr_heap) (p : nat) : cr_heap := list_set m p None.

(** A call with the registries in memory returns with a result, the
    memory and the rest of the state, or ends the process, or is
    undefined (it went through the address of an empty block). *)
Inductive mem_outcome (A : Type) : Type :=
| Mem_returns (a : A) (m : cr_heap) (w : world)
| Mem_aborts
| Mem_undefined.

(** [_dup_cr] on addresses: NULL for NULL, otherwise the address of a
    new block that holds the copy. *)
Definition _dup_cr_mem (G : globals) (m : cr_heap) (cr_p : option nat) (h : gres_heap)
    : option (option nat * cr_heap * gres_heap) :=
  match cr_p with
  | None => Some (None, m, h)
  | Some a =>
      match cr_load m a with
      | None => None
      | Some cr =>
          let '(new_cr, h') := _dup_cr G cr h in
          let '(new_cr_ptr, m') := cr_xmalloc m new_cr in
          Some (Some new_cr_ptr, m', h')
      end
  end.

(** [_free_cr] on addresses: the GRES lists of the record are destroyed
    and its block is freed. *)
Definition _free_cr_mem (G : globals) (m : cr_heap) (cr_p : option nat) (h : gres_heap)
    : option (cr_heap * gres_heap) :=
  match cr_p with
  | None => Some (m, h)
  | Some a =>
      match cr_load m a with
      | None => None
      | Some cr => Some (cr_xfree m a, _free_cr G (Some cr) h)
      end
  end.

(** [_rm_job_from_nodes (exp_cr, tmp_job_ptr, ..)]: the record at the
    address [exp_cr] is updated in place. *)
Definition rm_job_at_mem (G : globals) (m : cr_heap) (exp_cr : nat) (w : world)
    (tmp_job_ptr : nat) (remove_all : bool) : option (cr_heap * world) :=
  match cr_load m exp_cr with
  | None => None
  | Some cr =>
      let '(cr', w') := rm_job_at G cr w tmp_job_ptr remove_all in
      Some (cr_write m exp_cr cr', w')
  end.

(** State of the loops that remove jobs from the scratch registry at
    an address. *)
Record mem_state : Type := mk_ms {
  ms_rc : errno;
  ms_bitmap : bitstr_t;
  ms_heap : cr_heap;
  ms_world : world
}.

(** The preemption loop of [_run_now] over [job_list], on the scratch
    registry at the address [exp_cr]. *)
Fixpoint run_now_preempt_mem (G : globals) (job_ptr : nat) (orig_map : bitstr_t)
    (min_nodes max_nodes req_nodes max_share : Z)
    (preemptee_candidates : option (list nat)) (exp_cr : nat) (jobs : list nat)
    (st : mem_state) : option mem_state :=
  match jobs with
  | [] => Some st
  | k :: rest =>
      let w := ms_world st in
      let tmp := job_at w k in
      if negb (IS_JOB_RUNNING tmp) && negb (IS_JOB_SUSPENDED tmp)
      then run_now_preempt_mem G job_ptr orig_map min_nodes max_nodes req_nodes
             max_share preemptee_candidates exp_cr rest st
      else if _is_preemptable k preemptee_candidates then
        match rm_job_at_mem G (ms_heap st) exp_cr w k (preempt_remove_all tmp) with
        | None => None
        | Some (m1, w1) =>
            match cr_load m1 exp_cr with
            | None => None
            | Some cr =>
                let '(j, bitmap1) :=
                  _job_count_bitmap G (gres w1) cr (job_at w1 job_ptr) orig_map
                    (ms_bitmap st) (max_share - 1) NO_SHARE_LIMIT SELECT_MODE_RUN_NOW in
                if j <? min_nodes
                then run_now_preempt_mem G job_ptr orig_map min_nodes max_nodes
                       req_nodes max_share preemptee_candidates exp_cr rest
                       (mk_ms (ms_rc st) bitmap1 m1 w1)
                else
                  let '(rc, bitmap2, w2) :=
                    job_test_at G w1 job_ptr bitmap1 min_nodes max_nodes req_nodes in
                  if errno_eqb rc SLURM_SUCCESS then Some (mk_ms rc bitmap2 m1 w2)
                  else run_now_preempt_mem G job_ptr orig_map min_nodes max_nodes
                         req_nodes max_share preemptee_candidates exp_cr rest
                         (mk_ms rc bitmap2 m1 w2)
            end
        end
      else run_now_preempt_mem G job_ptr orig_map min_nodes max_nodes req_nodes
             max_share preemptee_candidates exp_cr rest st
  end.

(** [_run_now] with the registries in memory: [cr_p] is the global
    [cr_ptr], [w] gives the job list, the GRES state and the clock. *)
Definition _run_now_mem (G : globals) (m : cr_heap) (cr_p : option nat) (w : world)
    (job_ptr : nat) (bitmap : bitstr_t) (min_nodes max_nodes max_share req_nodes : Z)
    (preemptee_candidates : option (list nat)) (preemptee_job_list : preemptee_out)
    : mem_outcome (errno * bitstr_t * preemptee_out) :=
  match cr_p with
  | None => Mem_aborts _
  | Some a =>
      match cr_load m a with
      | None => Mem_undefined _
      | Some cr =>
          let orig_map := bit_copy bitmap in
          let st :=
            fold_left
              (run_now_share G cr job_ptr orig_map min_nodes max_nodes req_nodes
                 max_share)
              (index_range 0 (max_share - 1)) (mk_rn EINVAL (-1) bitmap w) in
          let after :=
            match preemptee_candidates with
            | Some _ =>
                if negb (errno_eqb (rn_rc st) SLURM_SUCCESS) then
                  match _dup_cr_mem G m cr_p (gres (rn_world st)) with
                  | None => None
                  | Some (None, m1, h) =>
                      Some (rn_rc st, rn_bitmap st, preemptee_job_list, m1,
                            set_gres (rn_world st) h)
                  | Some (Some exp_cr, m1, h) =>
                      match run_now_preempt_mem G job_ptr orig_map min_nodes max_nodes
                              req_nodes max_share preemptee_candidates exp_cr
                              (job_pointers (rn_world st))
                              (mk_ms (rn_rc st) (rn_bitmap st) m1
                                 (set_gres (rn_world st) h)) with
                      | None => None
                      | Some ms =>
                          let out :=
                            build_preemptee_list (ms_world ms) (ms_bitmap ms) (ms_rc ms)
                              preemptee_candidates preemptee_job_list in
                          match _free_cr_mem G (ms_heap ms) (Some exp_cr)
                                  (gres (ms_world ms)) with
                          | None => None
                          | Some (m2, h2) =>
                              Some (ms_rc ms, ms_bitmap ms, out, m2,
                                    set_gres (ms_world ms) h2)
                          end
                      end
                  end
                else Some (rn_rc st, rn_bitmap st, preemptee_job_list, m, rn_world st)
            | None => Some (rn_rc st, rn_bitmap st, preemptee_job_list, m, rn_world st)
            end in
          match after with
          | None => Mem_undefined _
          | Some (rc, bitmap1, out, m', w1) =>
              let w2 :=
                if errno_eqb rc SLURM_SUCCESS
                then set_job w1 job_ptr
                       (_build_select_struct G (job_at w1 job_ptr) bitmap1)
                else w1 in
              Mem_returns _ (rc, bitmap1, out) m' w2
          end
      end
  end.

(** The first loop of [_will_run_test] over [job_list], on the scratch
    registry at the address [exp_cr]. *)
Fixpoint will_run_split_mem (G : globals) (preemptee_candidates : option (list nat))
    (exp_cr : nat) (jobs : list nat) (st : cr_heap * world * list nat)
    : option (cr_heap * world * list nat) :=
  match jobs with
  | [] => Some st
  | k :: rest =>
      let '(m, w, cr_job_list) := st in
      let tmp := job_at w k in
      if negb (IS_JOB_RUNNING tmp) && negb (IS_JOB_SUSPENDED tmp)
      then will_run_split_mem G preemptee_candidates exp_cr rest st
      else if end_time tmp =? 0
      then will_run_split_mem G preemptee_candidates exp_cr rest st
      else if _is_preemptable k preemptee_candidates then
        match rm_job_at_mem G m exp_cr w k (preempt_remove_all tmp) with
        | None => None
        | Some (m', w') =>
            will_run_split_mem G preemptee_candidates exp_cr rest (m', w', cr_job_list)
        end
      else will_run_split_mem G preemptee_candidates exp_cr rest
             (m, w, cr_job_list ++ [k])
  end.

(** The second loop of [_will_run_test], on the scratch registry at the
    address [exp_cr]. *)
Fixpoint will_run_replay_mem (G : globals) (job_ptr : nat) (orig_map : bitstr_t)
    (min_nodes max_nodes req_nodes max_run_jobs now : Z) (exp_cr : nat)
    (jobs : list nat) (st : mem_state) : option mem_state :=
  match jobs with
  | [] => Some st
  | k :: rest =>
      match rm_job_at_mem G (ms_heap st) exp_cr (ms_world st) k true with
      | None => None
      | Some (m1, w1) =>
          match cr_load m1 exp_cr with
          | None => None
          | Some cr =>
              let '(i, bitmap1) :=
                _job_count_bitmap G (gres w1) cr (job_at w1 job_ptr) orig_map
                  (ms_bitmap st) max_run_jobs NO_SHARE_LIMIT SELECT_MODE_RUN_NOW in
              if i <? min_nodes
              then will_run_replay_mem G job_ptr orig_map min_nodes max_nodes req_nodes
                     max_run_jobs now exp_cr rest (mk_ms (ms_rc st) bitmap1 m1 w1)
              else
                let '(rc, bitmap2, w2) :=
                  job_test_at G w1 job_ptr bitmap1 min_nodes max_nodes req_nodes in
                if negb (errno_eqb rc SLURM_SUCCESS)
                then will_run_replay_mem G job_ptr orig_map min_nodes max_nodes
                       req_nodes max_run_jobs now exp_cr rest (mk_ms rc bitmap2 m1 w2)
                else
                  let tmp := job_at w2 k in
                  let t := if end_time tmp <=? now then now + 1 else end_time tmp in
                  Some (mk_ms rc bitmap2 m1
                          (set_job w2 job_ptr (set_start_time (job_at w2 job_ptr) t)))
          end
      end
  end.

(** [_will_run_test] with the registries in memory: [cr_p] is the
    global [cr_ptr], [w] gives the job list, the GRES state and the
    clock. *)
Definition _will_run_test_mem (G : globals) (m : cr_heap) (cr_p : option nat)
    (w : world) (job_ptr : nat) (bitmap : bitstr_t)
    (min_nodes max_nodes max_share req_nodes : Z)
    (preemptee_candidates : option (list nat)) (preemptee_job_list : preemptee_out)
    : mem_outcome (errno * bitstr_t * preemptee_out) :=
  match cr_p with
  | None => Mem_aborts _
  | Some a =>
      match cr_load m a with
      | None => Mem_undefined _
      | Some cr =>
          let '(now, w0) := read_time w in
          let max_run_jobs := Z.max (max_share - 1) 1 in
          let orig_map := bit_copy bitmap in
          let '(i, bitmap1) :=
            _job_count_bitmap G (gres w0) cr (job_at w0 job_ptr) orig_map bitmap
              max_run_jobs NO_SHARE_LIMIT SELECT_MODE_WILL_RUN in
          let '(rc1, bitmap2, w1) :=
            if min_nodes <=? i
            then job_test_at G w0 job_ptr bitmap1 min_nodes max_nodes req_nodes
            else (SLURM_ERROR, bitmap1, w0) in
          if (min_nodes <=? i) && errno_eqb rc1 SLURM_SUCCESS then
            let '(t, w2) := read_time w1 in
            Mem_returns _ (SLURM_SUCCESS, bitmap2, preemptee_job_list) m
              (set_job w2 job_ptr (set_start_time (job_at w2 job_ptr) t))
          else
            match _dup_cr_mem G m cr_p (gres w1) with
            | None => Mem_undefined _
            | Some (None, m1, h) =>
                Mem_returns _ (SLURM_ERROR, bitmap2, preemptee_job_list) m1
                  (set_gres w1 h)
            | Some (Some exp_cr, m1, h) =>
                match will_run_split_mem G preemptee_candidates exp_cr
                        (job_pointers w1) (m1, set_gres w1 h, []) with
                | None => Mem_undefined _
                | Some (m2, w2, cr_job_list) =>
                    let tested :=
                      match preemptee_candidates with
                      | Some _ =>
                          match cr_load m2 exp_cr with
                          | None => None
                          | Some exp =>
                              let '(i', b) :=
                                _job_count_bitmap G (gres w2) exp (job_at w2 job_ptr)
                                  orig_map bitmap2 max_run_jobs NO_SHARE_LIMIT
                                  SELECT_MODE_RUN_NOW in
                              if min_nodes <=? i' then
                                let '(rc, b', w') :=
                                  job_test_at G w2 job_ptr b min_nodes max_nodes
                                    req_nodes in
                                Some (rc, b',
                                      if errno_eqb rc SLURM_SUCCESS
                                      then set_job w' job_ptr
                                             (set_start_time (job_at w' job_ptr) (now + 1))
                                      else w')
                              else Some (rc1, b, w2)
                          end
                      | None => Some (rc1, bitmap2, w2)
                      end in
                    match tested with
                    | None => Mem_undefined _
                    | Some (rc2, bitmap3, w3) =>
                        match
                          if negb (errno_eqb rc2 SLURM_SUCCESS)
                          then will_run_replay_mem G job_ptr orig_map min_nodes
                                 max_nodes req_nodes max_run_jobs now exp_cr
                                 (list_sort w3 cr_job_list) (mk_ms rc2 bitmap3 m2 w3)
                          else Some (mk_ms rc2 bitmap3 m2 w3)
                        with
                        | None => Mem_undefined _
                        | Some ms =>
                            let out :=
                              build_preemptee_list (ms_world ms) (ms_bitmap ms)
                                (ms_rc ms) preemptee_candidates preemptee_job_list in
                            match _free_cr_mem G (ms_heap ms) (Some exp_cr)
                                    (gres (ms_world ms)) with
                            | None => Mem_undefined _
                            | Some (m3, h3) =>
                                Mem_returns _ (ms_rc ms, ms_bitmap ms, out) m3
                                  (set_gres (ms_world ms) h3)
                            end
                        end
                    end
                end
            end
      end
  end.

End RegistryMemory.

Arguments Mem_returns {SL A} a m w.
Arguments Mem_aborts {SL A}.
Arguments Mem_undefined {SL A}.


(** * Concrete clusters *)

Module Scenario.

Definition slurm : Slurm := {|
  NO_VAL := 0xfffffffe;
  CR_MEMORY := 0x10;
  SHARED_FORCE := 0x8000;
  cnt_bits := 16%positive;
  gres_job_t := unit;
  gres_node_t := unit;
  gres_heap := unit;
  gres_plugin_job_test := fun _ _ _ _ _ _ => 0xfffffffe;
  gres_plugin_job_alloc := fun _ _ _ _ _ _ _ h => h;
  gres_plugin_job_dealloc := fun _ _ _ _ _ h => h;
  gres_plugin_node_state_dup := fun g h => (g, h);
  gres_plugin_node_state_dealloc_all := fun _ h => h;
  list_destroy := fun _ h => h;
  slurm_get_avail_procs := fun _ _ _ _ _ _ _ cpus _ _ _ _ _ => cpus;
  time := fun n => 1000 + Z.of_nat n
|}.

#[local] Existing Instance slurm.

Definition slurmctld : Slurmctld := {|
  slurm_job_preempt_mode := fun _ => PREEMPT_MODE_OFF;
  job_test_topo_result := fun _ _ bitmap _ _ _ => (EINVAL, bitmap, 0)
|}.

#[local] Existing Instance slurmctld.

(** The bitmap of [n] bits whose set bits are those of [l]. *)
Definition bits (l : list Z) (n : nat) : bitstr_t :=
  map (fun i => existsb (Z.eqb (Z.of_nat i)) l) (seq 0 n).

(** A node of 4 CPUs and a given real memory. *)
Definition node4 (mem : Z) : node_record :=
  mk_node 4 1 4 1 mem (mk_config 4 1 4 1 mem) None.

(** Nodes 0..7, 4 CPUs each, no topology, no partition. *)
Definition cluster8 : globals :=
  mk_globals (repeat (node4 1000) 8) 8 (repeat (node4 1000) 8) 8 1 0 [] 0 None.

(** A contiguous job of 12 CPUs that requires node 5. *)
Definition job_s2 : job_record :=
  mk_job 7 JOB_PENDING 1 None
    (Some (mk_details 12 (Some (bits [5] 8)) None 1 0 0 0 0 None))
    None [] 0 0 0 0 false None.

(** One node of 4 CPUs in one partition; [cr_type] is [type]. *)
Definition cluster1 (mem type : Z) : globals :=
  mk_globals [node4 mem] 1 [node4 mem] 1 1 type [mk_part (Some [true]) 1] 0 None.

(** A job on partition 0 and, when [alloc], allocated node 0. *)
Definition job_on_node0 (id : Z) (state : job_states) (shared' pn_min_memory' : Z)
    (alloc : bool) (end_time' : Z) : job_record :=
  mk_job id state 1 (Some O)
    (Some (mk_details 4 None None 0 shared' pn_min_memory' 0 0 None))
    (if alloc
     then Some (mk_resrcs (Some [true]) 4 1 [4] [0] [0] [0] [4] [1] 1)
     else None)
    (if alloc then [true] else [false]) (if alloc then 1 else 0)
    (if alloc then 4 else 0) 0 end_time' false None.

(** The registry built for [cluster1] when no job runs. *)
Definition world0 (jobs : list job_record) : world := mk_world None jobs tt O.

Definition registry0 : cr_record :=
  mk_cr [mk_node_cr [mk_part_cr 0 0 0] 0 0 None] [] [].

(** Node 0 runs job 42, which shares its node. *)
Definition registry_busy : cr_record :=
  mk_cr [mk_node_cr [mk_part_cr 0 1 1] 0 0 None]
    (42 :: repeat 0 15) (42 :: repeat 0 15).

(** Node 0 with jobs 1..16 in both id arrays: no slot is empty. *)
Definition registry_full : cr_record :=
  mk_cr [mk_node_cr [mk_part_cr 0 16 16] 0 0 None]
    (map Z.of_nat (seq 1 16)) (map Z.of_nat (seq 1 16)).

(** Two nodes of 4 CPUs in one partition. *)
Definition cluster2 : globals :=
  mk_globals [node4 1000; node4 1000] 2 [node4 1000; node4 1000] 2 1 0
    [mk_part (Some [true; true]) 1] 0 None.

(** Job 42 runs on node 0 of [cluster2]; in the registry node 1 has a
    GRES list of its own. *)
Definition registry_pair : cr_record :=
  mk_cr [mk_node_cr [mk_part_cr 0 1 1] 0 0 None;
         mk_node_cr [mk_part_cr 0 0 0] 0 0 (Some tt)]
    (42 :: repeat 0 15) (42 :: repeat 0 15).

Definition job_on_pair : job_record :=
  mk_job 42 JOB_RUNNING 1 (Some O)
    (Some (mk_details 4 None None 0 1 0 0 0 None))
    (Some (mk_resrcs (Some [true; false]) 4 1 [4] [0] [0] [0] [4] [1] 1))
    [true; false] 1 4 0 5000 false None.

(** Node 0 runs job 42, which has the node for itself. *)
Definition registry_excl : cr_record :=
  mk_cr [mk_node_cr [mk_part_cr 0 1 1] 0 1 None]
    (42 :: repeat 0 15) (42 :: repeat 0 15).

Definition world_excl : world :=
  mk_world (Some registry_excl)
    [job_on_node0 42 JOB_RUNNING 0 0 true 5000;
     job_on_node0 7 JOB_PENDING 0 0 false 0]
    tt O.

Definition world_busy : world :=
  mk_world (Some registry_busy)
    [job_on_node0 42 JOB_RUNNING 1 0 true 5000;
     job_on_node0 7 JOB_PENDING 0 0 false 0]
    tt O.

(** Nodes 0..7 under two leaf switches of four nodes each and one
    switch above them. *)
Definition cluster8_tree : globals :=
  mk_globals (repeat (node4 1000) 8) 8 (repeat (node4 1000) 8) 8 1 0 [] 3
    (Some [mk_switch 0 (bits [0; 1; 2; 3] 8);
           mk_switch 0 (bits [4; 5; 6; 7] 8);
           mk_switch 1 (bits [0; 1; 2; 3; 4; 5; 6; 7] 8)]).

(** The first [n] nodes set in [b]. *)
Fixpoint pick_first (b : bitstr_t) (n : nat) : bitstr_t :=
  match b with
  | [] => []
  | x :: r =>
      if x
      then match n with
           | O => false :: pick_first r O
           | S n' => true :: pick_first r n'
           end
      else false :: pick_first r n
  end.

Definition bitstring : Bitstring := {|
  bit_pick_cnt := fun b nbits =>
    if bit_set_count b <? nbits then None else Some (pick_first b (Z.to_nat nbits))
|}.

(** The arrays [cpu_array_value] and [cpu_array_reps] built again from
    the first [nhosts] entries of [cpus]. *)
Definition job_resources : JobResources := {|
  build_job_resources_cpu_array := fun r =>
    let rle := fold_left cpu_array_add (firstn (Z.to_nat (nhosts r)) (res_cpus r)) [] in
    mk_resrcs (res_node_bitmap r) (ncpus r) (nhosts r) (res_cpus r) (cpus_used r)
      (memory_allocated r) (memory_used r)
      (pad (map fst rle) (Z.to_nat (nhosts r))) (pad (map snd rle) (Z.to_nat (nhosts r)))
      (Z.of_nat (length rle))
|}.

End Scenario.

(** * Vocabulary of the statements *)

(** The ids an array holds: its entries other than 0. *)
Definition live (ids : list Z) (x : Z) : Prop := x <> 0 /\ In x ids.

(** An id array that can take one more id: it has an empty slot, or it
    is short enough for its 16-bit length to take [RUN_JOB_INCR] more
    slots. *)
Definition ids_room (ids : list Z) : Prop :=
  existsb (Z.eqb 0) ids = true \/
  Z.of_nat (length ids) + Z.of_nat RUN_JOB_INCR < 2 ^ 16.

(** The number of slots of an id array that hold an id. *)
Definition id_count (ids : list Z) : nat :=
  length (filter (fun x => negb (x =? 0)) ids).

Section Vocabulary.

Context {SL : Slurm}.

(** A call left the registry as it was: it returned with [cr_ptr]
    unchanged, or it ended the process because there was no registry. *)
Definition registry_unchanged {A : Type} (w : world) (o : outcome A) : Prop :=
  match o with
  | Returns _ w' => cr_ptr w' = cr_ptr w
  | Aborts => cr_ptr w = None
  end.

(** The world [select_p_job_test] works on after its lazy build. *)
Definition built (G : globals) (w : world) : world :=
  match cr_ptr w with None => _init_node_cr G w | Some _ => w end.

(** What a call of [select_p_job_test] for the job [job_ptr] left of
    the registry: the registry it found; or, when it found none, none
    for a job without details and otherwise the registry
    [_init_node_cr] builds.  The call ended the process only for a job
    that shares nodes and has no partition. *)
Definition registry_kept_or_built {A : Type} (G : globals) (w : world) (job_ptr : nat)
    (o : outcome A) : Prop :=
  match o with
  | Returns _ w' =>
      match cr_ptr w with
      | Some cr => cr_ptr w' = Some cr
      | None =>
          match details (job_at w job_ptr) with
          | None => cr_ptr w' = None
          | Some _ => cr_ptr w' = cr_ptr (_init_node_cr G w) /\ cr_ptr w' <> None
          end
      end
  | Aborts =>
      details (job_at w job_ptr) <> None /\
      job_max_share G (job_at (built G w) job_ptr) = None
  end.

(** *** Commit followed by release *)

(** [commit_alloc] then the matching [release_alloc], the release being
    given the job record as the commit left it. *)
Definition commit_release (G : globals) (job_ptr : job_record) (all : bool)
    (st : cr_record * gres_heap) : cr_record * gres_heap :=
  let '(_, cr1, job1, h1) := _add_job_to_nodes G (fst st) job_ptr all (snd st) in
  let '(_, cr2, _, h2) := _rm_job_from_nodes G cr1 job1 all h1 in
  (cr2, h2).

(** A sequence of such pairs, one after the other. *)
Definition commit_release_all (G : globals) (jobs : list job_record) (all : bool)
    (st : cr_record * gres_heap) : cr_record * gres_heap :=
  fold_left (fun st job_ptr => commit_release G job_ptr all st) jobs st.

(** Two registries hold the same state: equal per-node records
    ([alloc_memory], [exclusive_cnt], every [run_job_cnt] and
    [tot_job_cnt]), the same run set and the same total set. *)
Definition same_registry (a b : cr_record) : Prop :=
  nodes a = nodes b /\
  (forall x, in_run_set a x <-> in_run_set b x) /\
  (forall x, in_tot_set a x <-> in_tot_set b x).

(** The memory a job with [alloc_all] takes on node [i]. *)
Definition job_mem_on (G : globals) (job_ptr : job_record) (i : Z) : Z :=
  let '(job_memory_cpu, job_memory_node) := job_memory_request G (details job_ptr) in
  if negb (job_memory_cpu =? 0)
  then to_uint32 (job_memory_cpu * to_uint16 (node_cpu_cnt G i))
  else job_memory_node.

(** The nodes the loops of the allocator work on: set in the bitmap of
    [job_resrcs] and in the job's own bitmap. *)
Definition job_touches (job_ptr : job_record) (i : Z) : bool :=
  match job_resrcs job_ptr with
  | Some r => bit_test (resrcs_bitmap r) i && bit_test (node_bitmap job_ptr) i
  | None => false
  end.

(** A partition record whose counters can take one more job and are
    not out of step. *)
Definition part_has_room (p : part_cr_record) : Prop :=
  0 <= run_job_cnt p /\ run_job_cnt p + 1 < 2 ^ Zpos cnt_bits /\
  0 <= tot_job_cnt p /\ tot_job_cnt p + 1 < 2 ^ Zpos cnt_bits /\
  (tot_job_cnt p = 0 -> run_job_cnt p = 0).

(** A node record that can take the job without a counter wrapping. *)
Definition node_has_room (G : globals) (job_ptr : job_record) (i : Z)
    (n : node_cr_record) : Prop :=
  0 <= alloc_memory n /\ 0 <= job_mem_on G job_ptr i /\
  alloc_memory n + job_mem_on G job_ptr i < 2 ^ 32 /\
  (shared (details_of job_ptr) = 0 ->
   0 <= exclusive_cnt n /\ exclusive_cnt n + 1 < 2 ^ Zpos cnt_bits) /\
  (forall p, In p (parts n) -> part_ptr job_ptr = Some (cr_part_ptr p) ->
             part_has_room p).

(** The job is new to the registry, its nodes have room for it, a job
    with [job_resrcs] has [details] (both functions read
    [job_ptr->details->shared] once [job_resrcs] is known not to be
    NULL), and the two id arrays can take one more id. *)
Definition roundtrip_ok (G : globals) (cr : cr_record) (job_ptr : job_record) : Prop :=
  ~ in_run_set cr (job_id job_ptr) /\ ~ in_tot_set cr (job_id job_ptr) /\
  (forall i, job_touches job_ptr i = true ->
             node_has_room G job_ptr i (zth (nodes cr) i zero_node_cr)) /\
  (job_resrcs job_ptr <> None -> details job_ptr <> None) /\
  ids_room (run_job_ids cr) /\ ids_room (tot_job_ids cr).

(** The number of table entries the selector loop can still choose. *)
Definition open_runs (runs : list consec) : nat :=
  length (filter (fun r => negb (consec_nodes r =? 0)) runs).

(** A best fit that names no entry, or an entry of [runs] with nodes. *)
Definition picked (runs : list consec) (bf : best_fit) : Prop :=
  best_fit_nodes bf = 0 \/
  (0 <= best_fit_location bf /\
   exists r, nth_error runs (Z.to_nat (best_fit_location bf)) = Some r /\
             consec_nodes r <> 0).

(** The list a walk leaves: the updated list, or the list itself when
    the walk finds no record. *)
Definition walked (ps : list part_cr_record) (p : option nat)
    (g : part_cr_record -> part_cr_record) : list part_cr_record :=
  match update_part ps p g with Some ps' => ps' | None => ps end.

(** What one turn of the loop of [_add_job_to_nodes] and of
    [_rm_job_from_nodes] writes in the record of a node it works on. *)
Definition add_node_cr (G : globals) (job_ptr : job_record) (alloc_all : bool)
    (job_memory_cpu job_memory_node : Z) (exclusive : bool) (i : Z)
    (n : node_cr_record) : node_cr_record :=
  mk_node_cr
    (match update_part (parts n) (part_ptr job_ptr) (add_part_counts alloc_all) with
     | Some ps => ps
     | None => parts n
     end)
    (if negb (job_memory_cpu =? 0)
     then to_uint32 (alloc_memory n
                     + to_uint32 (job_memory_cpu * to_uint16 (node_cpu_cnt G i)))
     else to_uint32 (alloc_memory n + job_memory_node))
    (if exclusive then cnt_incr (exclusive_cnt n) else exclusive_cnt n)
    (cr_gres_list n).

Definition rm_node_cr (G : globals) (job_ptr : job_record) (remove_all : bool)
    (job_memory_cpu job_memory_node : Z) (exclusive is_job_running : bool) (i : Z)
    (n : node_cr_record) : node_cr_record :=
  let job_memory :=
    if negb (job_memory_cpu =? 0)
    then to_uint32 (job_memory_cpu * to_uint16 (node_cpu_cnt G i))
    else job_memory_node in
  mk_node_cr
    (match update_part (parts n) (part_ptr job_ptr)
             (rm_part_counts is_job_running remove_all) with
     | Some ps => ps
     | None => parts n
     end)
    (if job_memory <=? alloc_memory n then alloc_memory n - job_memory else 0)
    (if exclusive
     then (if negb (exclusive_cnt n =? 0) then exclusive_cnt n - 1
           else exclusive_cnt n)
     else exclusive_cnt n)
    (cr_gres_list n).

End Vocabulary.

(** ** Vocabulary of the further properties *)

Section Invariants.

Context {SL : Slurm}.

(** Every id of the run set is in the total set. *)
Definition run_within_tot (cr : cr_record) : Prop :=
  forall x, in_run_set cr x -> in_tot_set cr x.

(** The jobs [_init_node_cr] records: running or suspended, with a
    [job_resrcs]. *)
Definition job_is_recorded (j : job_record) : bool :=
  (IS_JOB_RUNNING j || IS_JOB_SUSPENDED j)
  && match job_resrcs j with Some _ => true | None => false end.

End Invariants.

(** The sum of [f] over the indices of [l] whose bit is set in [b]. *)
Definition node_sum (f : Z -> Z) (b : bitstr_t) (l : list Z) : Z :=
  fold_right (fun i acc => f i + acc) 0 (filter (bit_test b) l).

(** All the indices of a bitmap. *)
Definition all_nodes (b : bitstr_t) : list Z :=
  index_range 0 (Z.of_nat (length b) - 1).

(** An entry of the selector's table lies on nodes available in
    [bitmap]: those from its start to its end and, when it has a
    required node, those from that node to its end. *)
Definition run_ok (bitmap : bitstr_t) (r : consec) : Prop :=
  (forall i, consec_start r <= i <= consec_end r -> bit_test bitmap i = true) /\
  (consec_req r <> -1 ->
   consec_req r <= consec_end r /\
   forall i, consec_req r <= i <= consec_end r -> bit_test bitmap i = true).

(** A best fit that names no entry, or an entry of [runs] with nodes
    whose required node it carries. *)
Definition chosen (runs : list consec) (bf : best_fit) : Prop :=
  best_fit_nodes bf = 0 \/
  (0 <= best_fit_location bf /\
   exists r, nth_error runs (Z.to_nat (best_fit_location bf)) = Some r /\
             consec_nodes r <> 0 /\ best_fit_req bf = consec_req r).

Section SelectorInvariants.

Context {SL : Slurm}.

(** The selector's bitmap has the length of the bitmap it was given and
    holds only nodes of it. *)
Definition sel_within (bitmap : bitstr_t) (s : sel_state) : Prop :=
  length (sel_bitmap s) = length bitmap /\
  forall i, bit_test (sel_bitmap s) i = true -> bit_test bitmap i = true.

(** The numbers the selector starts from: [max_nodes], [rem_nodes] and
    [rem_cpus]. *)
Record sel_start : Type := mk_start {
  start_max_nodes : Z;
  start_rem_nodes : Z;
  start_rem_cpus : Z
}.

(** The selector's counters account for the nodes of [done] set in its
    bitmap: each took one from [max_nodes] and from [rem_nodes], added
    its CPUs to [total_cpus], and moved its available CPUs from
    [rem_cpus] to [alloc_cpus]. *)
Definition sel_counts (G : globals) (job_ptr : job_record) (c : sel_start)
    (s : sel_state) (done : list Z) : Prop :=
  node_sum (fun _ => 1) (sel_bitmap s) done + sel_max_nodes s = start_max_nodes c /\
  node_sum (_get_total_cpus G) (sel_bitmap s) done = sel_total_cpus s /\
  (0 <= start_max_nodes c -> 0 <= sel_max_nodes s) /\
  node_sum (fun _ => 1) (sel_bitmap s) done + sel_rem_nodes s = start_rem_nodes c /\
  node_sum (_get_avail_cpus G job_ptr) (sel_bitmap s) done = sel_alloc_cpus s /\
  sel_alloc_cpus s + sel_rem_cpus s = start_rem_cpus c.

(** The entry the table loop is filling when it comes to index [idx]. *)
Definition cur_ok (bitmap : bitstr_t) (idx : Z) (cur : consec) : Prop :=
  0 <= consec_nodes cur /\
  (consec_nodes cur <> 0 ->
   forall i, consec_start cur <= i < idx -> bit_test bitmap i = true) /\
  (consec_req cur <> -1 ->
   consec_req cur < idx /\
   forall i, consec_req cur <= i < idx -> bit_test bitmap i = true).

(** The state of the table loop when it comes to index [idx]. *)
Definition table_inv (G : globals) (job_ptr : job_record) (bitmap : bitstr_t)
    (c : sel_start) (idx : Z) (st : sel_state * list consec * consec) : Prop :=
  let '(s, runs, cur) := st in
  sel_within bitmap s /\
  (forall i, idx <= i -> bit_test (sel_bitmap s) i = bit_test bitmap i) /\
  sel_counts G job_ptr c s (index_range 0 (idx - 1)) /\
  Forall (run_ok bitmap) runs /\
  cur_ok bitmap idx cur.

(** The state of the selector after the table loop; the counters
    account for every node when the table loop has seen every bit. *)
Definition loop_inv (G : globals) (job_ptr : job_record) (bitmap : bitstr_t)
    (c : sel_start) (s : sel_state) : Prop :=
  sel_within bitmap s /\
  (Z.of_nat (length bitmap) <= select_node_cnt G ->
   sel_counts G job_ptr c s (all_nodes bitmap)).

End SelectorInvariants.

Section Topology.

Context {SL : Slurm}.

(** No switch table is configured: [_job_test] takes its flat path. *)
Definition no_topology (G : globals) : Prop :=
  switch_record_cnt G = 0 \/ switch_record_table G = None.

End Topology.

(** The array a run-length encoding stands for: each value as many
    times as its count says. *)
Definition rle_pairs (rle : list (Z * Z)) : list Z :=
  flat_map (fun vn => repeat (fst vn) (Z.to_nat (snd vn))) rle.

Definition rle_expand (values reps : list Z) : list Z :=
  rle_pairs (combine values reps).

(** An encoding in which neighbouring entries carry different values. *)
Inductive rle_tight : list (Z * Z) -> Prop :=
| rle_tight_nil : rle_tight []
| rle_tight_one (x : Z * Z) : rle_tight [x]
| rle_tight_cons (x y : Z * Z) (r : list (Z * Z)) :
    fst x <> fst y -> rle_tight (y :: r) -> rle_tight (x :: y :: r).

(** The number of switches that still have nodes to give. *)
Definition open_switches (cnts : list Z) : nat :=
  length (filter (fun c => negb (c =? 0)) cnts).

(** What the reservation loop keeps true of the bitmap it builds from
    the bitmap [avail] of the nodes on offer: it has [nbits] bits, holds
    only nodes on offer, and every node in it took one from
    [rem_nodes], which started at [rem0]. *)
Definition resv_inv (nbits : nat) (avail : bitstr_t) (rem0 : Z)
    (avail_nodes_bitmap : bitstr_t) (rem_nodes : Z) : Prop :=
  length avail_nodes_bitmap = nbits /\
  (forall i, bit_test avail_nodes_bitmap i = true -> bit_test avail i = true) /\
  bit_set_count avail_nodes_bitmap + rem_nodes = rem0 /\
  0 <= rem_nodes.

(** A bitmap that holds only nodes of [avail]. *)
Definition bits_within (avail b : bitstr_t) : Prop :=
  forall i, bit_test b i = true -> bit_test avail i = true.

Section TopologyInvariants.

Context {SL : Slurm}.

(** The selector's bitmap and counters in the topology path: the bitmap
    holds only nodes of the bitmap given, and the counters account for
    the nodes set in it once the bitmap has been cleared, which takes a
    bitmap no longer than the node table. *)
Definition topo_sel_inv (G : globals) (job_ptr : job_record) (bitmap : bitstr_t)
    (c : sel_start) (s : sel_state) : Prop :=
  sel_within bitmap s /\
  (Z.of_nat (length bitmap) <= node_record_count G ->
   sel_counts G job_ptr c s (all_nodes bitmap)).

(** The state of the topology path: besides, every switch bitmap holds
    only nodes of the bitmap given, and the nodes of [R] are set. *)
Definition topo_inv (G : globals) (job_ptr : job_record) (bitmap : bitstr_t)
    (c : sel_start) (R : Z -> Prop) (t : topo_state) : Prop :=
  topo_sel_inv G job_ptr bitmap c (tp_sel t) /\
  Forall (bits_within bitmap) (tp_bitmaps t) /\
  (forall i, R i -> bit_test (sel_bitmap (tp_sel t)) i = true).

End TopologyInvariants.


(** ** The commit of a run that carries a required node *)

(** The nodes of a run in the order of the claim: from the required
    node [r] upward to the end of the run, then from [r - 1] downward
    to its start. *)
Definition up_then_down (r first last : Z) : list Z :=
  index_range r last ++ rev (index_range first (r - 1)).

(** The nodes of [l] that are not set in [b]. *)
Definition clear_in (b : bitstr_t) (l : list Z) : list Z :=
  filter (fun i => negb (bit_test b i)) l.

(** The sum of [f] over the nodes of [l]. *)
Definition sum_over (f : Z -> Z) (l : list Z) : Z :=
  fold_right (fun i acc => f i + acc) 0 l.

Section CommitOrder.

Context {SL : Slurm}.

(** From [s] to [s'] the nodes [visited] have been set in the bitmap,
    and those of them that were not set before have been counted: each
    took one from [max_nodes] and from [rem_nodes], moved its available
    CPUs from [rem_cpus] to [alloc_cpus] and added its CPUs to
    [total_cpus]. *)
Definition nodes_taken (G : globals) (job_ptr : job_record) (visited : list Z)
    (s s' : sel_state) : Prop :=
  let taken := clear_in (sel_bitmap s) visited in
  length (sel_bitmap s') = length (sel_bitmap s) /\
  (forall i, bit_test (sel_bitmap s') i
             = bit_test (sel_bitmap s) i || existsb (Z.eqb i) visited) /\
  sel_max_nodes s' = sel_max_nodes s - Z.of_nat (length taken) /\
  sel_rem_nodes s' = sel_rem_nodes s - Z.of_nat (length taken) /\
  sel_rem_cpus s' = sel_rem_cpus s - sum_over (_get_avail_cpus G job_ptr) taken /\
  sel_alloc_cpus s' = sel_alloc_cpus s + sum_over (_get_avail_cpus G job_ptr) taken /\
  sel_total_cpus s' = sel_total_cpus s + sum_over (_get_total_cpus G) taken.

(** With the nodes [visited] taken from [s], the loop goes on: there
    are nodes left to give and the demand is not met. *)
Definition demand_open (G : globals) (job_ptr : job_record) (visited : list Z)
    (s : sel_state) : Prop :=
  let taken := clear_in (sel_bitmap s) visited in
  0 < sel_max_nodes s - Z.of_nat (length taken) /\
  (0 < sel_rem_nodes s - Z.of_nat (length taken) \/
   0 < sel_rem_cpus s - sum_over (_get_avail_cpus G job_ptr) taken).

(** The commit from [s] to [s'] went through [order] from its head and
    left it when the demand was met or no node was left to give, or at
    its end: some first [k] nodes of [order] have been taken, the loop
    went on before each of them, and it did not go on after the last of
    them unless [order] ends there. *)
Definition taken_in_order (G : globals) (job_ptr : job_record) (order : list Z)
    (s s' : sel_state) : Prop :=
  exists k : nat,
    (k <= length order)%nat /\
    nodes_taken G job_ptr (firstn k order) s s' /\
    (forall j : nat, (j < k)%nat -> demand_open G job_ptr (firstn j order) s) /\
    (k = length order \/ ~ demand_open G job_ptr (firstn k order) s).

End CommitOrder.

(** ** Vocabulary of the registries in memory *)

Section MemoryVocabulary.

Context {SL : Slurm}.

(** What a call left of the memory [m] it was given: every block that
    was in use or free is as it was, and a block the call has allocated
    is free again. *)
Definition memory_restored (m m' : cr_heap) : Prop :=
  (forall p, (p < length m)%nat -> cr_load m' p = cr_load m p) /\
  (forall p, (length m <= p)%nat -> cr_load m' p = None).

End MemoryVocabulary.

Section MemorySimulation.

Context {SL : Slurm}.

(** From [m] to [m'] only the block at [b] has been written. *)
Definition only_block (b : nat) (m m' : cr_heap) : Prop :=
  length m' = length m /\ forall p, p <> b -> cr_load m' p = cr_load m p.

(** The state of a loop on the scratch registry at the address [b] and
    the state of the same loop when the scratch registry is passed by
    value. *)
Definition same_scratch (b : nat) (st : mem_state) (ps : preempt_state) : Prop :=
  ms_rc st = ps_rc ps /\ ms_bitmap st = ps_bitmap ps /\ ms_world st = ps_world ps /\
  cr_load (ms_heap st) b = Some (ps_exp_cr ps).

End MemorySimulation.

(* ------------------------------------------------------------------ *)
(** * Properties *)

(** Splits the conjunctions of the goal, and nothing else. *)
Ltac split_conj := repeat match goal with |- _ /\ _ => split end.

(** ** Integer conversions *)

Lemma to_int_to_uint32 (x : Z) : to_int (to_uint32 x) = to_int x.
Proof.
  unfold to_int, to_uint32.
  rewrite Zplus_mod_idemp_l. reflexivity.
Qed.

Lemma to_int_small (x : Z) : - 2 ^ 31 <= x < 2 ^ 31 -> to_int x = x.
Proof.
  intros H. unfold to_int.
  rewrite Z.mod_small by lia. lia.
Qed.

Lemma needed_nodes_wrap (rem_nodes min_nodes req_nodes : Z) :
  to_int (to_uint32 (to_uint32 (to_uint32 rem_nodes + min_nodes) - req_nodes))
  = to_int (rem_nodes + min_nodes - req_nodes).
Proof.
  rewrite <- (to_int_to_uint32 (rem_nodes + min_nodes - req_nodes)).
  f_equal. unfold to_uint32.
  rewrite Zminus_mod_idemp_l, <- Z.add_sub_assoc, Zplus_mod_idemp_l.
  rewrite Z.add_sub_assoc. reflexivity.
Qed.

(** ** C7: the enough-nodes predicate *)

(** C7 (as stated, refuted): with [min = 0] and [req = 4294967295] the
    unsigned sum [0 + 0 - req] wraps to 1, so [_enough_nodes 0 0 min req]
    is false although [0 >= 0 + min - req] over the integers. *)
Lemma enough_nodes_wraps_around :
  _enough_nodes 0 0 0 4294967295 = false /\
  enough_nodes_spec 0 0 0 4294967295.
Proof.
  split; [ reflexivity | unfold enough_nodes_spec; simpl; lia ].
Qed.

(** C7 (amended): when [req > min] and [rem + min - req] fits a signed
    32-bit [int], [_enough_nodes] is true iff [avail >= rem + min - req];
    when [req <= min] it is true iff [avail >= rem].  In particular
    [_enough_nodes 0 0 min req] is true whenever [req <= min], and
    whenever [min < req <= min + 2^31]. *)
Theorem enough_nodes_correct (avail rem min req : Z)
    (Hfit : min < req -> - 2 ^ 31 <= rem + min - req < 2 ^ 31) :
  (_enough_nodes avail rem min req = true <-> enough_nodes_spec avail rem min req) /\
  (min < req -> (_enough_nodes avail rem min req = true <-> avail >= rem + min - req)) /\
  (req <= min -> (_enough_nodes avail rem min req = true <-> avail >= rem)) /\
  (req <= min -> _enough_nodes 0 0 min req = true) /\
  (min < req <= min + 2 ^ 31 -> _enough_nodes 0 0 min req = true).
Proof.
  unfold _enough_nodes, enough_nodes_spec.
  repeat split; intros.
  - destruct (min <? req) eqn:E.
    + apply Z.ltb_lt in E. rewrite needed_nodes_wrap, to_int_small in H by auto.
      apply Z.leb_le in H. lia.
    + apply Z.leb_le in H. lia.
  - destruct (min <? req) eqn:E.
    + apply Z.ltb_lt in E. rewrite needed_nodes_wrap, to_int_small by auto.
      apply Z.leb_le. lia.
    + apply Z.leb_le. lia.
  - assert (E : (min <? req) = true) by (apply Z.ltb_lt; lia).
    rewrite E, needed_nodes_wrap, to_int_small in H0 by auto.
    apply Z.leb_le in H0. lia.
  - assert (E : (min <? req) = true) by (apply Z.ltb_lt; lia).
    rewrite E, needed_nodes_wrap, to_int_small by auto.
    apply Z.leb_le. lia.
  - assert (E : (min <? req) = false) by (apply Z.ltb_ge; lia).
    rewrite E in H0. apply Z.leb_le in H0. lia.
  - assert (E : (min <? req) = false) by (apply Z.ltb_ge; lia).
    rewrite E. apply Z.leb_le. lia.
  - assert (E : (min <? req) = false) by (apply Z.ltb_ge; lia).
    rewrite E. reflexivity.
  - assert (E : (min <? req) = true) by (apply Z.ltb_lt; lia).
    rewrite E, needed_nodes_wrap, to_int_small by lia.
    apply Z.leb_le. lia.
Qed.

Lemma enough_nodes_correct_witness :
  (4 < 6 -> - 2 ^ 31 <= 3 + 4 - 6 < 2 ^ 31) /\
  (_enough_nodes 2 3 4 6 = true <-> enough_nodes_spec 2 3 4 6).
Proof.
  split; [ lia | ].
  refine (proj1 (enough_nodes_correct 2 3 4 6 _)). lia.
Defined.

(** ** C9: pack and unpack of the per-node information *)

Lemma nth_firstn_app {A : Type} (l r : list A) (p k : nat) (d : A) :
  (p <= length l)%nat -> nth (p + k) (firstn p l ++ r) d = nth k r d.
Proof.
  intros H. rewrite app_nth2; rewrite length_firstn, Nat.min_l by lia; [ | lia ].
  f_equal. lia.
Qed.

(** C9: for every 16-bit [alloc_cpus], packing writes exactly two bytes
    at the buffer's offset (the 16-bit value, most significant byte
    first), and unpacking from that offset succeeds with a nodeinfo
    whose [alloc_cpus] is the packed one and whose [magic] is 0x82ad. *)
Theorem nodeinfo_pack_unpack (nodeinfo : select_nodeinfo) (buffer : Buf)
    (protocol_version : Z)
    (Hrange : 0 <= alloc_cpus nodeinfo < 2 ^ 16)
    (Hoff : (processed buffer <= length (head buffer))%nat) :
  let '(rc, packed) := select_p_select_nodeinfo_pack nodeinfo buffer protocol_version in
  rc = SLURM_SUCCESS /\
  processed packed = (processed buffer + 2)%nat /\
  firstn (processed buffer) (head packed) = firstn (processed buffer) (head buffer) /\
  256 * nth (processed buffer) (head packed) 0
    + nth (S (processed buffer)) (head packed) 0 = alloc_cpus nodeinfo /\
  select_p_select_nodeinfo_unpack (set_buf_offset packed (processed buffer))
    protocol_version
  = (SLURM_SUCCESS,
     Some {| magic := 0x82ad; alloc_cpus := alloc_cpus nodeinfo |},
     packed).
Proof.
  unfold select_p_select_nodeinfo_pack, pack16.
  set (p := processed buffer) in *. set (h := head buffer) in *.
  assert (Hns : to_uint16 (alloc_cpus nodeinfo) = alloc_cpus nodeinfo)
    by (unfold to_uint16; apply Z.mod_small; lia).
  rewrite Hns. set (a := alloc_cpus nodeinfo) in *.
  assert (H0 : nth p (firstn p h ++ [a / 256; a mod 256] ++ skipn (p + 2) h) 0 = a / 256).
  { replace p with (p + 0)%nat at 1 by lia. now rewrite nth_firstn_app. }
  assert (H1 : nth (S p) (firstn p h ++ [a / 256; a mod 256] ++ skipn (p + 2) h) 0
               = a mod 256).
  { replace (S p) with (p + 1)%nat by lia. now rewrite nth_firstn_app. }
  assert (Hval : 256 * (a / 256) + a mod 256 = a)
    by (symmetry; apply Z.div_mod; lia).
  cbn [head processed]. repeat split.
  - rewrite firstn_app, firstn_firstn, Nat.min_id, length_firstn, Nat.min_l by lia.
    rewrite Nat.sub_diag. cbn [firstn]. now rewrite app_nil_r.
  - rewrite H0, H1. exact Hval.
  - unfold select_p_select_nodeinfo_unpack, unpack16, remaining_buf, set_buf_offset.
    cbn [head processed].
    rewrite H0, H1, Hval.
    rewrite !length_app, length_firstn, Nat.min_l by lia.
    cbn [length].
    destruct (p + (2 + length (skipn (p + 2) h)) - p <? 2)%nat eqn:E.
    + apply Nat.ltb_lt in E. lia.
    + reflexivity.
Qed.

Lemma nodeinfo_pack_unpack_witness :
  select_p_select_nodeinfo_unpack
    (set_buf_offset
       (snd (select_p_select_nodeinfo_pack (mk_nodeinfo NODEINFO_MAGIC 516)
               (mk_buf [] 0) 0)) 0) 0
  = (SLURM_SUCCESS, Some (mk_nodeinfo 0x82ad 516), mk_buf [2; 4] 2).
Proof.
  pose proof (nodeinfo_pack_unpack (mk_nodeinfo NODEINFO_MAGIC 516) (mk_buf [] 0) 0) as H.
  cbv beta iota zeta delta [select_p_select_nodeinfo_pack] in H.
  refine (proj2 (proj2 (proj2 (proj2 (H _ _))))); simpl; lia.
Defined.

(** ** The job-id arrays as sets *)

Lemma ck_job_id_found (ids : list Z) (id : Z) (clear_it : bool) :
  fst (ck_job_id ids id clear_it) = existsb (Z.eqb id) ids.
Proof.
  induction ids as [ | x r IH ]; simpl; [ reflexivity | ].
  destruct (ck_job_id r id clear_it) as [rc r'] eqn:E. simpl in IH.
  rewrite (Z.eqb_sym id x).
  destruct (x =? id); simpl; [ reflexivity | exact IH ].
Qed.

Lemma ck_job_id_test (ids : list Z) (id : Z) :
  snd (ck_job_id ids id false) = ids.
Proof.
  induction ids as [ | x r IH ]; simpl; [ reflexivity | ].
  destruct (ck_job_id r id false) as [rc r'] eqn:E. simpl in IH.
  destruct (x =? id); simpl; now rewrite IH.
Qed.

Lemma ck_job_id_absent (ids : list Z) (id : Z) (clear_it : bool) :
  existsb (Z.eqb id) ids = false -> snd (ck_job_id ids id clear_it) = ids.
Proof.
  induction ids as [ | x r IH ]; simpl; [ reflexivity | ].
  intros H. apply orb_false_iff in H as [Hx Hr].
  destruct (ck_job_id r id clear_it) as [rc r'] eqn:E. simpl in IH.
  rewrite Z.eqb_sym in Hx. rewrite Hx. simpl. now rewrite IH.
Qed.

Lemma ck_job_id_zero (ids : list Z) :
  snd (ck_job_id ids 0 true) = ids.
Proof.
  induction ids as [ | x r IH ]; simpl; [ reflexivity | ].
  destruct (ck_job_id r 0 true) as [rc r'] eqn:E. simpl in IH.
  destruct (x =? 0) eqn:Ex; simpl; rewrite IH; [ | reflexivity ].
  apply Z.eqb_eq in Ex. now subst.
Qed.

Lemma live_clear (ids : list Z) (id x : Z) :
  live (snd (ck_job_id ids id true)) x <-> live ids x /\ x <> id.
Proof.
  unfold live. induction ids as [ | y r IH ]; simpl; [ tauto | ].
  destruct (ck_job_id r id true) as [rc r'] eqn:E. simpl in IH.
  destruct (y =? id) eqn:Ey; simpl.
  - apply Z.eqb_eq in Ey. subst y. split.
    + intros [Hx [H0 | Hin]]; [ congruence | ].
      destruct IH as [IH _]. destruct (IH (conj Hx Hin)) as [[_ Hin'] Hne]. tauto.
    + intros [[Hx [He | Hin]] Hne]; [ congruence | ].
      destruct IH as [_ IH]. destruct (IH (conj (conj Hx Hin) Hne)) as [_ Hin']. tauto.
  - apply Z.eqb_neq in Ey. split.
    + intros [Hx [He | Hin]].
      * subst y. split; [ tauto | congruence ].
      * destruct IH as [IH _]. destruct (IH (conj Hx Hin)) as [[_ Hin'] Hne]. tauto.
    + intros [[Hx [He | Hin]] Hne]; [ tauto | ].
      destruct IH as [_ IH]. destruct (IH (conj (conj Hx Hin) Hne)) as [_ Hin']. tauto.
Qed.

Lemma live_repeat_zero (n : nat) (x : Z) : ~ live (repeat 0 n) x.
Proof.
  intros [Hx Hin]. apply repeat_spec in Hin. congruence.
Qed.

Lemma live_cons (y : Z) (r : list Z) (x : Z) :
  live (y :: r) x <-> (x = y /\ y <> 0) \/ live r x.
Proof.
  unfold live. simpl. split.
  - intros [Hx [He | Hin]]; [ left; split; congruence | right; tauto ].
  - intros [[He Hy] | [Hx Hin]]; split; auto; congruence.
Qed.

Lemma live_app (l r : list Z) (x : Z) : live (l ++ r) x <-> live l x \/ live r x.
Proof.
  unfold live. rewrite in_app_iff. tauto.
Qed.

Lemma live_fill_hole (ids ids' : list Z) (id x : Z) :
  fill_hole ids id = Some ids' ->
  (live ids' x <-> live ids x \/ (x = id /\ id <> 0)).
Proof.
  revert ids'. induction ids as [ | y r IH ]; simpl; intros ids' H; [ discriminate | ].
  destruct (y =? 0) eqn:Ey.
  - apply Z.eqb_eq in Ey. subst y. injection H as <-.
    rewrite !live_cons. intuition congruence.
  - destruct (fill_hole r id) as [r' | ] eqn:E; simpl in H; [ | discriminate ].
    injection H as <-. rewrite !live_cons, (IH r' eq_refl). clear. tauto.
Qed.

Lemma fill_hole_full (ids : list Z) (id : Z) :
  fill_hole ids id = None <-> existsb (Z.eqb 0) ids = false.
Proof.
  induction ids as [ | y r IH ]; cbn [fill_hole existsb]; [ tauto | ].
  rewrite (Z.eqb_sym 0 y). destruct (y =? 0); cbn [orb].
  - split; discriminate.
  - rewrite <- IH. destruct (fill_hole r id); cbn [option_map]; split; congruence.
Qed.

(** With room the array is extended as the code means it. *)
Lemma add_job_id_room (ids : list Z) (id : Z) :
  ids_room ids ->
  add_job_id ids id
  = match ids with
    | [] => id :: repeat 0 (RUN_JOB_INCR - 1)
    | _ =>
        match fill_hole ids id with
        | Some ids' => ids'
        | None => ids ++ id :: repeat 0 (RUN_JOB_INCR - 1)
        end
    end.
Proof.
  intros Hroom. unfold add_job_id. destruct ids as [ | y r ]; [ reflexivity | ].
  destruct (fill_hole (y :: r) id) as [ids' | ] eqn:E; [ reflexivity | ].
  destruct Hroom as [Hhole | Hlen].
  - apply fill_hole_full in E. congruence.
  - cbv zeta. now replace (_ <? 2 ^ 16) with true by (symmetry; apply Z.ltb_lt; lia).
Qed.

Lemma ids_room_nil : ids_room [].
Proof. right. cbn. lia. Qed.

Lemma live_add (ids : list Z) (id x : Z) :
  ids_room ids ->
  (live (add_job_id ids id) x <-> live ids x \/ (x = id /\ id <> 0)).
Proof.
  intros Hroom. rewrite add_job_id_room by exact Hroom. destruct ids as [ | y r ].
  - rewrite live_cons. pose proof (live_repeat_zero (RUN_JOB_INCR - 1) x).
    unfold live at 2. simpl. tauto.
  - destruct (fill_hole (y :: r) id) as [ids' | ] eqn:E.
    + now apply live_fill_hole.
    + rewrite live_app, (live_cons id).
      pose proof (live_repeat_zero (RUN_JOB_INCR - 1) x). tauto.
Qed.

Lemma fill_hole_holds (ids ids' : list Z) (id : Z) :
  fill_hole ids id = Some ids' -> In id ids'.
Proof.
  revert ids'. induction ids as [ | y r IH ]; simpl; intros ids' H; [ discriminate | ].
  destruct (y =? 0).
  - injection H as <-. now left.
  - destruct (fill_hole r id) as [r' | ]; simpl in H; [ | discriminate ].
    injection H as <-. right. now apply IH.
Qed.

(** The id just added is found, also when it is 0. *)
Lemma add_job_id_holds (ids : list Z) (id : Z) :
  ids_room ids -> In id (add_job_id ids id).
Proof.
  intros Hroom. rewrite add_job_id_room by exact Hroom.
  destruct ids as [ | y r ]; [ now left | ].
  destruct (fill_hole (y :: r) id) as [ids' | ] eqn:E.
  - eapply fill_hole_holds; eauto.
  - apply in_app_iff. right. now left.
Qed.

Lemma existsb_eqb_In (ids : list Z) (id : Z) :
  existsb (Z.eqb id) ids = true <-> In id ids.
Proof.
  rewrite existsb_exists. split.
  - intros [x [Hin He]]. apply Z.eqb_eq in He. now subst.
  - intros Hin. exists id. split; [ exact Hin | apply Z.eqb_refl ].
Qed.

Section Registry.

Context {SL : Slurm}.

Lemma in_run_set_live (cr : cr_record) (id : Z) :
  in_run_set cr id <-> live (run_job_ids cr) id.
Proof. reflexivity. Qed.

Lemma in_tot_set_live (cr : cr_record) (id : Z) :
  in_tot_set cr id <-> live (tot_job_ids cr) id.
Proof. reflexivity. Qed.

(** ** C10: a release without [job_resrcs] *)

(** C10: when the job's id is in the total set and its [job_resrcs] is
    NULL, [_rm_job_from_nodes] returns [SLURM_ERROR] with the id gone
    from the total set, so the registry has changed, while the run
    array, the per-node records, the other ids of the total set, the
    job and the GRES state are as before. *)
Theorem rm_job_without_resrcs_not_atomic (G : globals) (cr : cr_record)
    (job_ptr : job_record) (remove_all : bool) (h : gres_heap)
    (Htot : in_tot_set cr (job_id job_ptr))
    (Hres : job_resrcs job_ptr = None) :
  let '(rc, cr', job', h') := _rm_job_from_nodes G cr job_ptr remove_all h in
  rc = SLURM_ERROR /\
  ~ in_tot_set cr' (job_id job_ptr) /\
  cr' <> cr /\
  run_job_ids cr' = run_job_ids cr /\
  nodes cr' = nodes cr /\
  (forall x, x <> job_id job_ptr -> (in_tot_set cr' x <-> in_tot_set cr x)) /\
  (forall x, in_run_set cr' x <-> in_run_set cr x) /\
  job' = job_ptr /\ h' = h.
Proof.
  unfold _rm_job_from_nodes, _rem_tot_job, _ck_tot_job.
  destruct (ck_job_id (tot_job_ids cr) (job_id job_ptr) true) as [found ids] eqn:E.
  assert (Hfound : found = true).
  { pose proof (ck_job_id_found (tot_job_ids cr) (job_id job_ptr) true) as Hf.
    rewrite E in Hf. simpl in Hf. rewrite Hf. apply existsb_eqb_In. apply Htot. }
  assert (Hids : ids = snd (ck_job_id (tot_job_ids cr) (job_id job_ptr) true))
    by now rewrite E.
  subst found. cbn [negb].
  destruct (if remove_all then job_memory_request G (details job_ptr) else (0, 0))
    as [job_memory_cpu job_memory_node].
  rewrite Hres.
  assert (Hlive : forall x,
             live ids x <-> live (tot_job_ids cr) x /\ x <> job_id job_ptr)
    by (intros x; rewrite Hids; apply live_clear).
  assert (Hgone : ~ live ids (job_id job_ptr)) by (rewrite Hlive; tauto).
  split_conj; try reflexivity.
  - exact Hgone.
  - intros Heq. apply Hgone. rewrite <- Heq in Htot. exact Htot.
  - intros x Hne. split; intros Hx.
    + apply (Hlive x) in Hx. apply Hx.
    + apply (Hlive x). split; [ exact Hx | assumption ].
Qed.

End Registry.

(** ** Arrays, index ranges and bitmaps *)

Lemma length_list_set {A : Type} (l : list A) (n : nat) (x : A) :
  length (list_set l n x) = length l.
Proof.
  revert n. induction l as [ | y r IH ]; intros [ | n ]; simpl; auto.
Qed.

Lemma nth_list_set_same {A : Type} (l : list A) (n : nat) (x d : A) :
  (n < length l)%nat -> nth n (list_set l n x) d = x.
Proof.
  revert n. induction l as [ | y r IH ]; intros [ | n ] H; simpl in *; try lia; auto.
  apply IH. lia.
Qed.

Lemma nth_list_set_other {A : Type} (l : list A) (n m : nat) (x d : A) :
  n <> m -> nth m (list_set l n x) d = nth m l d.
Proof.
  revert n m. induction l as [ | y r IH ]; intros [ | n ] [ | m ] H; simpl; auto; try lia.
Qed.

Lemma length_zset {A : Type} (l : list A) (i : Z) (x : A) :
  length (zset l i x) = length l.
Proof.
  unfold zset. destruct (i <? 0); [ reflexivity | apply length_list_set ].
Qed.

Lemma zth_zset_same {A : Type} (l : list A) (i : Z) (x d : A) :
  0 <= i < Z.of_nat (length l) -> zth (zset l i x) i d = x.
Proof.
  intros H. unfold zth, zset.
  assert (E : (i <? 0) = false) by (apply Z.ltb_ge; lia). rewrite E.
  apply nth_list_set_same. lia.
Qed.

Lemma zth_zset_other {A : Type} (l : list A) (i j : Z) (x d : A) :
  i <> j -> zth (zset l i x) j d = zth l j d.
Proof.
  intros H. unfold zth, zset.
  destruct (i <? 0) eqn:Ei; [ reflexivity | ].
  destruct (j <? 0) eqn:Ej; [ reflexivity | ].
  apply Z.ltb_ge in Ei, Ej. apply nth_list_set_other. lia.
Qed.

Lemma zth_zset_outside {A : Type} (l : list A) (i : Z) (x : A) :
  ~ 0 <= i < Z.of_nat (length l) -> zset l i x = l.
Proof.
  intros H. unfold zset. destruct (i <? 0) eqn:Ei; [ reflexivity | ].
  apply Z.ltb_ge in Ei.
  assert (Hn : (length l <= Z.to_nat i)%nat) by lia.
  clear H Ei. revert Hn. generalize (Z.to_nat i) as n.
  induction l as [ | y r IH ]; intros [ | n ] Hn; simpl in *; try lia; auto.
  f_equal. apply IH. lia.
Qed.

Lemma in_index_range (a b i : Z) : In i (index_range a b) <-> a <= i <= b.
Proof.
  unfold index_range. rewrite in_map_iff. split.
  - intros [k [<- Hk]]. apply in_seq in Hk. lia.
  - intros H. exists (Z.to_nat (i - a)). split; [ lia | ].
    apply in_seq. lia.
Qed.

Lemma NoDup_index_range (a b : Z) : NoDup (index_range a b).
Proof.
  unfold index_range. apply Finite.Injective_map_NoDup; [ | apply seq_NoDup ].
  intros x y H. lia.
Qed.

Lemma index_range_empty (a b : Z) : b < a -> index_range a b = [].
Proof.
  intros H. unfold index_range.
  replace (Z.to_nat (b - a + 1)) with O by lia. reflexivity.
Qed.

Lemma index_range_split (a b c : Z) :
  a <= b + 1 -> b <= c ->
  index_range a c = index_range a b ++ index_range (b + 1) c.
Proof.
  intros H1 H2. unfold index_range.
  replace (Z.to_nat (c - a + 1))
    with (Z.to_nat (b - a + 1) + Z.to_nat (c - (b + 1) + 1))%nat by lia.
  rewrite seq_app, map_app. f_equal.
  generalize (Z.to_nat (c - (b + 1) + 1)) as n. intros n.
  generalize 0%nat as k. induction n as [ | n IH ]; intros k; simpl; [ reflexivity | ].
  f_equal; [ lia | ].
  apply (IH (S k)).
Qed.

Lemma ffs_from_bounds (b : bitstr_t) (k : Z) (n : nat) :
  0 <= k -> nth n b false = true ->
  k <= ffs_from b k <= k + Z.of_nat n.
Proof.
  revert k n. induction b as [ | x r IH ]; intros k n Hk H.
  - destruct n; discriminate.
  - simpl. destruct x; [ lia | ].
    destruct n as [ | n ]; [ discriminate | ].
    simpl in H. specialize (IH (k + 1) n ltac:(lia) H). lia.
Qed.

Lemma fls_from_bounds (b : bitstr_t) (k last : Z) :
  last < k -> last <= fls_from b k last < k + Z.of_nat (length b).
Proof.
  revert k last. induction b as [ | x r IH ]; intros k last H; simpl; [ lia | ].
  destruct x.
  - specialize (IH (k + 1) k ltac:(lia)). lia.
  - specialize (IH (k + 1) last ltac:(lia)). lia.
Qed.

Lemma fls_from_reaches (b : bitstr_t) (k last : Z) (n : nat) :
  last < k -> nth n b false = true -> k + Z.of_nat n <= fls_from b k last.
Proof.
  revert k last n. induction b as [ | x r IH ]; intros k last n Hk H.
  - destruct n; discriminate.
  - simpl. destruct n as [ | n ].
    + simpl in H. subst x.
      pose proof (fls_from_bounds r (k + 1) k ltac:(lia)). lia.
    + simpl in H. destruct x.
      * specialize (IH (k + 1) k n ltac:(lia) H). lia.
      * specialize (IH (k + 1) last n ltac:(lia) H). lia.
Qed.

Lemma bit_test_range (b : bitstr_t) (i : Z) :
  bit_test b i = true -> 0 <= i < Z.of_nat (length b).
Proof.
  unfold bit_test, zth. destruct (i <? 0) eqn:E; [ discriminate | ].
  apply Z.ltb_ge in E. intros H. split; [ exact E | ].
  destruct (Nat.lt_ge_cases (Z.to_nat i) (length b)) as [Hlt | Hge]; [ lia | ].
  rewrite nth_overflow in H by exact Hge. discriminate.
Qed.

(** A set bit lies between the first and the last set bit. *)
Lemma bit_test_between (b : bitstr_t) (i : Z) :
  bit_test b i = true -> 0 <= bit_ffs b <= i /\ i <= bit_fls b.
Proof.
  intros H. pose proof (bit_test_range b i H) as Hr.
  unfold bit_test, zth in H.
  assert (E : (i <? 0) = false) by (apply Z.ltb_ge; lia). rewrite E in H.
  pose proof (ffs_from_bounds b 0 (Z.to_nat i) ltac:(lia) H).
  pose proof (fls_from_reaches b 0 (-1) (Z.to_nat i) ltac:(lia) H).
  unfold bit_ffs, bit_fls. lia.
Qed.

Lemma bit_fls_bound (b : bitstr_t) : -1 <= bit_fls b < Z.of_nat (length b).
Proof.
  unfold bit_fls. pose proof (fls_from_bounds b 0 (-1) ltac:(lia)). lia.
Qed.

Lemma ffs_from_lower (b : bitstr_t) (k : Z) : ffs_from b k = -1 \/ k <= ffs_from b k.
Proof.
  revert k. induction b as [ | x r IH ]; intros k; simpl; [ now left | ].
  destruct x; [ right; lia | ].
  destruct (IH (k + 1)); [ now left | right; lia ].
Qed.

Lemma bit_ffs_lower (b : bitstr_t) : bit_ffs b = -1 \/ 0 <= bit_ffs b.
Proof. apply ffs_from_lower. Qed.

Lemma bit_test_bit_set (b : bitstr_t) (i j : Z) :
  bit_test (bit_set b i) j
  = if (i =? j) && (0 <=? i) && (i <? Z.of_nat (length b)) then true else bit_test b j.
Proof.
  unfold bit_test, bit_set.
  destruct (i =? j) eqn:E; simpl.
  - apply Z.eqb_eq in E. subst j.
    destruct (0 <=? i) eqn:E0; simpl.
    + destruct (i <? Z.of_nat (length b)) eqn:E1.
      * apply zth_zset_same. apply Z.leb_le in E0. apply Z.ltb_lt in E1. lia.
      * rewrite zth_zset_outside; [ reflexivity | ]. apply Z.ltb_ge in E1. lia.
    + rewrite zth_zset_outside; [ reflexivity | ]. apply Z.leb_gt in E0. lia.
  - apply zth_zset_other. now apply Z.eqb_neq.
Qed.

Lemma bit_test_bit_clear (b : bitstr_t) (i j : Z) :
  bit_test (bit_clear b i) j = if i =? j then false else bit_test b j.
Proof.
  unfold bit_test, bit_clear.
  destruct (i =? j) eqn:E.
  - apply Z.eqb_eq in E. subst j.
    destruct (Z_lt_dec i 0) as [Hn | Hn].
    + unfold zth. assert (E : (i <? 0) = true) by (apply Z.ltb_lt; lia). now rewrite E.
    + destruct (Z_lt_dec i (Z.of_nat (length b))) as [Hl | Hl].
      * apply zth_zset_same. lia.
      * unfold zth. assert (E : (i <? 0) = false) by (apply Z.ltb_ge; lia). rewrite E.
        apply nth_overflow. rewrite length_zset. lia.
  - apply zth_zset_other. now apply Z.eqb_neq.
Qed.

(** ** C1: the availability filter *)

Section Filter.

Context {SL : Slurm}.

Variables (G : globals) (h : gres_heap) (cr : cr_record) (job_ptr : job_record).
Variables (bitmap : bitstr_t) (run_cap tot_cap : Z) (mode : select_mode).

(** One turn of the loop of [_job_count_bitmap]. *)
Let step (st : Z * bitstr_t) (i : Z) : Z * bitstr_t :=
  let '(count, jobmap) := st in
  if negb (bit_test bitmap i) then (count, bit_clear jobmap i)
  else if node_usable G h cr job_ptr run_cap tot_cap mode i
       then (count + 1, bit_set jobmap i)
       else (count, bit_clear jobmap i).

Let keeps (i : Z) : bool :=
  bit_test bitmap i && node_usable G h cr job_ptr run_cap tot_cap mode i.

Lemma filter_fold (l : list Z) (count : Z) (jobmap : bitstr_t) :
  NoDup l ->
  (forall i, In i l -> 0 <= i < Z.of_nat (length jobmap)) ->
  let '(count', out) := fold_left step l (count, jobmap) in
  length out = length jobmap /\
  (forall i, In i l -> bit_test out i = keeps i) /\
  (forall i, ~ In i l -> bit_test out i = bit_test jobmap i) /\
  count' = count + Z.of_nat (length (filter keeps l)).
Proof.
  revert count jobmap. induction l as [ | a l IH ]; intros count jobmap Hnd Hin.
  - simpl. split_conj; auto; [ intros i [] | lia ].
  - inversion Hnd as [ | ? ? Ha Hnd' ]; subst.
    assert (Hra : 0 <= a < Z.of_nat (length jobmap)) by (apply Hin; now left).
    cbn [fold_left].
    assert (Hstep : exists c1 jm1,
               step (count, jobmap) a = (c1, jm1) /\
               length jm1 = length jobmap /\
               bit_test jm1 a = keeps a /\
               (forall i, i <> a -> bit_test jm1 i = bit_test jobmap i) /\
               c1 = count + (if keeps a then 1 else 0)).
    { unfold step, keeps.
      destruct (bit_test bitmap a) eqn:Eb; cbn [negb andb].
      - destruct (node_usable G h cr job_ptr run_cap tot_cap mode a) eqn:Eu.
        + eexists _, _. split; [ reflexivity | ]. split_conj.
          * apply length_zset.
          * rewrite bit_test_bit_set, Z.eqb_refl.
            replace (0 <=? a) with true by (symmetry; apply Z.leb_le; lia).
            replace (a <? Z.of_nat (length jobmap)) with true
              by (symmetry; apply Z.ltb_lt; lia).
            reflexivity.
          * intros i Hi. rewrite bit_test_bit_set.
            replace (a =? i) with false by (symmetry; apply Z.eqb_neq; congruence).
            reflexivity.
          * reflexivity.
        + eexists _, _. split; [ reflexivity | ]. split_conj.
          * apply length_zset.
          * now rewrite bit_test_bit_clear, Z.eqb_refl.
          * intros i Hi. rewrite bit_test_bit_clear.
            replace (a =? i) with false by (symmetry; apply Z.eqb_neq; congruence).
            reflexivity.
          * lia.
      - eexists _, _. split; [ reflexivity | ]. split_conj.
        + apply length_zset.
        + now rewrite bit_test_bit_clear, Z.eqb_refl.
        + intros i Hi. rewrite bit_test_bit_clear.
          replace (a =? i) with false by (symmetry; apply Z.eqb_neq; congruence).
          reflexivity.
        + lia. }
    destruct Hstep as (c1 & jm1 & Hs & Hlen & Hat & Hother & Hc1).
    rewrite Hs.
    specialize (IH c1 jm1 Hnd').
    destruct (fold_left step l (c1, jm1)) as [count' out].
    destruct IH as (IH1 & IH2 & IH3 & IH4).
    { intros i Hi. rewrite Hlen. apply Hin. now right. }
    split_conj.
    + congruence.
    + intros i [<- | Hi]; [ | now apply IH2 ].
      rewrite IH3 by exact Ha. exact Hat.
    + intros i Hi. rewrite IH3 by (intros Hl; apply Hi; now right).
      apply Hother. intros ->. apply Hi. now left.
    + cbn [filter]. rewrite IH4, Hc1.
      destruct (keeps a); cbn [length]; lia.
Qed.

End Filter.

Section FilterTheorem.

Context {SL : Slurm}.

(** Outside the [TEST_ONLY] mode the body of the loop is the conjunction
    of the five tests. *)
Lemma node_usable_andb (G : globals) (h : gres_heap) (cr : cr_record)
    (job_ptr : job_record) (run_cap tot_cap : Z) (mode : select_mode) (i : Z) :
  is_test_only mode = false ->
  node_usable G h cr job_ptr run_cap tot_cap mode i
  = gres_bound_ok G h cr job_ptr false i
    && memory_fits G cr job_ptr i
    && (exclusive_cnt (zth (nodes cr) i zero_node_cr) =? 0)
    && (sum_run_jobs (parts (zth (nodes cr) i zero_node_cr)) <=? run_cap)
    && (sum_tot_jobs (parts (zth (nodes cr) i zero_node_cr)) <=? tot_cap).
Proof.
  intros Et.
  unfold node_usable, gres_bound_ok, memory_fits, node_real_memory.
  rewrite Et. cbn [negb].
  destruct (job_memory_request G (Some (details_of job_ptr)))
    as [job_memory_cpu job_memory_node].
  rewrite !Z.leb_antisym.
  repeat match goal with
         | |- context [Z.eqb ?a ?b] => destruct (Z.eqb a b)
         | |- context [Z.ltb ?a ?b] => destruct (Z.ltb a b)
         end; reflexivity.
Qed.

Lemma node_usable_tests (G : globals) (h : gres_heap) (cr : cr_record)
    (job_ptr : job_record) (run_cap tot_cap : Z) (mode : select_mode) (i : Z) :
  mode <> SELECT_MODE_TEST_ONLY ->
  (node_usable G h cr job_ptr run_cap tot_cap mode i = true <->
   gres_bound_ok G h cr job_ptr false i = true /\
   memory_fits G cr job_ptr i = true /\
   exclusive_cnt (zth (nodes cr) i zero_node_cr) = 0 /\
   sum_run_jobs (parts (zth (nodes cr) i zero_node_cr)) <= run_cap /\
   sum_tot_jobs (parts (zth (nodes cr) i zero_node_cr)) <= tot_cap).
Proof.
  intros Hmode.
  assert (Et : is_test_only mode = false) by (destruct mode; congruence || reflexivity).
  rewrite node_usable_andb by exact Et.
  rewrite !andb_true_iff, Z.eqb_eq, !Z.leb_le. tauto.
Qed.

(** C1 (amended): in a mode other than [TEST_ONLY], a node whose bit is
    set in the input bitmap has its bit set in the output bitmap iff it
    passes the GRES bound, passes the memory test (made only for a job
    with a memory request when [cr_type] is [CR_MEMORY], on unsigned
    32-bit sums), has [exclusive_cnt] 0 and has sums of [run_job_cnt]
    and [tot_job_cnt] over its partition records within the two caps;
    the count returned is the number of nodes set in both bitmaps. *)
Theorem job_count_bitmap_correct (G : globals) (h : gres_heap) (cr : cr_record)
    (job_ptr : job_record) (bitmap jobmap : bitstr_t) (run_cap tot_cap : Z)
    (mode : select_mode)
    (Hmode : mode <> SELECT_MODE_TEST_ONLY)
    (Hlen : (length bitmap <= length jobmap)%nat) :
  let '(count, out) :=
    _job_count_bitmap G h cr job_ptr bitmap jobmap run_cap tot_cap mode in
  (forall i, bit_test bitmap i = true ->
     (bit_test out i = true <->
      gres_bound_ok G h cr job_ptr false i = true /\
      memory_fits G cr job_ptr i = true /\
      exclusive_cnt (zth (nodes cr) i zero_node_cr) = 0 /\
      sum_run_jobs (parts (zth (nodes cr) i zero_node_cr)) <= run_cap /\
      sum_tot_jobs (parts (zth (nodes cr) i zero_node_cr)) <= tot_cap)) /\
  count = Z.of_nat (length (filter (fun i => bit_test bitmap i && bit_test out i)
                              (index_range 0 (Z.of_nat (length bitmap) - 1)))).
Proof.
  unfold _job_count_bitmap.
  remember (bit_ffs bitmap) as i_first eqn:Hif.
  remember (if i_first =? -1 then -2 else bit_fls bitmap) as i_last eqn:Hil.
  assert (Hbetween : forall i, bit_test bitmap i = true ->
                               0 <= i_first <= i /\ i <= i_last).
  { intros i Hi. pose proof (bit_test_between bitmap i Hi) as Hb.
    rewrite <- Hif in Hb. rewrite Hil.
    destruct (i_first =? -1) eqn:E; [ apply Z.eqb_eq in E; lia | lia ]. }
  assert (Hlast : i_last < Z.of_nat (length bitmap)).
  { rewrite Hil. pose proof (bit_fls_bound bitmap). destruct (i_first =? -1); lia. }
  assert (Hfirst : i_last < i_first \/ 0 <= i_first).
  { pose proof (bit_ffs_lower bitmap) as Hf. rewrite <- Hif in Hf.
    destruct Hf as [Hm | Hp]; [ left | now right ].
    rewrite Hm in Hil. change (i_last = -2) in Hil. lia. }
  pose proof (filter_fold G h cr job_ptr bitmap run_cap tot_cap mode
                (index_range i_first i_last) 0 jobmap
                (NoDup_index_range i_first i_last)) as Hfold.
  cbv zeta in Hfold.
  assert (Hrange : forall i, In i (index_range i_first i_last) ->
                             0 <= i < Z.of_nat (length jobmap)).
  { intros i Hi. apply in_index_range in Hi. lia. }
  specialize (Hfold Hrange).
  match type of Hfold with
  | let '(_, _) := ?f in _ => destruct f as [count out] eqn:Ef
  end.
  destruct Hfold as (Hlen' & Hin & Hout & Hcount).
  assert (Hset : forall i, bit_test bitmap i = true -> In i (index_range i_first i_last)).
  { intros i Hi. apply in_index_range. pose proof (Hbetween i Hi). lia. }
  split.
  - intros i Hi. rewrite (Hin i (Hset i Hi)), Hi. cbn [andb].
    now apply node_usable_tests.
  - rewrite Hcount. cbn [Z.add]. f_equal.
    assert (Hagree : forall i,
               bit_test bitmap i && bit_test out i
               = bit_test bitmap i
                 && node_usable G h cr job_ptr run_cap tot_cap mode i).
    { intros i. destruct (bit_test bitmap i) eqn:Hi; [ | reflexivity ].
      cbn [andb]. rewrite (Hin i (Hset i Hi)), Hi. reflexivity. }
    rewrite (filter_ext _ _ Hagree).
    assert (Hnone : forall a b,
               (forall i, a <= i <= b -> bit_test bitmap i = false) ->
               filter (fun i => bit_test bitmap i
                                && node_usable G h cr job_ptr run_cap tot_cap mode i)
                 (index_range a b) = []).
    { intros a b Hf.
      assert (Hall : forall i, In i (index_range a b) -> bit_test bitmap i = false)
        by (intros i Hi; apply Hf; now apply in_index_range).
      clear Hf. induction (index_range a b) as [ | y r IHr ]; [ reflexivity | ].
      cbn [filter]. rewrite (Hall y) by now left. cbn [andb].
      apply IHr. intros i Hi. apply Hall. now right. }
    destruct (Z_lt_dec i_last i_first) as [Hlt | Hge].
    + rewrite (index_range_empty i_first i_last) by lia.
      rewrite Hnone; [ reflexivity | ].
      intros i Hi. destruct (bit_test bitmap i) eqn:Eb; [ | reflexivity ].
      pose proof (Hbetween i Eb). lia.
    + rewrite (index_range_split 0 (i_first - 1) (Z.of_nat (length bitmap) - 1))
        by lia.
      replace (i_first - 1 + 1) with i_first by lia.
      rewrite (index_range_split i_first i_last (Z.of_nat (length bitmap) - 1))
        by lia.
      rewrite !filter_app, !length_app.
      rewrite (Hnone 0 (i_first - 1)), (Hnone (i_last + 1) _).
      * cbn [length]. lia.
      * intros i Hi. destruct (bit_test bitmap i) eqn:Eb; [ | reflexivity ].
        pose proof (Hbetween i Eb). lia.
      * intros i Hi. destruct (bit_test bitmap i) eqn:Eb; [ | reflexivity ].
        pose proof (Hbetween i Eb). lia.
Qed.

End FilterTheorem.

(** ** The commit loops of the flat selector *)

Section Selector.

Context {SL : Slurm} {CT : Slurmctld}.

Lemma commit_scan_done (G : globals) (job_ptr : job_record) (idxs : list Z)
    (s : sel_state) :
  sel_done s = true -> commit_scan G job_ptr idxs s = s.
Proof.
  intros H. destruct idxs as [ | i rest ]; simpl; [ reflexivity | now rewrite H ].
Qed.

Lemma commit_scan_app (G : globals) (job_ptr : job_record) (l1 l2 : list Z)
    (s : sel_state) :
  commit_scan G job_ptr (l1 ++ l2) s
  = commit_scan G job_ptr l2 (commit_scan G job_ptr l1 s).
Proof.
  revert s. induction l1 as [ | i rest IH ]; intros s; simpl; [ reflexivity | ].
  destruct (sel_done s) eqn:E.
  - now rewrite commit_scan_done.
  - destruct (bit_test (sel_bitmap s) i); apply IH.
Qed.

(** With a required node [r] in the chosen run, the commit is one scan of
    the indices [r, r+1, ..., end, r-1, r-2, ..., start], in this
    order. *)
Lemma commit_run_order (G : globals) (job_ptr : job_record) (bf : best_fit)
    (run : consec) (s : sel_state) :
  best_fit_req bf <> -1 ->
  commit_run G job_ptr bf run s
  = commit_scan G job_ptr
      (index_range (best_fit_req bf) (consec_end run)
       ++ rev (index_range (consec_start run) (best_fit_req bf - 1))) s.
Proof.
  intros H. unfold commit_run.
  apply Z.eqb_neq in H. rewrite H. cbn [negb].
  now rewrite commit_scan_app.
Qed.

(** *** The selector loop ends *)

Lemma best_fit_scan_picked (contig_req : bool)
    (rem_cpus rem_nodes min_nodes req_nodes : Z) (pre rest : list consec)
    (bf : best_fit) :
  picked (pre ++ rest) bf ->
  picked (pre ++ rest)
    (best_fit_scan contig_req rem_cpus rem_nodes min_nodes req_nodes rest
       (Z.of_nat (length pre)) bf).
Proof.
  revert pre bf. induction rest as [ | r rest IH ]; intros pre bf H; [ exact H | ].
  assert (step : forall bf', picked (pre ++ r :: rest) bf' ->
            picked (pre ++ r :: rest)
              (best_fit_scan contig_req rem_cpus rem_nodes min_nodes req_nodes rest
                 (Z.of_nat (length pre) + 1) bf')).
  { intros bf' H'.
    replace (pre ++ r :: rest) with ((pre ++ [r]) ++ rest) in *
      by (rewrite <- app_assoc; reflexivity).
    replace (Z.of_nat (length pre) + 1) with (Z.of_nat (length (pre ++ [r])))
      by (rewrite length_app; simpl; lia).
    now apply IH. }
  cbn [best_fit_scan].
  destruct (consec_nodes r =? 0) eqn:En; [ now apply step | ].
  destruct (contig_req && (consec_req r =? -1)); [ now apply step | ].
  match goal with
  | |- context [if ?c then mk_bf ?a ?b ?l ?q ?f else bf] =>
      assert (Hbf1 : picked (pre ++ r :: rest) (if c then mk_bf a b l q f else bf));
      [ destruct c; [ | exact H ] | ]
  end.
  - right. cbn [best_fit_location]. split; [ lia | ].
    exists r. rewrite Nat2Z.id, nth_error_app2, Nat.sub_diag by lia.
    split; [ reflexivity | now apply Z.eqb_neq ].
  - destruct (contig_req && existsb _ rest); [ now left | now apply step ].
Qed.

Lemma open_runs_list_set (runs : list consec) (k : nat) (r x : consec) :
  nth_error runs k = Some r -> consec_nodes r <> 0 -> consec_nodes x = 0 ->
  S (open_runs (list_set runs k x)) = open_runs runs.
Proof.
  unfold open_runs. intros Hk Hr Hx. revert k Hk.
  induction runs as [ | y rest IH ]; intros [ | k ] Hk; simpl in Hk; try discriminate.
  - injection Hk as ->. cbn [list_set filter].
    apply Z.eqb_neq in Hr. apply Z.eqb_eq in Hx. now rewrite Hr, Hx.
  - cbn [list_set filter].
    destruct (negb (consec_nodes y =? 0)); cbn [length]; now rewrite <- (IH k Hk).
Qed.

Lemma open_runs_le (runs : list consec) : (open_runs runs <= length runs)%nat.
Proof.
  unfold open_runs. induction runs as [ | y rest IH ]; simpl; [ lia | ].
  destruct (negb (consec_nodes y =? 0)); simpl; lia.
Qed.

(** Every turn that does not leave the loop empties one entry of the
    table, so one turn more than the table has open entries is enough. *)
Lemma select_loop_returns (G : globals) (job_ptr : job_record)
    (min_nodes req_nodes : Z) (fuel : nat) :
  forall (runs : list consec) (location : Z) (s : sel_state),
    (open_runs runs < fuel)%nat ->
    exists r, select_loop fuel G job_ptr min_nodes req_nodes runs location s = Some r.
Proof.
  induction fuel as [ | fuel IH ]; intros runs location s Hfuel; [ lia | ].
  cbn [select_loop].
  destruct (_ || negb (0 <? sel_max_nodes s)); [ now eexists | ].
  match goal with
  | |- context [best_fit_scan ?c ?a ?b ?m ?q runs 0 ?bf0] =>
      pose proof (best_fit_scan_picked c a b m q [] runs bf0 (or_introl eq_refl)) as Hp;
      cbn [app length Z.of_nat] in Hp;
      remember (best_fit_scan c a b m q runs 0 bf0) as bf eqn:Ebf
  end.
  destruct (best_fit_nodes bf =? 0) eqn:En; [ now eexists | ].
  match goal with
  | |- context [if ?c then Some (EINVAL, s) else _] =>
      destruct c; [ now eexists | ]
  end.
  match goal with
  | |- context [if ?c then Some (SLURM_SUCCESS, _) else _] =>
      destruct c; [ now eexists | ]
  end.
  apply Z.eqb_neq in En.
  destruct Hp as [Hp | [Hloc [r [Hr Hnz]]]]; [ contradiction | ].
  apply IH. unfold zset.
  assert (E : (best_fit_location bf <? 0) = false) by (apply Z.ltb_ge; lia).
  rewrite E.
  pose proof (open_runs_list_set runs _ r
                (mk_consec 0 0 (consec_start (zth runs (best_fit_location bf) new_consec))
                   (consec_end (zth runs (best_fit_location bf) new_consec))
                   (consec_req (zth runs (best_fit_location bf) new_consec)))
                Hr Hnz eq_refl) as Hdec.
  lia.
Qed.

(** The flat selector returns: the fuel its loop is given is enough. *)
Lemma job_test_flat_returns (G : globals) (job_ptr : job_record) (bitmap : bitstr_t)
    (min_nodes max_nodes req_nodes : Z) :
  exists r, job_test_flat G job_ptr bitmap min_nodes max_nodes req_nodes = Some r.
Proof.
  unfold job_test_flat.
  destruct (build_table G job_ptr _) as [s runs].
  destruct (select_loop_returns G job_ptr min_nodes req_nodes (S (length runs))
              runs 0 s) as [[error_code s'] Hr].
  - pose proof (open_runs_le runs). lia.
  - rewrite Hr. now eexists.
Qed.

End Selector.


(** ** The planner leaves the registry alone *)

Section Planner.

Context {SL : Slurm} {CT : Slurmctld}.

Lemma job_test_at_cr_ptr (G : globals) (w : world) (job_ptr : nat) (bitmap : bitstr_t)
    (min_nodes max_nodes req_nodes : Z) :
  cr_ptr (snd (job_test_at G w job_ptr bitmap min_nodes max_nodes req_nodes))
  = cr_ptr w.
Proof.
  unfold job_test_at.
  destruct (_job_test G (job_at w job_ptr) bitmap min_nodes max_nodes req_nodes)
    as [[rc b] j].
  reflexivity.
Qed.

Lemma rm_job_at_cr_ptr (G : globals) (exp_cr : cr_record) (w : world) (k : nat)
    (remove_all : bool) :
  cr_ptr (snd (rm_job_at G exp_cr w k remove_all)) = cr_ptr w.
Proof.
  unfold rm_job_at.
  destruct (_rm_job_from_nodes G exp_cr (job_at w k) remove_all (gres w))
    as [[[rc c] j] h].
  reflexivity.
Qed.

Lemma will_run_split_cr_ptr (G : globals) (cands : option (list nat)) (jobs : list nat)
    (exp_cr : cr_record) (w : world) (l : list nat) :
  cr_ptr (snd (fst (will_run_split G cands jobs (exp_cr, w, l)))) = cr_ptr w.
Proof.
  revert exp_cr w l. induction jobs as [ | k rest IH ]; intros exp_cr w l;
    [ reflexivity | ].
  cbn [will_run_split].
  destruct (negb (IS_JOB_RUNNING (job_at w k)) && negb (IS_JOB_SUSPENDED (job_at w k)));
    [ apply IH | ].
  destruct (end_time (job_at w k) =? 0); [ apply IH | ].
  destruct (_is_preemptable k cands); [ | apply IH ].
  pose proof (rm_job_at_cr_ptr G exp_cr w k (preempt_remove_all (job_at w k))) as H.
  destruct (rm_job_at G exp_cr w k (preempt_remove_all (job_at w k))) as [c w'].
  rewrite IH. exact H.
Qed.

Lemma will_run_replay_cr_ptr (G : globals) (job_ptr : nat) (orig_map : bitstr_t)
    (min_nodes max_nodes req_nodes max_run_jobs now : Z) (jobs : list nat)
    (st : preempt_state) :
  cr_ptr (ps_world (will_run_replay G job_ptr orig_map min_nodes max_nodes req_nodes
                      max_run_jobs now jobs st))
  = cr_ptr (ps_world st).
Proof.
  revert st. induction jobs as [ | k rest IH ]; intros st; [ reflexivity | ].
  cbn [will_run_replay].
  pose proof (rm_job_at_cr_ptr G (ps_exp_cr st) (ps_world st) k true) as Hrm.
  destruct (rm_job_at G (ps_exp_cr st) (ps_world st) k true) as [exp_cr w1].
  cbn [snd] in Hrm.
  destruct (_job_count_bitmap G (gres w1) exp_cr (job_at w1 job_ptr) orig_map
              (ps_bitmap st) max_run_jobs NO_SHARE_LIMIT SELECT_MODE_RUN_NOW)
    as [i bitmap1].
  destruct (i <? min_nodes); [ rewrite IH; exact Hrm | ].
  pose proof (job_test_at_cr_ptr G w1 job_ptr bitmap1 min_nodes max_nodes req_nodes)
    as Hjt.
  destruct (job_test_at G w1 job_ptr bitmap1 min_nodes max_nodes req_nodes)
    as [[rc bitmap2] w2].
  cbn [snd] in Hjt.
  destruct (negb (errno_eqb rc SLURM_SUCCESS)).
  - rewrite IH. cbn [ps_world]. congruence.
  - cbn [ps_world set_job cr_ptr]. congruence.
Qed.

(** [_will_run_test] leaves the registry as it was. *)
Lemma will_run_test_pure (G : globals) (w : world) (job_ptr : nat) (bitmap : bitstr_t)
    (min_nodes max_nodes max_share req_nodes : Z)
    (cands : option (list nat)) (out : preemptee_out) :
  registry_unchanged w
    (_will_run_test G w job_ptr bitmap min_nodes max_nodes max_share req_nodes
       cands out).
Proof.
  unfold _will_run_test, registry_unchanged.
  destruct (cr_ptr w) as [cr | ] eqn:Hcr; [ | reflexivity ].
  unfold read_time at 1.
  set (w0 := mk_world (cr_ptr w) (job_list w) (gres w) (S (ticks w))).
  assert (H0 : cr_ptr w0 = Some cr) by exact Hcr.
  destruct (_job_count_bitmap G (gres w0) cr (job_at w0 job_ptr) (bit_copy bitmap)
              bitmap (Z.max (max_share - 1) 1) NO_SHARE_LIMIT SELECT_MODE_WILL_RUN)
    as [i bitmap1].
  assert (H1 : exists rc1 bitmap2 w1,
             (if min_nodes <=? i
              then job_test_at G w0 job_ptr bitmap1 min_nodes max_nodes req_nodes
              else (SLURM_ERROR, bitmap1, w0)) = (rc1, bitmap2, w1)
             /\ cr_ptr w1 = Some cr).
  { destruct (min_nodes <=? i).
    - pose proof (job_test_at_cr_ptr G w0 job_ptr bitmap1 min_nodes max_nodes
                    req_nodes) as Hjt.
      destruct (job_test_at G w0 job_ptr bitmap1 min_nodes max_nodes req_nodes)
        as [[rc b] w1].
      exists rc, b, w1. split; [ reflexivity | ]. cbn [snd] in Hjt. congruence.
    - exists SLURM_ERROR, bitmap1, w0. auto. }
  destruct H1 as (rc1 & bitmap2 & w1 & -> & Hw1).
  destruct ((min_nodes <=? i) && errno_eqb rc1 SLURM_SUCCESS).
  - unfold read_time. cbn [set_job cr_ptr]. exact Hw1.
  - destruct (_dup_cr G cr (gres w1)) as [exp_cr0 h].
    pose proof (will_run_split_cr_ptr G cands (job_pointers w1) exp_cr0
                  (set_gres w1 h) []) as Hsplit.
    destruct (will_run_split G cands (job_pointers w1) (exp_cr0, set_gres w1 h, []))
      as [[exp_cr1 w2] cr_job_list].
    cbn [fst snd set_gres cr_ptr] in Hsplit.
    assert (H3 : exists rc2 bitmap3 w3,
               match cands with
               | Some _ =>
                   let '(i', b) :=
                     _job_count_bitmap G (gres w2) exp_cr1 (job_at w2 job_ptr)
                       (bit_copy bitmap) bitmap2 (Z.max (max_share - 1) 1)
                       NO_SHARE_LIMIT SELECT_MODE_RUN_NOW in
                   if min_nodes <=? i' then
                     let '(rc, b', w') :=
                       job_test_at G w2 job_ptr b min_nodes max_nodes req_nodes in
                     (rc, b',
                      if errno_eqb rc SLURM_SUCCESS
                      then set_job w' job_ptr
                             (set_start_time (job_at w' job_ptr) (time (ticks w) + 1))
                      else w')
                   else (rc1, b, w2)
               | None => (rc1, bitmap2, w2)
               end = (rc2, bitmap3, w3)
               /\ cr_ptr w3 = Some cr).
    { destruct cands as [c | ].
      - destruct (_job_count_bitmap G (gres w2) exp_cr1 (job_at w2 job_ptr)
                    (bit_copy bitmap) bitmap2 (Z.max (max_share - 1) 1)
                    NO_SHARE_LIMIT SELECT_MODE_RUN_NOW) as [i' b].
        destruct (min_nodes <=? i').
        + pose proof (job_test_at_cr_ptr G w2 job_ptr b min_nodes max_nodes req_nodes)
            as Hjt.
          destruct (job_test_at G w2 job_ptr b min_nodes max_nodes req_nodes)
            as [[rc b'] w'].
          cbn [snd] in Hjt. eexists _, _, _. split; [ reflexivity | ].
          destruct (errno_eqb rc SLURM_SUCCESS); cbn [set_job cr_ptr]; congruence.
        + eexists _, _, _. split; [ reflexivity | congruence ].
      - eexists _, _, _. split; [ reflexivity | congruence ]. }
    destruct H3 as (rc2 & bitmap3 & w3 & -> & Hw3).
    cbn [set_gres cr_ptr].
    destruct (negb (errno_eqb rc2 SLURM_SUCCESS)).
    + rewrite will_run_replay_cr_ptr. cbn [ps_world]. exact Hw3.
    + cbn [ps_world]. exact Hw3.
Qed.

(** [_test_only] leaves the registry as it was. *)
Lemma test_only_pure (G : globals) (w : world) (job_ptr : nat) (bitmap : bitstr_t)
    (min_nodes max_nodes req_nodes max_share : Z) :
  registry_unchanged w
    (_test_only G w job_ptr bitmap min_nodes max_nodes req_nodes max_share).
Proof.
  unfold _test_only, registry_unchanged.
  destruct (cr_ptr w) as [cr | ] eqn:Hcr; [ | reflexivity ].
  destruct (_job_count_bitmap G (gres w) cr (job_at w job_ptr) (bit_copy bitmap)
              bitmap NO_SHARE_LIMIT NO_SHARE_LIMIT SELECT_MODE_TEST_ONLY)
    as [i bitmap1].
  destruct (min_nodes <=? i); [ | exact Hcr ].
  set (w1 := set_job w job_ptr (set_pn_min_memory (job_at w job_ptr) 0)).
  pose proof (job_test_at_cr_ptr G w1 job_ptr bitmap1 min_nodes max_nodes req_nodes)
    as Hjt.
  destruct (job_test_at G w1 job_ptr bitmap1 min_nodes max_nodes req_nodes)
    as [[rc bitmap2] w2].
  cbn [snd] in Hjt. cbn [set_job cr_ptr]. rewrite Hjt. exact Hcr.
Qed.

(** ** C5: the first attempt of the WILL_RUN planner *)

Lemma nth_list_set_valid {A : Type} (l : list A) (n : nat) (x d : A) :
  (n < length l)%nat -> nth n (list_set l n x) d = x.
Proof. apply nth_list_set_same. Qed.

Lemma list_set_twice {A : Type} (l : list A) (n : nat) (x y : A) :
  list_set (list_set l n x) n y = list_set l n y.
Proof.
  revert n. induction l as [ | z r IH ]; intros [ | n ]; simpl; auto.
  now rewrite IH.
Qed.

(** C5 (amended): the first placement attempt of [_will_run_test] runs
    the availability filter on the registry with run cap
    [max (max_share - 1) 1], total cap [NO_SHARE_LIMIT] and mode
    [WILL_RUN]; when the filter keeps at least [min_nodes] nodes and the
    selector succeeds on them, the call returns [SLURM_SUCCESS] with the
    selector's bitmap, and the job's [start_time] is the reading of the
    clock made at that moment (the second reading of the call). *)
Theorem will_run_first_attempt (G : globals) (w : world) (cr : cr_record)
    (job_ptr : nat) (bitmap : bitstr_t)
    (min_nodes max_nodes max_share req_nodes : Z)
    (cands : option (list nat)) (out : preemptee_out)
    (i : Z) (jobmap bitmap' : bitstr_t) (job' : job_record)
    (Hcr : cr_ptr w = Some cr)
    (Hptr : (job_ptr < length (job_list w))%nat)
    (Hfilter : _job_count_bitmap G (gres w) cr (job_at w job_ptr) bitmap bitmap
                 (Z.max (max_share - 1) 1) NO_SHARE_LIMIT SELECT_MODE_WILL_RUN
               = (i, jobmap))
    (Hcount : min_nodes <= i)
    (Hselect : _job_test G (job_at w job_ptr) jobmap min_nodes max_nodes req_nodes
               = (SLURM_SUCCESS, bitmap', job')) :
  _will_run_test G w job_ptr bitmap min_nodes max_nodes max_share req_nodes cands out
  = Returns (SLURM_SUCCESS, bitmap', out)
      (mk_world (Some cr)
         (list_set (job_list w) job_ptr (set_start_time job' (time (S (ticks w)))))
         (gres w) (S (S (ticks w)))).
Proof.
  unfold _will_run_test. rewrite Hcr. unfold read_time at 1.
  set (w0 := mk_world (cr_ptr w) (job_list w) (gres w) (S (ticks w))).
  change (gres w0) with (gres w). change (job_at w0 job_ptr) with (job_at w job_ptr).
  unfold bit_copy. rewrite Hfilter.
  assert (E : (min_nodes <=? i) = true) by (apply Z.leb_le; exact Hcount).
  rewrite E. unfold job_test_at.
  change (job_at w0 job_ptr) with (job_at w job_ptr). rewrite Hselect.
  cbn [andb errno_eqb]. unfold read_time, set_job, job_at.
  cbn [cr_ptr job_list gres ticks]. subst w0. cbn [cr_ptr job_list gres ticks].
  rewrite nth_list_set_valid by exact Hptr.
  rewrite list_set_twice, Hcr. reflexivity.
Qed.

(** ** C8: invalid arguments of [select_p_job_test] *)

Lemma init_node_cr_builds (G : globals) (w : world) :
  cr_ptr (_init_node_cr G w) <> None.
Proof.
  unfold _init_node_cr. destruct (cr_ptr w) eqn:E; [ congruence | ].
  match goal with
  | |- context [init_jobs ?a ?b ?c] => destruct (init_jobs a b c) as [[cr h'] jobs]
  end.
  discriminate.
Qed.

Lemma built_has_registry (G : globals) (w : world) : cr_ptr (built G w) <> None.
Proof.
  unfold built. destruct (cr_ptr w) eqn:E; [ congruence | apply init_node_cr_builds ].
Qed.

(** C8 (amended): a job without details gets [EINVAL] and nothing
    changes; a bitmap with fewer than [min_nodes] bits set gets [EINVAL]
    after the registry has been built if there was none (an existing
    registry, and then the whole state, is unchanged); with details and
    enough bits, a mode that is none of the three does not return: the
    call ends the process. *)
Theorem job_test_invalid_args (G : globals) (w : world) (job_ptr : nat)
    (bitmap : bitstr_t) (min_nodes max_nodes req_nodes : Z) (mode : select_mode)
    (cands : option (list nat)) (out : preemptee_out) :
  (details (job_at w job_ptr) = None ->
   select_p_job_test G w job_ptr bitmap min_nodes max_nodes req_nodes mode cands out
   = Returns (EINVAL, bitmap, out) w) /\
  (details (job_at w job_ptr) <> None -> bit_set_count bitmap < min_nodes ->
   select_p_job_test G w job_ptr bitmap min_nodes max_nodes req_nodes mode cands out
   = Returns (EINVAL, bitmap, out) (built G w)) /\
  (cr_ptr w <> None -> built G w = w) /\
  (details (job_at w job_ptr) <> None -> min_nodes <= bit_set_count bitmap ->
   forall v, mode = SELECT_MODE_OTHER v ->
   select_p_job_test G w job_ptr bitmap min_nodes max_nodes req_nodes mode cands out
   = Aborts).
Proof.
  split_conj.
  - intros Hd. unfold select_p_job_test. now rewrite Hd.
  - intros Hd Hcnt. unfold select_p_job_test.
    destruct (details (job_at w job_ptr)) as [d | ]; [ | congruence ].
    fold (built G w). pose proof (built_has_registry G w) as Hb.
    destruct (cr_ptr (built G w)); [ | congruence ].
    assert (E : (bit_set_count bitmap <? min_nodes) = true) by (apply Z.ltb_lt; lia).
    now rewrite E.
  - intros Hcr. unfold built. destruct (cr_ptr w); [ reflexivity | congruence ].
  - intros Hd Hcnt v ->. unfold select_p_job_test.
    destruct (details (job_at w job_ptr)) as [d | ]; [ | congruence ].
    fold (built G w). pose proof (built_has_registry G w) as Hb.
    destruct (cr_ptr (built G w)); [ | congruence ].
    assert (E : (bit_set_count bitmap <? min_nodes) = false) by (apply Z.ltb_ge; lia).
    rewrite E.
    destruct (job_max_share G (job_at (built G w) job_ptr)); reflexivity.
Qed.

End Planner.

(** ** C3: commit followed by release *)

Lemma list_eq_zth {A : Type} (l l' : list A) (d : A) :
  length l = length l' ->
  (forall j, 0 <= j < Z.of_nat (length l) -> zth l j d = zth l' j d) ->
  l = l'.
Proof.
  intros Hlen H. apply (nth_ext l l' d d Hlen).
  intros n Hn. specialize (H (Z.of_nat n) ltac:(lia)).
  unfold zth in H.
  replace (Z.of_nat n <? 0) with false in H by (symmetry; apply Z.ltb_ge; lia).
  now rewrite Nat2Z.id in H.
Qed.

Lemma zth_zset {A : Type} (l : list A) (i j : Z) (x d : A) :
  0 <= j < Z.of_nat (length l) ->
  zth (zset l i x) j d = if i =? j then x else zth l j d.
Proof.
  intros Hj. destruct (i =? j) eqn:E.
  - apply Z.eqb_eq in E. subst i. now apply zth_zset_same.
  - apply zth_zset_other. now apply Z.eqb_neq.
Qed.

Section NodesLoop.

Context {SL : Slurm}.

Variable step : nodes_loop -> Z -> nodes_loop.
Variable touch : Z -> bool.
Variable f : Z -> node_cr_record -> node_cr_record.

Hypothesis step_nodes : forall st i,
  lp_nodes (step st i)
  = if touch i
    then zset (lp_nodes st) i (f i (zth (lp_nodes st) i zero_node_cr))
    else lp_nodes st.

(** The records after a loop over distinct indices. *)
Lemma nodes_loop_fold (l : list Z) (st : nodes_loop) :
  NoDup l ->
  length (lp_nodes (fold_left step l st)) = length (lp_nodes st) /\
  (forall j, 0 <= j < Z.of_nat (length (lp_nodes st)) ->
     zth (lp_nodes (fold_left step l st)) j zero_node_cr
     = if existsb (Z.eqb j) l && touch j
       then f j (zth (lp_nodes st) j zero_node_cr)
       else zth (lp_nodes st) j zero_node_cr).
Proof.
  revert st. induction l as [ | a l IH ]; intros st Hnd.
  - simpl. split; [ reflexivity | intros; reflexivity ].
  - inversion Hnd as [ | ? ? Ha Hnd' ]; subst.
    cbn [fold_left]. destruct (IH (step st a) Hnd') as [IHlen IHz].
    assert (Hlen : length (lp_nodes (step st a)) = length (lp_nodes st)).
    { rewrite step_nodes. destruct (touch a); [ apply length_zset | reflexivity ]. }
    split; [ congruence | ].
    intros j Hj. rewrite IHz by (rewrite Hlen; exact Hj).
    cbn [existsb]. rewrite step_nodes.
    destruct (j =? a) eqn:E.
    + apply Z.eqb_eq in E. subst j.
      assert (Hl : existsb (Z.eqb a) l = false).
      { destruct (existsb (Z.eqb a) l) eqn:Ex; [ | reflexivity ].
        apply existsb_eqb_In in Ex. contradiction. }
      rewrite Hl. cbn [andb orb].
      destruct (touch a); [ | reflexivity ].
      now rewrite zth_zset, Z.eqb_refl.
    + cbn [orb].
      assert (Hz : zth (if touch a
                        then zset (lp_nodes st) a (f a (zth (lp_nodes st) a zero_node_cr))
                        else lp_nodes st) j zero_node_cr
                   = zth (lp_nodes st) j zero_node_cr).
      { destruct (touch a); [ | reflexivity ].
        rewrite zth_zset by exact Hj. rewrite Z.eqb_sym, E. reflexivity. }
      now rewrite Hz.
Qed.

End NodesLoop.

Section RoundTrip.

Context {SL : Slurm}.

Lemma cnt_incr_small (x : Z) :
  0 <= x -> x + 1 < 2 ^ Zpos cnt_bits -> cnt_incr x = x + 1.
Proof.
  intros H0 H1. unfold cnt_incr. apply Z.mod_small. lia.
Qed.

Lemma to_uint32_nonneg (x : Z) : 0 <= to_uint32 x < 2 ^ 32.
Proof. unfold to_uint32. apply Z.mod_pos_bound. lia. Qed.

Lemma part_roundtrip (p : part_cr_record) :
  part_has_room p -> rm_part_counts true true (add_part_counts true p) = p.
Proof.
  intros (Hr0 & Hr1 & Ht0 & Ht1 & Hsync).
  unfold rm_part_counts, add_part_counts. cbn [run_job_cnt tot_job_cnt cr_part_ptr negb].
  rewrite !cnt_incr_small by assumption.
  replace (0 <? run_job_cnt p + 1) with true by (symmetry; apply Z.ltb_lt; lia).
  replace (0 <? tot_job_cnt p + 1) with true by (symmetry; apply Z.ltb_lt; lia).
  replace (run_job_cnt p + 1 - 1) with (run_job_cnt p) by lia.
  replace (tot_job_cnt p + 1 - 1) with (tot_job_cnt p) by lia.
  destruct (tot_job_cnt p =? 0) eqn:Et; cbn [andb].
  - apply Z.eqb_eq in Et. rewrite (Hsync Et). cbn. rewrite <- (Hsync Et).
    destruct p; reflexivity.
  - destruct p; reflexivity.
Qed.

Lemma parts_roundtrip (ps : list part_cr_record) (p : option nat) :
  (forall x, In x ps -> p = Some (cr_part_ptr x) -> part_has_room x) ->
  walked (walked ps p (add_part_counts true)) p (rm_part_counts true true) = ps.
Proof.
  unfold walked. induction ps as [ | x r IH ]; intros H; [ reflexivity | ].
  cbn [update_part].
  destruct (match p with Some q => Nat.eqb (cr_part_ptr x) q | None => false end) eqn:E.
  - cbn [update_part add_part_counts cr_part_ptr]. rewrite E.
    rewrite part_roundtrip; [ reflexivity | ].
    apply H; [ now left | ].
    destruct p as [q | ]; [ | discriminate ].
    apply Nat.eqb_eq in E. now subst.
  - assert (IH' := IH (fun y Hy => H y (or_intror Hy))).
    destruct (update_part r p (add_part_counts true)) as [r' | ] eqn:Er; cbn [option_map].
    + cbn [update_part]. rewrite E.
      destruct (update_part r' p (rm_part_counts true true)) as [r'' | ] eqn:Er';
        cbn [option_map]; now rewrite IH'.
    + cbn [update_part]. rewrite E.
      destruct (update_part r p (rm_part_counts true true)) as [r'' | ];
        cbn [option_map]; now rewrite ?IH'.
Qed.

Lemma node_roundtrip (G : globals) (job_ptr : job_record) (i : Z) (n : node_cr_record) :
  node_has_room G job_ptr i n ->
  let '(job_memory_cpu, job_memory_node) := job_memory_request G (details job_ptr) in
  let exclusive := shared (details_of job_ptr) =? 0 in
  rm_node_cr G job_ptr true job_memory_cpu job_memory_node exclusive true i
    (add_node_cr G job_ptr true job_memory_cpu job_memory_node exclusive i n)
  = n.
Proof.
  intros (Ha & Hm0 & Hm & Hex & Hparts). unfold job_mem_on in Hm0, Hm.
  destruct (job_memory_request G (details job_ptr))
    as [job_memory_cpu job_memory_node].
  cbv zeta. unfold rm_node_cr, add_node_cr.
  cbn [parts alloc_memory exclusive_cnt cr_gres_list].
  fold (walked (parts n) (part_ptr job_ptr) (add_part_counts true)).
  fold (walked (walked (parts n) (part_ptr job_ptr) (add_part_counts true))
          (part_ptr job_ptr) (rm_part_counts true true)).
  rewrite parts_roundtrip by (intros x Hx Hp; now apply Hparts).
  set (jm := if negb (job_memory_cpu =? 0)
             then to_uint32 (job_memory_cpu * to_uint16 (node_cpu_cnt G i))
             else job_memory_node) in *.
  assert (Emem : (if negb (job_memory_cpu =? 0)
                  then to_uint32 (alloc_memory n
                                  + to_uint32 (job_memory_cpu
                                               * to_uint16 (node_cpu_cnt G i)))
                  else to_uint32 (alloc_memory n + job_memory_node))
                 = alloc_memory n + jm).
  { subst jm. destruct (negb (job_memory_cpu =? 0));
      unfold to_uint32 at 1; apply Z.mod_small; lia. }
  rewrite Emem.
  replace (jm <=? alloc_memory n + jm) with true by (symmetry; apply Z.leb_le; lia).
  replace (alloc_memory n + jm - jm) with (alloc_memory n) by lia.
  destruct (shared (details_of job_ptr) =? 0) eqn:Es.
  - apply Z.eqb_eq in Es. destruct (Hex Es) as [He0 He1].
    rewrite cnt_incr_small by assumption.
    replace (exclusive_cnt n + 1 =? 0) with false by (symmetry; apply Z.eqb_neq; lia).
    cbn [negb]. replace (exclusive_cnt n + 1 - 1) with (exclusive_cnt n) by lia.
    destruct n; reflexivity.
  - destruct n; reflexivity.
Qed.

Lemma add_job_to_node_nodes (G : globals) (cr : cr_record) (job_ptr : job_record)
    (r : job_resources_t) (alloc_all : bool) (jmc jmn nc : Z) (exclusive : bool)
    (st : nodes_loop) (i : Z) :
  lp_nodes (add_job_to_node G cr job_ptr r alloc_all jmc jmn nc exclusive st i)
  = if bit_test (resrcs_bitmap r) i && bit_test (node_bitmap job_ptr) i
    then zset (lp_nodes st) i
           (add_node_cr G job_ptr alloc_all jmc jmn exclusive i
              (zth (lp_nodes st) i zero_node_cr))
    else lp_nodes st.
Proof.
  unfold add_job_to_node, add_node_cr.
  destruct (bit_test (resrcs_bitmap r) i); cbn [negb andb]; [ | reflexivity ].
  destruct (bit_test (node_bitmap job_ptr) i); cbn [negb]; [ | reflexivity ].
  destruct (update_part (parts (zth (lp_nodes st) i zero_node_cr)) (part_ptr job_ptr)
              (add_part_counts alloc_all)); reflexivity.
Qed.

Lemma rm_job_from_node_nodes (G : globals) (cr : cr_record) (job_ptr : job_record)
    (r : job_resources_t) (remove_all : bool) (jmc jmn : Z)
    (exclusive is_job_running : bool) (st : nodes_loop) (i : Z) :
  lp_nodes (rm_job_from_node G cr job_ptr r remove_all jmc jmn exclusive
              is_job_running st i)
  = if bit_test (resrcs_bitmap r) i && bit_test (node_bitmap job_ptr) i
    then zset (lp_nodes st) i
           (rm_node_cr G job_ptr remove_all jmc jmn exclusive is_job_running i
              (zth (lp_nodes st) i zero_node_cr))
    else lp_nodes st.
Proof.
  unfold rm_job_from_node, rm_node_cr.
  destruct (bit_test (resrcs_bitmap r) i); cbn [negb andb]; [ | reflexivity ].
  destruct (bit_test (node_bitmap job_ptr) i); cbn [negb]; [ | reflexivity ].
  destruct (update_part (parts (zth (lp_nodes st) i zero_node_cr)) (part_ptr job_ptr)
              (rm_part_counts is_job_running remove_all)); reflexivity.
Qed.

(** The index range of the allocator's loops holds every node the job
    touches. *)
Lemma touched_in_range (r : job_resources_t) (i : Z) :
  bit_test (resrcs_bitmap r) i = true ->
  existsb (Z.eqb i)
    (index_range (bit_ffs (resrcs_bitmap r))
       (if bit_ffs (resrcs_bitmap r) =? -1 then -2 else bit_fls (resrcs_bitmap r)))
  = true.
Proof.
  intros H. apply existsb_eqb_In, in_index_range.
  pose proof (bit_test_between _ _ H) as Hb.
  destruct (bit_ffs (resrcs_bitmap r) =? -1) eqn:E; [ apply Z.eqb_eq in E; lia | lia ].
Qed.

(** The registry [_add_job_to_nodes] leaves for a job with
    [job_resrcs]. *)
Lemma add_job_to_nodes_registry (G : globals) (cr : cr_record) (job_ptr : job_record)
    (r : job_resources_t) (h : gres_heap) :
  job_resrcs job_ptr = Some r ->
  let '(rc, cr1, job1, h1) := _add_job_to_nodes G cr job_ptr true h in
  let '(jmc, jmn) := job_memory_request G (details job_ptr) in
  run_job_ids cr1 = add_job_id (run_job_ids cr) (job_id job_ptr) /\
  tot_job_ids cr1 = add_job_id (tot_job_ids cr) (job_id job_ptr) /\
  length (nodes cr1) = length (nodes cr) /\
  (forall j, 0 <= j < Z.of_nat (length (nodes cr)) ->
     zth (nodes cr1) j zero_node_cr
     = if job_touches job_ptr j
       then add_node_cr G job_ptr true jmc jmn (shared (details_of job_ptr) =? 0) j
              (zth (nodes cr) j zero_node_cr)
       else zth (nodes cr) j zero_node_cr) /\
  (job1 = job_ptr \/ job1 = set_part_nodes_missing job_ptr true).
Proof.
  intros Hr. unfold _add_job_to_nodes. rewrite Hr.
  destruct (job_memory_request G (details job_ptr)) as [jmc jmn].
  match goal with
  | |- context [fold_left ?s ?l ?st0] =>
      pose proof (nodes_loop_fold s
                    (fun j => bit_test (resrcs_bitmap r) j
                              && bit_test (node_bitmap job_ptr) j)
                    (add_node_cr G job_ptr true jmc jmn
                       (shared (details_of job_ptr) =? 0))
                    (fun st i => add_job_to_node_nodes G _ job_ptr r true jmc jmn _ _ st i)
                    l st0 (NoDup_index_range _ _)) as [Hlen Hz];
      set (st := fold_left s l st0) in *
  end.
  cbn [lp_nodes nodes _add_tot_job _add_run_job run_job_ids tot_job_ids] in Hlen, Hz |- *.
  split_conj; try reflexivity.
  - exact Hlen.
  - intros j Hj. rewrite (Hz j Hj). unfold job_touches. rewrite Hr.
    destruct (bit_test (resrcs_bitmap r) j) eqn:Eb; cbn [andb];
      [ | now rewrite andb_false_r ].
    now rewrite (touched_in_range r j Eb).
  - destruct (lp_missing st); auto.
Qed.

(** The registry [_rm_job_from_nodes] leaves for a job with [job_resrcs]
    whose id is in both arrays. *)
Lemma rm_job_from_nodes_registry (G : globals) (cr : cr_record) (job_ptr : job_record)
    (r : job_resources_t) (h : gres_heap) :
  job_resrcs job_ptr = Some r ->
  In (job_id job_ptr) (tot_job_ids cr) ->
  In (job_id job_ptr) (run_job_ids cr) ->
  let '(rc, cr2, job2, h2) := _rm_job_from_nodes G cr job_ptr true h in
  let '(jmc, jmn) := job_memory_request G (details job_ptr) in
  run_job_ids cr2 = snd (ck_job_id (run_job_ids cr) (job_id job_ptr) true) /\
  tot_job_ids cr2 = snd (ck_job_id (tot_job_ids cr) (job_id job_ptr) true) /\
  length (nodes cr2) = length (nodes cr) /\
  (forall j, 0 <= j < Z.of_nat (length (nodes cr)) ->
     zth (nodes cr2) j zero_node_cr
     = if job_touches job_ptr j
       then rm_node_cr G job_ptr true jmc jmn (shared (details_of job_ptr) =? 0) true j
              (zth (nodes cr) j zero_node_cr)
       else zth (nodes cr) j zero_node_cr).
Proof.
  intros Hr Htot Hrun. unfold _rm_job_from_nodes, _rem_tot_job, _ck_tot_job.
  pose proof (ck_job_id_found (tot_job_ids cr) (job_id job_ptr) true) as Hft.
  destruct (ck_job_id (tot_job_ids cr) (job_id job_ptr) true) as [found tot'] eqn:Et.
  cbn [fst] in Hft. rewrite (proj2 (existsb_eqb_In _ _) Htot) in Hft. subst found.
  cbn [negb]. rewrite Hr.
  destruct (job_memory_request G (details job_ptr)) as [jmc jmn].
  unfold _rem_run_job, _ck_run_job. cbn [run_job_ids nodes tot_job_ids].
  pose proof (ck_job_id_found (run_job_ids cr) (job_id job_ptr) true) as Hfr.
  destruct (ck_job_id (run_job_ids cr) (job_id job_ptr) true) as [running run'] eqn:Er.
  cbn [fst] in Hfr. rewrite (proj2 (existsb_eqb_In _ _) Hrun) in Hfr. subst running.
  match goal with
  | |- context [fold_left ?s ?l ?st0] =>
      pose proof (nodes_loop_fold s
                    (fun j => bit_test (resrcs_bitmap r) j
                              && bit_test (node_bitmap job_ptr) j)
                    (rm_node_cr G job_ptr true jmc jmn
                       (shared (details_of job_ptr) =? 0) true)
                    (fun st i => rm_job_from_node_nodes G _ job_ptr r true jmc jmn _ _
                                   st i)
                    l st0 (NoDup_index_range _ _)) as [Hlen Hz];
      set (st := fold_left s l st0) in *
  end.
  cbn [lp_nodes nodes run_job_ids tot_job_ids snd] in Hlen, Hz |- *.
  split_conj; try reflexivity.
  - exact Hlen.
  - intros j Hj. rewrite (Hz j Hj). unfold job_touches. rewrite Hr.
    destruct (bit_test (resrcs_bitmap r) j) eqn:Eb; cbn [andb];
      [ | now rewrite andb_false_r ].
    now rewrite (touched_in_range r j Eb).
Qed.

Lemma length_ck_job_id (ids : list Z) (id : Z) (clear_it : bool) :
  length (snd (ck_job_id ids id clear_it)) = length ids.
Proof.
  induction ids as [ | x r IH ]; simpl; [ reflexivity | ].
  destruct (ck_job_id r id clear_it) as [rc r']. simpl in IH.
  destruct (x =? id); simpl; now rewrite IH.
Qed.

Lemma clear_makes_hole (ids : list Z) (id : Z) :
  existsb (Z.eqb id) ids = true ->
  existsb (Z.eqb 0) (snd (ck_job_id ids id true)) = true.
Proof.
  induction ids as [ | y r IH ]; cbn [ck_job_id existsb]; [ discriminate | ].
  destruct (ck_job_id r id true) as [rc r']. cbn [snd] in IH.
  rewrite (Z.eqb_sym id y). destruct (y =? id); cbn [negb snd existsb orb].
  - intros _. reflexivity.
  - intros H. rewrite (IH H). apply orb_true_r.
Qed.

Lemma clear_keeps_hole (ids : list Z) (id : Z) :
  existsb (Z.eqb 0) ids = true ->
  existsb (Z.eqb 0) (snd (ck_job_id ids id true)) = true.
Proof.
  induction ids as [ | y r IH ]; cbn [ck_job_id existsb]; [ discriminate | ].
  destruct (ck_job_id r id true) as [rc r']. cbn [snd] in IH.
  destruct (y =? id); cbn [negb snd existsb orb].
  - intros _. reflexivity.
  - intros H. apply orb_prop in H as [H | H]; [ now rewrite H | ].
    rewrite (IH H). apply orb_true_r.
Qed.

(** Clearing an id keeps the room of an array, and makes room when the
    id was stored. *)
Lemma clear_keeps_room (ids : list Z) (id : Z) :
  ids_room ids -> ids_room (snd (ck_job_id ids id true)).
Proof.
  intros [H | H]; [ left; now apply clear_keeps_hole | right ].
  now rewrite length_ck_job_id.
Qed.

Lemma clear_present_room (ids : list Z) (id : Z) :
  In id ids -> ids_room (snd (ck_job_id ids id true)).
Proof.
  intros H. left. apply clear_makes_hole. now apply existsb_eqb_In.
Qed.

Lemma live_add_clear (ids : list Z) (id x : Z) :
  ids_room ids -> ~ live ids id ->
  (live (snd (ck_job_id (add_job_id ids id) id true)) x <-> live ids x).
Proof.
  intros Hroom Hnew. rewrite live_clear, live_add by exact Hroom. split.
  - intros [[H | [He _]] Hne]; [ exact H | contradiction ].
  - intros H. split; [ now left | ]. intros ->. contradiction.
Qed.

Lemma live_clear_absent (ids : list Z) (id x : Z) :
  ~ live ids id -> (live (snd (ck_job_id ids id true)) x <-> live ids x).
Proof.
  intros Hnew. rewrite live_clear. split; [ tauto | ].
  intros H. split; [ exact H | ]. intros ->. contradiction.
Qed.

(** One pair: commit with [alloc_all], release with [remove_all]. *)
Lemma commit_release_pair (G : globals) (cr : cr_record) (job_ptr : job_record)
    (h : gres_heap) :
  roundtrip_ok G cr job_ptr ->
  same_registry (fst (commit_release G job_ptr true (cr, h))) cr /\
  ids_room (run_job_ids (fst (commit_release G job_ptr true (cr, h)))) /\
  ids_room (tot_job_ids (fst (commit_release G job_ptr true (cr, h)))).
Proof.
  intros (Hrun & Htot & Hroom & _ & Hrr & Hrt). unfold commit_release. cbn [fst snd].
  destruct (job_resrcs job_ptr) as [r | ] eqn:Hr.
  - pose proof (add_job_to_nodes_registry G cr job_ptr r h Hr) as Ha.
    destruct (_add_job_to_nodes G cr job_ptr true h) as [[[rc1 cr1] job1] h1].
    pose proof (node_roundtrip G job_ptr) as Hnode.
    destruct (job_memory_request G (details job_ptr)) as [jmc jmn] eqn:Em.
    destruct Ha as (Ha1 & Ha2 & Ha3 & Ha4 & Ha5).
    assert (Hj1 : job_resrcs job1 = Some r /\ job_id job1 = job_id job_ptr
                  /\ details job1 = details job_ptr
                  /\ (forall j, job_touches job1 j = job_touches job_ptr j)
                  /\ (forall j n b1 b2 c1 c2,
                         rm_node_cr G job1 true c1 c2 b1 b2 j n
                         = rm_node_cr G job_ptr true c1 c2 b1 b2 j n)).
    { destruct Ha5 as [-> | ->]; split_conj; auto;
        unfold job_touches; cbn; try rewrite Hr; reflexivity. }
    destruct Hj1 as (Hr1 & Hid1 & Hd1 & Ht1 & Hrm1).
    pose proof (rm_job_from_nodes_registry G cr1 job1 r h1 Hr1) as Hb.
    rewrite Hid1, Ha1, Ha2 in Hb.
    specialize (Hb (add_job_id_holds _ _ Hrt) (add_job_id_holds _ _ Hrr)).
    destruct (_rm_job_from_nodes G cr1 job1 true h1) as [[[rc2 cr2] job2] h2].
    rewrite Hd1, Em in Hb. unfold details_of in Hb. rewrite Hd1 in Hb.
    fold (details_of job_ptr) in Hb.
    destruct Hb as (Hb1 & Hb2 & Hb3 & Hb4). cbn [fst].
    split_conj;
      [ | rewrite Hb1; apply clear_present_room; now apply add_job_id_holds
        | rewrite Hb2; apply clear_present_room; now apply add_job_id_holds ].
    unfold same_registry. split_conj.
    + apply (list_eq_zth _ _ zero_node_cr); [ congruence | ].
      intros j Hj. rewrite Hb3, Ha3 in Hj.
      rewrite (Hb4 j) by (rewrite Ha3; exact Hj).
      rewrite Ht1, Hrm1, (Ha4 j Hj).
      destruct (job_touches job_ptr j) eqn:Et; [ | reflexivity ].
      apply Hnode. now apply Hroom.
    + intros x. unfold in_run_set. rewrite Hb1. now apply live_add_clear.
    + intros x. unfold in_tot_set. rewrite Hb2. now apply live_add_clear.
  - unfold _add_job_to_nodes. rewrite Hr.
    destruct (job_memory_request G (details job_ptr)) as [jmc jmn].
    unfold _rm_job_from_nodes, _rem_tot_job, _ck_tot_job.
    destruct (ck_job_id (tot_job_ids cr) (job_id job_ptr) true) as [found tot'] eqn:Et.
    assert (Htot' : tot' = snd (ck_job_id (tot_job_ids cr) (job_id job_ptr) true))
      by now rewrite Et.
    assert (Hsame : same_registry (mk_cr (nodes cr) (run_job_ids cr) tot') cr).
    { unfold same_registry. split_conj; [ reflexivity | intros x; reflexivity | ].
      intros x. unfold in_tot_set. cbn [tot_job_ids]. rewrite Htot'.
      now apply live_clear_absent. }
    assert (Hroom' : ids_room (run_job_ids (mk_cr (nodes cr) (run_job_ids cr) tot')) /\
                     ids_room (tot_job_ids (mk_cr (nodes cr) (run_job_ids cr) tot'))).
    { cbn [run_job_ids tot_job_ids]. split; [ exact Hrr | ].
      rewrite Htot'. now apply clear_keeps_room. }
    destruct found; cbn [negb]; [ | now split ].
    destruct (job_memory_request G (details job_ptr)) as [jmc' jmn'].
    rewrite Hr. now split.
Qed.

Lemma roundtrip_ok_same (G : globals) (a b : cr_record) (job_ptr : job_record) :
  same_registry a b -> ids_room (run_job_ids a) -> ids_room (tot_job_ids a) ->
  roundtrip_ok G b job_ptr -> roundtrip_ok G a job_ptr.
Proof.
  intros (Hn & Hr & Ht) Hra Hta (H1 & H2 & H3 & H4 & _).
  unfold roundtrip_ok. split_conj.
  - now rewrite Hr.
  - now rewrite Ht.
  - intros i Hi. rewrite Hn. now apply H3.
  - exact H4.
  - exact Hra.
  - exact Hta.
Qed.

Lemma same_registry_trans (a b c : cr_record) :
  same_registry a b -> same_registry b c -> same_registry a c.
Proof.
  intros (Hn & Hr & Ht) (Hn' & Hr' & Ht'). unfold same_registry. split_conj.
  - congruence.
  - intros x. now rewrite Hr.
  - intros x. now rewrite Ht.
Qed.

(** C3 (amended): when the job is new to the registry, its nodes have
    room for it and the two id arrays can take one more id (each has an
    empty slot, or is short enough for its 16-bit length to grow by
    [RUN_JOB_INCR]), a commit with [alloc_all] followed by the release
    with [remove_all] leaves every per-node record ([alloc_memory],
    [exclusive_cnt], each [run_job_cnt] and [tot_job_cnt]) equal to its
    initial value and leaves the run set and the total set with the ids
    they held; so does any sequence of such pairs. *)
Theorem commit_release_restores (G : globals) (cr : cr_record)
    (jobs : list job_record) (h : gres_heap)
    (Hok : forall job_ptr, In job_ptr jobs -> roundtrip_ok G cr job_ptr) :
  same_registry (fst (commit_release_all G jobs true (cr, h))) cr.
Proof.
  unfold commit_release_all.
  assert (Hgen : forall st,
             same_registry (fst st) cr ->
             ids_room (run_job_ids (fst st)) -> ids_room (tot_job_ids (fst st)) ->
             same_registry
               (fst (fold_left (fun st job_ptr => commit_release G job_ptr true st)
                       jobs st)) cr).
  { induction jobs as [ | job_ptr rest IH ]; intros st Hst Hrr Hrt; [ exact Hst | ].
    cbn [fold_left]. destruct st as [cr0 h0]. cbn [fst] in Hst, Hrr, Hrt.
    assert (Hok0 : roundtrip_ok G cr0 job_ptr).
    { apply (roundtrip_ok_same G cr0 cr); auto. apply Hok. now left. }
    destruct (commit_release_pair G cr0 job_ptr h0 Hok0) as (Hsame & Hrr' & Hrt').
    apply IH; auto.
    - intros j Hj. apply Hok. now right.
    - now apply (same_registry_trans _ cr0). }
  destruct jobs as [ | job_ptr rest ].
  - cbn [fold_left fst]. unfold same_registry. split_conj; tauto || reflexivity.
  - destruct (Hok job_ptr (or_introl eq_refl)) as (_ & _ & _ & _ & Hrr & Hrt).
    apply Hgen; auto. cbn [fst]. unfold same_registry.
    split_conj; tauto || reflexivity.
Qed.

End RoundTrip.

(** * Further properties *)

(** ** The job-id arrays: add, test and remove *)

Lemma existsb_live (ids : list Z) (x : Z) :
  x <> 0 -> (existsb (Z.eqb x) ids = true <-> live ids x).
Proof.
  intros Hx. rewrite existsb_eqb_In. unfold live. tauto.
Qed.

Lemma existsb_add_job_id (ids : list Z) (id x : Z) :
  ids_room ids -> x <> 0 ->
  existsb (Z.eqb x) (add_job_id ids id) = (x =? id) || existsb (Z.eqb x) ids.
Proof.
  intros Hroom Hx. apply eq_true_iff_eq.
  rewrite orb_true_iff, !existsb_live, live_add, Z.eqb_eq by assumption.
  split; intros [H | H]; auto.
  - destruct H as [-> _]. now left.
  - subst id. right. tauto.
Qed.

Lemma existsb_clear (ids : list Z) (id x : Z) :
  x <> 0 ->
  existsb (Z.eqb x) (snd (ck_job_id ids id true))
  = negb (x =? id) && existsb (Z.eqb x) ids.
Proof.
  intros Hx. apply eq_true_iff_eq.
  rewrite andb_true_iff, negb_true_iff, !existsb_live, live_clear, Z.eqb_neq
    by exact Hx.
  tauto.
Qed.

Lemma length_fill_hole (ids ids' : list Z) (id : Z) :
  fill_hole ids id = Some ids' -> length ids' = length ids.
Proof.
  revert ids'. induction ids as [ | y r IH ]; simpl; intros ids' H; [ discriminate | ].
  destruct (y =? 0).
  - injection H as <-. reflexivity.
  - destruct (fill_hole r id) as [r' | ]; simpl in H; [ | discriminate ].
    injection H as <-. simpl. now rewrite (IH r' eq_refl).
Qed.

Lemma length_add_job_id (ids : list Z) (id : Z) :
  ids_room ids ->
  length (add_job_id ids id)
  = if existsb (Z.eqb 0) ids then length ids else (length ids + RUN_JOB_INCR)%nat.
Proof.
  intros Hroom. rewrite add_job_id_room by exact Hroom.
  destruct ids as [ | y r ]; [ reflexivity | ].
  destruct (fill_hole (y :: r) id) as [ids' | ] eqn:E.
  - rewrite (length_fill_hole _ _ _ E).
    destruct (existsb (Z.eqb 0) (y :: r)) eqn:Ex; [ reflexivity | ].
    apply fill_hole_full with (id := id) in Ex. congruence.
  - apply fill_hole_full in E. rewrite E.
    rewrite length_app. cbn [length]. rewrite repeat_length.
    unfold RUN_JOB_INCR. lia.
Qed.

Section RegistrySets.

Context {SL : Slurm}.

Lemma cr_record_eta (cr : cr_record) :
  mk_cr (nodes cr) (run_job_ids cr) (tot_job_ids cr) = cr.
Proof. now destruct cr. Qed.

(** X1: when the two id arrays can take one more id (each has an empty
    slot, or is short enough for its 16-bit length to grow by
    [RUN_JOB_INCR]), after [_add_run_job] the id is found by
    [_test_run_job], every other id is found as before, and the total
    array is as before; likewise for [_add_tot_job] and
    [_test_tot_job].  (The id 0 marks an empty slot and is left out.) *)
Theorem add_job_then_test (cr : cr_record) (id x : Z) (Hx : x <> 0)
    (Hrun : ids_room (run_job_ids cr)) (Htot : ids_room (tot_job_ids cr)) :
  _test_run_job (_add_run_job cr id) x = (x =? id) || _test_run_job cr x /\
  tot_job_ids (_add_run_job cr id) = tot_job_ids cr /\
  _test_tot_job (_add_tot_job cr id) x = (x =? id) || _test_tot_job cr x /\
  run_job_ids (_add_tot_job cr id) = run_job_ids cr /\
  nodes (_add_run_job cr id) = nodes cr /\ nodes (_add_tot_job cr id) = nodes cr.
Proof.
  unfold _test_run_job, _test_tot_job, _ck_run_job, _ck_tot_job, _add_run_job,
    _add_tot_job.
  cbn [run_job_ids tot_job_ids nodes].
  split_conj; try reflexivity.
  - pose proof (ck_job_id_found (add_job_id (run_job_ids cr) id) x false) as H1.
    pose proof (ck_job_id_found (run_job_ids cr) x false) as H2.
    destruct (ck_job_id (add_job_id (run_job_ids cr) id) x false).
    destruct (ck_job_id (run_job_ids cr) x false).
    cbn [fst] in *. rewrite H1, H2. now apply existsb_add_job_id.
  - pose proof (ck_job_id_found (add_job_id (tot_job_ids cr) id) x false) as H1.
    pose proof (ck_job_id_found (tot_job_ids cr) x false) as H2.
    destruct (ck_job_id (add_job_id (tot_job_ids cr) id) x false).
    destruct (ck_job_id (tot_job_ids cr) x false).
    cbn [fst] in *. rewrite H1, H2. now apply existsb_add_job_id.
Qed.

Lemma test_run_job_existsb (cr : cr_record) (x : Z) :
  _test_run_job cr x = existsb (Z.eqb x) (run_job_ids cr).
Proof.
  unfold _test_run_job, _ck_run_job.
  pose proof (ck_job_id_found (run_job_ids cr) x false) as H.
  destruct (ck_job_id (run_job_ids cr) x false). exact H.
Qed.

Lemma test_tot_job_existsb (cr : cr_record) (x : Z) :
  _test_tot_job cr x = existsb (Z.eqb x) (tot_job_ids cr).
Proof.
  unfold _test_tot_job, _ck_tot_job.
  pose proof (ck_job_id_found (tot_job_ids cr) x false) as H.
  destruct (ck_job_id (tot_job_ids cr) x false). exact H.
Qed.

Lemma rem_run_job_ids (cr : cr_record) (id : Z) :
  fst (_rem_run_job cr id) = existsb (Z.eqb id) (run_job_ids cr) /\
  snd (_rem_run_job cr id)
  = mk_cr (nodes cr) (snd (ck_job_id (run_job_ids cr) id true)) (tot_job_ids cr).
Proof.
  unfold _rem_run_job, _ck_run_job.
  pose proof (ck_job_id_found (run_job_ids cr) id true) as H.
  destruct (ck_job_id (run_job_ids cr) id true). split; [ exact H | reflexivity ].
Qed.

Lemma rem_tot_job_ids (cr : cr_record) (id : Z) :
  fst (_rem_tot_job cr id) = existsb (Z.eqb id) (tot_job_ids cr) /\
  snd (_rem_tot_job cr id)
  = mk_cr (nodes cr) (run_job_ids cr) (snd (ck_job_id (tot_job_ids cr) id true)).
Proof.
  unfold _rem_tot_job, _ck_tot_job.
  pose proof (ck_job_id_found (tot_job_ids cr) id true) as H.
  destruct (ck_job_id (tot_job_ids cr) id true). split; [ exact H | reflexivity ].
Qed.

(** X2: [_rem_run_job] answers what [_test_run_job] answers; after it
    the id is not found any more, however often it was stored, and every
    other id is found as before; when the id was not stored the registry
    is left as it was.  Likewise for [_rem_tot_job]. *)
Theorem rem_job_then_test (cr : cr_record) (id x : Z) (Hx : x <> 0) :
  (fst (_rem_run_job cr id) = _test_run_job cr id /\
   _test_run_job (snd (_rem_run_job cr id)) x
   = negb (x =? id) && _test_run_job cr x /\
   (_test_run_job cr id = false -> snd (_rem_run_job cr id) = cr)) /\
  (fst (_rem_tot_job cr id) = _test_tot_job cr id /\
   _test_tot_job (snd (_rem_tot_job cr id)) x
   = negb (x =? id) && _test_tot_job cr x /\
   (_test_tot_job cr id = false -> snd (_rem_tot_job cr id) = cr)).
Proof.
  destruct (rem_run_job_ids cr id) as [Hr1 Hr2].
  destruct (rem_tot_job_ids cr id) as [Ht1 Ht2].
  rewrite Hr2, Ht2, !test_run_job_existsb, !test_tot_job_existsb.
  cbn [run_job_ids tot_job_ids].
  split_conj.
  - exact Hr1.
  - now apply existsb_clear.
  - intros H. rewrite (ck_job_id_absent _ _ _ H). apply cr_record_eta.
  - exact Ht1.
  - now apply existsb_clear.
  - intros H. rewrite (ck_job_id_absent _ _ _ H). apply cr_record_eta.
Qed.

(** X3: as long as its 16-bit length can take [RUN_JOB_INCR] more
    slots, the run array grows only when it has no empty slot, and then
    by [RUN_JOB_INCR] slots; a removal never changes its length, and the
    slot a removal empties is used again by the next add. *)
Theorem run_job_array_capacity (cr : cr_record) (id id' : Z)
    (Hroom : ids_room (run_job_ids cr)) :
  length (run_job_ids (_add_run_job cr id))
  = (if existsb (Z.eqb 0) (run_job_ids cr) then length (run_job_ids cr)
     else length (run_job_ids cr) + RUN_JOB_INCR)%nat /\
  length (run_job_ids (snd (_rem_run_job cr id))) = length (run_job_ids cr) /\
  (_test_run_job cr id = true ->
   length (run_job_ids (_add_run_job (snd (_rem_run_job cr id)) id'))
   = length (run_job_ids cr)).
Proof.
  destruct (rem_run_job_ids cr id) as [_ Hr2]. rewrite Hr2.
  unfold _add_run_job. cbn [run_job_ids].
  rewrite !length_add_job_id, length_ck_job_id, test_run_job_existsb
    by (try assumption; now apply clear_keeps_room).
  split_conj; try reflexivity.
  intros H. now rewrite (clear_makes_hole _ _ H).
Qed.

End RegistrySets.

(** ** The availability filter on a copy of its input *)

Lemma filter_nth_count (b : list bool) :
  length (filter (fun k => nth k b false) (seq 0 (length b)))
  = length (filter (fun x => x) b).
Proof.
  induction b as [ | x r IH ]; [ reflexivity | ].
  cbn [length seq]. rewrite <- seq_shift. cbn [filter nth].
  rewrite filter_map_swap. cbn [nth].
  destruct x; cbn [length]; rewrite length_map, IH; reflexivity.
Qed.

Lemma bit_test_of_nat (b : bitstr_t) (k : nat) :
  bit_test b (Z.of_nat k) = nth k b false.
Proof.
  unfold bit_test, zth.
  replace (Z.of_nat k <? 0) with false by (symmetry; apply Z.ltb_ge; lia).
  now rewrite Nat2Z.id.
Qed.

(** The number of bits set is the number of indices that test set. *)
Lemma bit_set_count_range (b : bitstr_t) :
  bit_set_count b
  = Z.of_nat (length (filter (bit_test b) (index_range 0 (Z.of_nat (length b) - 1)))).
Proof.
  unfold bit_set_count, index_range. f_equal.
  replace (Z.to_nat (Z.of_nat (length b) - 1 - 0 + 1)) with (length b) by lia.
  rewrite filter_map_swap, length_map, <- filter_nth_count.
  f_equal. apply filter_ext. intros k. cbn [Z.add]. symmetry. apply bit_test_of_nat.
Qed.

Lemma filter_none {A : Type} (f : A -> bool) (l : list A) :
  (forall a, In a l -> f a = false) -> filter f l = [].
Proof.
  induction l as [ | y r IH ]; intros H; [ reflexivity | ].
  cbn [filter]. rewrite (H y) by now left.
  apply IH. intros a Ha. apply H. now right.
Qed.

(** A filter over a range only sees the indices where the test can
    hold. *)
Lemma filter_index_range_support (f : Z -> bool) (a b lo hi : Z) :
  (forall i, f i = true -> a <= i <= b) -> lo <= a -> b <= hi ->
  filter f (index_range lo hi) = filter f (index_range a b).
Proof.
  intros Hf Hlo Hhi.
  assert (Hout : forall x y, (forall i, x <= i <= y -> ~ a <= i <= b) ->
                             filter f (index_range x y) = []).
  { intros x y H. apply filter_none. intros i Hi. apply in_index_range in Hi.
    destruct (f i) eqn:E; [ | reflexivity ].
    exfalso. apply (H i Hi). now apply Hf. }
  destruct (Z_lt_dec b a) as [Hlt | Hge].
  - rewrite (Hout lo hi), (Hout a b); [ reflexivity | | ]; intros i Hi; lia.
  - rewrite (index_range_split lo (a - 1) hi) by lia.
    replace (a - 1 + 1) with a by lia.
    rewrite (index_range_split a b hi) by lia.
    rewrite !filter_app, (Hout lo (a - 1)), (Hout (b + 1) hi);
      [ now rewrite app_nil_r | | ]; intros i Hi; lia.
Qed.

Lemma filter_length_mono {A : Type} (f g : A -> bool) (l : list A) :
  (forall a, f a = true -> g a = true) ->
  (length (filter f l) <= length (filter g l))%nat.
Proof.
  intros H. induction l as [ | y r IH ]; [ reflexivity | ].
  cbn [filter]. destruct (f y) eqn:Ef.
  - rewrite (H y Ef). cbn [length]. lia.
  - destruct (g y); cbn [length]; lia.
Qed.

Section FilterOnCopy.

Context {SL : Slurm}.

(** [_job_count_bitmap] called, as its callers do, with [jobmap] holding
    what [bitmap] holds. *)
Lemma job_count_bitmap_copy (G : globals) (h : gres_heap) (cr : cr_record)
    (job_ptr : job_record) (bitmap : bitstr_t) (run_cap tot_cap : Z)
    (mode : select_mode) :
  let '(count, out) :=
    _job_count_bitmap G h cr job_ptr bitmap (bit_copy bitmap) run_cap tot_cap mode in
  length out = length bitmap /\
  (forall i, bit_test out i
             = bit_test bitmap i
               && node_usable G h cr job_ptr run_cap tot_cap mode i) /\
  count = bit_set_count out.
Proof.
  unfold _job_count_bitmap, bit_copy.
  remember (bit_ffs bitmap) as i_first eqn:Hif.
  remember (if i_first =? -1 then -2 else bit_fls bitmap) as i_last eqn:Hil.
  assert (Hbetween : forall i, bit_test bitmap i = true -> i_first <= i <= i_last).
  { intros i Hi. pose proof (bit_test_between bitmap i Hi) as Hb.
    rewrite <- Hif in Hb. rewrite Hil.
    destruct (i_first =? -1) eqn:E; [ apply Z.eqb_eq in E; lia | lia ]. }
  assert (Hlast : i_last < Z.of_nat (length bitmap)).
  { rewrite Hil. pose proof (bit_fls_bound bitmap). destruct (i_first =? -1); lia. }
  assert (Hfirst : i_last < i_first \/ 0 <= i_first).
  { pose proof (bit_ffs_lower bitmap) as Hf. rewrite <- Hif in Hf.
    destruct Hf as [Hm | Hp]; [ left | now right ].
    rewrite Hm in Hil. change (i_last = -2) in Hil. lia. }
  pose proof (filter_fold G h cr job_ptr bitmap run_cap tot_cap mode
                (index_range i_first i_last) 0 bitmap
                (NoDup_index_range i_first i_last)) as Hfold.
  cbv zeta in Hfold.
  assert (Hrange : forall i, In i (index_range i_first i_last) ->
                             0 <= i < Z.of_nat (length bitmap)).
  { intros i Hi. apply in_index_range in Hi. lia. }
  specialize (Hfold Hrange).
  match type of Hfold with
  | let '(_, _) := ?f in _ => destruct f as [count out] eqn:Ef
  end.
  destruct Hfold as (Hlen & Hin & Hout & Hcount).
  assert (Hbits : forall i, bit_test out i
                            = bit_test bitmap i
                              && node_usable G h cr job_ptr run_cap tot_cap mode i).
  { intros i. destruct (in_dec Z.eq_dec i (index_range i_first i_last)) as [Hi | Hi].
    - now apply Hin.
    - rewrite (Hout i Hi). destruct (bit_test bitmap i) eqn:Eb; [ | reflexivity ].
      exfalso. apply Hi. apply in_index_range. now apply Hbetween. }
  split_conj; [ exact Hlen | exact Hbits | ].
  rewrite Hcount, bit_set_count_range, Hlen. cbn [Z.add]. f_equal. f_equal.
  rewrite (filter_ext _ _ Hbits).
  destruct Hfirst as [Hempty | Hpos].
  - rewrite (index_range_empty i_first i_last) by exact Hempty.
    symmetry. apply filter_none. intros i _.
    destruct (bit_test bitmap i) eqn:Eb; [ | reflexivity ].
    pose proof (Hbetween i Eb). lia.
  - symmetry. apply filter_index_range_support; try lia.
    intros i Hi. apply andb_prop in Hi as [Hi _]. now apply Hbetween.
Qed.

Lemma node_usable_test_only (G : globals) (h : gres_heap) (cr : cr_record)
    (job_ptr : job_record) (run_cap tot_cap : Z) (i : Z) :
  node_usable G h cr job_ptr run_cap tot_cap SELECT_MODE_TEST_ONLY i
  = gres_bound_ok G h cr job_ptr true i.
Proof.
  unfold node_usable, gres_bound_ok. cbn [is_test_only negb].
  rewrite Z.leb_antisym.
  match goal with
  | |- context [Z.eqb ?a ?b] => destruct (Z.eqb a b)
  end;
  match goal with
  | |- context [Z.ltb ?a ?b] => destruct (Z.ltb a b)
  end; reflexivity.
Qed.

Lemma node_usable_caps (G : globals) (h : gres_heap) (cr : cr_record)
    (job_ptr : job_record) (run_cap tot_cap run_cap' tot_cap' : Z)
    (mode : select_mode) (i : Z) :
  run_cap <= run_cap' -> tot_cap <= tot_cap' ->
  node_usable G h cr job_ptr run_cap tot_cap mode i = true ->
  node_usable G h cr job_ptr run_cap' tot_cap' mode i = true.
Proof.
  intros Hr Ht. unfold node_usable.
  destruct (if negb (is_test_only mode)
            then job_memory_request G (Some (details_of job_ptr)) else (0, 0))
    as [job_memory_cpu job_memory_node].
  repeat match goal with
         | |- context [if ?c then _ else _] => destruct c; try (intros; assumption)
         end.
  rewrite !andb_true_iff, !Z.leb_le. lia.
Qed.

(** X4: called on a copy of its input, in any mode, the filter returns a
    bitmap of the same length in which every node set was set on entry,
    and the count it returns is the number of nodes set on return. *)
Theorem job_count_bitmap_subset (G : globals) (h : gres_heap) (cr : cr_record)
    (job_ptr : job_record) (bitmap : bitstr_t) (run_cap tot_cap : Z)
    (mode : select_mode) :
  let '(count, out) :=
    _job_count_bitmap G h cr job_ptr bitmap (bit_copy bitmap) run_cap tot_cap mode in
  length out = length bitmap /\
  (forall i, bit_test out i = true -> bit_test bitmap i = true) /\
  count = bit_set_count out /\ 0 <= count <= Z.of_nat (length bitmap).
Proof.
  pose proof (job_count_bitmap_copy G h cr job_ptr bitmap run_cap tot_cap mode) as H.
  destruct (_job_count_bitmap G h cr job_ptr bitmap (bit_copy bitmap) run_cap tot_cap
              mode) as [count out].
  destruct H as (Hlen & Hbits & Hcount).
  split_conj; try assumption.
  - intros i Hi. rewrite Hbits in Hi. now apply andb_prop in Hi.
  - rewrite Hcount. unfold bit_set_count. lia.
  - rewrite Hcount, <- Hlen. unfold bit_set_count.
    pose proof (filter_length_le (fun x : bool => x) out). lia.
Qed.

(** X5: in the [TEST_ONLY] mode the filter keeps a node of its input
    iff the node passes the GRES bound computed on the node's total
    GRES: allocated memory, exclusive use and the job counts of the
    node play no part, whatever the two caps are. *)
Theorem job_count_bitmap_test_only (G : globals) (h : gres_heap) (cr : cr_record)
    (job_ptr : job_record) (bitmap : bitstr_t) (run_cap tot_cap : Z) (i : Z) :
  bit_test
    (snd (_job_count_bitmap G h cr job_ptr bitmap (bit_copy bitmap) run_cap tot_cap
            SELECT_MODE_TEST_ONLY)) i
  = bit_test bitmap i && gres_bound_ok G h cr job_ptr true i.
Proof.
  pose proof (job_count_bitmap_copy G h cr job_ptr bitmap run_cap tot_cap
                SELECT_MODE_TEST_ONLY) as H.
  destruct (_job_count_bitmap G h cr job_ptr bitmap (bit_copy bitmap) run_cap tot_cap
              SELECT_MODE_TEST_ONLY) as [count out].
  destruct H as (_ & Hbits & _). cbn [snd].
  now rewrite Hbits, node_usable_test_only.
Qed.

(** X6: raising the caps never loses a node: every node the filter keeps
    under [run_cap] and [tot_cap] it keeps under larger caps, and the
    count it returns does not go down. *)
Theorem job_count_bitmap_caps_monotone (G : globals) (h : gres_heap) (cr : cr_record)
    (job_ptr : job_record) (bitmap : bitstr_t)
    (run_cap tot_cap run_cap' tot_cap' : Z) (mode : select_mode)
    (Hrun : run_cap <= run_cap') (Htot : tot_cap <= tot_cap') :
  let '(count, out) :=
    _job_count_bitmap G h cr job_ptr bitmap (bit_copy bitmap) run_cap tot_cap mode in
  let '(count', out') :=
    _job_count_bitmap G h cr job_ptr bitmap (bit_copy bitmap) run_cap' tot_cap' mode in
  (forall i, bit_test out i = true -> bit_test out' i = true) /\ count <= count'.
Proof.
  pose proof (job_count_bitmap_copy G h cr job_ptr bitmap run_cap tot_cap mode) as H.
  pose proof (job_count_bitmap_copy G h cr job_ptr bitmap run_cap' tot_cap' mode) as H'.
  destruct (_job_count_bitmap G h cr job_ptr bitmap (bit_copy bitmap) run_cap tot_cap
              mode) as [count out].
  destruct (_job_count_bitmap G h cr job_ptr bitmap (bit_copy bitmap) run_cap' tot_cap'
              mode) as [count' out'].
  destruct H as (Hlen & Hbits & Hcount). destruct H' as (Hlen' & Hbits' & Hcount').
  assert (Himp : forall i, bit_test out i = true -> bit_test out' i = true).
  { intros i Hi. rewrite Hbits in Hi. rewrite Hbits'.
    apply andb_prop in Hi as [Hb Hu]. rewrite Hb. cbn [andb].
    now apply (node_usable_caps G h cr job_ptr run_cap tot_cap). }
  split; [ exact Himp | ].
  rewrite Hcount, Hcount', !bit_set_count_range, Hlen, Hlen'.
  apply inj_le. now apply filter_length_mono.
Qed.

End FilterOnCopy.

(** ** What a commit and a release change *)

Section AllocatorEffect.

Context {SL : Slurm}.

(** The registry [_add_job_to_nodes] leaves for a job with
    [job_resrcs], in either mode. *)
Lemma add_job_to_nodes_effect (G : globals) (cr : cr_record) (job_ptr : job_record)
    (r : job_resources_t) (alloc_all : bool) (h : gres_heap) :
  job_resrcs job_ptr = Some r ->
  let '(rc, cr1, job1, h1) := _add_job_to_nodes G cr job_ptr alloc_all h in
  let '(jmc, jmn) :=
    if alloc_all then job_memory_request G (details job_ptr) else (0, 0) in
  run_job_ids cr1
  = (if alloc_all then add_job_id (run_job_ids cr) (job_id job_ptr)
     else run_job_ids cr) /\
  tot_job_ids cr1 = add_job_id (tot_job_ids cr) (job_id job_ptr) /\
  length (nodes cr1) = length (nodes cr) /\
  (forall j, 0 <= j < Z.of_nat (length (nodes cr)) ->
     zth (nodes cr1) j zero_node_cr
     = if job_touches job_ptr j
       then add_node_cr G job_ptr alloc_all jmc jmn (shared (details_of job_ptr) =? 0) j
              (zth (nodes cr) j zero_node_cr)
       else zth (nodes cr) j zero_node_cr) /\
  (job1 = job_ptr \/ job1 = set_part_nodes_missing job_ptr true).
Proof.
  intros Hr. unfold _add_job_to_nodes. rewrite Hr.
  destruct (if alloc_all then job_memory_request G (details job_ptr) else (0, 0))
    as [jmc jmn].
  match goal with
  | |- context [fold_left ?s ?l ?st0] =>
      pose proof (nodes_loop_fold s
                    (fun j => bit_test (resrcs_bitmap r) j
                              && bit_test (node_bitmap job_ptr) j)
                    (add_node_cr G job_ptr alloc_all jmc jmn
                       (shared (details_of job_ptr) =? 0))
                    (fun st i => add_job_to_node_nodes G _ job_ptr r alloc_all jmc jmn
                                   _ _ st i)
                    l st0 (NoDup_index_range _ _)) as [Hlen Hz];
      set (st := fold_left s l st0) in *
  end.
  assert (Hn : nodes (_add_tot_job
                        (if alloc_all then _add_run_job cr (job_id job_ptr) else cr)
                        (job_id job_ptr)) = nodes cr)
    by (destruct alloc_all; reflexivity).
  cbn [lp_nodes] in Hlen, Hz. rewrite Hn in Hlen, Hz.
  cbn [nodes run_job_ids tot_job_ids].
  split_conj.
  - destruct alloc_all; reflexivity.
  - destruct alloc_all; reflexivity.
  - exact Hlen.
  - intros j Hj. rewrite (Hz j Hj). unfold job_touches. rewrite Hr.
    destruct (bit_test (resrcs_bitmap r) j) eqn:Eb; cbn [andb];
      [ | now rewrite andb_false_r ].
    now rewrite (touched_in_range r j Eb).
  - destruct (lp_missing st); auto.
Qed.

(** The registry [_rm_job_from_nodes] leaves, in either mode, for a job
    with [job_resrcs] whose id is stored in the total array. *)
Lemma rm_job_from_nodes_effect (G : globals) (cr : cr_record) (job_ptr : job_record)
    (r : job_resources_t) (remove_all : bool) (h : gres_heap) :
  job_resrcs job_ptr = Some r ->
  existsb (Z.eqb (job_id job_ptr)) (tot_job_ids cr) = true ->
  let '(rc, cr2, job2, h2) := _rm_job_from_nodes G cr job_ptr remove_all h in
  let '(jmc, jmn) :=
    if remove_all then job_memory_request G (details job_ptr) else (0, 0) in
  run_job_ids cr2 = snd (ck_job_id (run_job_ids cr) (job_id job_ptr) true) /\
  tot_job_ids cr2 = snd (ck_job_id (tot_job_ids cr) (job_id job_ptr) true) /\
  length (nodes cr2) = length (nodes cr) /\
  (forall j, 0 <= j < Z.of_nat (length (nodes cr)) ->
     zth (nodes cr2) j zero_node_cr
     = if job_touches job_ptr j
       then rm_node_cr G job_ptr remove_all jmc jmn (shared (details_of job_ptr) =? 0)
              (existsb (Z.eqb (job_id job_ptr)) (run_job_ids cr)) j
              (zth (nodes cr) j zero_node_cr)
       else zth (nodes cr) j zero_node_cr) /\
  (job2 = job_ptr \/ job2 = set_part_nodes_missing job_ptr true).
Proof.
  intros Hr Htot. unfold _rm_job_from_nodes, _rem_tot_job, _ck_tot_job.
  pose proof (ck_job_id_found (tot_job_ids cr) (job_id job_ptr) true) as Hft.
  destruct (ck_job_id (tot_job_ids cr) (job_id job_ptr) true) as [found tot'] eqn:Et.
  cbn [fst] in Hft. rewrite Htot in Hft. subst found.
  cbn [negb]. rewrite Hr.
  destruct (if remove_all then job_memory_request G (details job_ptr) else (0, 0))
    as [jmc jmn].
  unfold _rem_run_job, _ck_run_job. cbn [run_job_ids nodes tot_job_ids].
  pose proof (ck_job_id_found (run_job_ids cr) (job_id job_ptr) true) as Hfr.
  destruct (ck_job_id (run_job_ids cr) (job_id job_ptr) true) as [running run'] eqn:Er.
  cbn [fst] in Hfr. subst running.
  match goal with
  | |- context [fold_left ?s ?l ?st0] =>
      pose proof (nodes_loop_fold s
                    (fun j => bit_test (resrcs_bitmap r) j
                              && bit_test (node_bitmap job_ptr) j)
                    (rm_node_cr G job_ptr remove_all jmc jmn
                       (shared (details_of job_ptr) =? 0)
                       (existsb (Z.eqb (job_id job_ptr)) (run_job_ids cr)))
                    (fun st i => rm_job_from_node_nodes G _ job_ptr r remove_all jmc jmn
                                   _ _ st i)
                    l st0 (NoDup_index_range _ _)) as [Hlen Hz];
      set (st := fold_left s l st0) in *
  end.
  cbn [lp_nodes nodes run_job_ids tot_job_ids snd] in Hlen, Hz |- *.
  split_conj; try reflexivity.
  - exact Hlen.
  - intros j Hj. rewrite (Hz j Hj). unfold job_touches. rewrite Hr.
    destruct (bit_test (resrcs_bitmap r) j) eqn:Eb; cbn [andb];
      [ | now rewrite andb_false_r ].
    now rewrite (touched_in_range r j Eb).
  - destruct (lp_missing st); auto.
Qed.

(** A release for an id the total array does not hold. *)
Lemma rm_job_from_nodes_absent (G : globals) (cr : cr_record) (job_ptr : job_record)
    (remove_all : bool) (h : gres_heap) :
  existsb (Z.eqb (job_id job_ptr)) (tot_job_ids cr) = false ->
  _rm_job_from_nodes G cr job_ptr remove_all h = (SLURM_ERROR, cr, job_ptr, h).
Proof.
  intros Habs. unfold _rm_job_from_nodes.
  destruct (rem_tot_job_ids cr (job_id job_ptr)) as [H1 H2].
  destruct (_rem_tot_job cr (job_id job_ptr)) as [found cr1].
  cbn [fst snd] in H1, H2. rewrite Habs in H1. subst found. cbn [negb].
  rewrite H2, (ck_job_id_absent _ _ _ Habs). now rewrite cr_record_eta.
Qed.

(** X7: [_add_job_to_nodes] for a job without [job_resrcs] returns
    [SLURM_ERROR] and changes nothing.  For a job with [job_resrcs] it
    keeps the length of the node array and the record of every node that
    is not set in both the bitmap of [job_resrcs] and the job's own
    bitmap; when the id arrays it writes can take one more id (the total
    array, and with [alloc_all] the run array: each has an empty slot,
    or is short enough for its 16-bit length to grow by
    [RUN_JOB_INCR]), the total set gains the job's id and nothing else,
    and the run set gains it only with [alloc_all]. *)
Theorem add_job_to_nodes_frame (G : globals) (cr : cr_record) (job_ptr : job_record)
    (alloc_all : bool) (h : gres_heap)
    (Htot_room : ids_room (tot_job_ids cr))
    (Hrun_room : alloc_all = true -> ids_room (run_job_ids cr)) :
  (job_resrcs job_ptr = None ->
   _add_job_to_nodes G cr job_ptr alloc_all h = (SLURM_ERROR, cr, job_ptr, h)) /\
  (job_resrcs job_ptr <> None ->
   let '(rc, cr1, job1, h1) := _add_job_to_nodes G cr job_ptr alloc_all h in
   length (nodes cr1) = length (nodes cr) /\
   (forall j, job_touches job_ptr j = false ->
              zth (nodes cr1) j zero_node_cr = zth (nodes cr) j zero_node_cr) /\
   (forall x, in_tot_set cr1 x <->
              in_tot_set cr x \/ (x = job_id job_ptr /\ x <> 0)) /\
   (forall x, in_run_set cr1 x <->
              in_run_set cr x \/ (alloc_all = true /\ x = job_id job_ptr /\ x <> 0))).
Proof.
  split.
  - intros Hr. unfold _add_job_to_nodes. rewrite Hr.
    destruct (if alloc_all then job_memory_request G (details job_ptr) else (0, 0)).
    reflexivity.
  - intros Hr. destruct (job_resrcs job_ptr) as [r | ] eqn:Er; [ | congruence ].
    pose proof (add_job_to_nodes_effect G cr job_ptr r alloc_all h Er) as H.
    destruct (_add_job_to_nodes G cr job_ptr alloc_all h) as [[[rc cr1] job1] h1].
    destruct (if alloc_all then job_memory_request G (details job_ptr) else (0, 0))
      as [jmc jmn].
    destruct H as (Hrun & Htot & Hlen & Hz & _).
    split_conj.
    + exact Hlen.
    + intros j Hj.
      destruct (Z_lt_dec j 0) as [Hneg | Hpos].
      { unfold zth. now replace (j <? 0) with true by (symmetry; apply Z.ltb_lt; lia). }
      destruct (Z_lt_dec j (Z.of_nat (length (nodes cr)))) as [Hin | Hout].
      * rewrite (Hz j) by lia. now rewrite Hj.
      * unfold zth. destruct (j <? 0); [ reflexivity | ].
        rewrite !nth_overflow by lia. reflexivity.
    + intros x. unfold in_tot_set. fold (live (tot_job_ids cr1) x).
      fold (live (tot_job_ids cr) x). rewrite Htot, live_add by exact Htot_room.
      split; intros [H | [He Hn]]; auto; right; split; congruence.
    + intros x. unfold in_run_set. fold (live (run_job_ids cr1) x).
      fold (live (run_job_ids cr) x). rewrite Hrun.
      destruct alloc_all.
      * rewrite live_add by (now apply Hrun_room).
        split; [ intros [H | [He Hn]] | intros [H | (_ & He & Hn)] ]; auto;
          right; split_conj; congruence.
      * split; [ now left | ]. intros [H | (Hf & _)]; [ exact H | discriminate ].
Qed.

(** X8: [_rm_job_from_nodes] for a job whose id the total array does
    not hold returns [SLURM_ERROR] and changes nothing.  For a job with
    [job_resrcs] whose id it holds, in either mode, it keeps the length
    of the node array and the record of every node that is not set in
    both bitmaps of the job, and it takes the job's id, and nothing
    else, out of the total set and out of the run set. *)
Theorem rm_job_from_nodes_frame (G : globals) (cr : cr_record) (job_ptr : job_record)
    (remove_all : bool) (h : gres_heap) :
  (_test_tot_job cr (job_id job_ptr) = false ->
   _rm_job_from_nodes G cr job_ptr remove_all h = (SLURM_ERROR, cr, job_ptr, h)) /\
  (_test_tot_job cr (job_id job_ptr) = true -> job_resrcs job_ptr <> None ->
   let '(rc, cr2, job2, h2) := _rm_job_from_nodes G cr job_ptr remove_all h in
   length (nodes cr2) = length (nodes cr) /\
   (forall j, job_touches job_ptr j = false ->
              zth (nodes cr2) j zero_node_cr = zth (nodes cr) j zero_node_cr) /\
   (forall x, in_tot_set cr2 x <-> in_tot_set cr x /\ x <> job_id job_ptr) /\
   (forall x, in_run_set cr2 x <-> in_run_set cr x /\ x <> job_id job_ptr)).
Proof.
  rewrite test_tot_job_existsb. split.
  - apply rm_job_from_nodes_absent.
  - intros Htot Hr. destruct (job_resrcs job_ptr) as [r | ] eqn:Er; [ | congruence ].
    pose proof (rm_job_from_nodes_effect G cr job_ptr r remove_all h Er Htot) as H.
    destruct (_rm_job_from_nodes G cr job_ptr remove_all h) as [[[rc cr2] job2] h2].
    destruct (if remove_all then job_memory_request G (details job_ptr) else (0, 0))
      as [jmc jmn].
    destruct H as (Hrun & Htot' & Hlen & Hz & _).
    split_conj.
    + exact Hlen.
    + intros j Hj.
      destruct (Z_lt_dec j 0) as [Hneg | Hpos].
      { unfold zth. now replace (j <? 0) with true by (symmetry; apply Z.ltb_lt; lia). }
      destruct (Z_lt_dec j (Z.of_nat (length (nodes cr)))) as [Hin | Hout].
      * rewrite (Hz j) by lia. now rewrite Hj.
      * unfold zth. destruct (j <? 0); [ reflexivity | ].
        rewrite !nth_overflow by lia. reflexivity.
    + intros x. unfold in_tot_set. fold (live (tot_job_ids cr2) x).
      fold (live (tot_job_ids cr) x). rewrite Htot'. apply live_clear.
    + intros x. unfold in_run_set. fold (live (run_job_ids cr2) x).
      fold (live (run_job_ids cr) x). rewrite Hrun. apply live_clear.
Qed.

End AllocatorEffect.

(** ** The run set stays within the total set *)

Section RunWithinTot.

Context {SL : Slurm}.

Lemma dup_cr_ids (G : globals) (cr : cr_record) (h : gres_heap) :
  run_job_ids (fst (_dup_cr G cr h)) = run_job_ids cr /\
  tot_job_ids (fst (_dup_cr G cr h)) = tot_job_ids cr.
Proof.
  unfold _dup_cr.
  match goal with
  | |- context [fold_left ?f ?l ?s] => destruct (fold_left f l s) as [new_nodes h']
  end.
  split; reflexivity.
Qed.

(** X9: when every id of the run set is in the total set, this is still
    so after [_add_job_to_nodes] in either mode, provided the id arrays
    it writes can take one more id (the total array, and with
    [alloc_all] the run array: each has an empty slot, or is short
    enough for its 16-bit length to grow by [RUN_JOB_INCR]); after
    [_rm_job_from_nodes] in either mode for a job that has
    [job_resrcs]; and in the clone [_dup_cr] makes. *)
Theorem run_within_tot_kept (G : globals) (cr : cr_record) (job_ptr : job_record)
    (flag : bool) (h : gres_heap) (Hinv : run_within_tot cr) :
  (ids_room (tot_job_ids cr) -> (flag = true -> ids_room (run_job_ids cr)) ->
   let '(_, cr1, _, _) := _add_job_to_nodes G cr job_ptr flag h in
   run_within_tot cr1) /\
  (job_resrcs job_ptr <> None ->
   let '(_, cr2, _, _) := _rm_job_from_nodes G cr job_ptr flag h in
   run_within_tot cr2) /\
  run_within_tot (fst (_dup_cr G cr h)).
Proof.
  split_conj.
  - intros Htot_room Hrun_room. destruct (job_resrcs job_ptr) as [r | ] eqn:Er.
    + pose proof (add_job_to_nodes_effect G cr job_ptr r flag h Er) as H.
      destruct (_add_job_to_nodes G cr job_ptr flag h) as [[[rc cr1] job1] h1].
      destruct (if flag then job_memory_request G (details job_ptr) else (0, 0)).
      destruct H as (Hrun & Htot & _).
      intros x. unfold in_run_set, in_tot_set.
      fold (live (run_job_ids cr1) x). fold (live (tot_job_ids cr1) x).
      rewrite Hrun, Htot, live_add by exact Htot_room. intros Hx.
      destruct flag.
      * rewrite live_add in Hx by (now apply Hrun_room).
        destruct Hx as [Hx | Hx]; [ left | now right ].
        now apply Hinv.
      * left. now apply Hinv.
    + unfold _add_job_to_nodes. rewrite Er.
      destruct (if flag then job_memory_request G (details job_ptr) else (0, 0)).
      exact Hinv.
  - intros Hr. destruct (job_resrcs job_ptr) as [r | ] eqn:Er; [ | congruence ].
    destruct (existsb (Z.eqb (job_id job_ptr)) (tot_job_ids cr)) eqn:Et.
    + pose proof (rm_job_from_nodes_effect G cr job_ptr r flag h Er Et) as H.
      destruct (_rm_job_from_nodes G cr job_ptr flag h) as [[[rc cr2] job2] h2].
      destruct (if flag then job_memory_request G (details job_ptr) else (0, 0)).
      destruct H as (Hrun & Htot & _).
      intros x. unfold in_run_set, in_tot_set.
      fold (live (run_job_ids cr2) x). fold (live (tot_job_ids cr2) x).
      rewrite Hrun, Htot, !live_clear. intros [Hx Hne].
      split; [ now apply Hinv | exact Hne ].
    + rewrite (rm_job_from_nodes_absent G cr job_ptr flag h Et). exact Hinv.
  - destruct (dup_cr_ids G cr h) as [Hr Ht].
    intros x. unfold in_run_set, in_tot_set. rewrite Hr, Ht. apply Hinv.
Qed.

End RunWithinTot.

(** ** The registry [_init_node_cr] builds *)

Section InitNodeCr.

Context {SL : Slurm}.

Lemma fold_left_length_nodes (step : nodes_loop -> Z -> nodes_loop) (l : list Z)
    (st : nodes_loop) :
  (forall s i, length (lp_nodes (step s i)) = length (lp_nodes s)) ->
  length (lp_nodes (fold_left step l st)) = length (lp_nodes st).
Proof.
  intros H. revert st. induction l as [ | a l IH ]; intros st; [ reflexivity | ].
  cbn [fold_left]. now rewrite IH, H.
Qed.

Lemma init_job_on_node_length (G : globals) (job_ptr : job_record)
    (r : job_resources_t) (bm : bitstr_t) (jmc jmn : Z) (exclusive : bool)
    (st : nodes_loop) (i : Z) :
  length (lp_nodes (init_job_on_node G job_ptr r bm jmc jmn exclusive st i))
  = length (lp_nodes st).
Proof.
  unfold init_job_on_node.
  destruct (bit_test bm i); cbn [negb]; [ | reflexivity ].
  destruct (update_part _ _ _); cbn [lp_nodes]; apply length_zset.
Qed.

Lemma job_is_recorded_run (j : job_record) :
  job_is_recorded j && job_is_run j
  = job_is_run j && match job_resrcs j with Some _ => true | None => false end.
Proof.
  unfold job_is_recorded, job_is_run, IS_JOB_RUNNING, IS_JOB_SUSPENDED.
  destruct (job_state j), (job_resrcs j), (priority j =? 0); reflexivity.
Qed.

(** An array without empty slot holds an id in every slot; an array
    with fewer than 65520 ids can take one more. *)
Lemma id_count_full (ids : list Z) :
  existsb (Z.eqb 0) ids = false -> id_count ids = length ids.
Proof.
  unfold id_count. induction ids as [ | y r IH ]; cbn [existsb filter length];
    [ reflexivity | ].
  rewrite (Z.eqb_sym 0 y). destruct (y =? 0); cbn [orb negb]; [ discriminate | ].
  intros H. cbn [length]. now rewrite IH.
Qed.

Lemma ids_room_count (ids : list Z) :
  Z.of_nat (id_count ids) < 65520 -> ids_room ids.
Proof.
  intros H. destruct (existsb (Z.eqb 0) ids) eqn:E; [ now left | right ].
  rewrite <- (id_count_full ids E). unfold RUN_JOB_INCR. lia.
Qed.

Lemma id_count_app (l r : list Z) : id_count (l ++ r) = (id_count l + id_count r)%nat.
Proof. unfold id_count. now rewrite filter_app, length_app. Qed.

Lemma id_count_repeat_zero (n : nat) : id_count (repeat 0 n) = O.
Proof. unfold id_count. induction n; [ reflexivity | exact IHn ]. Qed.

Lemma id_count_cons (y : Z) (r : list Z) :
  (id_count (y :: r) <= S (id_count r))%nat /\ (id_count r <= id_count (y :: r))%nat.
Proof. unfold id_count. cbn [filter]. destruct (negb (y =? 0)); cbn [length]; lia. Qed.

Lemma id_count_fill_hole (ids ids' : list Z) (id : Z) :
  fill_hole ids id = Some ids' -> (id_count ids' <= S (id_count ids))%nat.
Proof.
  revert ids'. induction ids as [ | y r IH ]; cbn [fill_hole]; intros ids' H;
    [ discriminate | ].
  destruct (y =? 0) eqn:Ey.
  - injection H as <-. pose proof (id_count_cons id r). pose proof (id_count_cons y r).
    lia.
  - destruct (fill_hole r id) as [r' | ]; cbn [option_map] in H; [ | discriminate ].
    injection H as <-. specialize (IH r' eq_refl).
    unfold id_count in *. cbn [filter]. rewrite Ey. cbn [negb length]. lia.
Qed.

Lemma id_count_add (ids : list Z) (id : Z) :
  ids_room ids -> (id_count (add_job_id ids id) <= S (id_count ids))%nat.
Proof.
  intros Hroom. rewrite add_job_id_room by exact Hroom.
  destruct ids as [ | y r ].
  - pose proof (id_count_cons id (repeat 0 (RUN_JOB_INCR - 1))) as [H _].
    rewrite id_count_repeat_zero in H. change (id_count []) with O.
    cbv beta iota. lia.
  - destruct (fill_hole (y :: r) id) as [ids' | ] eqn:E.
    + now apply (id_count_fill_hole _ _ id).
    + rewrite id_count_app.
      pose proof (id_count_cons id (repeat 0 (RUN_JOB_INCR - 1))).
      rewrite id_count_repeat_zero in *. lia.
Qed.

(** One turn of the loop over [job_list]. *)
Lemma init_job_ids (G : globals) (cr : cr_record) (h : gres_heap) (j : job_record) :
  let '(cr', h', j') := init_job G (cr, h) j in
  tot_job_ids cr'
  = (if job_is_recorded j then add_job_id (tot_job_ids cr) (job_id j)
     else tot_job_ids cr) /\
  run_job_ids cr'
  = (if job_is_recorded j && job_is_run j
     then add_job_id (run_job_ids cr) (job_id j) else run_job_ids cr) /\
  length (nodes cr') = length (nodes cr).
Proof.
  rewrite job_is_recorded_run.
  unfold init_job, job_is_recorded.
  destruct (IS_JOB_RUNNING j || IS_JOB_SUSPENDED j) eqn:Ers.
  - apply orb_true_iff in Ers.
    replace (negb (IS_JOB_RUNNING j) && negb (IS_JOB_SUSPENDED j)) with false
      by (destruct Ers as [-> | ->]; [ | rewrite andb_comm ]; reflexivity).
    destruct (job_resrcs j) as [r | ]; cbn [andb].
    + destruct (job_memory_request G (details j)) as [jmc jmn].
      assert (Hn : nodes (_add_tot_job
                            (if job_is_run j then _add_run_job cr (job_id j) else cr)
                            (job_id j)) = nodes cr)
        by (destruct (job_is_run j); reflexivity).
      destruct (res_node_bitmap r) as [bm | ].
      * cbn [tot_job_ids run_job_ids nodes]. rewrite andb_true_r.
        split_conj; try (destruct (job_is_run j); reflexivity).
        rewrite fold_left_length_nodes
          by (intros; apply init_job_on_node_length).
        cbn [lp_nodes]. now rewrite Hn.
      * rewrite andb_true_r.
        split_conj; try (destruct (job_is_run j); reflexivity).
    + rewrite andb_false_r. split_conj; reflexivity.
  - apply orb_false_iff in Ers as [Hr Hs].
    assert (Hrun : job_is_run j = false)
      by (unfold job_is_run; now rewrite Hr, Hs).
    rewrite Hr, Hs, Hrun. cbn [negb andb]. split_conj; reflexivity.
Qed.

Lemma init_jobs_ids (G : globals) (jobs : list job_record) (cr : cr_record)
    (h : gres_heap) :
  Z.of_nat (id_count (tot_job_ids cr))
  + Z.of_nat (length (filter job_is_recorded jobs)) <= 65520 ->
  Z.of_nat (id_count (run_job_ids cr))
  + Z.of_nat (length (filter job_is_recorded jobs)) <= 65520 ->
  let '(cr', h', jobs') := init_jobs G (cr, h) jobs in
  (forall x, live (tot_job_ids cr') x <->
     live (tot_job_ids cr) x \/
     (x <> 0 /\ exists j, In j jobs /\ job_is_recorded j = true /\ job_id j = x)) /\
  (forall x, live (run_job_ids cr') x <->
     live (run_job_ids cr) x \/
     (x <> 0 /\ exists j, In j jobs /\ job_is_recorded j = true
                          /\ job_is_run j = true /\ job_id j = x)) /\
  length (nodes cr') = length (nodes cr).
Proof.
  revert cr h. induction jobs as [ | j r IH ]; intros cr h Hct Hcr.
  - cbn [init_jobs]. split_conj; try reflexivity; intros x; split; auto;
      intros [H | (_ & j & [] & _)]; exact H.
  - cbn [init_jobs].
    pose proof (init_job_ids G cr h j) as Hj.
    destruct (init_job G (cr, h) j) as [[cr1 h1] j'].
    destruct Hj as (Ht & Hr & Hl).
    cbn [filter] in Hct, Hcr.
    assert (Htroom : job_is_recorded j = true -> ids_room (tot_job_ids cr)).
    { intros E. rewrite E in Hct. cbn [length] in Hct. apply ids_room_count. lia. }
    assert (Hrroom : job_is_recorded j = true -> ids_room (run_job_ids cr)).
    { intros E. rewrite E in Hcr. cbn [length] in Hcr. apply ids_room_count. lia. }
    assert (Hct1 : Z.of_nat (id_count (tot_job_ids cr1))
                   + Z.of_nat (length (filter job_is_recorded r)) <= 65520).
    { rewrite Ht. destruct (job_is_recorded j) eqn:E; [ | exact Hct ].
      pose proof (id_count_add (tot_job_ids cr) (job_id j) (Htroom eq_refl)).
      cbn [length] in Hct. lia. }
    assert (Hcr1 : Z.of_nat (id_count (run_job_ids cr1))
                   + Z.of_nat (length (filter job_is_recorded r)) <= 65520).
    { rewrite Hr. destruct (job_is_recorded j) eqn:E; cbn [andb]; [ | exact Hcr ].
      cbn [length] in Hcr.
      destruct (job_is_run j); [ | lia ].
      pose proof (id_count_add (run_job_ids cr) (job_id j) (Hrroom eq_refl)). lia. }
    specialize (IH cr1 h1 Hct1 Hcr1).
    destruct (init_jobs G (cr1, h1) r) as [[cr' h'] r'].
    destruct IH as (IHt & IHr & IHl).
    split_conj.
    + intros x. rewrite IHt, Ht. destruct (job_is_recorded j) eqn:Erec.
      * rewrite live_add by (now apply Htroom). split.
        -- intros [[H | [He Hn]] | (Hx & k & Hk & Hrec & Hid)]; auto.
           ++ right. split; [ congruence | ]. exists j. split_conj; auto. now left.
           ++ right. split; [ exact Hx | ]. exists k. split_conj; auto. now right.
        -- intros [H | (Hx & k & [<- | Hk] & Hrec & Hid)]; auto.
           ++ left. right. split; congruence.
           ++ right. split; [ exact Hx | ]. now exists k.
      * split.
        -- intros [H | (Hx & k & Hk & Hrec & Hid)]; auto.
           right. split; [ exact Hx | ]. exists k. split_conj; auto. now right.
        -- intros [H | (Hx & k & [<- | Hk] & Hrec & Hid)]; auto; [ congruence | ].
           right. split; [ exact Hx | ]. now exists k.
    + intros x. rewrite IHr, Hr.
      destruct (job_is_recorded j && job_is_run j) eqn:Erec.
      * apply andb_prop in Erec as [E1 E2].
        rewrite live_add by (now apply Hrroom). split.
        -- intros [[H | [He Hn]] | (Hx & k & Hk & Hrec & Hrun & Hid)]; auto.
           ++ right. split; [ congruence | ]. exists j. split_conj; auto. now left.
           ++ right. split; [ exact Hx | ]. exists k. split_conj; auto. now right.
        -- intros [H | (Hx & k & [<- | Hk] & Hrec & Hrun & Hid)]; auto.
           ++ left. right. split; congruence.
           ++ right. split; [ exact Hx | ]. now exists k.
      * split.
        -- intros [H | (Hx & k & Hk & Hrec & Hrun & Hid)]; auto.
           right. split; [ exact Hx | ]. exists k. split_conj; auto. now right.
        -- intros [H | (Hx & k & [<- | Hk] & Hrec & Hrun & Hid)]; auto.
           ++ rewrite Hrec, Hrun in Erec. discriminate.
           ++ right. split; [ exact Hx | ]. now exists k.
    + congruence.
Qed.

Lemma init_part_records_length (G : globals) (p : nat) (part : part_record)
    (ns : list node_cr_record) :
  length (init_part_records G p part ns) = length ns.
Proof.
  unfold init_part_records. destruct (part_node_bitmap part) as [bm | ];
    [ | reflexivity ].
  generalize (index_range 0 (select_node_cnt G - 1)) as l. intros l. revert ns.
  induction l as [ | a l IH ]; intros ns; [ reflexivity | ].
  cbn [fold_left]. rewrite IH.
  destruct (bit_test bm a); cbn [negb]; [ apply length_zset | reflexivity ].
Qed.

Lemma init_parts_length (G : globals) (ps : list part_record) (p : nat)
    (ns : list node_cr_record) :
  length (init_parts G p ps ns) = length ns.
Proof.
  revert p ns. induction ps as [ | part r IH ]; intros p ns; [ reflexivity | ].
  cbn [init_parts]. now rewrite IH, init_part_records_length.
Qed.

(** X10: called without a registry, for a job list with at most 65520
    jobs that are running or suspended and have a [job_resrcs] (as many
    ids as an array with a 16-bit length can grow to in steps of
    [RUN_JOB_INCR]), [_init_node_cr] builds a registry with
    [select_node_cnt] node records; its total set holds exactly the ids
    of these jobs, its run set those among them that are running or
    suspended with a priority other than 0; so the run set is within the
    total set. *)
Theorem init_node_cr_registry (G : globals) (w : world)
    (Hnull : cr_ptr w = None)
    (Hjobs : Z.of_nat (length (filter job_is_recorded (job_list w))) <= 65520) :
  exists cr,
    cr_ptr (_init_node_cr G w) = Some cr /\
    length (nodes cr) = Z.to_nat (select_node_cnt G) /\
    (forall x, in_tot_set cr x <->
       x <> 0 /\ exists j, In j (job_list w) /\ job_is_recorded j = true
                           /\ job_id j = x) /\
    (forall x, in_run_set cr x <->
       x <> 0 /\ exists j, In j (job_list w) /\ job_is_recorded j = true
                           /\ job_is_run j = true /\ job_id j = x) /\
    run_within_tot cr.
Proof.
  unfold _init_node_cr. rewrite Hnull.
  match goal with
  | |- context [init_jobs G (?c, ?h) ?js] =>
      pose proof (init_jobs_ids G js c h) as H;
      destruct (init_jobs G (c, h) js) as [[cr h'] jobs']
  end.
  cbn [tot_job_ids run_job_ids nodes] in H.
  specialize (H Hjobs Hjobs). destruct H as (Ht & Hr & Hl).
  exists cr. cbn [cr_ptr].
  assert (Htot : forall x, in_tot_set cr x <->
            x <> 0 /\ exists j, In j (job_list w) /\ job_is_recorded j = true
                                /\ job_id j = x).
  { intros x. unfold in_tot_set. fold (live (tot_job_ids cr) x). rewrite Ht.
    split; [ intros [[_ []] | H]; exact H | now right ]. }
  assert (Hrun : forall x, in_run_set cr x <->
            x <> 0 /\ exists j, In j (job_list w) /\ job_is_recorded j = true
                                /\ job_is_run j = true /\ job_id j = x).
  { intros x. unfold in_run_set. fold (live (run_job_ids cr) x). rewrite Hr.
    split; [ intros [[_ []] | H]; exact H | now right ]. }
  split_conj; auto.
  - rewrite Hl, init_parts_length. apply repeat_length.
  - intros x Hx. apply Hrun in Hx. apply Htot.
    destruct Hx as (Hx & j & Hj & Hrec & _ & Hid). split; [ exact Hx | ]. now exists j.
Qed.

End InitNodeCr.

(** ** The clone [_dup_cr] makes *)

Lemma fold_left_add_shift {A : Type} (f : A -> Z) (l : list A) (a : Z) :
  fold_left (fun acc p => acc + f p) l a = a + fold_left (fun acc p => acc + f p) l 0.
Proof.
  revert a. induction l as [ | x r IH ]; intros a; cbn [fold_left]; [ lia | ].
  rewrite (IH (a + f x)), (IH (0 + f x)). lia.
Qed.

Lemma fold_left_add_rev {A : Type} (f : A -> Z) (l : list A) :
  fold_left (fun acc p => acc + f p) (rev l) 0
  = fold_left (fun acc p => acc + f p) l 0.
Proof.
  induction l as [ | x r IH ]; [ reflexivity | ].
  cbn [rev fold_left]. rewrite fold_left_app. cbn [fold_left].
  rewrite IH, (fold_left_add_shift f r (0 + f x)). lia.
Qed.

Lemma nth_index_range (a b : Z) (k : nat) (d : Z) :
  (k < Z.to_nat (b - a + 1))%nat -> nth k (index_range a b) d = a + Z.of_nat k.
Proof.
  intros Hk. unfold index_range.
  rewrite (nth_indep _ d (a + Z.of_nat 0)) by (rewrite length_map, length_seq; lia).
  rewrite (map_nth (fun k => a + Z.of_nat k)), seq_nth by lia. reflexivity.
Qed.

Lemma length_index_range (a b : Z) : length (index_range a b) = Z.to_nat (b - a + 1).
Proof. unfold index_range. now rewrite length_map, length_seq. Qed.

Section Clone.

Context {SL : Slurm}.

(** The loop of [_dup_cr] over the nodes. *)
Lemma dup_cr_fold (G : globals) (cr : cr_record) (l : list Z)
    (acc : list node_cr_record) (h : gres_heap) :
  let '(new_nodes, h') :=
    fold_left
      (fun (st : list node_cr_record * gres_heap) (i : Z) =>
         let '(acc, h) := st in
         let n := zth (nodes cr) i zero_node_cr in
         let '(g, h1) := gres_plugin_node_state_dup (gres_list_of G cr i) h in
         (acc ++ [mk_node_cr (rev (parts n)) (alloc_memory n) (exclusive_cnt n) g], h1))
      l (acc, h) in
  exists tail,
    new_nodes = acc ++ tail /\ length tail = length l /\
    (forall k, (k < length l)%nat ->
       parts (nth k tail zero_node_cr)
       = rev (parts (zth (nodes cr) (nth k l 0) zero_node_cr)) /\
       alloc_memory (nth k tail zero_node_cr)
       = alloc_memory (zth (nodes cr) (nth k l 0) zero_node_cr) /\
       exclusive_cnt (nth k tail zero_node_cr)
       = exclusive_cnt (zth (nodes cr) (nth k l 0) zero_node_cr)).
Proof.
  revert acc h. induction l as [ | a l IH ]; intros acc h.
  - cbn [fold_left length]. exists []. rewrite app_nil_r.
    split_conj; [ reflexivity | reflexivity | intros k Hk; lia ].
  - cbn [fold_left].
    destruct (gres_plugin_node_state_dup (gres_list_of G cr a) h) as [g h1].
    specialize (IH (acc ++ [mk_node_cr (rev (parts (zth (nodes cr) a zero_node_cr)))
                              (alloc_memory (zth (nodes cr) a zero_node_cr))
                              (exclusive_cnt (zth (nodes cr) a zero_node_cr)) g]) h1).
    match goal with
    | |- context [fold_left ?f l ?s] => destruct (fold_left f l s) as [new_nodes h']
    end.
    destruct IH as (tail & Heq & Hlen & Hk).
    eexists (_ :: tail). rewrite Heq, <- app_assoc. cbn [app length].
    split_conj; [ reflexivity | now rewrite Hlen | ].
    intros [ | k ] Hlt; cbn [nth parts alloc_memory exclusive_cnt].
    + split_conj; reflexivity.
    + apply Hk. lia.
Qed.

(** X11: the clone has [select_node_cnt] node records; each holds the
    [alloc_memory] and the [exclusive_cnt] of the original's record and
    its partition records in the reverse order, so the sums of
    [run_job_cnt] and of [tot_job_cnt] the filter compares with its caps
    are those of the original; the two job-id arrays are copied as they
    are. *)
Theorem dup_cr_copies (G : globals) (cr : cr_record) (h : gres_heap) (i : Z) :
  let new_cr := fst (_dup_cr G cr h) in
  length (nodes new_cr) = Z.to_nat (select_node_cnt G) /\
  run_job_ids new_cr = run_job_ids cr /\ tot_job_ids new_cr = tot_job_ids cr /\
  (0 <= i < select_node_cnt G ->
   let n := zth (nodes cr) i zero_node_cr in
   let n' := zth (nodes new_cr) i zero_node_cr in
   parts n' = rev (parts n) /\
   alloc_memory n' = alloc_memory n /\ exclusive_cnt n' = exclusive_cnt n /\
   sum_run_jobs (parts n') = sum_run_jobs (parts n) /\
   sum_tot_jobs (parts n') = sum_tot_jobs (parts n)).
Proof.
  cbv zeta. destruct (dup_cr_ids G cr h) as [Hr Ht].
  split_conj; [ | exact Hr | exact Ht | ];
    unfold _dup_cr;
    pose proof (dup_cr_fold G cr (index_range 0 (select_node_cnt G - 1)) [] h) as H;
    match type of H with
    | let '(_, _) := ?f in _ => destruct f as [new_nodes h']
    end;
    destruct H as (tail & Heq & Hlen & Hk); cbn [app] in Heq; subst new_nodes;
    cbn [fst nodes]; rewrite length_index_range in Hlen, Hk.
  - rewrite Hlen. f_equal. lia.
  - intros Hi. unfold zth at 1 3 5 7 9.
    replace (i <? 0) with false by (symmetry; apply Z.ltb_ge; lia).
    specialize (Hk (Z.to_nat i) ltac:(lia)).
    rewrite nth_index_range in Hk by lia.
    replace (0 + Z.of_nat (Z.to_nat i)) with i in Hk by lia.
    destruct Hk as (Hp & Ha & He).
    split_conj; try assumption.
    + rewrite Hp. apply (fold_left_add_rev run_job_cnt).
    + rewrite Hp. apply (fold_left_add_rev tot_job_cnt).
Qed.

End Clone.

(** ** Sums over the nodes of a bitmap *)

Lemma node_sum_app (f : Z -> Z) (b : bitstr_t) (l1 l2 : list Z) :
  node_sum f b (l1 ++ l2) = node_sum f b l1 + node_sum f b l2.
Proof.
  unfold node_sum. rewrite filter_app.
  induction (filter (bit_test b) l1) as [ | x r IH ]; cbn [app fold_right]; lia.
Qed.

Lemma node_sum_ext (f : Z -> Z) (b b' : bitstr_t) (l : list Z) :
  (forall i, In i l -> bit_test b i = bit_test b' i) ->
  node_sum f b l = node_sum f b' l.
Proof.
  intros H. unfold node_sum. now rewrite (filter_ext_in _ _ l H).
Qed.

Lemma node_sum_single (f : Z -> Z) (b : bitstr_t) (i : Z) :
  node_sum f b [i] = if bit_test b i then f i else 0.
Proof.
  unfold node_sum. cbn [filter]. destruct (bit_test b i); cbn [fold_right]; lia.
Qed.

Lemma node_sum_count (b : bitstr_t) (l : list Z) :
  node_sum (fun _ => 1) b l = Z.of_nat (length (filter (bit_test b) l)).
Proof.
  unfold node_sum.
  induction (filter (bit_test b) l) as [ | x r IH ]; cbn [fold_right length]; lia.
Qed.

Lemma bit_set_count_node_sum (b : bitstr_t) :
  bit_set_count b = node_sum (fun _ => 1) b (all_nodes b).
Proof.
  rewrite node_sum_count. apply bit_set_count_range.
Qed.

(** Setting a bit that was clear adds its weight once. *)
Lemma node_sum_bit_set (f : Z -> Z) (b : bitstr_t) (l : list Z) (a : Z) :
  NoDup l -> In a l -> bit_test b a = false -> 0 <= a < Z.of_nat (length b) ->
  node_sum f (bit_set b a) l = node_sum f b l + f a.
Proof.
  intros Hnd Hin Hclear Hrange.
  destruct (in_split a l Hin) as (l1 & l2 & ->).
  apply NoDup_remove_2 in Hnd.
  assert (Hother : forall l', ~ In a l' ->
                     node_sum f (bit_set b a) l' = node_sum f b l').
  { intros l' Hl'. apply node_sum_ext. intros i Hi. rewrite bit_test_bit_set.
    replace (a =? i) with false; [ reflexivity | ].
    symmetry. apply Z.eqb_neq. intros ->. contradiction. }
  change (a :: l2) with ([a] ++ l2).
  rewrite !node_sum_app, !node_sum_single, Hclear.
  rewrite (Hother l1), (Hother l2)
    by (intros H; apply Hnd; apply in_or_app; auto).
  rewrite bit_test_bit_set, Z.eqb_refl.
  replace (0 <=? a) with true by (symmetry; apply Z.leb_le; lia).
  replace (a <? Z.of_nat (length b)) with true by (symmetry; apply Z.ltb_lt; lia).
  cbn [andb]. lia.
Qed.

(** Bits beyond the bitmap weigh nothing. *)
Lemma node_sum_all (f : Z -> Z) (b : bitstr_t) (n : Z) :
  Z.of_nat (length b) <= n ->
  node_sum f b (index_range 0 (n - 1)) = node_sum f b (all_nodes b).
Proof.
  intros Hn. unfold node_sum, all_nodes. f_equal.
  apply filter_index_range_support; try lia.
  intros i Hi. apply bit_test_range in Hi. lia.
Qed.

Lemma index_range_cons (a b : Z) :
  a <= b -> index_range a b = a :: index_range (a + 1) b.
Proof.
  intros H. rewrite (index_range_split a a b) by lia.
  unfold index_range at 1. replace (Z.to_nat (a - a + 1)) with 1%nat by lia.
  cbn [seq map app]. f_equal. lia.
Qed.

Lemma index_range_snoc (a b : Z) :
  a <= b + 1 -> index_range a (b + 1) = index_range a b ++ [b + 1].
Proof.
  intros H. rewrite (index_range_split a b (b + 1)) by lia. f_equal.
  unfold index_range. replace (Z.to_nat (b + 1 - (b + 1) + 1)) with 1%nat by lia.
  cbn [seq map]. f_equal. lia.
Qed.

Lemma Forall_list_set {A : Type} (P : A -> Prop) (l : list A) (k : nat) (x : A) :
  Forall P l -> P x -> Forall P (list_set l k x).
Proof.
  intros Hl Hx. revert k. induction Hl as [ | y r Hy Hr IH ]; intros [ | k ];
    cbn [list_set]; constructor; auto.
Qed.

Lemma Forall_zset {A : Type} (P : A -> Prop) (l : list A) (i : Z) (x : A) :
  Forall P l -> P x -> Forall P (zset l i x).
Proof.
  intros Hl Hx. unfold zset. destruct (i <? 0); [ exact Hl | ].
  now apply Forall_list_set.
Qed.

Lemma zth_nth_error {A : Type} (l : list A) (i : Z) (x d : A) :
  0 <= i -> nth_error l (Z.to_nat i) = Some x -> zth l i d = x.
Proof.
  intros Hi H. unfold zth.
  replace (i <? 0) with false by (symmetry; apply Z.ltb_ge; lia).
  now apply nth_error_nth.
Qed.

(** ** The flat selector: what it selects *)

Section FlatSelector.

Context {SL : Slurm} {CT : Slurmctld}.

Variables (G : globals) (job_ptr : job_record) (B : bitstr_t) (c0 : sel_start).

(** One turn of the table loop keeps what the loop has established. *)
Lemma build_step_inv (idx : Z) (st : sel_state * list consec * consec) :
  0 <= idx -> table_inv G job_ptr B c0 idx st ->
  table_inv G job_ptr B c0 (idx + 1) (build_step G job_ptr st idx).
Proof.
  destruct st as [[s runs] cur].
  intros Hidx ([Hlen Hsub] & Hrest & (Hcnt & Htot & Hpos & Hrem & Hav & Hcpu) & Hruns
               & (Hn0 & Hstart & Hreq)).
  assert (Hsnoc : index_range 0 (idx + 1 - 1) = index_range 0 (idx - 1) ++ [idx]).
  { replace (idx + 1 - 1) with (idx - 1 + 1) by lia.
    rewrite index_range_snoc by lia. repeat f_equal; lia. }
  assert (Hold : forall i, In i (index_range 0 (idx - 1)) -> i <> idx)
    by (intros i Hi; apply in_index_range in Hi; lia).
  unfold build_step.
  destruct (bit_test (sel_bitmap s) idx) eqn:Ebit.
  - assert (HB : bit_test B idx = true) by (rewrite <- Hrest by lia; exact Ebit).
    remember (if consec_nodes cur =? 0
              then mk_consec (consec_cpus cur) (consec_nodes cur) idx (consec_end cur)
                     (consec_req cur)
              else cur) as cur1 eqn:Ecur1.
    assert (Hcur1 : consec_nodes cur1 = consec_nodes cur /\
                    consec_req cur1 = consec_req cur /\
                    (forall i, consec_start cur1 <= i < idx + 1 ->
                               bit_test B i = true)).
    { rewrite Ecur1. destruct (consec_nodes cur =? 0) eqn:En.
      - cbn. split_conj; auto. intros i Hi. now replace i with idx by lia.
      - apply Z.eqb_neq in En. split_conj; auto. intros i Hi.
        destruct (Z.eq_dec i idx) as [-> | Hne]; [ exact HB | ].
        apply (Hstart En). lia. }
    destruct Hcur1 as (Hn1 & Hr1 & Hs1).
    assert (Hreq1 : consec_req cur1 <> -1 ->
                    consec_req cur1 < idx + 1 /\
                    forall i, consec_req cur1 <= i < idx + 1 -> bit_test B i = true).
    { rewrite Hr1. intros Hne. destruct (Hreq Hne) as [Hlt Hall]. split; [ lia | ].
      intros i Hi. destruct (Z.eq_dec i idx) as [-> | Hn]; [ exact HB | ].
      apply Hall. lia. }
    clear Ecur1.
    match goal with
    | |- context [if ?c then (count_node _ _ _ _ _, _, _) else _] => destruct c eqn:Ec
    end.
    + assert (Hmax : 0 < sel_max_nodes s).
      { destruct (req_node_bitmap (details_of job_ptr)); [ | discriminate ].
        apply andb_prop in Ec as [Ec _]. now apply Z.ltb_lt in Ec. }
      unfold table_inv, sel_within, sel_counts, count_node.
      cbn [sel_bitmap sel_max_nodes sel_total_cpus sel_rem_nodes sel_rem_cpus
           sel_alloc_cpus].
      rewrite Hsnoc, !node_sum_app, !node_sum_single, Ebit.
      split_conj; auto; try lia; try (intros i Hi; apply Hrest; lia).
      unfold cur_ok.
      destruct (consec_req cur1 =? -1) eqn:Eq; cbn [consec_nodes consec_start consec_req].
      * split_conj; [ lia | intros _; exact Hs1 | ].
        intros _. split; [ lia | ]. intros i Hi. now replace i with idx by lia.
      * split_conj; [ lia | intros _; exact Hs1 | exact Hreq1 ].
    + unfold table_inv, sel_within, sel_counts.
      cbn [sel_bitmap sel_max_nodes sel_total_cpus sel_rem_nodes sel_rem_cpus
           sel_alloc_cpus].
      assert (Hclr : forall f,
                node_sum f (bit_clear (sel_bitmap s) idx)
                  (index_range 0 (idx - 1) ++ [idx])
                = node_sum f (sel_bitmap s) (index_range 0 (idx - 1))).
      { intros f. rewrite node_sum_app, node_sum_single, bit_test_bit_clear, Z.eqb_refl.
        rewrite (node_sum_ext f (bit_clear (sel_bitmap s) idx) (sel_bitmap s)); [ lia | ].
        intros i Hi. rewrite bit_test_bit_clear.
        replace (idx =? i) with false; [ reflexivity | ].
        symmetry. apply Z.eqb_neq. intros ->. now apply (Hold _ Hi). }
      rewrite Hsnoc, !Hclr.
      split_conj; auto.
      * unfold bit_clear. now rewrite length_zset.
      * intros i Hi. rewrite bit_test_bit_clear in Hi.
        destruct (idx =? i); [ discriminate | now apply Hsub ].
      * intros i Hi. rewrite bit_test_bit_clear.
        replace (idx =? i) with false by (symmetry; apply Z.eqb_neq; lia).
        apply Hrest. lia.
      * unfold cur_ok. cbn [consec_nodes consec_start consec_req].
        split_conj; [ lia | intros _; exact Hs1 | exact Hreq1 ].
  - assert (HB : bit_test B idx = false) by (rewrite <- Hrest by lia; exact Ebit).
    assert (Hsame : forall f,
              node_sum f (sel_bitmap s) (index_range 0 (idx - 1) ++ [idx])
              = node_sum f (sel_bitmap s) (index_range 0 (idx - 1))).
    { intros f. rewrite node_sum_app, node_sum_single, Ebit. lia. }
    destruct (consec_nodes cur =? 0) eqn:En.
    + apply Z.eqb_eq in En.
      unfold table_inv, sel_within, sel_counts. rewrite Hsnoc, !Hsame.
      split_conj; auto.
      * intros i Hi. apply Hrest. lia.
      * unfold cur_ok. cbn [consec_nodes consec_start consec_req].
        split_conj; [ lia | intros H; contradiction | intros H; contradiction ].
    + apply Z.eqb_neq in En.
      unfold table_inv, sel_within, sel_counts. rewrite Hsnoc, !Hsame.
      split_conj; auto.
      * intros i Hi. apply Hrest. lia.
      * apply Forall_app. split; [ exact Hruns | ].
        constructor; [ | constructor ].
        unfold run_ok. cbn [consec_start consec_end consec_req].
        split.
        -- intros i Hi. apply (Hstart En). lia.
        -- intros Hne. destruct (Hreq Hne) as [Hlt Hall]. split; [ lia | ].
           intros i Hi. apply Hall. lia.
      * unfold cur_ok, new_consec. cbn [consec_nodes consec_start consec_req].
        split_conj; [ lia | intros H; contradiction | intros H; contradiction ].
Qed.

Lemma build_fold_inv (m : nat) (a : Z) (st : sel_state * list consec * consec) :
  0 <= a -> table_inv G job_ptr B c0 a st ->
  table_inv G job_ptr B c0 (a + Z.of_nat m)
    (fold_left (build_step G job_ptr) (index_range a (a + Z.of_nat m - 1)) st).
Proof.
  revert a st. induction m as [ | m IH ]; intros a st Ha Hinv.
  - rewrite index_range_empty by lia. cbn [fold_left].
    now replace (a + Z.of_nat 0) with a by lia.
  - rewrite index_range_cons by lia. cbn [fold_left].
    replace (a + Z.of_nat (S m)) with (a + 1 + Z.of_nat m) by lia.
    apply IH; [ lia | ]. now apply build_step_inv.
Qed.

(** The table and the selector state [build_table] leaves. *)
Lemma build_table_inv (s0 : sel_state) :
  s0 = mk_sel B (start_rem_cpus c0) (start_rem_nodes c0) (start_max_nodes c0) 0 0 ->
  let '(s, runs) := build_table G job_ptr s0 in
  loop_inv G job_ptr B c0 s /\ Forall (run_ok B) runs.
Proof.
  intros ->. unfold build_table.
  assert (Hinit : table_inv G job_ptr B c0 0
                    (mk_sel B (start_rem_cpus c0) (start_rem_nodes c0)
                       (start_max_nodes c0) 0 0, [], new_consec)).
  { unfold table_inv, sel_within, sel_counts, cur_ok, new_consec.
    cbn [consec_nodes consec_start consec_req sel_bitmap sel_max_nodes
         sel_total_cpus sel_rem_nodes sel_rem_cpus sel_alloc_cpus].
    rewrite index_range_empty by lia. unfold node_sum. cbn [filter fold_right].
    split_conj; auto; try lia; intros H; contradiction. }
  destruct (Z_le_dec 0 (select_node_cnt G)) as [Hn | Hn].
  - pose proof (build_fold_inv (Z.to_nat (select_node_cnt G)) 0 _ ltac:(lia) Hinit)
      as Hfold.
    replace (0 + Z.of_nat (Z.to_nat (select_node_cnt G)) - 1)
      with (select_node_cnt G - 1) in Hfold by lia.
    replace (0 + Z.of_nat (Z.to_nat (select_node_cnt G)))
      with (select_node_cnt G) in Hfold by lia.
    destruct (fold_left (build_step G job_ptr) (index_range 0 (select_node_cnt G - 1))
                (mk_sel B (start_rem_cpus c0) (start_rem_nodes c0)
                   (start_max_nodes c0) 0 0, [], new_consec)) as [[s runs] cur].
    destruct Hfold as (Hw & Hrest & Hc & Hruns & (Hn0 & Hstart & Hreq)).
    assert (Hloop : loop_inv G job_ptr B c0 s).
    { split; [ exact Hw | ]. intros Hlen. destruct Hw as [Hl _].
      unfold sel_counts, all_nodes.
      rewrite <- Hl, <- !(node_sum_all _ (sel_bitmap s) (select_node_cnt G)) by lia.
      exact Hc. }
    destruct (consec_nodes cur =? 0) eqn:En; cbn [negb].
    + split; assumption.
    + apply Z.eqb_neq in En. split; [ exact Hloop | ].
      apply Forall_app. split; [ exact Hruns | ].
      constructor; [ | constructor ].
      unfold run_ok. cbn [consec_start consec_end consec_req]. split.
      * intros i Hi. apply (Hstart En). lia.
      * intros Hne. destruct (Hreq Hne) as [Hlt Hall]. split; [ lia | ].
        intros i Hi. apply Hall. lia.
  - rewrite index_range_empty by lia. cbn [fold_left new_consec consec_nodes].
    cbn. split; [ | constructor ].
    destruct Hinit as (Hw & _ & _). split; [ exact Hw | ]. intros Hlen.
    assert (HB : B = []) by (destruct B; [ reflexivity | cbn in Hlen; lia ]).
    unfold sel_counts, all_nodes, node_sum. rewrite HB.
    cbn. split_conj; auto; lia.
Qed.

(** A commit loop over nodes of the given bitmap. *)
Lemma commit_scan_inv (idxs : list Z) (s : sel_state) :
  (forall i, In i idxs -> bit_test B i = true) ->
  loop_inv G job_ptr B c0 s -> loop_inv G job_ptr B c0 (commit_scan G job_ptr idxs s).
Proof.
  revert s. induction idxs as [ | a idxs IH ]; intros s Hin Hinv; [ exact Hinv | ].
  cbn [commit_scan].
  destruct (sel_done s) eqn:Ed; [ exact Hinv | ].
  assert (Hrest : forall i, In i idxs -> bit_test B i = true)
    by (intros i Hi; apply Hin; now right).
  destruct (bit_test (sel_bitmap s) a) eqn:Ea; [ now apply IH | ].
  apply IH; [ exact Hrest | ].
  destruct Hinv as [[Hlen Hsub] Hc].
  assert (Ha : bit_test B a = true) by (apply Hin; now left).
  pose proof (bit_test_range B a Ha) as Hra.
  assert (Hmax : 0 < sel_max_nodes s).
  { unfold sel_done in Ed. apply orb_false_iff in Ed as [Ed _].
    now apply Z.leb_gt in Ed. }
  unfold loop_inv, sel_within, sel_counts, count_node.
  cbn [sel_bitmap sel_max_nodes sel_total_cpus sel_rem_nodes sel_rem_cpus
       sel_alloc_cpus].
  split_conj.
  - unfold bit_set. now rewrite length_zset.
  - intros i Hi. rewrite bit_test_bit_set in Hi.
    destruct ((a =? i) && (0 <=? a) && (a <? Z.of_nat (length (sel_bitmap s)))) eqn:E.
    + apply andb_prop in E as [E _]. apply andb_prop in E as [E _].
      apply Z.eqb_eq in E. now subst i.
    + now apply Hsub.
  - intros Hl. destruct (Hc Hl) as (Hc1 & Hc2 & Hc3 & Hc4 & Hc5 & Hc6).
    assert (Hina : In a (all_nodes B)) by (apply in_index_range; lia).
    rewrite !(node_sum_bit_set _ (sel_bitmap s) (all_nodes B) a)
      by (try apply NoDup_index_range; try assumption; rewrite Hlen; exact Hra).
    split_conj; lia.
Qed.

Lemma commit_run_inv (bf : best_fit) (run : consec) (s : sel_state) :
  run_ok B run -> best_fit_req bf = -1 \/ best_fit_req bf = consec_req run ->
  loop_inv G job_ptr B c0 s -> loop_inv G job_ptr B c0 (commit_run G job_ptr bf run s).
Proof.
  intros [Hrange Hreq] Hbf Hinv. unfold commit_run.
  destruct (best_fit_req bf =? -1) eqn:E; cbn [negb].
  - apply commit_scan_inv; [ | exact Hinv ].
    intros i Hi. apply in_index_range in Hi. now apply Hrange.
  - apply Z.eqb_neq in E. destruct Hbf as [Hbf | Hbf]; [ contradiction | ].
    rewrite Hbf in E |- *. destruct (Hreq E) as [Hle Hall].
    apply commit_scan_inv; [ | apply commit_scan_inv; [ | exact Hinv ] ].
    + intros i Hi. apply in_rev, in_index_range in Hi. apply Hrange. lia.
    + intros i Hi. apply in_index_range in Hi. now apply Hall.
Qed.

Lemma best_fit_scan_chosen (contig_req : bool)
    (rem_cpus rem_nodes min_nodes req_nodes : Z) (pre rest : list consec)
    (bf : best_fit) :
  chosen (pre ++ rest) bf ->
  chosen (pre ++ rest)
    (best_fit_scan contig_req rem_cpus rem_nodes min_nodes req_nodes rest
       (Z.of_nat (length pre)) bf).
Proof.
  revert pre bf. induction rest as [ | r rest IH ]; intros pre bf H; [ exact H | ].
  assert (step : forall bf', chosen (pre ++ r :: rest) bf' ->
            chosen (pre ++ r :: rest)
              (best_fit_scan contig_req rem_cpus rem_nodes min_nodes req_nodes rest
                 (Z.of_nat (length pre) + 1) bf')).
  { intros bf' H'.
    replace (pre ++ r :: rest) with ((pre ++ [r]) ++ rest) in *
      by (rewrite <- app_assoc; reflexivity).
    replace (Z.of_nat (length pre) + 1) with (Z.of_nat (length (pre ++ [r])))
      by (rewrite length_app; simpl; lia).
    now apply IH. }
  cbn [best_fit_scan].
  destruct (consec_nodes r =? 0) eqn:En; [ now apply step | ].
  destruct (contig_req && (consec_req r =? -1)); [ now apply step | ].
  match goal with
  | |- context [if ?c then mk_bf ?a ?b ?l ?q ?f else bf] =>
      assert (Hbf1 : chosen (pre ++ r :: rest) (if c then mk_bf a b l q f else bf));
      [ destruct c; [ | exact H ] | ]
  end.
  - right. cbn [best_fit_location best_fit_req]. split; [ lia | ].
    exists r. rewrite Nat2Z.id, nth_error_app2, Nat.sub_diag by lia.
    split_conj; [ reflexivity | now apply Z.eqb_neq | reflexivity ].
  - destruct (contig_req && existsb _ rest); [ now left | now apply step ].
Qed.

(** The selector loop keeps the invariant, whatever code it returns. *)
Lemma select_loop_inv (min_nodes req_nodes : Z) (fuel : nat) :
  forall (runs : list consec) (location : Z) (s : sel_state) r,
    Forall (run_ok B) runs -> loop_inv G job_ptr B c0 s ->
    select_loop fuel G job_ptr min_nodes req_nodes runs location s = Some r ->
    loop_inv G job_ptr B c0 (snd r).
Proof.
  induction fuel as [ | fuel IH ]; intros runs location s r Hruns Hinv Hr;
    [ discriminate | ].
  cbn [select_loop] in Hr.
  destruct (_ || negb (0 <? sel_max_nodes s)); [ now injection Hr as <- | ].
  match type of Hr with
  | context [best_fit_scan ?c ?a ?b ?m ?q runs 0 ?bf0] =>
      pose proof (best_fit_scan_chosen c a b m q [] runs bf0 (or_introl eq_refl)) as Hp;
      cbn [app length Z.of_nat] in Hp;
      remember (best_fit_scan c a b m q runs 0 bf0) as bf eqn:Ebf
  end.
  destruct (best_fit_nodes bf =? 0) eqn:En; [ now injection Hr as <- | ].
  match type of Hr with
  | context [if ?c then Some (EINVAL, s) else _] =>
      destruct c; [ now injection Hr as <- | ]
  end.
  apply Z.eqb_neq in En.
  destruct Hp as [Hp | [Hloc [run [Hrun [Hnz Hreq]]]]]; [ contradiction | ].
  rewrite (zth_nth_error runs _ run new_consec Hloc Hrun) in Hr.
  assert (Hok : run_ok B run).
  { rewrite Forall_forall in Hruns. apply Hruns. eapply nth_error_In; eauto. }
  assert (Hinv' : loop_inv G job_ptr B c0 (commit_run G job_ptr bf run s))
    by (apply commit_run_inv; auto).
  match type of Hr with
  | context [if ?c then Some (SLURM_SUCCESS, _) else _] =>
      destruct c; [ now injection Hr as <- | ]
  end.
  apply IH in Hr; [ exact Hr | | exact Hinv' ].
  apply Forall_zset; [ exact Hruns | ].
  destruct Hok as [H1 H2]. split; cbn [consec_start consec_end consec_req]; assumption.
Qed.

(** What the flat selector returns. *)
Lemma job_test_flat_inv (bitmap : bitstr_t) (min_nodes max_nodes req_nodes : Z) :
  bitmap = B ->
  c0 = mk_start max_nodes
         (if min_nodes <? req_nodes then to_int req_nodes else to_int min_nodes)
         (to_int (min_cpus (details_of job_ptr))) ->
  exists rc s' ,
    job_test_flat G job_ptr bitmap min_nodes max_nodes req_nodes
    = Some (rc, sel_bitmap s',
            if errno_eqb rc SLURM_SUCCESS
            then set_total_cpus job_ptr (to_uint32 (sel_total_cpus s'))
            else job_ptr) /\
    loop_inv G job_ptr B c0 s'.
Proof.
  intros -> Hc0. unfold job_test_flat.
  match goal with
  | |- context [build_table G job_ptr ?s0] =>
      pose proof (build_table_inv s0) as Hb;
      destruct (build_table G job_ptr s0) as [s runs]
  end.
  specialize (Hb ltac:(now rewrite Hc0)).
  destruct Hb as [Hinv Hruns].
  destruct (select_loop_returns G job_ptr min_nodes req_nodes (S (length runs))
              runs 0 s) as [[error_code s'] Hr].
  { pose proof (open_runs_le runs). lia. }
  rewrite Hr.
  pose proof (select_loop_inv min_nodes req_nodes _ _ _ _ _ Hruns Hinv Hr) as Hs'.
  cbn [snd] in Hs'. eexists _, s'. split; [ reflexivity | exact Hs' ].
Qed.

(** Without [contiguous], the loop reports success only with both
    remainders used up. *)
Lemma select_loop_success (min_nodes req_nodes : Z) (fuel : nat) :
  contiguous (details_of job_ptr) = 0 ->
  forall (runs : list consec) (location : Z) (s s' : sel_state),
    select_loop fuel G job_ptr min_nodes req_nodes runs location s
    = Some (SLURM_SUCCESS, s') ->
    sel_rem_nodes s' <= 0 /\ sel_rem_cpus s' <= 0.
Proof.
  intros Hc. induction fuel as [ | fuel IH ]; intros runs location s s' Hr;
    [ discriminate | ].
  cbn [select_loop] in Hr. rewrite Hc in Hr. cbn [Z.eqb negb andb orb] in Hr.
  destruct (_ || negb (0 <? sel_max_nodes s)); [ discriminate | ].
  match type of Hr with
  | context [best_fit_scan ?c ?a ?b ?m ?q runs 0 ?bf0] =>
      remember (best_fit_scan c a b m q runs 0 bf0) as bf eqn:Ebf
  end.
  destruct (best_fit_nodes bf =? 0); [ discriminate | ].
  match type of Hr with
  | context [if ?c then Some (SLURM_SUCCESS, ?x) else _] =>
      destruct c eqn:Ec; [ injection Hr as <- | ]
  end.
  - apply andb_prop in Ec as [E1 E2]. apply Z.leb_le in E1, E2. now split.
  - now apply IH in Hr.
Qed.

(** What the flat selector returns for a job that is not contiguous. *)
Lemma job_test_flat_success (bitmap : bitstr_t) (min_nodes max_nodes req_nodes : Z) :
  contiguous (details_of job_ptr) = 0 ->
  bitmap = B ->
  c0 = mk_start max_nodes
         (if min_nodes <? req_nodes then to_int req_nodes else to_int min_nodes)
         (to_int (min_cpus (details_of job_ptr))) ->
  exists rc s' ,
    job_test_flat G job_ptr bitmap min_nodes max_nodes req_nodes
    = Some (rc, sel_bitmap s',
            if errno_eqb rc SLURM_SUCCESS
            then set_total_cpus job_ptr (to_uint32 (sel_total_cpus s'))
            else job_ptr) /\
    loop_inv G job_ptr B c0 s' /\
    (rc = SLURM_SUCCESS ->
     sel_rem_cpus s' <= 0 /\
     (sel_rem_nodes s' <= 0
      \/ _enough_nodes 0 (sel_rem_nodes s') min_nodes req_nodes = true)).
Proof.
  intros Hcontig -> Hc0. unfold job_test_flat.
  match goal with
  | |- context [build_table G job_ptr ?s0] =>
      pose proof (build_table_inv s0) as Hb;
      destruct (build_table G job_ptr s0) as [s runs]
  end.
  specialize (Hb ltac:(now rewrite Hc0)).
  destruct Hb as [Hinv Hruns].
  destruct (select_loop_returns G job_ptr min_nodes req_nodes (S (length runs))
              runs 0 s) as [[error_code s'] Hr].
  { pose proof (open_runs_le runs). lia. }
  rewrite Hr.
  pose proof (select_loop_inv min_nodes req_nodes _ _ _ _ _ Hruns Hinv Hr) as Hs'.
  cbn [snd] in Hs'. eexists _, s'. split_conj; [ reflexivity | exact Hs' | ].
  destruct (errno_eqb error_code SLURM_SUCCESS) eqn:Ee; cbn [negb andb].
  - intros _. destruct error_code; try discriminate.
    destruct (select_loop_success min_nodes req_nodes _ Hcontig _ _ _ _ Hr).
    split; [ assumption | now left ].
  - destruct (sel_rem_cpus s' <=? 0) eqn:E1; cbn [andb].
    + destruct (_enough_nodes 0 (sel_rem_nodes s') min_nodes req_nodes) eqn:E2.
      * intros _. apply Z.leb_le in E1. split; [ exact E1 | now right ].
      * intros ->. discriminate.
    + intros ->. discriminate.
Qed.

Lemma node_sum_count_mono (b b' : bitstr_t) (l : list Z) :
  (forall i, In i l -> bit_test b i = true -> bit_test b' i = true) ->
  node_sum (fun _ => 1) b l <= node_sum (fun _ => 1) b' l.
Proof.
  intros H. induction l as [ | a l IH ]; [ unfold node_sum; cbn; lia | ].
  change (a :: l) with ([a] ++ l). rewrite !node_sum_app, !node_sum_single.
  specialize (IH (fun i Hi => H i (or_intror Hi))).
  destruct (bit_test b a) eqn:Ea.
  - rewrite (H a (or_introl eq_refl) Ea). lia.
  - destruct (bit_test b' a); lia.
Qed.

Lemma node_sum_count_prefix (b : bitstr_t) (idx : Z) :
  0 <= idx < Z.of_nat (length b) ->
  node_sum (fun _ => 1) b (index_range 0 idx) <= bit_set_count b.
Proof.
  intros H. rewrite bit_set_count_node_sum. unfold all_nodes.
  rewrite (index_range_split 0 idx (Z.of_nat (length b) - 1)) by lia.
  rewrite node_sum_app.
  pose proof (node_sum_count b (index_range (idx + 1) (Z.of_nat (length b) - 1))). lia.
Qed.

(** The table loop keeps every required node as long as the required
    nodes are no more than [max_nodes]. *)
Lemma build_step_req (rb : bitstr_t) (idx : Z) (st : sel_state * list consec * consec) :
  req_node_bitmap (details_of job_ptr) = Some rb ->
  bit_set_count rb <= start_max_nodes c0 ->
  0 <= idx -> table_inv G job_ptr B c0 idx st ->
  (forall i, 0 <= i < idx ->
     bit_test (sel_bitmap (fst (fst st))) i = bit_test rb i && bit_test B i) ->
  forall i, 0 <= i < idx + 1 ->
    bit_test (sel_bitmap (fst (fst (build_step G job_ptr st idx)))) i
    = bit_test rb i && bit_test B i.
Proof.
  destruct st as [[s runs] cur]. cbn [fst].
  intros Hrb Hfew Hidx ([Hlen Hsub] & Hrest & (Hcnt & _) & _) Hk i Hi.
  unfold build_step. rewrite Hrb.
  destruct (bit_test (sel_bitmap s) idx) eqn:Ebit.
  - assert (HB : bit_test B idx = true) by (rewrite <- Hrest by lia; exact Ebit).
    destruct (bit_test rb idx) eqn:Er.
    + assert (Hmax : 0 < sel_max_nodes s).
      { pose proof (bit_test_range rb idx Er) as Hr.
        pose proof (node_sum_count_prefix rb idx Hr) as Hp.
        replace idx with (idx - 1 + 1) in Hp at 1 by lia.
        rewrite index_range_snoc, node_sum_app, node_sum_single in Hp by lia.
        replace (idx - 1 + 1) with idx in Hp by lia. rewrite Er in Hp.
        pose proof (node_sum_count_mono (sel_bitmap s) rb (index_range 0 (idx - 1)))
          as Hm.
        assert (Hle : node_sum (fun _ => 1) (sel_bitmap s) (index_range 0 (idx - 1))
                      <= node_sum (fun _ => 1) rb (index_range 0 (idx - 1))).
        { apply Hm. intros j Hj Hset. apply in_index_range in Hj.
          rewrite Hk in Hset by lia. now apply andb_prop in Hset. }
        lia. }
      replace (0 <? sel_max_nodes s) with true by (symmetry; apply Z.ltb_lt; lia).
      cbn [andb fst count_node sel_bitmap].
      destruct (Z.eq_dec i idx) as [-> | Hne]; [ now rewrite Ebit, Er, HB | ].
      apply Hk. lia.
    + rewrite andb_false_r. cbn [fst sel_bitmap].
      rewrite bit_test_bit_clear.
      destruct (idx =? i) eqn:E.
      * apply Z.eqb_eq in E. subst i. now rewrite Er.
      * apply Z.eqb_neq in E. apply Hk. lia.
  - assert (HB : bit_test B idx = false) by (rewrite <- Hrest by lia; exact Ebit).
    assert (Hres : forall j, 0 <= j < idx + 1 ->
              bit_test (sel_bitmap s) j = bit_test rb j && bit_test B j).
    { intros j Hj. destruct (Z.eq_dec j idx) as [-> | Hne].
      - now rewrite Ebit, HB, andb_false_r.
      - apply Hk. lia. }
    destruct (consec_nodes cur =? 0); cbn [fst]; now apply Hres.
Qed.

Lemma build_fold_req (rb : bitstr_t) (m : nat) (a : Z)
    (st : sel_state * list consec * consec) :
  req_node_bitmap (details_of job_ptr) = Some rb ->
  bit_set_count rb <= start_max_nodes c0 ->
  0 <= a -> table_inv G job_ptr B c0 a st ->
  (forall i, 0 <= i < a ->
     bit_test (sel_bitmap (fst (fst st))) i = bit_test rb i && bit_test B i) ->
  forall i, 0 <= i < a + Z.of_nat m ->
    bit_test
      (sel_bitmap
         (fst (fst (fold_left (build_step G job_ptr)
                      (index_range a (a + Z.of_nat m - 1)) st)))) i
    = bit_test rb i && bit_test B i.
Proof.
  intros Hrb Hfew. revert a st. induction m as [ | m IH ]; intros a st Ha Hinv Hk.
  - rewrite index_range_empty by lia. cbn [fold_left].
    intros i Hi. apply Hk. lia.
  - rewrite index_range_cons by lia. cbn [fold_left].
    replace (a + Z.of_nat (S m)) with (a + 1 + Z.of_nat m) by lia.
    apply IH; [ lia | now apply build_step_inv | ].
    now apply build_step_req.
Qed.

(** After the table loop every required node of the bitmap is set. *)
Lemma build_table_req (rb : bitstr_t) (s0 : sel_state) :
  req_node_bitmap (details_of job_ptr) = Some rb ->
  bit_set_count rb <= start_max_nodes c0 ->
  s0 = mk_sel B (start_rem_cpus c0) (start_rem_nodes c0) (start_max_nodes c0) 0 0 ->
  forall i, bit_test rb i = true -> bit_test B i = true ->
    bit_test (sel_bitmap (fst (build_table G job_ptr s0))) i = true.
Proof.
  intros Hrb Hfew -> i Hri HBi. unfold build_table.
  assert (Hinit : table_inv G job_ptr B c0 0
                    (mk_sel B (start_rem_cpus c0) (start_rem_nodes c0)
                       (start_max_nodes c0) 0 0, [], new_consec)).
  { unfold table_inv, sel_within, sel_counts, cur_ok, new_consec.
    cbn [consec_nodes consec_start consec_req sel_bitmap sel_max_nodes
         sel_total_cpus sel_rem_nodes sel_rem_cpus sel_alloc_cpus].
    rewrite index_range_empty by lia. unfold node_sum. cbn [filter fold_right].
    split_conj; auto; try lia; intros H; contradiction. }
  pose proof (bit_test_range B i HBi) as Hrange.
  destruct (Z_le_dec 0 (select_node_cnt G)) as [Hn | Hn].
  - pose proof (build_fold_inv (Z.to_nat (select_node_cnt G)) 0 _ ltac:(lia) Hinit)
      as Hfold.
    pose proof (build_fold_req rb (Z.to_nat (select_node_cnt G)) 0 _ Hrb Hfew
                  ltac:(lia) Hinit ltac:(intros; lia)) as Hreq.
    replace (0 + Z.of_nat (Z.to_nat (select_node_cnt G)) - 1)
      with (select_node_cnt G - 1) in Hfold, Hreq by lia.
    replace (0 + Z.of_nat (Z.to_nat (select_node_cnt G)))
      with (select_node_cnt G) in Hfold, Hreq by lia.
    destruct (fold_left (build_step G job_ptr) (index_range 0 (select_node_cnt G - 1))
                (mk_sel B (start_rem_cpus c0) (start_rem_nodes c0)
                   (start_max_nodes c0) 0 0, [], new_consec)) as [[s runs] cur].
    cbn [fst] in Hreq. destruct Hfold as (_ & Hrest & _).
    assert (Hs : bit_test (sel_bitmap s) i = true).
    { destruct (Z_lt_dec i (select_node_cnt G)) as [Hlt | Hge].
      - rewrite Hreq by lia. now rewrite Hri, HBi.
      - rewrite Hrest by lia. exact HBi. }
    destruct (negb (consec_nodes cur =? 0)); exact Hs.
  - rewrite index_range_empty by lia. cbn. exact HBi.
Qed.

Lemma commit_scan_keeps (idxs : list Z) (s : sel_state) (i : Z) :
  bit_test (sel_bitmap s) i = true ->
  bit_test (sel_bitmap (commit_scan G job_ptr idxs s)) i = true.
Proof.
  revert s. induction idxs as [ | a idxs IH ]; intros s Hs; [ exact Hs | ].
  cbn [commit_scan]. destruct (sel_done s); [ exact Hs | ].
  destruct (bit_test (sel_bitmap s) a); [ now apply IH | ].
  apply IH. unfold count_node. cbn [sel_bitmap]. rewrite bit_test_bit_set, Hs.
  now destruct ((a =? i) && (0 <=? a) && (a <? Z.of_nat (length (sel_bitmap s)))).
Qed.

Lemma commit_run_keeps (bf : best_fit) (run : consec) (s : sel_state) (i : Z) :
  bit_test (sel_bitmap s) i = true ->
  bit_test (sel_bitmap (commit_run G job_ptr bf run s)) i = true.
Proof.
  intros Hs. unfold commit_run.
  destruct (negb (best_fit_req bf =? -1)); repeat apply commit_scan_keeps; exact Hs.
Qed.

Lemma select_loop_keeps (min_nodes req_nodes : Z) (fuel : nat) (i : Z) :
  forall (runs : list consec) (location : Z) (s : sel_state) r,
    select_loop fuel G job_ptr min_nodes req_nodes runs location s = Some r ->
    bit_test (sel_bitmap s) i = true -> bit_test (sel_bitmap (snd r)) i = true.
Proof.
  induction fuel as [ | fuel IH ]; intros runs location s r Hr Hs; [ discriminate | ].
  cbn [select_loop] in Hr.
  destruct (_ || negb (0 <? sel_max_nodes s)); [ now injection Hr as <- | ].
  match type of Hr with
  | context [best_fit_scan ?c ?a ?b ?m ?q runs 0 ?bf0] =>
      remember (best_fit_scan c a b m q runs 0 bf0) as bf eqn:Ebf
  end.
  destruct (best_fit_nodes bf =? 0); [ now injection Hr as <- | ].
  match type of Hr with
  | context [if ?c then Some (EINVAL, s) else _] =>
      destruct c; [ now injection Hr as <- | ]
  end.
  match type of Hr with
  | context [if ?c then Some (SLURM_SUCCESS, ?x) else _] =>
      destruct c; [ injection Hr as <-; now apply commit_run_keeps | ]
  end.
  apply IH in Hr; [ exact Hr | now apply commit_run_keeps ].
Qed.

Lemma job_test_flat_req (rb bitmap : bitstr_t) (min_nodes max_nodes req_nodes : Z) :
  req_node_bitmap (details_of job_ptr) = Some rb ->
  bit_set_count rb <= max_nodes ->
  bitmap = B ->
  c0 = mk_start max_nodes
         (if min_nodes <? req_nodes then to_int req_nodes else to_int min_nodes)
         (to_int (min_cpus (details_of job_ptr))) ->
  exists r,
    job_test_flat G job_ptr bitmap min_nodes max_nodes req_nodes = Some r /\
    forall i, bit_test rb i = true -> bit_test B i = true ->
              bit_test (snd (fst r)) i = true.
Proof.
  intros Hrb Hfew -> Hc0. unfold job_test_flat.
  match goal with
  | |- context [build_table G job_ptr ?s0] =>
      pose proof (build_table_req rb s0 Hrb) as Hb;
      destruct (build_table G job_ptr s0) as [s runs]
  end.
  cbn [fst] in Hb.
  specialize (Hb ltac:(rewrite Hc0; exact Hfew) ltac:(now rewrite Hc0)).
  destruct (select_loop_returns G job_ptr min_nodes req_nodes (S (length runs))
              runs 0 s) as [[error_code s'] Hr].
  { pose proof (open_runs_le runs). lia. }
  rewrite Hr. eexists. split; [ reflexivity | ].
  intros i Hri HBi. cbn [fst snd].
  apply (select_loop_keeps min_nodes req_nodes _ i _ _ _ _ Hr). now apply Hb.
Qed.

End FlatSelector.

Section FlatSelectorResults.

Context {SL : Slurm} {CT : Slurmctld}.

(** The flat selector returns, and the bitmap it returns has the length
    of the bitmap it was given and holds only nodes that were set in
    it. *)
Lemma job_test_flat_within (G : globals) (job_ptr : job_record)
    (bitmap : bitstr_t) (min_nodes max_nodes req_nodes : Z) :
  match job_test_flat G job_ptr bitmap min_nodes max_nodes req_nodes with
  | Some (rc, out, job') =>
      length out = length bitmap /\
      (forall i, bit_test out i = true -> bit_test bitmap i = true)
  | None => False
  end.
Proof.
  destruct (job_test_flat_inv G job_ptr bitmap _ bitmap min_nodes max_nodes
              req_nodes eq_refl eq_refl) as (rc & s' & Heq & [Hw _]).
  rewrite Heq. exact Hw.
Qed.

(** The flat selector returns a bitmap with at most [max_nodes] nodes
    set, and on success the job's [total_cpus] is the sum of the total
    CPUs of these nodes. *)
Lemma job_test_flat_limit (G : globals) (job_ptr : job_record)
    (bitmap : bitstr_t) (min_nodes max_nodes req_nodes : Z)
    (Hmax : 0 <= max_nodes)
    (Hlen : Z.of_nat (length bitmap) <= select_node_cnt G) :
  match job_test_flat G job_ptr bitmap min_nodes max_nodes req_nodes with
  | Some (rc, out, job') =>
      bit_set_count out <= max_nodes /\
      (rc = SLURM_SUCCESS ->
       total_cpus job'
       = to_uint32 (node_sum (_get_total_cpus G) out (all_nodes out))) /\
      (rc <> SLURM_SUCCESS -> job' = job_ptr)
  | None => False
  end.
Proof.
  destruct (job_test_flat_inv G job_ptr bitmap _ bitmap min_nodes max_nodes
              req_nodes eq_refl eq_refl) as (rc & s' & Heq & [[Hl _] Hc]).
  rewrite Heq. destruct (Hc Hlen) as (Hc1 & Hc2 & Hc3 & _).
  cbn [start_max_nodes] in Hc1, Hc3.
  assert (Hall : all_nodes (sel_bitmap s') = all_nodes bitmap)
    by (unfold all_nodes; now rewrite Hl).
  split_conj.
  - rewrite bit_set_count_node_sum, Hall. specialize (Hc3 Hmax). lia.
  - intros ->. cbn [errno_eqb]. rewrite Hall, Hc2. reflexivity.
  - intros Hne. destruct rc; try reflexivity. contradiction.
Qed.

Lemma select_loop_more_fuel (G : globals) (job_ptr : job_record)
    (min_nodes req_nodes : Z) (fuel : nat) :
  forall (runs : list consec) (location : Z) (s : sel_state) r,
    select_loop fuel G job_ptr min_nodes req_nodes runs location s = Some r ->
    select_loop (S fuel) G job_ptr min_nodes req_nodes runs location s = Some r.
Proof.
  induction fuel as [ | fuel IH ]; intros runs location s r H; [ discriminate | ].
  remember (S fuel) as fuel1 eqn:Ef.
  cbn [select_loop]. rewrite Ef in H. cbn [select_loop] in H.
  destruct (_ || negb (0 <? sel_max_nodes s)); [ exact H | ].
  match goal with
  | |- context [best_fit_scan ?c ?a ?b ?m ?q runs 0 ?bf0] =>
      remember (best_fit_scan c a b m q runs 0 bf0) as bf eqn:Ebf
  end.
  destruct (best_fit_nodes bf =? 0); [ exact H | ].
  match goal with
  | |- context [if ?c then Some (EINVAL, s) else _] => destruct c; [ exact H | ]
  end.
  match goal with
  | |- context [if ?c then Some (SLURM_SUCCESS, _) else _] =>
      destruct c; [ exact H | ]
  end.
  apply IH. exact H.
Qed.

(** X12: the loop of the flat selector ends: a turn that does not leave
    the loop empties one entry of the table, so the loop returns within
    one turn more than the table has entries with nodes, and further
    turns allowed change nothing. *)
Theorem flat_selector_loop_ends (G : globals) (job_ptr : job_record)
    (min_nodes req_nodes : Z) (runs : list consec) (location : Z) (s : sel_state) :
  exists r, forall fuel, (open_runs runs < fuel)%nat ->
    select_loop fuel G job_ptr min_nodes req_nodes runs location s = Some r.
Proof.
  destruct (select_loop_returns G job_ptr min_nodes req_nodes (S (open_runs runs))
              runs location s ltac:(lia)) as [r Hr].
  exists r. intros fuel Hfuel.
  replace fuel with (fuel - S (open_runs runs) + S (open_runs runs))%nat by lia.
  induction (fuel - S (open_runs runs))%nat as [ | k IH ]; [ exact Hr | ].
  cbn [Nat.add]. now apply select_loop_more_fuel.
Qed.

(** Success of the flat selector for a job that is not contiguous. *)
Lemma job_test_flat_enough (G : globals) (job_ptr : job_record)
    (bitmap : bitstr_t) (min_nodes max_nodes req_nodes : Z)
    (Hcontig : contiguous (details_of job_ptr) = 0)
    (Hmin : 0 <= min_nodes < 2 ^ 31) (Hreq : 0 <= req_nodes < 2 ^ 31)
    (Hmax : 0 <= max_nodes < 2 ^ 31)
    (Hlen : Z.of_nat (length bitmap) <= select_node_cnt G) :
  match job_test_flat G job_ptr bitmap min_nodes max_nodes req_nodes with
  | Some (rc, out, job') =>
      rc = SLURM_SUCCESS ->
      min_nodes <= bit_set_count out /\
      to_int (min_cpus (details_of job_ptr))
      <= node_sum (_get_avail_cpus G job_ptr) out (all_nodes out)
  | None => False
  end.
Proof.
  destruct (job_test_flat_success G job_ptr bitmap _ bitmap min_nodes max_nodes
              req_nodes Hcontig eq_refl eq_refl)
    as (rc & s' & Heq & [[Hl _] Hc] & Hok).
  rewrite Heq. intros Hrc. destruct (Hok Hrc) as [Hcpus Hnodes].
  destruct (Hc Hlen) as (Hc1 & _ & Hc3 & Hc4 & Hc5 & Hc6).
  cbn [start_max_nodes start_rem_nodes start_rem_cpus] in *.
  assert (Hall : all_nodes (sel_bitmap s') = all_nodes bitmap)
    by (unfold all_nodes; now rewrite Hl).
  rewrite bit_set_count_node_sum, Hall, Hc5.
  split; [ | lia ].
  specialize (Hc3 ltac:(lia)).
  pose proof (node_sum_count (sel_bitmap s') (all_nodes bitmap)) as Hcount.
  destruct (min_nodes <? req_nodes) eqn:E.
  - apply Z.ltb_lt in E. rewrite to_int_small in Hc4 by lia.
    destruct Hnodes as [Hn | Hn]; [ lia | ].
    unfold _enough_nodes in Hn.
    replace (min_nodes <? req_nodes) with true in Hn by (symmetry; apply Z.ltb_lt; lia).
    rewrite needed_nodes_wrap, to_int_small in Hn by lia.
    apply Z.leb_le in Hn. lia.
  - apply Z.ltb_ge in E. rewrite to_int_small in Hc4 by lia.
    destruct Hnodes as [Hn | Hn]; [ lia | ].
    unfold _enough_nodes in Hn.
    replace (min_nodes <? req_nodes) with false in Hn by (symmetry; apply Z.ltb_ge; lia).
    apply Z.leb_le in Hn. lia.
Qed.

(** Required nodes of the bitmap stay set. *)
Lemma job_test_flat_required (G : globals) (job_ptr : job_record)
    (bitmap rb : bitstr_t) (min_nodes max_nodes req_nodes : Z)
    (Hrb : req_node_bitmap (details_of job_ptr) = Some rb)
    (Hfew : bit_set_count rb <= max_nodes) :
  match job_test_flat G job_ptr bitmap min_nodes max_nodes req_nodes with
  | Some (rc, out, job') =>
      forall i, bit_test rb i = true -> bit_test bitmap i = true ->
                bit_test out i = true
  | None => False
  end.
Proof.
  destruct (job_test_flat_req G job_ptr bitmap _ rb bitmap min_nodes max_nodes
              req_nodes Hrb Hfew eq_refl eq_refl) as ([[rc out] job'] & Heq & H).
  rewrite Heq. exact H.
Qed.

Lemma bit_super_set_spec (b1 b2 : bitstr_t) :
  bit_super_set b1 b2 = true ->
  forall i, bit_test b1 i = true -> bit_test b2 i = true.
Proof.
  intros H i Hi. pose proof (bit_test_range b1 i Hi) as Hr.
  unfold bit_test, zth in *.
  replace (i <? 0) with false in * by (symmetry; apply Z.ltb_ge; lia).
  clear Hr. revert H Hi. generalize (Z.to_nat i) as k. revert b2.
  induction b1 as [ | x r1 IH ]; intros b2 k H Hi.
  - destruct k; discriminate.
  - destruct b2 as [ | y r2 ]; cbn [bit_super_set] in H;
      apply andb_prop in H as [Hx Hr].
    + destruct k as [ | k ]; cbn [nth] in Hi.
      * subst x. discriminate.
      * specialize (IH [] k Hr Hi). destruct k; discriminate.
    + destruct k as [ | k ]; cbn [nth] in *.
      * subst x. exact Hx.
      * now apply IH.
Qed.

(** Without topology [_job_test] either rejects its arguments and
    leaves them as they are, or returns what the flat selector
    returns. *)
Lemma job_test_cases (G : globals) (job_ptr : job_record) (bitmap : bitstr_t)
    (min_nodes max_nodes req_nodes : Z) :
  no_topology G ->
  _job_test G job_ptr bitmap min_nodes max_nodes req_nodes = (EINVAL, bitmap, job_ptr)
  \/ (job_test_flat G job_ptr bitmap min_nodes max_nodes req_nodes
      = Some (_job_test G job_ptr bitmap min_nodes max_nodes req_nodes) /\
      min_nodes <= bit_set_count bitmap /\
      forall rb, req_node_bitmap (details_of job_ptr) = Some rb ->
                 bit_super_set rb bitmap = true).
Proof.
  intros Htopo. unfold _job_test.
  destruct (bit_set_count bitmap <? min_nodes) eqn:Ecnt; [ now left | ].
  apply Z.ltb_ge in Ecnt.
  destruct (match req_node_bitmap (details_of job_ptr) with
            | Some rb => negb (bit_super_set rb bitmap)
            | None => false
            end) eqn:Ereq; [ now left | ].
  assert (Hoff : negb (switch_record_cnt G =? 0)
                 && match switch_record_table G with Some _ => true | None => false end
                 = false).
  { destruct Htopo as [-> | ->]; [ reflexivity | ]. apply andb_false_r. }
  rewrite Hoff.
  pose proof (job_test_flat_within G job_ptr bitmap min_nodes max_nodes req_nodes) as Hf.
  destruct (job_test_flat G job_ptr bitmap min_nodes max_nodes req_nodes) as [r | ];
    [ | contradiction ].
  right. split_conj; [ reflexivity | exact Ecnt | ].
  intros rb Hrb. rewrite Hrb in Ereq. now apply negb_false_iff in Ereq.
Qed.

(** X13: without topology, [_job_test] returns a bitmap of the length
    of the bitmap it was given that holds only nodes which were set in
    it, whatever code it returns; when it rejects the arguments (fewer
    than [min_nodes] nodes set) the bitmap and the job are returned as
    they were. *)
Theorem job_test_picks_available (G : globals) (job_ptr : job_record)
    (bitmap : bitstr_t) (min_nodes max_nodes req_nodes : Z)
    (Htopo : no_topology G) :
  let '(rc, out, job') := _job_test G job_ptr bitmap min_nodes max_nodes req_nodes in
  length out = length bitmap /\
  (forall i, bit_test out i = true -> bit_test bitmap i = true) /\
  (bit_set_count bitmap < min_nodes -> (rc, out, job') = (EINVAL, bitmap, job_ptr)).
Proof.
  assert (Hrej : bit_set_count bitmap < min_nodes ->
                 _job_test G job_ptr bitmap min_nodes max_nodes req_nodes
                 = (EINVAL, bitmap, job_ptr)).
  { intros H. unfold _job_test.
    now replace (bit_set_count bitmap <? min_nodes) with true
      by (symmetry; apply Z.ltb_lt; lia). }
  destruct (job_test_cases G job_ptr bitmap min_nodes max_nodes req_nodes Htopo)
    as [Heq | (Hflat & _)].
  - rewrite Heq. split_conj; auto.
  - pose proof (job_test_flat_within G job_ptr bitmap min_nodes max_nodes req_nodes)
      as Hf.
    rewrite Hflat in Hf.
    destruct (_job_test G job_ptr bitmap min_nodes max_nodes req_nodes)
      as [[rc out] job'].
    destruct Hf as [Hl Hs]. split_conj; auto.
Qed.

(** X14: without topology, given a bitmap no longer than the node table
    and a [max_nodes] that is not negative, success of [_job_test] means
    that at most [max_nodes] nodes are set in the bitmap returned and
    that the job's [total_cpus] is the sum, as an unsigned 32-bit
    number, of the total CPUs of these nodes; on failure the job is
    returned as it was. *)
Theorem job_test_node_limit (G : globals) (job_ptr : job_record)
    (bitmap : bitstr_t) (min_nodes max_nodes req_nodes : Z)
    (Htopo : no_topology G) (Hmax : 0 <= max_nodes)
    (Hlen : Z.of_nat (length bitmap) <= select_node_cnt G) :
  let '(rc, out, job') := _job_test G job_ptr bitmap min_nodes max_nodes req_nodes in
  (rc = SLURM_SUCCESS ->
   bit_set_count out <= max_nodes /\
   total_cpus job' = to_uint32 (node_sum (_get_total_cpus G) out (all_nodes out))) /\
  (rc <> SLURM_SUCCESS -> job' = job_ptr).
Proof.
  destruct (job_test_cases G job_ptr bitmap min_nodes max_nodes req_nodes Htopo)
    as [Heq | (Hflat & _)].
  - rewrite Heq. split; [ discriminate | reflexivity ].
  - pose proof (job_test_flat_limit G job_ptr bitmap min_nodes max_nodes req_nodes
                  Hmax Hlen) as Hf.
    rewrite Hflat in Hf.
    destruct (_job_test G job_ptr bitmap min_nodes max_nodes req_nodes)
      as [[rc out] job'].
    destruct Hf as (H1 & H2 & H3). split; [ | exact H3 ].
    intros Hrc. split; [ exact H1 | now apply H2 ].
Qed.

(** X15: without topology, for a job that is not contiguous, with node
    counts that fit a signed 32-bit number and a bitmap no longer than
    the node table, success of [_job_test] means that the bitmap
    returned has at least [min_nodes] nodes set and that the available
    CPUs of these nodes add up to at least the job's [min_cpus]. *)
Theorem job_test_success_is_enough (G : globals) (job_ptr : job_record)
    (bitmap : bitstr_t) (min_nodes max_nodes req_nodes : Z)
    (Htopo : no_topology G)
    (Hcontig : contiguous (details_of job_ptr) = 0)
    (Hmin : 0 <= min_nodes < 2 ^ 31) (Hreq : 0 <= req_nodes < 2 ^ 31)
    (Hmax : 0 <= max_nodes < 2 ^ 31)
    (Hlen : Z.of_nat (length bitmap) <= select_node_cnt G) :
  let '(rc, out, job') := _job_test G job_ptr bitmap min_nodes max_nodes req_nodes in
  rc = SLURM_SUCCESS ->
  min_nodes <= bit_set_count out /\
  to_int (min_cpus (details_of job_ptr))
  <= node_sum (_get_avail_cpus G job_ptr) out (all_nodes out).
Proof.
  destruct (job_test_cases G job_ptr bitmap min_nodes max_nodes req_nodes Htopo)
    as [Heq | (Hflat & _)].
  - rewrite Heq. discriminate.
  - pose proof (job_test_flat_enough G job_ptr bitmap min_nodes max_nodes req_nodes
                  Hcontig Hmin Hreq Hmax Hlen) as Hf.
    rewrite Hflat in Hf.
    destruct (_job_test G job_ptr bitmap min_nodes max_nodes req_nodes)
      as [[rc out] job'].
    exact Hf.
Qed.

(** X16: without topology, when the job's required nodes are no more
    than [max_nodes], success of [_job_test] means that every required
    node is set in the bitmap returned. *)
Theorem job_test_keeps_required (G : globals) (job_ptr : job_record)
    (bitmap rb : bitstr_t) (min_nodes max_nodes req_nodes : Z)
    (Htopo : no_topology G)
    (Hrb : req_node_bitmap (details_of job_ptr) = Some rb)
    (Hfew : bit_set_count rb <= max_nodes) :
  let '(rc, out, job') := _job_test G job_ptr bitmap min_nodes max_nodes req_nodes in
  rc = SLURM_SUCCESS -> forall i, bit_test rb i = true -> bit_test out i = true.
Proof.
  destruct (job_test_cases G job_ptr bitmap min_nodes max_nodes req_nodes Htopo)
    as [Heq | (Hflat & _ & Hsuper)].
  - rewrite Heq. discriminate.
  - pose proof (job_test_flat_required G job_ptr bitmap rb min_nodes max_nodes
                  req_nodes Hrb Hfew) as Hf.
    rewrite Hflat in Hf.
    destruct (_job_test G job_ptr bitmap min_nodes max_nodes req_nodes)
      as [[rc out] job'].
    intros _ i Hi. apply Hf; [ exact Hi | ].
    now apply (bit_super_set_spec rb bitmap (Hsuper rb Hrb)).
Qed.

End FlatSelectorResults.

(** ** Sharing nodes with a running job: [_find_job_mate] *)

Lemma bit_test_nil (i : Z) : bit_test [] i = false.
Proof.
  unfold bit_test, zth. destruct (i <? 0); [ reflexivity | ].
  now destruct (Z.to_nat i).
Qed.

Lemma bit_test_cons (x : bool) (r : bitstr_t) (i : Z) :
  bit_test (x :: r) i = if i =? 0 then x else bit_test r (i - 1).
Proof.
  unfold bit_test, zth.
  destruct (Z_lt_dec i 0) as [Hneg | Hpos].
  - replace (i <? 0) with true by (symmetry; apply Z.ltb_lt; lia).
    replace (i =? 0) with false by (symmetry; apply Z.eqb_neq; lia).
    now replace (i - 1 <? 0) with true by (symmetry; apply Z.ltb_lt; lia).
  - replace (i <? 0) with false by (symmetry; apply Z.ltb_ge; lia).
    destruct (i =? 0) eqn:E.
    + apply Z.eqb_eq in E. now subst i.
    + apply Z.eqb_neq in E.
      replace (i - 1 <? 0) with false by (symmetry; apply Z.ltb_ge; lia).
      replace (Z.to_nat i) with (S (Z.to_nat (i - 1))) by lia. reflexivity.
Qed.

Lemma bit_test_bit_and (b1 b2 : bitstr_t) (i : Z) :
  bit_test (bit_and b1 b2) i = bit_test b1 i && bit_test b2 i.
Proof.
  revert b2 i. induction b1 as [ | x r1 IH ]; intros b2 i.
  - cbn [bit_and]. now rewrite bit_test_nil.
  - destruct b2 as [ | y r2 ]; cbn [bit_and]; rewrite !bit_test_cons.
    + rewrite IH, !bit_test_nil. now rewrite !andb_false_r, Tauto.if_same.
    + rewrite IH. now destruct (i =? 0).
Qed.

Section JobMate.

Context {SL : Slurm} {CT : Slurmctld}.

Lemma find_job_mate_scan_some (job_ptr : job_record) (bitmap : bitstr_t)
    (req_nodes : Z) (jobs : list job_record) (out : bitstr_t) (cpus' : Z) :
  _find_job_mate_scan job_ptr bitmap req_nodes jobs = Some (out, cpus') ->
  exists mate,
    In mate jobs /\ IS_JOB_RUNNING mate = true /\ node_cnt mate = req_nodes /\
    min_cpus (details_of job_ptr) <= total_cpus mate /\ cpus' = total_cpus mate /\
    bit_super_set (node_bitmap mate) bitmap = true /\
    out = bit_and bitmap (node_bitmap mate) /\
    (forall rb, req_node_bitmap (details_of job_ptr) = Some rb ->
                bit_super_set rb (node_bitmap mate) = true) /\
    (forall eb, exc_node_bitmap (details_of job_ptr) = Some eb ->
                bit_overlap eb (node_bitmap mate) = 0).
Proof.
  induction jobs as [ | j rest IH ]; intros H; [ discriminate | ].
  cbn [_find_job_mate_scan] in H.
  assert (Hrest : _find_job_mate_scan job_ptr bitmap req_nodes rest = Some (out, cpus') ->
                  exists mate,
                    In mate (j :: rest) /\ IS_JOB_RUNNING mate = true /\
                    node_cnt mate = req_nodes /\
                    min_cpus (details_of job_ptr) <= total_cpus mate /\
                    cpus' = total_cpus mate /\
                    bit_super_set (node_bitmap mate) bitmap = true /\
                    out = bit_and bitmap (node_bitmap mate) /\
                    (forall rb, req_node_bitmap (details_of job_ptr) = Some rb ->
                                bit_super_set rb (node_bitmap mate) = true) /\
                    (forall eb, exc_node_bitmap (details_of job_ptr) = Some eb ->
                                bit_overlap eb (node_bitmap mate) = 0)).
  { intros H'. destruct (IH H') as (mate & Hin & Hm). exists mate.
    split; [ now right | exact Hm ]. }
  destruct (negb (IS_JOB_RUNNING j) || negb (node_cnt j =? req_nodes)
            || (total_cpus j <? min_cpus (details_of job_ptr))
            || negb (bit_super_set (node_bitmap j) bitmap)) eqn:E1; [ auto | ].
  apply orb_false_iff in E1 as [E1 Esup]. apply orb_false_iff in E1 as [E1 Ecpus].
  apply orb_false_iff in E1 as [Erun Ecnt].
  match type of H with
  | (if ?c then _ else _) = _ => destruct c; [ auto | ]
  end.
  destruct (match req_node_bitmap (details_of job_ptr) with
            | Some rb => negb (bit_super_set rb (node_bitmap j))
            | None => false
            end) eqn:E3; [ auto | ].
  destruct (match exc_node_bitmap (details_of job_ptr) with
            | Some eb => negb (bit_overlap eb (node_bitmap j) =? 0)
            | None => false
            end) eqn:E4; [ auto | ].
  injection H as <- <-. exists j.
  split_conj; try reflexivity.
  - now left.
  - now apply negb_false_iff in Erun.
  - apply negb_false_iff in Ecnt. now apply Z.eqb_eq in Ecnt.
  - apply Z.ltb_ge in Ecpus. exact Ecpus.
  - now apply negb_false_iff in Esup.
  - intros rb Hrb. rewrite Hrb in E3. now apply negb_false_iff in E3.
  - intros eb Heb. rewrite Heb in E4. apply negb_false_iff in E4.
    now apply Z.eqb_eq in E4.
Qed.

(** X17: [_find_job_mate] either fails with [EINVAL] and leaves the
    bitmap and the job as they were, or succeeds with the nodes of one
    running job of the job list: a job of [req_nodes] nodes, all of them
    set in the bitmap given, with at least the job's [min_cpus] CPUs; the
    bitmap returned holds exactly this job's nodes, which include the
    required nodes, and the job's [total_cpus] is set to the mate's. *)
Theorem find_job_mate_result (jobs : list job_record) (job_ptr : job_record)
    (bitmap : bitstr_t) (min_nodes max_nodes req_nodes : Z) :
  let '(rc, out, job') :=
    _find_job_mate jobs job_ptr bitmap min_nodes max_nodes req_nodes in
  (rc = EINVAL /\ out = bitmap /\ job' = job_ptr) \/
  (rc = SLURM_SUCCESS /\
   exists mate,
     In mate jobs /\ IS_JOB_RUNNING mate = true /\ node_cnt mate = req_nodes /\
     min_cpus (details_of job_ptr) <= total_cpus mate /\
     job' = set_total_cpus job_ptr (total_cpus mate) /\
     length out = length bitmap /\
     (forall i, bit_test out i = bit_test (node_bitmap mate) i) /\
     (forall i, bit_test out i = true -> bit_test bitmap i = true) /\
     (forall rb i, req_node_bitmap (details_of job_ptr) = Some rb ->
                   bit_test rb i = true -> bit_test out i = true)).
Proof.
  unfold _find_job_mate.
  destruct (_find_job_mate_scan job_ptr bitmap req_nodes jobs) as [[out cpus'] | ] eqn:E.
  - right. split; [ reflexivity | ].
    destruct (find_job_mate_scan_some _ _ _ _ _ _ E)
      as (mate & Hin & Hrun & Hcnt & Hcpus & -> & Hsup & -> & Hreq & _).
    assert (Hbits : forall i, bit_test (bit_and bitmap (node_bitmap mate)) i
                              = bit_test (node_bitmap mate) i).
    { intros i. rewrite bit_test_bit_and.
      destruct (bit_test (node_bitmap mate) i) eqn:Em; [ | apply andb_false_r ].
      now rewrite (bit_super_set_spec _ _ Hsup i Em). }
    exists mate. split_conj; auto.
    + clear. revert bitmap. generalize (node_bitmap mate) as b2.
      intros b2 b1. revert b2. induction b1 as [ | x r IH ]; intros [ | y r2 ];
        cbn [bit_and length]; auto.
    + intros i Hi. rewrite bit_test_bit_and in Hi. now apply andb_prop in Hi.
    + intros rb i Hrb Hi. rewrite Hbits.
      now apply (bit_super_set_spec rb _ (Hreq rb Hrb)).
  - left. split_conj; reflexivity.
Qed.

End JobMate.

(** ** [_run_now] and the registry *)

Section RunNow.

Context {SL : Slurm} {CT : Slurmctld}.

Lemma run_now_try_cr_ptr (G : globals) (cr : cr_record) (job_ptr : nat)
    (orig_map : bitstr_t) (min_nodes max_nodes req_nodes max_run_job : Z)
    (st : run_now_state) (sus_jobs : Z) :
  cr_ptr (rn_world (run_now_try G cr job_ptr orig_map min_nodes max_nodes req_nodes
                      max_run_job st sus_jobs))
  = cr_ptr (rn_world st).
Proof.
  unfold run_now_try.
  destruct (errno_eqb (rn_rc st) SLURM_SUCCESS); [ reflexivity | ].
  destruct (_job_count_bitmap G (gres (rn_world st)) cr (job_at (rn_world st) job_ptr)
              orig_map (rn_bitmap st) max_run_job (max_run_job + sus_jobs)
              SELECT_MODE_RUN_NOW) as [j bitmap1].
  destruct ((j =? rn_prev_cnt st) || (j <? min_nodes)); [ reflexivity | ].
  destruct (0 <? max_run_job).
  - destruct (_find_job_mate (job_list (rn_world st)) (job_at (rn_world st) job_ptr)
                bitmap1 min_nodes max_nodes req_nodes) as [[rc b] jr].
    cbn [andb]. destruct (errno_eqb rc SLURM_SUCCESS); [ reflexivity | ].
    pose proof (job_test_at_cr_ptr G (set_job (rn_world st) job_ptr jr) job_ptr b
                  min_nodes max_nodes req_nodes) as H.
    destruct (job_test_at G (set_job (rn_world st) job_ptr jr) job_ptr b min_nodes
                max_nodes req_nodes) as [[rc2 b3] w2].
    exact H.
  - cbn [andb].
    pose proof (job_test_at_cr_ptr G (rn_world st) job_ptr bitmap1 min_nodes max_nodes
                  req_nodes) as H.
    destruct (job_test_at G (rn_world st) job_ptr bitmap1 min_nodes max_nodes
                req_nodes) as [[rc2 b3] w2].
    exact H.
Qed.

Lemma run_now_share_cr_ptr (G : globals) (cr : cr_record) (job_ptr : nat)
    (orig_map : bitstr_t) (min_nodes max_nodes req_nodes max_share : Z)
    (l : list Z) (st : run_now_state) :
  cr_ptr (rn_world
            (fold_left (run_now_share G cr job_ptr orig_map min_nodes max_nodes
                          req_nodes max_share) l st))
  = cr_ptr (rn_world st).
Proof.
  revert st. induction l as [ | a l IH ]; intros st; [ reflexivity | ].
  cbn [fold_left]. rewrite IH. unfold run_now_share.
  destruct (errno_eqb (rn_rc st) SLURM_SUCCESS); [ reflexivity | ].
  destruct (a =? max_share - 1); cbn [fold_left];
    now rewrite !run_now_try_cr_ptr.
Qed.

Lemma run_now_preempt_cr_ptr (G : globals) (job_ptr : nat) (orig_map : bitstr_t)
    (min_nodes max_nodes req_nodes max_share : Z) (cands : option (list nat))
    (jobs : list nat) (st : preempt_state) :
  cr_ptr (ps_world (run_now_preempt G job_ptr orig_map min_nodes max_nodes req_nodes
                      max_share cands jobs st))
  = cr_ptr (ps_world st).
Proof.
  revert st. induction jobs as [ | k rest IH ]; intros st; [ reflexivity | ].
  cbn [run_now_preempt].
  destruct (negb (IS_JOB_RUNNING (job_at (ps_world st) k))
            && negb (IS_JOB_SUSPENDED (job_at (ps_world st) k))); [ apply IH | ].
  destruct (_is_preemptable k cands); [ | apply IH ].
  pose proof (rm_job_at_cr_ptr G (ps_exp_cr st) (ps_world st) k
                (preempt_remove_all (job_at (ps_world st) k))) as Hrm.
  destruct (rm_job_at G (ps_exp_cr st) (ps_world st) k
              (preempt_remove_all (job_at (ps_world st) k))) as [exp_cr w1].
  cbn [snd] in Hrm.
  destruct (_job_count_bitmap G (gres w1) exp_cr (job_at w1 job_ptr) orig_map
              (ps_bitmap st) (max_share - 1) NO_SHARE_LIMIT SELECT_MODE_RUN_NOW)
    as [j bitmap1].
  destruct (j <? min_nodes); [ rewrite IH; exact Hrm | ].
  pose proof (job_test_at_cr_ptr G w1 job_ptr bitmap1 min_nodes max_nodes req_nodes)
    as Hjt.
  destruct (job_test_at G w1 job_ptr bitmap1 min_nodes max_nodes req_nodes)
    as [[rc bitmap2] w2].
  cbn [snd] in Hjt.
  destruct (errno_eqb rc SLURM_SUCCESS); [ cbn [ps_world]; congruence | ].
  rewrite IH. cbn [ps_world]. congruence.
Qed.

(** [_run_now] returns with the value of [cr_ptr] it was called with;
    called with a [max_share] that is not positive and without
    preemption candidates it returns [EINVAL] and leaves the bitmap and
    the whole state as they were. *)
Lemma run_now_pure (G : globals) (w : world) (job_ptr : nat)
    (bitmap : bitstr_t) (min_nodes max_nodes max_share req_nodes : Z)
    (cands : option (list nat)) (out : preemptee_out) :
  registry_unchanged w
    (_run_now G w job_ptr bitmap min_nodes max_nodes max_share req_nodes cands out) /\
  (max_share <= 0 -> cands = None -> cr_ptr w <> None ->
   _run_now G w job_ptr bitmap min_nodes max_nodes max_share req_nodes cands out
   = Returns (EINVAL, bitmap, out) w).
Proof.
  split.
  - unfold _run_now, registry_unchanged.
    destruct (cr_ptr w) as [cr | ] eqn:Hcr; [ | reflexivity ].
    pose proof (run_now_share_cr_ptr G cr job_ptr (bit_copy bitmap) min_nodes max_nodes
                  req_nodes max_share (index_range 0 (max_share - 1))
                  (mk_rn EINVAL (-1) bitmap w)) as Hsh.
    cbn [rn_world] in Hsh.
    remember (fold_left
                (run_now_share G cr job_ptr (bit_copy bitmap) min_nodes max_nodes
                   req_nodes max_share)
                (index_range 0 (max_share - 1)) (mk_rn EINVAL (-1) bitmap w)) as st.
    assert (Hplain :
              cr_ptr (if errno_eqb (rn_rc st) SLURM_SUCCESS
                      then set_job (rn_world st) job_ptr
                             (_build_select_struct G (job_at (rn_world st) job_ptr)
                                (rn_bitmap st))
                      else rn_world st) = Some cr).
    { destruct (errno_eqb (rn_rc st) SLURM_SUCCESS); cbn [set_job cr_ptr]; congruence. }
    destruct cands as [l | ]; [ | exact Hplain ].
    destruct (errno_eqb (rn_rc st) SLURM_SUCCESS) eqn:Erc; cbn [negb];
      [ rewrite Erc; exact Hplain | ].
    destruct (_dup_cr G cr (gres (rn_world st))) as [exp_cr h].
    pose proof (run_now_preempt_cr_ptr G job_ptr (bit_copy bitmap) min_nodes max_nodes
                  req_nodes max_share (Some l) (job_pointers (rn_world st))
                  (mk_ps (rn_rc st) (rn_bitmap st) exp_cr (set_gres (rn_world st) h)))
      as Hps.
    cbn [ps_world set_gres cr_ptr] in Hps.
    match goal with
    | |- context [errno_eqb (ps_rc ?p) SLURM_SUCCESS] =>
        destruct (errno_eqb (ps_rc p) SLURM_SUCCESS)
    end; cbn [set_job set_gres cr_ptr]; congruence.
  - intros Hshare -> Hcr. unfold _run_now.
    destruct (cr_ptr w) as [cr | ]; [ | congruence ].
    rewrite index_range_empty by lia. reflexivity.
Qed.

End RunNow.

(** ** The [job_resrcs] that [_build_select_struct] builds *)

Lemma cpu_array_add_pairs (rle : list (Z * Z)) (v : Z) :
  Forall (fun vn => 1 <= snd vn) rle ->
  rle_pairs (cpu_array_add rle v) = rle_pairs rle ++ [v] /\
  Forall (fun vn => 1 <= snd vn) (cpu_array_add rle v).
Proof.
  induction rle as [ | x r IH ]; intros Hpos.
  - cbn. split; [ reflexivity | constructor; [ cbn; lia | constructor ] ].
  - inversion Hpos as [ | ? ? Hx Hr ]; subst.
    destruct r as [ | y r' ].
    + destruct x as [v0 n]. cbn [cpu_array_add snd] in *.
      destruct (v0 =? v) eqn:E.
      * apply Z.eqb_eq in E. subst v0. split.
        -- unfold rle_pairs. cbn [flat_map fst snd]. rewrite !app_nil_r.
           replace (Z.to_nat (n + 1)) with (S (Z.to_nat n)) by lia.
           cbn [repeat]. apply repeat_cons.
        -- constructor; [ cbn; lia | constructor ].
      * split.
        -- unfold rle_pairs. cbn [flat_map fst snd Z.to_nat].
           change (Pos.to_nat 1) with 1%nat. cbn [repeat].
           now rewrite !app_nil_r.
        -- constructor; [ exact Hx | constructor; [ cbn; lia | constructor ] ].
    + destruct (IH Hr) as [IH1 IH2]. destruct x as [v0 n].
      change (cpu_array_add ((v0, n) :: y :: r') v)
        with ((v0, n) :: cpu_array_add (y :: r') v).
      split.
      * unfold rle_pairs in *. cbn [flat_map]. rewrite IH1.
        cbn [flat_map]. now rewrite !app_assoc.
      * constructor; assumption.
Qed.

Lemma cpu_array_add_head (x : Z * Z) (r : list (Z * Z)) (v : Z) :
  exists n r', cpu_array_add (x :: r) v = (fst x, n) :: r'.
Proof.
  destruct r as [ | y r' ].
  - destruct x as [v0 n]. cbn [cpu_array_add fst].
    destruct (v0 =? v); eexists _, _; reflexivity.
  - destruct x as [v0 n].
    change (cpu_array_add ((v0, n) :: y :: r') v)
      with ((v0, n) :: cpu_array_add (y :: r') v).
    eexists _, _; reflexivity.
Qed.

Lemma cpu_array_add_tight (rle : list (Z * Z)) (v : Z) :
  rle_tight rle -> rle_tight (cpu_array_add rle v).
Proof.
  induction 1 as [ | x | x y r Hne Ht IH ].
  - constructor.
  - destruct x as [v0 n]. cbn [cpu_array_add].
    destruct (v0 =? v) eqn:E; [ constructor | ].
    apply Z.eqb_neq in E. constructor; [ exact E | constructor ].
  - destruct x as [v0 n0].
    change (cpu_array_add ((v0, n0) :: y :: r) v)
      with ((v0, n0) :: cpu_array_add (y :: r) v).
    destruct (cpu_array_add_head y r v) as (n & r' & Heq).
    rewrite Heq in *. constructor; [ exact Hne | exact IH ].
Qed.

Lemma rle_pairs_length (rle : list (Z * Z)) :
  Forall (fun vn => 1 <= snd vn) rle -> (length rle <= length (rle_pairs rle))%nat.
Proof.
  induction 1 as [ | x r Hx Hr IH ]; [ reflexivity | ].
  unfold rle_pairs in *. cbn [flat_map length]. rewrite length_app, repeat_length. lia.
Qed.

Lemma rle_tight_nth (rle : list (Z * Z)) (k : nat) :
  rle_tight rle -> (S k < length rle)%nat ->
  nth k (map fst rle) 0 <> nth (S k) (map fst rle) 0.
Proof.
  intros Ht. revert k. induction Ht as [ | x | x y r Hne Ht IH ]; intros k Hk;
    cbn [length] in Hk; try lia.
  destruct k as [ | k ]; [ exact Hne | ].
  cbn [map nth] in *. apply IH. cbn [length]. lia.
Qed.

Lemma combine_pad (a b : list Z) (n : nat) :
  length a = length b ->
  rle_expand (pad a n) (pad b n) = rle_expand a b.
Proof.
  intros Hlen. unfold rle_expand, pad. rewrite <- Hlen.
  generalize (n - length a)%nat as k. intros k.
  revert b Hlen. induction a as [ | x r IH ]; intros [ | y r2 ] Hlen;
    try discriminate.
  - cbn [app combine]. induction k as [ | k IHk ]; [ reflexivity | ].
    cbn [repeat combine]. unfold rle_pairs in *. cbn [flat_map fst snd]. exact IHk.
  - cbn [app combine]. unfold rle_pairs in *. cbn [flat_map]. f_equal.
    apply IH. now injection Hlen.
Qed.

Lemma combine_fst_snd {A B : Type} (l : list (A * B)) :
  combine (map fst l) (map snd l) = l.
Proof.
  induction l as [ | [a b] r IH ]; [ reflexivity | ]. cbn. now rewrite IH.
Qed.

Lemma nth_pad (l : list Z) (n k : nat) : nth k (pad l n) 0 = nth k l 0.
Proof.
  unfold pad. destruct (Nat.lt_ge_cases k (length l)) as [Hlt | Hge].
  - now apply app_nth1.
  - rewrite app_nth2 by exact Hge. rewrite (nth_overflow l) by exact Hge.
    destruct (Nat.lt_ge_cases (k - length l) (n - length l)) as [H1 | H2].
    + now rewrite nth_repeat_lt.
    + apply nth_overflow. now rewrite repeat_length.
Qed.

Section BuildSelectStruct.

Context {SL : Slurm} {CT : Slurmctld}.

(** The loop of [_build_select_struct] over the nodes. *)
Lemma build_select_fold (G : globals) (bitmap : bitstr_t) (jmc jmn : Z) (l : list Z)
    (cpus' mem' : list Z) (rle : list (Z * Z)) :
  fold_left
    (fun (st : list Z * list Z * list (Z * Z)) (i : Z) =>
       let '(cpus', mem', rle) := st in
       if negb (bit_test bitmap i) then st
       else
         let node_cpus := _get_total_cpus G i in
         (cpus' ++ [node_cpus],
          mem' ++ [if negb (jmn =? 0) then jmn
                   else if negb (jmc =? 0)
                   then to_uint32 (jmc * node_cpus) else 0],
          cpu_array_add rle node_cpus))
    l (cpus', mem', rle)
  = (cpus' ++ map (_get_total_cpus G) (filter (bit_test bitmap) l),
     mem' ++ map (fun i => if negb (jmn =? 0) then jmn
                           else if negb (jmc =? 0)
                           then to_uint32 (jmc * _get_total_cpus G i) else 0)
               (filter (bit_test bitmap) l),
     fold_left cpu_array_add (map (_get_total_cpus G) (filter (bit_test bitmap) l)) rle).
Proof.
  revert cpus' mem' rle. induction l as [ | a l IH ]; intros cpus' mem' rle.
  - cbn. now rewrite !app_nil_r.
  - cbn [fold_left filter].
    destruct (bit_test bitmap a); cbn [negb].
    + rewrite IH. cbn [map fold_left]. now rewrite <- !app_assoc.
    + apply IH.
Qed.

Lemma fold_cpu_array_add (vs : list Z) (rle : list (Z * Z)) :
  Forall (fun vn => 1 <= snd vn) rle -> rle_tight rle ->
  rle_pairs (fold_left cpu_array_add vs rle) = rle_pairs rle ++ vs /\
  Forall (fun vn => 1 <= snd vn) (fold_left cpu_array_add vs rle) /\
  rle_tight (fold_left cpu_array_add vs rle).
Proof.
  revert rle. induction vs as [ | v vs IH ]; intros rle Hpos Ht.
  - cbn. now rewrite app_nil_r.
  - cbn [fold_left]. destruct (cpu_array_add_pairs rle v Hpos) as [H1 H2].
    destruct (IH _ H2 (cpu_array_add_tight rle v Ht)) as (IH1 & IH2 & IH3).
    rewrite IH1, H1, <- app_assoc. auto.
Qed.

(** X19: [_build_select_struct] gives the job a [job_resrcs] for the
    bitmap: [nhosts] is the number of nodes set, [cpus] lists the total
    CPUs of the nodes set, in the order of their indices, and
    [cpu_array_value] with [cpu_array_reps] is its run-length encoding:
    expanded it gives [cpus], its first [cpu_array_cnt] entries carry
    values that differ from one entry to the next, and [cpu_array_cnt]
    is at most [nhosts]. *)
Theorem build_select_struct_cpu_array (G : globals) (job_ptr : job_record)
    (bitmap : bitstr_t) :
  exists r,
    job_resrcs (_build_select_struct G job_ptr bitmap) = Some r /\
    res_node_bitmap r = Some bitmap /\
    nhosts r = bit_set_count bitmap /\
    ncpus r = total_cpus job_ptr /\
    res_cpus r = map (_get_total_cpus G) (filter (bit_test bitmap) (all_nodes bitmap)) /\
    Z.of_nat (length (res_cpus r)) = nhosts r /\
    Z.of_nat (length (memory_allocated r)) = nhosts r /\
    rle_expand (cpu_array_value r) (cpu_array_reps r) = res_cpus r /\
    0 <= cpu_array_cnt r <= nhosts r /\
    (forall k, Z.of_nat (S k) < cpu_array_cnt r ->
               nth k (cpu_array_value r) 0 <> nth (S k) (cpu_array_value r) 0).
Proof.
  unfold _build_select_struct.
  destruct (job_memory_request G (Some (details_of job_ptr))) as [jmc jmn].
  rewrite build_select_fold. cbn [app].
  set (first_bit := bit_ffs bitmap).
  set (last_bit := if bit_fls bitmap =? -1 then -2 else bit_fls bitmap).
  assert (Hsel : filter (bit_test bitmap) (index_range first_bit last_bit)
                 = filter (bit_test bitmap) (all_nodes bitmap)).
  { unfold all_nodes. symmetry.
    pose proof (bit_fls_bound bitmap) as Hfls.
    pose proof (bit_ffs_lower bitmap) as Hffs. fold first_bit in Hffs.
    destruct (bit_fls bitmap =? -1) eqn:E.
    - apply Z.eqb_eq in E.
      assert (Hnone : forall i, bit_test bitmap i = false).
      { intros i. destruct (bit_test bitmap i) eqn:Ei; [ | reflexivity ].
        pose proof (bit_test_between bitmap i Ei). lia. }
      rewrite !filter_none; auto.
    - apply Z.eqb_neq in E. subst last_bit.
      destruct Hffs as [Hm | Hp].
      + assert (Hnone : forall i, bit_test bitmap i = false).
        { intros i. destruct (bit_test bitmap i) eqn:Ei; [ | reflexivity ].
          pose proof (bit_test_between bitmap i Ei). unfold first_bit in Hm. lia. }
        rewrite !filter_none; auto.
      + apply filter_index_range_support; try lia.
        intros i Hi. pose proof (bit_test_between bitmap i Hi).
        unfold first_bit. lia. }
  rewrite Hsel.
  set (sel := filter (bit_test bitmap) (all_nodes bitmap)).
  destruct (fold_cpu_array_add (map (_get_total_cpus G) sel) []
              (Forall_nil _) rle_tight_nil) as (Hexp & Hpos & Htight).
  cbn [app rle_pairs flat_map] in Hexp.
  set (rle := fold_left cpu_array_add (map (_get_total_cpus G) sel) []) in *.
  assert (Hcount : bit_set_count bitmap = Z.of_nat (length sel)).
  { unfold sel. now rewrite bit_set_count_range. }
  assert (Hrle : (length rle <= length sel)%nat).
  { pose proof (rle_pairs_length rle Hpos) as H. rewrite Hexp, length_map in H. exact H. }
  eexists. split; [ reflexivity | ].
  cbn [res_node_bitmap nhosts ncpus res_cpus memory_allocated cpu_array_value
       cpu_array_reps cpu_array_cnt].
  rewrite !length_map.
  split_conj; try reflexivity; try lia.
  - rewrite combine_pad by now rewrite !length_map.
    unfold rle_expand. now rewrite combine_fst_snd.
  - intros k Hk. rewrite !nth_pad. apply rle_tight_nth; [ exact Htight | lia ].
Qed.

End BuildSelectStruct.

(** ** Reservations *)

Lemma bit_set_count_bit_set (b : bitstr_t) (a : Z) :
  0 <= a < Z.of_nat (length b) -> bit_test b a = false ->
  bit_set_count (bit_set b a) = bit_set_count b + 1.
Proof.
  intros Ha Hclear. rewrite !bit_set_count_node_sum.
  assert (Hall : all_nodes (bit_set b a) = all_nodes b)
    by (unfold all_nodes, bit_set; now rewrite length_zset).
  rewrite Hall. apply node_sum_bit_set; auto.
  - apply NoDup_index_range.
  - apply in_index_range. lia.
Qed.

Lemma bit_set_count_repeat_false (n : nat) : bit_set_count (repeat false n) = 0.
Proof.
  unfold bit_set_count. induction n as [ | n IH ]; [ reflexivity | exact IH ].
Qed.

Lemma bit_test_repeat_false (n : nat) (i : Z) : bit_test (repeat false n) i = false.
Proof.
  unfold bit_test, zth. destruct (i <? 0); [ reflexivity | ].
  generalize (Z.to_nat i) as k. induction n as [ | n IH ]; intros [ | k ]; cbn; auto.
Qed.

Lemma open_switches_zset (cnts : list Z) (i : Z) :
  zth cnts i 0 <> 0 -> Nat.lt (open_switches (zset cnts i 0)) (open_switches cnts).
Proof.
  unfold open_switches, zth, zset. destruct (i <? 0); [ congruence | ].
  generalize (Z.to_nat i) as k. induction cnts as [ | c r IH ]; intros k Hk.
  - destruct k; contradiction.
  - destruct k as [ | k ]; cbn [nth list_set filter] in *.
    + apply Z.eqb_neq in Hk. rewrite Hk. cbn [negb Z.eqb length]. lia.
    + specialize (IH k Hk). destruct (negb (c =? 0)); cbn [length]; lia.
Qed.

Section ReservationProofs.

Context {SL : Slurm} {BS : Bitstring}.

Variables (nbits : nat) (A : bitstr_t) (rem0 : Z).

Hypothesis A_fits : (length A <= nbits)%nat.

(** The loop over the nodes of a leaf. *)
Lemma resv_take_inv (idxs : list Z) (st : resv_state) :
  resv_inv nbits A rem0 (rv_avail st) (rv_rem st) -> 0 < rv_rem st ->
  bits_within A (rv_switch st) ->
  resv_inv nbits A rem0 (rv_avail (resv_take idxs st)) (rv_rem (resv_take idxs st)) /\
  bits_within A (rv_switch (resv_take idxs st)).
Proof.
  revert st. induction idxs as [ | i rest IH ]; intros st Hinv Hrem Hsw.
  - cbn [resv_take]. auto.
  - cbn [resv_take].
    destruct (bit_test (rv_switch st) i) eqn:Ei; cbn [negb]; [ | now apply IH ].
    assert (Hsw' : bits_within A (bit_clear (rv_switch st) i)).
    { intros j Hj. rewrite bit_test_bit_clear in Hj.
      destruct (i =? j); [ discriminate | now apply Hsw ]. }
    destruct (bit_test (rv_avail st) i) eqn:Ea; [ now apply IH | ].
    cbn [rv_rem].
    destruct Hinv as (Hlen & Hsub & Hcnt & Hpos).
    pose proof (bit_test_range A i (Hsw i Ei)) as Hri.
    assert (Hinv' : resv_inv nbits A rem0 (bit_set (rv_avail st) i) (rv_rem st - 1)).
    { unfold resv_inv. split_conj.
      - unfold bit_set. now rewrite length_zset.
      - intros j Hj. rewrite bit_test_bit_set in Hj.
        destruct ((i =? j) && (0 <=? i) && (i <? Z.of_nat (length (rv_avail st))))
          eqn:E; [ | now apply Hsub ].
        apply andb_prop in E as [E _]. apply andb_prop in E as [E _].
        apply Z.eqb_eq in E. subst j. now apply Hsw.
      - rewrite bit_set_count_bit_set by (try assumption; lia). lia.
      - lia. }
    destruct (rv_rem st - 1 <=? 0) eqn:Estop.
    + cbn [rv_avail rv_rem rv_switch]. auto.
    + apply IH; cbn [rv_avail rv_rem rv_switch]; auto.
      apply Z.leb_gt in Estop. lia.
Qed.

(** The scan of the leaves finds no leaf or a leaf with nodes. *)
Lemma resv_leaf_scan_picks (cnts : list Z) (rem : Z) (l : list Z) (bf : leaf_fit) :
  lf_nodes bf = 0 \/ zth cnts (lf_location bf) 0 <> 0 ->
  let bf' := fold_left (resv_leaf_scan cnts rem) l bf in
  lf_nodes bf' = 0 \/ zth cnts (lf_location bf') 0 <> 0.
Proof.
  revert bf. induction l as [ | j l IH ]; intros bf H; [ exact H | ].
  cbn [fold_left]. apply IH. unfold resv_leaf_scan.
  destruct (zth cnts j 0 =? 0) eqn:Ez; [ exact H | ].
  apply Z.eqb_neq in Ez.
  match goal with
  | |- context [if ?c then mk_leaf _ _ _ else bf] => destruct c; [ | exact H ]
  end.
  right. exact Ez.
Qed.

(** The loop over the leaves keeps the invariant and ends within one
    turn more than there are leaves with nodes. *)
Lemma resv_loop_inv (cnt : Z) (fuel : nat) :
  forall (bitmaps : list bitstr_t) (cnts : list Z) (avail : bitstr_t)
         (rem location : Z),
    (open_switches cnts < fuel)%nat ->
    Forall (bits_within A) bitmaps ->
    resv_inv nbits A rem0 avail rem ->
    exists avail' rem',
      resv_loop fuel cnt bitmaps cnts avail rem location = Some (avail', rem') /\
      resv_inv nbits A rem0 avail' rem'.
Proof.
  induction fuel as [ | fuel IH ]; intros bitmaps cnts avail rem location Hfuel Hbm Hinv;
    [ lia | ].
  cbn [resv_loop].
  destruct (0 <? rem) eqn:Erem; cbn [negb]; [ | now eexists _, _ ].
  apply Z.ltb_lt in Erem.
  pose proof (resv_leaf_scan_picks cnts rem (index_range 0 (cnt - 1))
                (mk_leaf 0 location false) (or_introl eq_refl)) as Hp.
  cbv zeta in Hp.
  remember (fold_left (resv_leaf_scan cnts rem) (index_range 0 (cnt - 1))
              (mk_leaf 0 location false)) as bf eqn:Ebf.
  destruct (lf_nodes bf =? 0) eqn:En; [ now eexists _, _ | ].
  apply Z.eqb_neq in En. destruct Hp as [Hp | Hp]; [ contradiction | ].
  assert (Hsw : bits_within A (zth bitmaps (lf_location bf) [])).
  { unfold zth. destruct (lf_location bf <? 0).
    - intros i Hi. now rewrite bit_test_nil in Hi.
    - destruct (nth_in_or_default (Z.to_nat (lf_location bf)) bitmaps []) as [Hin | ->].
      + rewrite Forall_forall in Hbm. now apply Hbm.
      + intros i Hi. now rewrite bit_test_nil in Hi. }
  match goal with
  | |- context [resv_take ?idxs ?st0] =>
      destruct (resv_take_inv idxs st0 Hinv Erem Hsw) as [Hinv' Hsw'];
      remember (resv_take idxs st0) as st eqn:Est
  end.
  apply IH.
  - pose proof (open_switches_zset cnts (lf_location bf) Hp). lia.
  - now apply Forall_zset.
  - exact Hinv'.
Qed.

End ReservationProofs.

Section ReservationResults.

Context {SL : Slurm} {BS : Bitstring}.

Lemma switches_within (table : list switch_record) (avail_bitmap : bitstr_t)
    (l : list Z) :
  Forall (bits_within avail_bitmap)
    (map (fun i => bit_and (bit_copy (switch_node_bitmap (zth table i zero_switch)))
                     avail_bitmap) l).
Proof.
  apply Forall_forall. intros b Hb. apply in_map_iff in Hb as (i & <- & _).
  intros j Hj. rewrite bit_test_bit_and in Hj. now apply andb_prop in Hj.
Qed.

(** The loop over the leaves ends within one turn more than there are
    leaves with nodes. *)
Lemma resv_loop_returns (cnt : Z) (fuel : nat) :
  forall (bitmaps : list bitstr_t) (cnts : list Z) (avail : bitstr_t)
         (rem location : Z),
    (open_switches cnts < fuel)%nat ->
    resv_loop fuel cnt bitmaps cnts avail rem location <> None.
Proof.
  induction fuel as [ | fuel IH ]; intros bitmaps cnts avail rem location Hfuel;
    [ lia | ].
  cbn [resv_loop].
  destruct (0 <? rem); cbn [negb]; [ | discriminate ].
  pose proof (resv_leaf_scan_picks cnts rem (index_range 0 (cnt - 1))
                (mk_leaf 0 location false) (or_introl eq_refl)) as Hp.
  cbv zeta in Hp.
  remember (fold_left (resv_leaf_scan cnts rem) (index_range 0 (cnt - 1))
              (mk_leaf 0 location false)) as bf eqn:Ebf.
  destruct (lf_nodes bf =? 0) eqn:En; [ discriminate | ].
  apply Z.eqb_neq in En. destruct Hp as [Hp | Hp]; [ contradiction | ].
  apply IH.
  pose proof (open_switches_zset cnts (lf_location bf) Hp). lia.
Qed.

(** The topology path always returns. *)
Lemma resv_test_topo_total (G : globals) (table : list switch_record)
    (avail_bitmap : bitstr_t) (node_cnt : Z) :
  resv_test_topo G table avail_bitmap node_cnt <> None.
Proof.
  unfold resv_test_topo.
  destruct (bit_set_count avail_bitmap <? node_cnt); [ discriminate | ].
  match goal with
  | |- context [if ?c then Some None else _] => destruct c; [ discriminate | ]
  end.
  match goal with
  | |- context [resv_loop (S (length ?leafs)) ?cnt ?bms ?leafs ?av ?rem 0] =>
      pose proof (resv_loop_returns cnt (S (length leafs)) bms leafs av rem 0) as H;
      destruct (resv_loop (S (length leafs)) cnt bms leafs av rem 0) as [[a r] | ]
  end.
  - discriminate.
  - exfalso. apply H; [ | reflexivity ]. unfold open_switches.
    match goal with
    | |- (length (filter ?f ?l) < _)%nat => pose proof (filter_length_le f l)
    end. lia.
Qed.

(** What the topology path returns for a node count that fits. *)
Lemma resv_test_topo_returns (G : globals) (table : list switch_record)
    (avail_bitmap : bitstr_t) (node_cnt : Z) :
  0 <= node_cnt < 2 ^ 31 ->
  Z.of_nat (length avail_bitmap) <= node_record_count G ->
  exists r,
    resv_test_topo G table avail_bitmap node_cnt = Some r /\
    match r with
    | Some out =>
        Z.of_nat (length out) = node_record_count G /\
        bit_set_count out = node_cnt /\
        forall i, bit_test out i = true -> bit_test avail_bitmap i = true
    | None => True
    end.
Proof.
  intros Hcnt Hlen. unfold resv_test_topo.
  destruct (bit_set_count avail_bitmap <? node_cnt); [ now eexists | ].
  rewrite to_int_small by lia.
  match goal with
  | |- context [if ?c then Some None else _] => destruct c; [ now eexists | ]
  end.
  match goal with
  | |- context [resv_loop (S (length ?leafs)) ?cnt ?bms ?leafs ?av ?rem 0] =>
      destruct (resv_loop_inv (Z.to_nat (node_record_count G)) avail_bitmap node_cnt
                  ltac:(lia) cnt (S (length leafs)) bms leafs av rem 0)
        as (avail' & rem' & Heq & Hinv)
  end.
  - unfold open_switches.
    match goal with
    | |- (length (filter ?f ?l) < _)%nat => pose proof (filter_length_le f l)
    end. lia.
  - apply switches_within.
  - unfold resv_inv, bit_alloc. rewrite repeat_length, bit_set_count_repeat_false.
    split_conj; try lia; try reflexivity.
    intros i Hi. now rewrite bit_test_repeat_false in Hi.
  - rewrite Heq. eexists. split; [ reflexivity | ].
    destruct Hinv as (Hl & Hsub & Hsum & Hpos).
    destruct (0 <? rem') eqn:E; [ exact I | ].
    apply Z.ltb_ge in E. split_conj; [ lia | lia | exact Hsub ].
Qed.

(** X20: with a switch table, given a bitmap no longer than the node
    table and a node count that fits a signed 32-bit number,
    [select_p_resv_test] returns NULL or a bitmap of
    [node_record_count] bits in which exactly [node_cnt] nodes are set,
    all of them nodes of the bitmap given; it returns NULL when fewer
    than [node_cnt] nodes are on offer. *)
Theorem resv_test_picks_node_cnt (G : globals) (table : list switch_record)
    (avail_bitmap : bitstr_t) (node_cnt : Z)
    (Htable : switch_record_table G = Some table)
    (Hswitches : switch_record_cnt G <> 0)
    (Hcnt : 0 <= node_cnt < 2 ^ 31)
    (Hlen : Z.of_nat (length avail_bitmap) <= node_record_count G) :
  match select_p_resv_test G avail_bitmap node_cnt with
  | Some out =>
      Z.of_nat (length out) = node_record_count G /\
      bit_set_count out = node_cnt /\
      (forall i, bit_test out i = true -> bit_test avail_bitmap i = true)
  | None => True
  end /\
  (bit_set_count avail_bitmap < node_cnt ->
   select_p_resv_test G avail_bitmap node_cnt = None).
Proof.
  unfold select_p_resv_test. rewrite Htable.
  apply Z.eqb_neq in Hswitches. rewrite Hswitches.
  destruct (resv_test_topo_returns G table avail_bitmap node_cnt Hcnt Hlen)
    as (r & Heq & Hr).
  rewrite Heq. split; [ exact Hr | ].
  intros Hfew. unfold resv_test_topo in Heq.
  replace (bit_set_count avail_bitmap <? node_cnt) with true in Heq
    by (symmetry; apply Z.ltb_lt; lia).
  now injection Heq as <-.
Qed.

End ReservationResults.

(** ** Suspend followed by resume *)

Section SuspendResume.

Context {SL : Slurm}.

Lemma walked_compose (ps : list part_cr_record) (p : option nat)
    (f g : part_cr_record -> part_cr_record) :
  (forall x, cr_part_ptr (f x) = cr_part_ptr x) ->
  walked (walked ps p f) p g = walked ps p (fun x => g (f x)).
Proof.
  intros Hf. unfold walked.
  induction ps as [ | x r IH ]; cbn [update_part]; [ reflexivity | ].
  destruct (match p with Some q => Nat.eqb (cr_part_ptr x) q | None => false end)
    eqn:Ex.
  - cbn [update_part]. rewrite Hf, Ex. reflexivity.
  - destruct (update_part r p f) as [r1 | ] eqn:E1; cbn [option_map].
    + cbn [update_part]. rewrite Ex.
      destruct (update_part r1 p g) as [r2 | ] eqn:E2;
        destruct (update_part r p (fun x => g (f x))) as [r3 | ] eqn:E3;
        cbn [option_map]; congruence.
    + cbn [update_part]. rewrite Ex.
      destruct (update_part r p g) as [r2 | ] eqn:E2;
        destruct (update_part r p (fun x => g (f x))) as [r3 | ] eqn:E3;
        cbn [option_map]; congruence.
Qed.

Lemma walked_ext (ps : list part_cr_record) (p : option nat)
    (f g : part_cr_record -> part_cr_record) :
  (forall x, f x = g x) -> walked ps p f = walked ps p g.
Proof.
  intros Hfg. unfold walked.
  induction ps as [ | x r IH ]; cbn [update_part]; [ reflexivity | ].
  destruct (match p with Some q => Nat.eqb (cr_part_ptr x) q | None => false end).
  - now rewrite Hfg.
  - destruct (update_part r p f), (update_part r p g); cbn [option_map]; congruence.
Qed.

(** X21: a job with [job_resrcs] whose id, not 0, is in the total
    array is suspended and then resumed ([_rm_job_from_nodes] without
    [remove_all], then [_add_job_to_nodes] without [alloc_all]).
    Afterwards its id is in the total array but not in the run array,
    every other id is where it was, and on each node of the job the
    record of the job's partition has its [tot_job_cnt] raised by one
    and, when the job was running, its [run_job_cnt] lowered by one
    (unless it was 0): the pair does not give back the counters it
    found. *)
Theorem suspend_resume_counts (G : globals) (cr : cr_record) (job_ptr : job_record)
    (h : gres_heap)
    (Hr : job_resrcs job_ptr <> None)
    (Hid : job_id job_ptr <> 0)
    (Htot : _test_tot_job cr (job_id job_ptr) = true) :
  let '(_, cr1, job1, h1) := _rm_job_from_nodes G cr job_ptr false h in
  let '(_, cr2, _, _) := _add_job_to_nodes G cr1 job1 false h1 in
  _test_tot_job cr2 (job_id job_ptr) = true /\
  _test_run_job cr2 (job_id job_ptr) = false /\
  (forall x, x <> job_id job_ptr ->
             (in_run_set cr2 x <-> in_run_set cr x) /\
             (in_tot_set cr2 x <-> in_tot_set cr x)) /\
  length (nodes cr2) = length (nodes cr) /\
  (forall j, 0 <= j < Z.of_nat (length (nodes cr)) ->
             job_touches job_ptr j = true ->
     parts (zth (nodes cr2) j zero_node_cr)
     = walked (parts (zth (nodes cr) j zero_node_cr)) (part_ptr job_ptr)
         (fun p =>
            mk_part_cr (cr_part_ptr p)
              (if _test_run_job cr (job_id job_ptr) && (0 <? run_job_cnt p)
               then run_job_cnt p - 1 else run_job_cnt p)
              (cnt_incr (tot_job_cnt p)))).
Proof.
  destruct (job_resrcs job_ptr) as [r | ] eqn:Er; [ clear Hr | congruence ].
  rewrite test_tot_job_existsb in Htot.
  pose proof (rm_job_from_nodes_effect G cr job_ptr r false h Er Htot) as H1.
  destruct (_rm_job_from_nodes G cr job_ptr false h) as [[[rc1 cr1] job1] h1].
  destruct H1 as (Hrun1 & Htot1 & Hlen1 & Hz1 & Hjob1).
  assert (Hsame : job_resrcs job1 = Some r /\ job_id job1 = job_id job_ptr
                  /\ part_ptr job1 = part_ptr job_ptr
                  /\ forall j, job_touches job1 j = job_touches job_ptr j).
  { destruct Hjob1 as [-> | ->]; split_conj; auto;
      unfold job_touches; cbn; try rewrite Er; reflexivity. }
  destruct Hsame as (Er1 & Hid1 & Hp1 & Ht1).
  pose proof (add_job_to_nodes_effect G cr1 job1 r false h1 Er1) as H2.
  destruct (_add_job_to_nodes G cr1 job1 false h1) as [[[rc2 cr2] job2] h2].
  destruct H2 as (Hrun2 & Htot2 & Hlen2 & Hz2 & _).
  rewrite Hid1 in Htot2.
  assert (Hroom : ids_room (tot_job_ids cr1)).
  { rewrite Htot1. apply clear_present_room. now apply existsb_eqb_In. }
  rewrite test_tot_job_existsb, !test_run_job_existsb.
  split_conj.
  - rewrite Htot2. apply existsb_eqb_In. now apply add_job_id_holds.
  - rewrite Hrun2, Hrun1, existsb_clear by exact Hid.
    now rewrite Z.eqb_refl.
  - intros x Hx. unfold in_run_set, in_tot_set.
    fold (live (run_job_ids cr2) x). fold (live (run_job_ids cr) x).
    fold (live (tot_job_ids cr2) x). fold (live (tot_job_ids cr) x).
    rewrite Hrun2, Hrun1, Htot2, live_add by exact Hroom.
    rewrite Htot1, !live_clear. tauto.
  - congruence.
  - intros j Hj Htouch.
    rewrite (Hz2 j) by (rewrite Hlen1; exact Hj).
    rewrite Ht1, Htouch, (Hz1 j Hj), Htouch.
    unfold add_node_cr, rm_node_cr. cbn [parts]. rewrite Hp1.
    fold (walked (parts (zth (nodes cr) j zero_node_cr)) (part_ptr job_ptr)
            (rm_part_counts (existsb (Z.eqb (job_id job_ptr)) (run_job_ids cr)) false)).
    match goal with
    | |- match update_part ?ps ?p ?g with Some a => a | None => ?ps end = _ =>
        fold (walked ps p g)
    end.
    rewrite walked_compose by (intros x; reflexivity).
    apply walked_ext. intros p. unfold add_part_counts, rm_part_counts.
    cbn [cr_part_ptr run_job_cnt tot_job_cnt].
    destruct (existsb (Z.eqb (job_id job_ptr)) (run_job_ids cr)); cbn [negb andb];
      [ | reflexivity ].
    destruct (0 <? run_job_cnt p); reflexivity.
Qed.

End SuspendResume.

(** ** Release of one node *)

Section OneNodeProofs.

Context {SL : Slurm} {JR : JobResources}.

(** X22: [_rm_job_from_one_node] never changes the two job-id arrays,
    the length of the node array or the record of a node other than
    the one it is given, and it changes nothing in the job record but
    [job_resrcs]. *)
Theorem rm_job_from_one_node_frame (G : globals) (cr : cr_record)
    (job_ptr : job_record) (node_inx : Z) (h : gres_heap) :
  let '(_, cr1, job1, _) := _rm_job_from_one_node G cr job_ptr node_inx h in
  run_job_ids cr1 = run_job_ids cr /\
  tot_job_ids cr1 = tot_job_ids cr /\
  length (nodes cr1) = length (nodes cr) /\
  (forall j, j <> node_inx ->
             zth (nodes cr1) j zero_node_cr = zth (nodes cr) j zero_node_cr) /\
  set_job_resrcs job1 (job_resrcs job_ptr) = job_ptr.
Proof.
  assert (Heta : set_job_resrcs job_ptr (job_resrcs job_ptr) = job_ptr)
    by (destruct job_ptr; reflexivity).
  unfold _rm_job_from_one_node.
  destruct (negb (_test_tot_job cr (job_id job_ptr))); [ split_conj; auto | ].
  destruct (job_memory_request G (details job_ptr)) as [jmc jmn].
  destruct (job_resrcs job_ptr) as [r | ] eqn:Er; [ | split_conj; auto ].
  destruct (negb (bit_test (resrcs_bitmap r) node_inx)); [ split_conj; auto | ].
  destruct (one_node_offset r node_inx) as [i node_offset].
  destruct (zth (res_cpus r) node_offset 0 =? 0); [ split_conj; auto | ].
  destruct (update_part _ _ _); cbn [nodes run_job_ids tot_job_ids];
    split_conj; try reflexivity; try apply length_zset;
    try (intros j Hj; apply zth_zset_other; congruence);
    try (rewrite <- Er; destruct job_ptr; reflexivity).
Qed.

(** X23: when [build_job_resources_cpu_array] keeps the node bitmap and
    the array [cpus] of the record it is given, a second
    [_rm_job_from_one_node] for the same node, on what the first call
    left, returns [SLURM_ERROR] and changes nothing: a job gives a node
    back at most once. *)
Theorem rm_job_from_one_node_once (G : globals) (cr : cr_record)
    (job_ptr : job_record) (node_inx : Z) (h : gres_heap)
    (Hbuild : forall r,
        res_node_bitmap (build_job_resources_cpu_array r) = res_node_bitmap r /\
        res_cpus (build_job_resources_cpu_array r) = res_cpus r) :
  let '(_, cr1, job1, h1) := _rm_job_from_one_node G cr job_ptr node_inx h in
  _rm_job_from_one_node G cr1 job1 node_inx h1 = (SLURM_ERROR, cr1, job1, h1).
Proof.
  unfold _rm_job_from_one_node at 1.
  destruct (negb (_test_tot_job cr (job_id job_ptr))) eqn:Et.
  { unfold _rm_job_from_one_node. now rewrite Et. }
  destruct (job_memory_request G (details job_ptr)) as [jmc jmn] eqn:Em.
  destruct (job_resrcs job_ptr) as [r | ] eqn:Er.
  2: { unfold _rm_job_from_one_node. now rewrite Et, Em, Er. }
  destruct (negb (bit_test (resrcs_bitmap r) node_inx)) eqn:Eb.
  { unfold _rm_job_from_one_node. now rewrite Et, Em, Er, Eb. }
  destruct (one_node_offset r node_inx) as [i node_offset] eqn:Eo.
  destruct (zth (res_cpus r) node_offset 0 =? 0) eqn:Ec.
  { unfold _rm_job_from_one_node. now rewrite Et, Em, Er, Eb, Eo, Ec. }
  set (r' := build_job_resources_cpu_array
               (set_res_cpus r (zset (res_cpus r) node_offset 0))).
  destruct (Hbuild (set_res_cpus r (zset (res_cpus r) node_offset 0))) as [Hb Hc].
  fold r' in Hb, Hc. cbn [set_res_cpus res_node_bitmap res_cpus] in Hb, Hc.
  assert (Hbm : resrcs_bitmap r' = resrcs_bitmap r)
    by (unfold resrcs_bitmap; now rewrite Hb).
  assert (Ho : one_node_offset r' node_inx = (i, node_offset))
    by (unfold one_node_offset in *; now rewrite Hbm).
  assert (Hz : (zth (res_cpus r') node_offset 0 =? 0) = true).
  { rewrite Hc. apply Z.eqb_eq.
    destruct (Z_lt_dec node_offset 0) as [Hneg | Hpos].
    - unfold zth. now replace (node_offset <? 0) with true
        by (symmetry; apply Z.ltb_lt; lia).
    - destruct (Z_lt_dec node_offset (Z.of_nat (length (res_cpus r)))) as [Hin | Hout].
      + apply zth_zset_same. lia.
      + rewrite zth_zset_outside by lia. unfold zth.
        destruct (node_offset <? 0); [ reflexivity | ].
        apply nth_overflow. lia. }
  rewrite test_tot_job_existsb in Et.
  destruct (update_part _ _ _);
    unfold _rm_job_from_one_node;
    rewrite test_tot_job_existsb;
    cbn [set_job_resrcs job_id details job_resrcs tot_job_ids];
    rewrite Et, Em, Hbm, Eb, Ho, Hz; reflexivity.
Qed.

End OneNodeProofs.


(** ** The topology-aware selector *)

Lemma ffs_from_set (b : bitstr_t) (k : Z) :
  ffs_from b k = -1 \/
  (k <= ffs_from b k /\ nth (Z.to_nat (ffs_from b k - k)) b false = true).
Proof.
  revert k. induction b as [ | x r IH ]; intros k; cbn [ffs_from]; [ now left | ].
  destruct x.
  - right. split; [ lia | ]. now replace (k - k) with 0 by lia.
  - destruct (IH (k + 1)) as [H | [Hle Hn]]; [ now left | right ].
    split; [ lia | ].
    replace (Z.to_nat (ffs_from r (k + 1) - k))
      with (S (Z.to_nat (ffs_from r (k + 1) - (k + 1)))) by lia.
    exact Hn.
Qed.

Lemma bit_ffs_set (b : bitstr_t) :
  bit_ffs b <> -1 -> bit_test b (bit_ffs b) = true.
Proof.
  intros H. unfold bit_ffs in *. destruct (ffs_from_set b 0) as [E | [Hle Hn]];
    [ contradiction | ].
  unfold bit_test, zth.
  replace (ffs_from b 0 <? 0) with false by (symmetry; apply Z.ltb_ge; lia).
  now rewrite Z.sub_0_r in Hn.
Qed.

Lemma bit_set_count_nonneg (b : bitstr_t) : 0 <= bit_set_count b.
Proof. unfold bit_set_count. lia. Qed.

Lemma bit_set_count_le_length (b : bitstr_t) : bit_set_count b <= Z.of_nat (length b).
Proof.
  unfold bit_set_count. pose proof (filter_length_le (fun x : bool => x) b). lia.
Qed.

Lemma bit_set_count_bit_clear (b : bitstr_t) (i : Z) :
  bit_test b i = true -> bit_set_count (bit_clear b i) + 1 = bit_set_count b.
Proof.
  intros Hi. pose proof (bit_test_range b i Hi) as Hr.
  assert (Hb : b = bit_set (bit_clear b i) i).
  { apply (list_eq_zth _ _ false).
    - unfold bit_set, bit_clear. now rewrite !length_zset.
    - intros j Hj. fold (bit_test b j). fold (bit_test (bit_set (bit_clear b i) i) j).
      rewrite bit_test_bit_set, bit_test_bit_clear.
      unfold bit_clear. rewrite length_zset.
      destruct (i =? j) eqn:E; cbn [andb]; [ | reflexivity ].
      apply Z.eqb_eq in E. subst j.
      replace (0 <=? i) with true by (symmetry; apply Z.leb_le; lia).
      replace (i <? Z.of_nat (length b)) with true by (symmetry; apply Z.ltb_lt; lia).
      exact Hi. }
  rewrite Hb at 2. rewrite bit_set_count_bit_set; [ reflexivity | | ].
  - unfold bit_clear. now rewrite length_zset.
  - rewrite bit_test_bit_clear. now rewrite Z.eqb_refl.
Qed.

Lemma bits_within_bit_clear (B b : bitstr_t) (i : Z) :
  bits_within B b -> bits_within B (bit_clear b i).
Proof.
  intros H j Hj. rewrite bit_test_bit_clear in Hj.
  destruct (i =? j); [ discriminate | now apply H ].
Qed.

Lemma bits_within_zth (B : bitstr_t) (bitmaps : list bitstr_t) (j : Z) :
  Forall (bits_within B) bitmaps -> bits_within B (zth bitmaps j []).
Proof.
  intros H. unfold zth. destruct (j <? 0).
  - intros i Hi. now rewrite bit_test_nil in Hi.
  - destruct (nth_in_or_default (Z.to_nat j) bitmaps []) as [Hin | ->].
    + rewrite Forall_forall in H. now apply H.
    + intros i Hi. now rewrite bit_test_nil in Hi.
Qed.

Lemma zset_twice {A : Type} (l : list A) (i : Z) (x y : A) :
  zset (zset l i x) i y = zset l i y.
Proof.
  unfold zset. destruct (i <? 0); [ reflexivity | apply list_set_twice ].
Qed.

Lemma bit_test_bit_or (b1 b2 : bitstr_t) (i : Z) :
  bit_test (bit_or b1 b2) i = true -> bit_test b1 i = true \/ bit_test b2 i = true.
Proof.
  unfold bit_test, zth. destruct (i <? 0); [ discriminate | ].
  generalize (Z.to_nat i) as k. revert b2.
  induction b1 as [ | x r1 IH ]; intros b2 k H; [ destruct k; discriminate | ].
  destruct b2 as [ | y r2 ]; cbn [bit_or] in H.
  - destruct k as [ | k ]; cbn [nth] in *; [ now left | ].
    destruct (IH [] k H) as [H1 | H1]; [ now left | destruct k; discriminate ].
  - destruct k as [ | k ]; cbn [nth] in *.
    + apply orb_prop in H. tauto.
    + now apply IH.
Qed.

Lemma length_bit_or (b1 b2 : bitstr_t) : length (bit_or b1 b2) = length b1.
Proof.
  revert b2. induction b1 as [ | x r1 IH ]; intros b2; [ reflexivity | ].
  destruct b2; cbn [bit_or length]; now rewrite IH.
Qed.

Lemma bit_test_fold_bit_or (B : bitstr_t) (l : list bitstr_t) (a : bitstr_t) :
  Forall (bits_within B) l -> bits_within B a -> bits_within B (fold_left bit_or l a).
Proof.
  revert a. induction l as [ | b l IH ]; intros a Hl Ha; [ exact Ha | ].
  inversion Hl as [ | ? ? Hb Hl' ]; subst. cbn [fold_left]. apply IH; [ exact Hl' | ].
  intros i Hi. destruct (bit_test_bit_or a b i Hi); auto.
Qed.

Lemma bit_nclear_spec (b : bitstr_t) (start stop : Z) :
  length (bit_nclear b start stop) = length b /\
  forall i, bit_test (bit_nclear b start stop) i
            = if (start <=? i) && (i <=? stop) then false else bit_test b i.
Proof.
  unfold bit_nclear.
  assert (H : forall l b,
             length (fold_left bit_clear l b) = length b /\
             forall i, bit_test (fold_left bit_clear l b) i
                       = if existsb (Z.eqb i) l then false else bit_test b i).
  { induction l as [ | a l IH ]; intros b0; [ split; reflexivity | ].
    cbn [fold_left existsb]. destruct (IH (bit_clear b0 a)) as [Hl Ht].
    split; [ rewrite Hl; apply length_zset | ].
    intros i. rewrite Ht, bit_test_bit_clear, (Z.eqb_sym i a).
    destruct (a =? i); cbn [orb]; [ now destruct (existsb _ l) | reflexivity ]. }
  destruct (H (index_range start stop) b) as [Hl Ht]. split; [ exact Hl | ].
  intros i. rewrite Ht.
  destruct (existsb (Z.eqb i) (index_range start stop)) eqn:E.
  - apply existsb_eqb_In, in_index_range in E.
    replace (start <=? i) with true by (symmetry; apply Z.leb_le; lia).
    replace (i <=? stop) with true by (symmetry; apply Z.leb_le; lia).
    reflexivity.
  - destruct ((start <=? i) && (i <=? stop)) eqn:E2; [ | reflexivity ].
    apply andb_prop in E2 as [E3 E4]. apply Z.leb_le in E3, E4.
    assert (Hin : In i (index_range start stop)) by (apply in_index_range; lia).
    apply existsb_eqb_In in Hin. congruence.
Qed.

Section TopologyProofs.

Context {SL : Slurm}.

Variables (G : globals) (job_ptr : job_record) (B : bitstr_t) (c0 : sel_start).

(** A node of the bitmap given is taken. *)
Lemma take_node_inv (s : sel_state) (i : Z) :
  topo_sel_inv G job_ptr B c0 s -> bit_test B i = true ->
  (Z.of_nat (length B) <= node_record_count G -> bit_test (sel_bitmap s) i = false) ->
  0 < sel_max_nodes s ->
  topo_sel_inv G job_ptr B c0 (count_node G job_ptr s (bit_set (sel_bitmap s) i) i).
Proof.
  intros [[Hlen Hsub] Hc] Ha Ea Hmax.
  pose proof (bit_test_range B i Ha) as Hra.
  unfold topo_sel_inv, sel_within, sel_counts, count_node.
  cbn [sel_bitmap sel_max_nodes sel_total_cpus sel_rem_nodes sel_rem_cpus
       sel_alloc_cpus].
  split_conj.
  - unfold bit_set. now rewrite length_zset.
  - intros k Hk. rewrite bit_test_bit_set in Hk.
    destruct ((i =? k) && (0 <=? i) && (i <? Z.of_nat (length (sel_bitmap s)))) eqn:E.
    + apply andb_prop in E as [E _]. apply andb_prop in E as [E _].
      apply Z.eqb_eq in E. now subst k.
    + now apply Hsub.
  - intros Hl. destruct (Hc Hl) as (Hc1 & Hc2 & Hc3 & Hc4 & Hc5 & Hc6).
    specialize (Ea Hl).
    assert (Hina : In i (all_nodes B)) by (apply in_index_range; lia).
    rewrite !(node_sum_bit_set _ (sel_bitmap s) (all_nodes B) i)
      by (try apply NoDup_index_range; try assumption; rewrite Hlen; exact Hra).
    split_conj; lia.
Qed.

Lemma bit_set_keeps (b : bitstr_t) (i k : Z) :
  bit_test b k = true -> bit_test (bit_set b i) k = true.
Proof.
  intros H. rewrite bit_test_bit_set, H. now destruct (_ && _).
Qed.

(** The same for the whole state. *)
Lemma take_node_state (R : Z -> Prop) (t : topo_state) (i : Z)
    (avail : bitstr_t) (bitmaps : list bitstr_t) (cnts cpus' : list Z) :
  topo_inv G job_ptr B c0 R t -> bit_test B i = true ->
  (Z.of_nat (length B) <= node_record_count G ->
   bit_test (sel_bitmap (tp_sel t)) i = false) ->
  0 < sel_max_nodes (tp_sel t) ->
  Forall (bits_within B) bitmaps ->
  topo_inv G job_ptr B c0 R
    (mk_topo (count_node G job_ptr (tp_sel t) (bit_set (sel_bitmap (tp_sel t)) i) i)
       avail bitmaps cnts cpus').
Proof.
  intros (Hs & Hb & HR) Hi Hclear Hmax Hbm. unfold topo_inv. cbn [tp_sel tp_bitmaps].
  split_conj.
  - now apply take_node_inv.
  - exact Hbm.
  - intros k Hk. unfold count_node. cbn [sel_bitmap]. apply bit_set_keeps. now apply HR.
Qed.

Lemma topo_drop_node_within (cnt i : Z) (bitmaps : list bitstr_t) (cnts : list Z) :
  Forall (bits_within B) bitmaps ->
  Forall (bits_within B) (fst (topo_drop_node cnt i bitmaps cnts)).
Proof.
  unfold topo_drop_node. generalize (index_range 0 (cnt - 1)) as l.
  intros l. revert bitmaps cnts.
  induction l as [ | j l IH ]; intros bitmaps cnts H; [ exact H | ].
  cbn [fold_left fst snd].
  destruct (negb (bit_test (zth bitmaps j []) i)); [ now apply IH | ].
  apply IH. apply Forall_zset; [ exact H | ].
  apply bits_within_bit_clear. now apply bits_within_zth.
Qed.

(** The loop over the required nodes. *)
Lemma topo_required_inv (cnt : Z) (rb : bitstr_t) (idxs : list Z) :
  NoDup idxs ->
  (forall k, bit_test rb k = true -> bit_test B k = true) ->
  forall (R : Z -> Prop) (t : topo_state),
    (Z.of_nat (length B) <= node_record_count G ->
     forall k, In k idxs -> bit_test (sel_bitmap (tp_sel t)) k = false) ->
    topo_inv G job_ptr B c0 R t ->
    match topo_required G job_ptr cnt rb idxs t with
    | Goes_on t' => topo_inv G job_ptr B c0 (fun i => R i \/ (In i idxs /\ bit_test rb i = true)) t'
    | Leaves rc t' => rc = EINVAL /\ topo_inv G job_ptr B c0 R t'
    end.
Proof.
  intros Hnd Hrb. induction idxs as [ | a idxs IH ]; intros R t Hclear Hinv.
  - cbn [topo_required]. destruct Hinv as (Hs & Hb & HR). unfold topo_inv.
    split_conj; auto. intros i [Hi | [[] _]]. now apply HR.
  - inversion Hnd as [ | ? ? Ha Hnd' ]; subst. cbn [topo_required].
    destruct (bit_test rb a) eqn:Ea; cbn [negb].
    + destruct (sel_max_nodes (tp_sel t) <=? 0) eqn:Em; [ now split | ].
      apply Z.leb_gt in Em.
      pose proof (topo_drop_node_within cnt a (tp_bitmaps t) (tp_node_cnt t)) as Hd.
      destruct (topo_drop_node cnt a (tp_bitmaps t) (tp_node_cnt t)) as [bitmaps cnts].
      cbn [fst] in Hd.
      assert (Hclear_a : Z.of_nat (length B) <= node_record_count G ->
                         bit_test (sel_bitmap (tp_sel t)) a = false)
        by (intros Hl; apply Hclear; [ exact Hl | now left ]).
      pose proof (take_node_state R t a (bit_clear (tp_avail t) a) bitmaps cnts
                    (tp_cpu_cnt t) Hinv (Hrb a Ea) Hclear_a Em
                    (Hd (proj1 (proj2 Hinv)))) as Hnext.
      match goal with
      | |- context [topo_required G job_ptr cnt rb idxs ?t1] => set (t' := t1) in *
      end.
      specialize (IH Hnd' (fun i => R i \/ i = a) t').
      assert (Hc' : Z.of_nat (length B) <= node_record_count G ->
                    forall k, In k idxs -> bit_test (sel_bitmap (tp_sel t')) k = false).
      { intros Hl k Hk. unfold t', count_node. cbn [tp_sel sel_bitmap].
        rewrite bit_test_bit_set.
        replace (a =? k) with false
          by (symmetry; apply Z.eqb_neq; intros ->; contradiction).
        cbn [andb]. apply Hclear; [ exact Hl | now right ]. }
      assert (Hi' : topo_inv G job_ptr B c0 (fun i => R i \/ i = a) t').
      { destruct Hnext as (Hs & Hb & HR). unfold topo_inv. split_conj; auto.
        intros i [Hi | ->]; [ now apply HR | ].
        unfold t', count_node. cbn [tp_sel sel_bitmap]. rewrite bit_test_bit_set.
        rewrite Z.eqb_refl. pose proof (bit_test_range B a (Hrb a Ea)) as Hr.
        destruct Hinv as ([[Hl _] _] & _). rewrite Hl.
        replace (0 <=? a) with true by (symmetry; apply Z.leb_le; lia).
        replace (a <? Z.of_nat (length B)) with true by (symmetry; apply Z.ltb_lt; lia).
        reflexivity. }
      specialize (IH Hc' Hi').
      destruct (topo_required G job_ptr cnt rb idxs t') as [t'' | rc t''].
      * destruct IH as (Hs & Hb & HR). unfold topo_inv. split_conj; auto.
        intros i [Hi | [[<- | Hi] Hri]]; apply HR; auto.
      * destruct IH as [-> (Hs & Hb & HR)]. split; [ reflexivity | ].
        unfold topo_inv. split_conj; auto.
    + specialize (IH Hnd' R t (fun Hl k Hk => Hclear Hl k (or_intror Hk)) Hinv).
      destruct (topo_required G job_ptr cnt rb idxs t) as [t'' | rc t''].
      * destruct IH as (Hs & Hb & HR). unfold topo_inv. split_conj; auto.
        intros i [Hi | [[<- | Hi] Hri]]; [ apply HR; auto | congruence | apply HR; auto ].
      * exact IH.
Qed.

(** The loop that takes the nodes of a leaf with required nodes. *)
Lemma topo_leaf_fill_inv (R : Z -> Prop) (j : Z) (fuel : nat) :
  forall t t', topo_inv G job_ptr B c0 R t -> topo_leaf_fill fuel G job_ptr j t = Some t' ->
               topo_inv G job_ptr B c0 R t'.
Proof.
  induction fuel as [ | fuel IH ]; intros t t' Hinv Hr; [ discriminate | ].
  cbn [topo_leaf_fill] in Hr.
  destruct (topo_wants_more (tp_sel t)) eqn:Ew; cbn [negb] in Hr;
    [ | now injection Hr as <- ].
  destruct (bit_ffs (zth (tp_bitmaps t) j []) =? -1) eqn:Ef; [ now injection Hr as <- | ].
  apply Z.eqb_neq in Ef.
  pose proof (bit_ffs_set _ Ef) as Hset.
  destruct Hinv as (Hs & Hb & HR).
  assert (Hbm : Forall (bits_within B)
                  (zset (tp_bitmaps t) j
                     (bit_clear (zth (tp_bitmaps t) j [])
                        (bit_ffs (zth (tp_bitmaps t) j []))))).
  { apply Forall_zset; [ exact Hb | ].
    apply bits_within_bit_clear. now apply bits_within_zth. }
  destruct (bit_test (sel_bitmap (tp_sel t)) (bit_ffs (zth (tp_bitmaps t) j [])))
    eqn:Et.
  - revert Hr. apply IH. unfold topo_inv. split_conj; auto.
  - revert Hr. apply IH. apply take_node_state; auto.
    + unfold topo_inv. split_conj; auto.
    + now apply (bits_within_zth B _ j Hb).
    + unfold topo_wants_more in Ew. apply andb_prop in Ew as [Ew _].
      now apply Z.ltb_lt in Ew.
Qed.

Lemma zth_outside_nil (bitmaps : list bitstr_t) (j : Z) :
  ~ 0 <= j < Z.of_nat (length bitmaps) -> zth bitmaps j [] = [].
Proof.
  intros H. unfold zth. destruct (j <? 0) eqn:E; [ reflexivity | ].
  apply Z.ltb_ge in E. apply nth_overflow. lia.
Qed.

Lemma topo_leaf_fill_returns (j : Z) (fuel : nat) :
  forall t, (Z.to_nat (bit_set_count (zth (tp_bitmaps t) j [])) < fuel)%nat ->
            topo_leaf_fill fuel G job_ptr j t <> None.
Proof.
  induction fuel as [ | fuel IH ]; intros t Hfuel; [ lia | ].
  cbn [topo_leaf_fill].
  destruct (topo_wants_more (tp_sel t)); cbn [negb]; [ | discriminate ].
  destruct (bit_ffs (zth (tp_bitmaps t) j []) =? -1) eqn:Ef; [ discriminate | ].
  apply Z.eqb_neq in Ef.
  pose proof (bit_ffs_set _ Ef) as Hset.
  pose proof (bit_set_count_bit_clear _ _ Hset) as Hcnt.
  pose proof (bit_set_count_nonneg
                (bit_clear (zth (tp_bitmaps t) j []) (bit_ffs (zth (tp_bitmaps t) j []))))
    as Hpos.
  assert (Hj : 0 <= j < Z.of_nat (length (tp_bitmaps t))).
  { destruct (Z_le_dec 0 j) as [H0 | H0];
      [ destruct (Z_lt_dec j (Z.of_nat (length (tp_bitmaps t)))) as [H1 | H1];
        [ lia | ] | ];
      rewrite zth_outside_nil in Ef by lia; now contradiction Ef. }
  destruct (bit_test (sel_bitmap (tp_sel t)) (bit_ffs (zth (tp_bitmaps t) j [])));
    apply IH; cbn [tp_bitmaps]; rewrite zth_zset_same by exact Hj; lia.
Qed.

(** The loop over the leaves with required nodes. *)
Lemma topo_leafs_fill_inv (R : Z -> Prop) (table : list switch_record)
    (required : list bool) (cnt : Z) (t : topo_state) :
  topo_inv G job_ptr B c0 R t ->
  exists t', topo_leafs_fill G job_ptr table required cnt t = Some t' /\ topo_inv G job_ptr B c0 R t'.
Proof.
  unfold topo_leafs_fill. generalize (index_range 0 (cnt - 1)) as l.
  intros l. revert t. induction l as [ | j l IH ]; intros t Hinv;
    [ now exists t | ].
  cbn [fold_left].
  destruct (negb (level (zth table j zero_switch) =? 0)
            || (zth (tp_node_cnt t) j 0 =? 0) || negb (zth required j false));
    [ now apply IH | ].
  pose proof (topo_leaf_fill_returns j (S (length (zth (tp_bitmaps t) j []))) t) as Hret.
  destruct (topo_leaf_fill (S (length (zth (tp_bitmaps t) j []))) G job_ptr j t)
    as [t1 | ] eqn:E1.
  - apply IH. exact (topo_leaf_fill_inv R j _ t t1 Hinv E1).
  - exfalso. apply Hret; [ | reflexivity ].
    pose proof (bit_set_count_le_length (zth (tp_bitmaps t) j [])).
    pose proof (bit_set_count_nonneg (zth (tp_bitmaps t) j [])). lia.
Qed.

Lemma topo_update_node_within (avail : bitstr_t) (l : list Z) :
  forall st, bits_within B (fst (fst st)) ->
             bits_within B
               (fst (fst (fold_left (topo_update_node G job_ptr avail) l st))).
Proof.
  induction l as [ | i l IH ]; intros st H; [ exact H | ].
  cbn [fold_left]. apply IH. destruct st as [[sw n] c]. unfold topo_update_node.
  cbn [fst] in *.
  destruct (negb (bit_test sw i)); [ exact H | ].
  destruct (negb (bit_test avail i)); cbn [fst]; [ | exact H ].
  now apply bits_within_bit_clear.
Qed.

(** The loop that updates the switches. *)
Lemma topo_update_inv (R : Z -> Prop) (cnt : Z) (t : topo_state) :
  topo_inv G job_ptr B c0 R t -> topo_inv G job_ptr B c0 R (topo_update G job_ptr cnt t).
Proof.
  unfold topo_update. generalize (index_range 0 (cnt - 1)) as l.
  intros l. revert t. induction l as [ | j l IH ]; intros t Hinv; [ exact Hinv | ].
  cbn [fold_left]. apply IH.
  destruct (zth (tp_node_cnt t) j 0 =? 0); [ exact Hinv | ].
  destruct (bit_ffs (zth (tp_bitmaps t) j []) <? 0); [ exact Hinv | ].
  destruct Hinv as (Hs & Hb & HR).
  match goal with
  | |- context [fold_left ?f ?idxs ?st0] =>
      pose proof (topo_update_node_within (tp_avail t) idxs st0
                    (bits_within_zth B _ j Hb)) as Hw;
      destruct (fold_left f idxs st0) as [[sw' n] c]
  end.
  cbn [fst] in Hw. unfold topo_inv. cbn [tp_sel tp_bitmaps]. split_conj; auto.
  now apply Forall_zset.
Qed.

(** The loop that sums the CPUs of the switches. *)
Lemma topo_cpu_counts_inv (R : Z -> Prop) (cnt : Z) (t : topo_state) :
  topo_inv G job_ptr B c0 R t -> topo_inv G job_ptr B c0 R (topo_cpu_counts G job_ptr cnt t).
Proof.
  unfold topo_cpu_counts. generalize (index_range 0 (cnt - 1)) as l.
  intros l. revert t. induction l as [ | j l IH ]; intros t Hinv; [ exact Hinv | ].
  cbn [fold_left]. apply IH.
  destruct (bit_ffs (zth (tp_bitmaps t) j []) <? 0); exact Hinv.
Qed.

(** The loop that takes the nodes of the chosen leaf. *)
Lemma topo_take_inv (R : Z -> Prop) (location : Z) (idxs : list Z) :
  forall t, topo_inv G job_ptr B c0 R t -> 0 < sel_max_nodes (tp_sel t) ->
            topo_inv G job_ptr B c0 R (topo_take G job_ptr location idxs t).
Proof.
  induction idxs as [ | i idxs IH ]; intros t Hinv Hmax; [ exact Hinv | ].
  cbn [topo_take].
  destruct (bit_test (zth (tp_bitmaps t) location []) i) eqn:Ei; cbn [negb];
    [ | now apply IH ].
  destruct Hinv as (Hs & Hb & HR).
  assert (Hbm : Forall (bits_within B)
                  (zset (tp_bitmaps t) location
                     (bit_clear (zth (tp_bitmaps t) location []) i))).
  { apply Forall_zset; [ exact Hb | ].
    apply bits_within_bit_clear. now apply bits_within_zth. }
  destruct (bit_test (sel_bitmap (tp_sel t)) i) eqn:Et.
  - apply IH; [ | exact Hmax ]. unfold topo_inv. split_conj; auto.
  - match goal with
    | |- topo_inv G job_ptr B c0 R (if ?c then ?t1 else _) =>
        assert (Ht1 : topo_inv G job_ptr B c0 R t1);
        [ | destruct c eqn:Ec; [ exact Ht1 | apply IH; [ exact Ht1 | ] ] ]
    end.
    + apply take_node_state; auto.
      * unfold topo_inv. split_conj; auto.
      * now apply (bits_within_zth B _ location Hb).
    + apply orb_false_iff in Ec as [Ec _]. cbn [tp_sel]. now apply Z.leb_gt in Ec.
Qed.

Lemma topo_take_node_cnt (location : Z) (idxs : list Z) :
  forall t, zset (tp_node_cnt (topo_take G job_ptr location idxs t)) location 0
            = zset (tp_node_cnt t) location 0.
Proof.
  induction idxs as [ | i idxs IH ]; intros t; [ reflexivity | ].
  cbn [topo_take].
  destruct (negb (bit_test (zth (tp_bitmaps t) location []) i)); [ apply IH | ].
  destruct (bit_test (sel_bitmap (tp_sel t)) i).
  - rewrite IH. cbn [tp_node_cnt]. apply zset_twice.
  - match goal with
    | |- context [if ?c then _ else _] => destruct c
    end.
    + cbn [tp_node_cnt]. apply zset_twice.
    + rewrite IH. cbn [tp_node_cnt]. apply zset_twice.
Qed.

Lemma topo_leaf_scan_picks (t : topo_state) (min_nodes req_nodes : Z) (l : list Z)
    (bf : topo_fit) :
  tf_nodes bf = 0 \/ zth (tp_node_cnt t) (tf_location bf) 0 <> 0 ->
  let bf' := fold_left (topo_leaf_scan t min_nodes req_nodes) l bf in
  tf_nodes bf' = 0 \/ zth (tp_node_cnt t) (tf_location bf') 0 <> 0.
Proof.
  revert bf. induction l as [ | j l IH ]; intros bf H; [ exact H | ].
  cbn [fold_left]. apply IH. unfold topo_leaf_scan.
  destruct (zth (tp_node_cnt t) j 0 =? 0) eqn:Ez; [ exact H | ].
  apply Z.eqb_neq in Ez.
  match goal with
  | |- context [if ?c then mk_tfit _ _ _ _ else bf] => destruct c; [ | exact H ]
  end.
  right. exact Ez.
Qed.

(** The loop over the leaves of the chosen switch ends within one turn
    more than there are leaves with nodes, and keeps the invariant. *)
Lemma topo_loop_inv (R : Z -> Prop) (min_nodes req_nodes cnt : Z) (fuel : nat) :
  forall (t : topo_state) (location : Z),
    (open_switches (tp_node_cnt t) < fuel)%nat ->
    topo_inv G job_ptr B c0 R t ->
    exists t', topo_loop fuel G job_ptr min_nodes req_nodes cnt t location = Some t'
               /\ topo_inv G job_ptr B c0 R t'.
Proof.
  induction fuel as [ | fuel IH ]; intros t location Hfuel Hinv; [ lia | ].
  cbn [topo_loop].
  destruct (topo_wants_more (tp_sel t)) eqn:Ew; cbn [negb]; [ | now exists t ].
  pose proof (topo_leaf_scan_picks t min_nodes req_nodes (index_range 0 (cnt - 1))
                (mk_tfit 0 0 location false) (or_introl eq_refl)) as Hp.
  cbv zeta in Hp.
  remember (fold_left (topo_leaf_scan t min_nodes req_nodes) (index_range 0 (cnt - 1))
              (mk_tfit 0 0 location false)) as bf eqn:Ebf.
  destruct (tf_nodes bf =? 0) eqn:En; [ now exists t | ].
  apply Z.eqb_neq in En. destruct Hp as [Hp | Hp]; [ contradiction | ].
  assert (Hmax : 0 < sel_max_nodes (tp_sel t)).
  { unfold topo_wants_more in Ew. apply andb_prop in Ew as [Ew _].
    now apply Z.ltb_lt in Ew. }
  match goal with
  | |- context [topo_take G job_ptr ?loc ?idxs t] =>
      pose proof (topo_take_inv R loc idxs t Hinv Hmax) as Ht1;
      pose proof (topo_take_node_cnt loc idxs t) as Hcnt;
      remember (topo_take G job_ptr loc idxs t) as t1 eqn:Et1
  end.
  apply IH.
  - cbn [tp_node_cnt]. rewrite Hcnt.
    pose proof (open_switches_zset (tp_node_cnt t) (tf_location bf) Hp). lia.
  - destruct Ht1 as (Hs & Hb & HR). unfold topo_inv. split_conj; auto.
Qed.

(** From the search of the best switch to the end. *)
Lemma topo_select_inv (R : Z -> Prop) (table : list switch_record)
    (min_nodes req_nodes : Z) (t : topo_state) :
  topo_inv G job_ptr B c0 R t ->
  exists rc t',
    topo_select G job_ptr table min_nodes req_nodes t = Some (rc, t') /\
    topo_inv G job_ptr B c0 R t' /\
    (rc = SLURM_SUCCESS ->
     sel_rem_cpus (tp_sel t') <= 0 /\
     _enough_nodes 0 (sel_rem_nodes (tp_sel t')) min_nodes req_nodes = true).
Proof.
  intros Hinv. unfold topo_select.
  match goal with
  | |- context [if ?c then Some (EINVAL, t) else _] => destruct c
  end.
  { exists EINVAL, t. split_conj; auto. discriminate. }
  match goal with
  | |- context [topo_loop (S (length ?leafs)) G job_ptr min_nodes req_nodes ?cnt ?t1 0] =>
      destruct (topo_loop_inv R min_nodes req_nodes cnt (S (length leafs)) t1 0)
        as (t' & Heq & Hinv')
  end.
  - cbn [tp_node_cnt]. unfold open_switches.
    match goal with
    | |- (length (filter ?f ?l) < _)%nat => pose proof (filter_length_le f l)
    end. lia.
  - destruct Hinv as (Hs & Hb & HR). unfold topo_inv. split_conj; auto.
  - rewrite Heq. eexists _, t'. split_conj; [ reflexivity | exact Hinv' | ].
    destruct (sel_rem_cpus (tp_sel t') <=? 0) eqn:E1; cbn [andb]; [ | discriminate ].
    destruct (_enough_nodes 0 (sel_rem_nodes (tp_sel t')) min_nodes req_nodes) eqn:E2;
      [ | discriminate ].
    intros _. apply Z.leb_le in E1. now split.
Qed.

End TopologyProofs.


Section TopologyResults.

Context {SL : Slurm}.

(** What the code of [_job_test_topo] comes to when the job requires no
    more nodes than [max_nodes]. *)
Lemma job_test_topo_cases (G : globals) (table : list switch_record)
    (job_ptr : job_record) (bitmap : bitstr_t) (min_nodes max_nodes req_nodes : Z) :
  match req_node_bitmap (details_of job_ptr) with
  | Some rb => max_nodes <? bit_set_count rb
  | None => false
  end = false ->
  exists rc s,
    job_test_topo_code G table job_ptr bitmap min_nodes max_nodes req_nodes
    = Topo_returns rc (sel_bitmap s) (sel_total_cpus s) /\
    topo_sel_inv G job_ptr bitmap
      (mk_start max_nodes
         (if min_nodes <? req_nodes then to_int req_nodes else to_int min_nodes)
         (to_int (min_cpus (details_of job_ptr)))) s /\
    (rc = SLURM_SUCCESS ->
     (forall rb i, req_node_bitmap (details_of job_ptr) = Some rb ->
                   bit_test rb i = true -> bit_test (sel_bitmap s) i = true) /\
     sel_rem_cpus s <= 0 /\
     (sel_rem_nodes s <= 0
      \/ _enough_nodes 0 (sel_rem_nodes s) min_nodes req_nodes = true)).
Proof.
  intros Hfew. unfold job_test_topo_code. cbv zeta.
  set (c0 := mk_start max_nodes
               (if min_nodes <? req_nodes then to_int req_nodes else to_int min_nodes)
               (to_int (min_cpus (details_of job_ptr)))).
  set (bms := map (fun i => bit_and (bit_copy (switch_node_bitmap (zth table i zero_switch)))
                              bitmap)
                (index_range 0 (switch_record_cnt G - 1))).
  set (avail0 := fold_left bit_or bms (bit_alloc (node_record_count G))).
  set (cnt := switch_record_cnt G).
  assert (Hbms : Forall (bits_within bitmap) bms) by apply switches_within.
  assert (Havail : bits_within bitmap avail0).
  { apply bit_test_fold_bit_or; [ exact Hbms | ].
    intros i Hi. unfold bit_alloc in Hi. now rewrite bit_test_repeat_false in Hi. }
  destruct (bit_nclear_spec bitmap 0 (node_record_count G - 1)) as [Hnl Hnt].
  assert (Hinit : forall required,
             topo_inv G job_ptr bitmap c0 (fun _ => False)
               (mk_topo
                  (mk_sel (bit_nclear bitmap 0 (node_record_count G - 1))
                     (to_int (min_cpus (details_of job_ptr)))
                     (if min_nodes <? req_nodes then to_int req_nodes
                      else to_int min_nodes)
                     max_nodes 0 0)
                  avail0 bms (map bit_set_count bms) required)).
  { intros required. unfold topo_inv, topo_sel_inv, sel_within.
    cbn [tp_sel tp_bitmaps sel_bitmap]. split_conj.
    - exact Hnl.
    - intros i Hi. rewrite Hnt in Hi. now destruct (_ && _).
    - intros Hl.
      assert (Hz : forall f, node_sum f (bit_nclear bitmap 0 (node_record_count G - 1))
                               (all_nodes bitmap) = 0).
      { intros f. unfold node_sum. rewrite filter_none; [ reflexivity | ].
        intros i Hi. apply in_index_range in Hi. rewrite Hnt.
        replace (0 <=? i) with true by (symmetry; apply Z.leb_le; lia).
        replace (i <=? node_record_count G - 1) with true
          by (symmetry; apply Z.leb_le; lia).
        reflexivity. }
      unfold sel_counts.
      cbn [sel_bitmap sel_max_nodes sel_total_cpus sel_rem_nodes sel_rem_cpus
           sel_alloc_cpus start_max_nodes start_rem_nodes start_rem_cpus c0].
      rewrite !Hz. split_conj; auto; lia.
    - exact Hbms.
    - intros i []. }
  destruct (req_node_bitmap (details_of job_ptr)) as [rb | ] eqn:Erb;
    cbn [option_map]; unfold bit_copy; cbv beta iota in Hfew; rewrite ?Hfew.
  - specialize (Hinit (map (fun _ => 0) bms)).
    match goal with
    | |- context [mk_topo ?s0 avail0 bms ?cnts ?cpus'] =>
        set (t0 := mk_topo s0 avail0 bms cnts cpus') in *
    end.
    destruct (bit_super_set rb avail0) eqn:Esup; cbn [negb].
    2: { exists EINVAL, (tp_sel t0). split_conj; [ reflexivity | apply Hinit | ].
         discriminate. }
    assert (Hrb : forall k, bit_test rb k = true -> bit_test bitmap k = true).
    { intros k Hk. apply Havail. now apply (bit_super_set_spec rb avail0 Esup). }
    set (idxs := if 0 <=? bit_ffs rb then index_range (bit_ffs rb) (bit_fls rb) else []).
    assert (Hnd : NoDup idxs).
    { unfold idxs. destruct (0 <=? bit_ffs rb); [ apply NoDup_index_range | constructor ]. }
    assert (Hall : forall i, bit_test rb i = true -> In i idxs).
    { intros i Hi. destruct (bit_test_between rb i Hi) as [[H0 H1] H2]. unfold idxs.
      replace (0 <=? bit_ffs rb) with true by (symmetry; apply Z.leb_le; lia).
      apply in_index_range. lia. }
    assert (Hclear : Z.of_nat (length bitmap) <= node_record_count G ->
                     forall k, In k idxs -> bit_test (sel_bitmap (tp_sel t0)) k = false).
    { intros Hl k Hk. unfold t0. cbn [tp_sel sel_bitmap]. rewrite Hnt.
      destruct ((0 <=? k) && (k <=? node_record_count G - 1)) eqn:E; [ reflexivity | ].
      destruct (bit_test bitmap k) eqn:Ek; [ | reflexivity ].
      apply bit_test_range in Ek.
      apply andb_false_iff in E as [E | E]; [ apply Z.leb_gt in E | apply Z.leb_gt in E ];
        lia. }
    pose proof (topo_required_inv G job_ptr bitmap c0 cnt rb idxs Hnd Hrb
                  (fun _ => False) t0 Hclear Hinit) as Hreq.
    destruct (topo_required G job_ptr cnt rb idxs t0) as [t1 | rc t1].
    2: { destruct Hreq as [-> Hinv1]. exists EINVAL, (tp_sel t1).
         split_conj; [ reflexivity | apply Hinv1 | discriminate ]. }
    assert (Hinv1 : topo_inv G job_ptr bitmap c0 (fun i => bit_test rb i = true) t1).
    { destruct Hreq as (Hs & Hb & HR). unfold topo_inv. split_conj; auto. }
    clear Hreq.
    assert (Hdone : forall t, topo_inv G job_ptr bitmap c0 (fun i => bit_test rb i = true) t ->
                       topo_satisfied (tp_sel t) = true ->
                       exists rc s,
                         Topo_returns SLURM_SUCCESS (sel_bitmap (tp_sel t))
                           (sel_total_cpus (tp_sel t))
                         = Topo_returns rc (sel_bitmap s) (sel_total_cpus s) /\
                         topo_sel_inv G job_ptr bitmap c0 s /\
                         (rc = SLURM_SUCCESS ->
                          (forall rb' i, Some rb = Some rb' -> bit_test rb' i = true ->
                                         bit_test (sel_bitmap s) i = true) /\
                          sel_rem_cpus s <= 0 /\
                          (sel_rem_nodes s <= 0
                           \/ _enough_nodes 0 (sel_rem_nodes s) min_nodes req_nodes = true))).
    { intros t (Hs & Hb & HR) Hsat. exists SLURM_SUCCESS, (tp_sel t).
      unfold topo_satisfied in Hsat. apply andb_prop in Hsat as [E1 E2].
      apply Z.leb_le in E1, E2. split_conj; auto.
      intros _. split_conj; auto.
      intros rb' i [= <-] Hi. now apply HR. }
    assert (Hsel : forall t, topo_inv G job_ptr bitmap c0 (fun i => bit_test rb i = true) t ->
                      exists rc s,
                        match topo_select G job_ptr table min_nodes req_nodes t with
                        | Some (rc, t) =>
                            Topo_returns rc (sel_bitmap (tp_sel t))
                              (sel_total_cpus (tp_sel t))
                        | None => Topo_no_fuel
                        end = Topo_returns rc (sel_bitmap s) (sel_total_cpus s) /\
                        topo_sel_inv G job_ptr bitmap c0 s /\
                        (rc = SLURM_SUCCESS ->
                         (forall rb' i, Some rb = Some rb' -> bit_test rb' i = true ->
                                        bit_test (sel_bitmap s) i = true) /\
                         sel_rem_cpus s <= 0 /\
                         (sel_rem_nodes s <= 0
                          \/ _enough_nodes 0 (sel_rem_nodes s) min_nodes req_nodes
                             = true))).
    { intros t Hinv.
      destruct (topo_select_inv G job_ptr bitmap c0 _ table min_nodes req_nodes t Hinv)
        as (rc & t' & Heq & (Hs & Hb & HR) & Hok).
      rewrite Heq. exists rc, (tp_sel t'). split_conj; auto.
      intros Hrc. destruct (Hok Hrc) as [H1 H2]. split_conj; auto.
      intros rb' i [= <-] Hi. now apply HR. }
    destruct (topo_satisfied (tp_sel t1)) eqn:Es1; [ now apply Hdone | ].
    match goal with
    | |- context [topo_leafs_fill G job_ptr table ?required cnt t1] =>
        destruct (topo_leafs_fill_inv G job_ptr bitmap c0 _ table required cnt t1 Hinv1)
          as (t2 & Heq2 & Hinv2)
    end.
    rewrite Heq2.
    destruct (topo_satisfied (tp_sel t2)) eqn:Es2; [ now apply Hdone | ].
    apply Hsel. now apply topo_update_inv.
  - specialize (Hinit (map (fun _ => 0) bms)).
    match goal with
    | |- context [topo_cpu_counts G job_ptr cnt ?t] =>
        pose proof (topo_cpu_counts_inv G job_ptr bitmap c0 _ cnt t Hinit) as Hinv
    end.
    destruct (topo_select_inv G job_ptr bitmap c0 _ table min_nodes req_nodes _ Hinv)
      as (rc & t' & Heq & (Hs & Hb & HR) & Hok).
    rewrite Heq. exists rc, (tp_sel t'). split_conj; auto.
    intros Hrc. destruct (Hok Hrc) as [H1 H2]. split_conj; auto.
    intros rb' i [=].
Qed.

End TopologyResults.


Section TopologyTheorems.

Context {SL : Slurm}.

(** X24: the code of [_job_test_topo] has a defined result exactly when
    the job requires no more nodes than [max_nodes]: otherwise it leaves
    for the label [fini] before the switch arrays exist and the loop
    there reads the pointer [switches_bitmap], which has no value yet.
    When it has a result all its loops have ended: it returns a code,
    a bitmap and a CPU count. *)
Theorem job_test_topo_returns (G : globals) (table : list switch_record)
    (job_ptr : job_record) (bitmap : bitstr_t) (min_nodes max_nodes req_nodes : Z) :
  ((exists rb, req_node_bitmap (details_of job_ptr) = Some rb
               /\ max_nodes < bit_set_count rb) ->
   job_test_topo_code G table job_ptr bitmap min_nodes max_nodes req_nodes
   = Topo_undefined) /\
  (~ (exists rb, req_node_bitmap (details_of job_ptr) = Some rb
                 /\ max_nodes < bit_set_count rb) ->
   exists rc out total,
     job_test_topo_code G table job_ptr bitmap min_nodes max_nodes req_nodes
     = Topo_returns rc out total).
Proof.
  split.
  - intros (rb & Hrb & Hmany). unfold job_test_topo_code. rewrite Hrb.
    cbn [option_map]. unfold bit_copy.
    now replace (max_nodes <? bit_set_count rb) with true
      by (symmetry; apply Z.ltb_lt; lia).
  - intros Hfew.
    destruct (job_test_topo_cases G table job_ptr bitmap min_nodes max_nodes req_nodes)
      as (rc & s & Heq & _).
    + destruct (req_node_bitmap (details_of job_ptr)) as [rb | ]; [ | reflexivity ].
      apply Z.ltb_ge. destruct (Z_lt_dec max_nodes (bit_set_count rb)); [ | lia ].
      exfalso. apply Hfew. now exists rb.
    + exists rc, (sel_bitmap s), (sel_total_cpus s). exact Heq.
Qed.

(** X25: whatever code it returns, [_job_test_topo] leaves a bitmap of
    the length of the bitmap it was given that holds only nodes which
    were set in it. *)
Theorem job_test_topo_picks_available (G : globals) (table : list switch_record)
    (job_ptr : job_record) (bitmap : bitstr_t) (min_nodes max_nodes req_nodes : Z) :
  match job_test_topo_code G table job_ptr bitmap min_nodes max_nodes req_nodes with
  | Topo_returns rc out total =>
      length out = length bitmap /\
      (forall i, bit_test out i = true -> bit_test bitmap i = true)
  | _ => True
  end.
Proof.
  destruct (match req_node_bitmap (details_of job_ptr) with
            | Some rb => max_nodes <? bit_set_count rb
            | None => false
            end) eqn:Hfew.
  - unfold job_test_topo_code.
    destruct (req_node_bitmap (details_of job_ptr)) as [rb | ]; [ | discriminate ].
    cbn [option_map]. unfold bit_copy. now rewrite Hfew.
  - destruct (job_test_topo_cases G table job_ptr bitmap min_nodes max_nodes req_nodes
                Hfew) as (rc & s & Heq & [Hw _] & _).
    rewrite Heq. exact Hw.
Qed.

(** X26: for a bitmap no longer than the node table and a [max_nodes]
    that is not negative, whatever code [_job_test_topo] returns, at
    most [max_nodes] nodes are set in the bitmap it leaves, and the CPU
    count it hands over is the sum of the total CPUs of these nodes. *)
Theorem job_test_topo_node_limit (G : globals) (table : list switch_record)
    (job_ptr : job_record) (bitmap : bitstr_t) (min_nodes max_nodes req_nodes : Z)
    (Hmax : 0 <= max_nodes)
    (Hlen : Z.of_nat (length bitmap) <= node_record_count G) :
  match job_test_topo_code G table job_ptr bitmap min_nodes max_nodes req_nodes with
  | Topo_returns rc out total =>
      bit_set_count out <= max_nodes /\
      total = node_sum (_get_total_cpus G) out (all_nodes out)
  | _ => True
  end.
Proof.
  destruct (match req_node_bitmap (details_of job_ptr) with
            | Some rb => max_nodes <? bit_set_count rb
            | None => false
            end) eqn:Hfew.
  - unfold job_test_topo_code.
    destruct (req_node_bitmap (details_of job_ptr)) as [rb | ]; [ | discriminate ].
    cbn [option_map]. unfold bit_copy. now rewrite Hfew.
  - destruct (job_test_topo_cases G table job_ptr bitmap min_nodes max_nodes req_nodes
                Hfew) as (rc & s & Heq & [[Hl _] Hc] & _).
    rewrite Heq. destruct (Hc Hlen) as (Hc1 & Hc2 & Hc3 & _).
    cbn [start_max_nodes] in *.
    assert (Hall : all_nodes (sel_bitmap s) = all_nodes bitmap)
      by (unfold all_nodes; now rewrite Hl).
    rewrite bit_set_count_node_sum, Hall. split; [ | now rewrite Hc2 ].
    specialize (Hc3 Hmax). lia.
Qed.

(** X27: for node counts that fit a signed 32-bit number and a bitmap no
    longer than the node table, success of [_job_test_topo] means that
    the bitmap it leaves has at least [min_nodes] nodes set and that the
    available CPUs of these nodes add up to at least the job's
    [min_cpus]. *)
Theorem job_test_topo_success_is_enough (G : globals) (table : list switch_record)
    (job_ptr : job_record) (bitmap : bitstr_t) (min_nodes max_nodes req_nodes : Z)
    (Hmin : 0 <= min_nodes < 2 ^ 31) (Hreq : 0 <= req_nodes < 2 ^ 31)
    (Hmax : 0 <= max_nodes < 2 ^ 31)
    (Hlen : Z.of_nat (length bitmap) <= node_record_count G) :
  match job_test_topo_code G table job_ptr bitmap min_nodes max_nodes req_nodes with
  | Topo_returns rc out total =>
      rc = SLURM_SUCCESS ->
      min_nodes <= bit_set_count out /\
      to_int (min_cpus (details_of job_ptr))
      <= node_sum (_get_avail_cpus G job_ptr) out (all_nodes out)
  | _ => True
  end.
Proof.
  destruct (match req_node_bitmap (details_of job_ptr) with
            | Some rb => max_nodes <? bit_set_count rb
            | None => false
            end) eqn:Hfew.
  - unfold job_test_topo_code.
    destruct (req_node_bitmap (details_of job_ptr)) as [rb | ]; [ | discriminate ].
    cbn [option_map]. unfold bit_copy. now rewrite Hfew.
  - destruct (job_test_topo_cases G table job_ptr bitmap min_nodes max_nodes req_nodes
                Hfew) as (rc & s & Heq & [[Hl _] Hc] & Hok).
    rewrite Heq. intros Hrc. destruct (Hok Hrc) as (_ & Hcpus & Hnodes).
    destruct (Hc Hlen) as (Hc1 & _ & Hc3 & Hc4 & Hc5 & Hc6).
    cbn [start_max_nodes start_rem_nodes start_rem_cpus] in *.
    assert (Hall : all_nodes (sel_bitmap s) = all_nodes bitmap)
      by (unfold all_nodes; now rewrite Hl).
    rewrite bit_set_count_node_sum, Hall, Hc5.
    split; [ | lia ].
    specialize (Hc3 ltac:(lia)).
    pose proof (node_sum_count (sel_bitmap s) (all_nodes bitmap)) as Hcount.
    destruct (min_nodes <? req_nodes) eqn:E.
    + apply Z.ltb_lt in E. rewrite to_int_small in Hc4 by lia.
      destruct Hnodes as [Hn | Hn]; [ lia | ].
      unfold _enough_nodes in Hn.
      replace (min_nodes <? req_nodes) with true in Hn by (symmetry; apply Z.ltb_lt; lia).
      rewrite needed_nodes_wrap, to_int_small in Hn by lia.
      apply Z.leb_le in Hn. lia.
    + apply Z.ltb_ge in E. rewrite to_int_small in Hc4 by lia.
      destruct Hnodes as [Hn | Hn]; [ lia | ].
      unfold _enough_nodes in Hn.
      replace (min_nodes <? req_nodes) with false in Hn by (symmetry; apply Z.ltb_ge; lia).
      apply Z.leb_le in Hn. lia.
Qed.

(** X28: success of [_job_test_topo] means that every node the job
    requires is set in the bitmap it leaves. *)
Theorem job_test_topo_keeps_required (G : globals) (table : list switch_record)
    (job_ptr : job_record) (bitmap : bitstr_t) (min_nodes max_nodes req_nodes : Z) :
  match job_test_topo_code G table job_ptr bitmap min_nodes max_nodes req_nodes with
  | Topo_returns rc out total =>
      rc = SLURM_SUCCESS ->
      forall rb i, req_node_bitmap (details_of job_ptr) = Some rb ->
                   bit_test rb i = true -> bit_test out i = true
  | _ => True
  end.
Proof.
  destruct (match req_node_bitmap (details_of job_ptr) with
            | Some rb => max_nodes <? bit_set_count rb
            | None => false
            end) eqn:Hfew.
  - unfold job_test_topo_code.
    destruct (req_node_bitmap (details_of job_ptr)) as [rb | ]; [ | discriminate ].
    cbn [option_map]. unfold bit_copy. now rewrite Hfew.
  - destruct (job_test_topo_cases G table job_ptr bitmap min_nodes max_nodes req_nodes
                Hfew) as (rc & s & Heq & _ & Hok).
    rewrite Heq. intros Hrc. now destruct (Hok Hrc) as (Hreq & _).
Qed.

End TopologyTheorems.


Section OneNodeOffset.

Context {SL : Slurm} {JR : JobResources}.

Lemma last_cons_default {A : Type} (l : list A) (x d : A) :
  last (x :: l) d = last l x.
Proof.
  revert x d. induction l as [ | y l IH ]; intros x d; [ reflexivity | ].
  change (last (x :: y :: l) d) with (last (y :: l) d). now rewrite !IH.
Qed.

Lemma one_node_fold (b : bitstr_t) (l : list Z) (i off : Z) :
  fold_left
    (fun (st : Z * Z) (k : Z) => (k + 1, if bit_test b k then snd st + 1 else snd st))
    l (i, off)
  = (last (map (fun k => k + 1) l) i, off + node_sum (fun _ => 1) b l).
Proof.
  revert i off. induction l as [ | a l IH ]; intros i off.
  - unfold node_sum. cbn. f_equal. lia.
  - cbn [fold_left snd]. rewrite IH.
    replace (node_sum (fun _ => 1) b (a :: l))
      with (node_sum (fun _ => 1) b ([a] ++ l)) by reflexivity.
    rewrite node_sum_app, node_sum_single.
    f_equal.
    + cbn [map]. now rewrite last_cons_default.
    + destruct (bit_test b a); lia.
Qed.

Lemma last_index_range (a c d : Z) :
  a <= c -> last (map (fun k => k + 1) (index_range a c)) d = c + 1.
Proof.
  intros H. replace c with ((c - 1) + 1) at 1 by lia.
  rewrite index_range_snoc by lia. rewrite map_app. cbn [map].
  rewrite last_last. lia.
Qed.

(** X29: for a node of the job that is not the last node of the
    registry, the counting loop of [_rm_job_from_one_node] ends with
    [node_offset] equal to the number of nodes of the job below
    [node_inx] and with [i = node_inx + 1]; so, past the error checks,
    the entry of [cpus] the function clears is the node's, while the
    GRES list it takes from the registry is the one of the node after
    it.  (For the last node the read is past the array.) *)
Theorem rm_job_from_one_node_offset (G : globals) (cr : cr_record)
    (job_ptr : job_record) (r : job_resources_t) (node_inx : Z) (h : gres_heap)
    (Htot : _test_tot_job cr (job_id job_ptr) = true)
    (Hr : job_resrcs job_ptr = Some r)
    (Hset : bit_test (resrcs_bitmap r) node_inx = true)
    (Hnext : node_inx + 1 < Z.of_nat (length (nodes cr))) :
  let rank := node_sum (fun _ => 1) (resrcs_bitmap r) (index_range 0 (node_inx - 1)) in
  one_node_offset r node_inx = (node_inx + 1, rank) /\
  (zth (res_cpus r) rank 0 <> 0 ->
   let '(_, _, job1, h1) := _rm_job_from_one_node G cr job_ptr node_inx h in
   (exists r1, job_resrcs job1 = Some r1 /\
               r1 = build_job_resources_cpu_array
                      (set_res_cpus r (zset (res_cpus r) rank 0))) /\
   h1 = gres_plugin_job_dealloc (job_gres_list job_ptr)
          (match cr_gres_list (zth (nodes cr) (node_inx + 1) zero_node_cr) with
           | Some g => Some g
           | None => node_gres_list (zth (node_record_table_ptr G) node_inx zero_node)
           end)
          rank (job_id job_ptr) node_inx h).
Proof.
  cbv zeta.
  assert (Hoff : one_node_offset r node_inx
                 = (node_inx + 1,
                    node_sum (fun _ => 1) (resrcs_bitmap r)
                      (index_range 0 (node_inx - 1)))).
  { unfold one_node_offset. rewrite one_node_fold.
    destruct (bit_test_between _ _ Hset) as [[H0 H1] _].
    rewrite last_index_range by lia. f_equal.
    replace (index_range (bit_ffs (resrcs_bitmap r)) node_inx)
      with (index_range (bit_ffs (resrcs_bitmap r)) (node_inx - 1) ++ [node_inx]).
    2: { replace node_inx with ((node_inx - 1) + 1) at 3 by lia.
         rewrite index_range_snoc by lia.
         now replace (node_inx - 1 + 1) with node_inx by lia. }
    rewrite (index_range_split 0 (bit_ffs (resrcs_bitmap r) - 1) (node_inx - 1)) by lia.
    replace (bit_ffs (resrcs_bitmap r) - 1 + 1) with (bit_ffs (resrcs_bitmap r)) by lia.
    rewrite !node_sum_app, node_sum_single, Hset.
    assert (Hlow : node_sum (fun _ => 1) (resrcs_bitmap r)
                     (index_range 0 (bit_ffs (resrcs_bitmap r) - 1)) = 0).
    { unfold node_sum. rewrite filter_none; [ reflexivity | ].
      intros i Hi. apply in_index_range in Hi.
      destruct (bit_test (resrcs_bitmap r) i) eqn:Ei; [ | reflexivity ].
      destruct (bit_test_between _ _ Ei) as [[_ H2] _]. lia. }
    lia. }
  split; [ exact Hoff | ].
  intros Hcpus. unfold _rm_job_from_one_node.
  rewrite Htot. cbn [negb].
  destruct (job_memory_request G (details job_ptr)) as [jmc jmn].
  rewrite Hr, Hset. cbn [negb]. rewrite Hoff.
  apply Z.eqb_neq in Hcpus. rewrite Hcpus.
  destruct (update_part _ _ _); cbn [set_job_resrcs job_resrcs];
    (split; [ eexists; split; reflexivity | reflexivity ]).
Qed.

End OneNodeOffset.


(** ** C2: the order of the commit of a run *)

Section CommitOrderProofs.

Context {SL : Slurm}.

Variable G : globals.
Variable job_ptr : job_record.

Lemma sel_done_demand (s : sel_state) :
  sel_done s = false <-> demand_open G job_ptr [] s.
Proof.
  unfold sel_done, demand_open, clear_in. cbn [filter length sum_over fold_right].
  rewrite orb_false_iff, andb_false_iff, !Z.leb_gt. change (Z.of_nat 0) with 0.
  rewrite !Z.sub_0_r. tauto.
Qed.

Lemma clear_in_ext (b b' : bitstr_t) (l : list Z) :
  (forall i, In i l -> bit_test b' i = bit_test b i) -> clear_in b' l = clear_in b l.
Proof.
  intros H. unfold clear_in. apply filter_ext_in. intros i Hi. now rewrite H.
Qed.

Lemma nodes_taken_nil (s : sel_state) : nodes_taken G job_ptr [] s s.
Proof.
  unfold nodes_taken, clear_in. cbn [filter length sum_over fold_right existsb].
  change (Z.of_nat 0) with 0.
  split; [ reflexivity | ]. split; [ intros i; now rewrite orb_false_r | ].
  split_conj; lia.
Qed.

Lemma commit_scan_in_order (idxs : list Z) (s : sel_state) :
  NoDup idxs ->
  (forall i, In i idxs -> 0 <= i < Z.of_nat (length (sel_bitmap s))) ->
  taken_in_order G job_ptr idxs s (commit_scan G job_ptr idxs s).
Proof.
  revert s. induction idxs as [ | i rest IH ]; intros s Hnd Hin.
  - exists O. cbn [commit_scan firstn length].
    split; [ lia | ]. split; [ apply nodes_taken_nil | ].
    split; [ intros j Hj; lia | now left ].
  - cbn [commit_scan]. destruct (sel_done s) eqn:Ed.
    + exists O. cbn [firstn length].
      split; [ lia | ]. split; [ apply nodes_taken_nil | ].
      split; [ intros j Hj; lia | right ].
      intros H. apply sel_done_demand in H. congruence.
    + apply sel_done_demand in Ed.
      apply NoDup_cons_iff in Hnd as [Hi Hnd].
      destruct (bit_test (sel_bitmap s) i) eqn:Eb.
      * destruct (IH s Hnd) as (k & Hk & Htaken & Hopen & Hstop).
        { intros x Hx. apply Hin. now right. }
        assert (Hclear : forall n, clear_in (sel_bitmap s) (firstn (S n) (i :: rest))
                                   = clear_in (sel_bitmap s) (firstn n rest)).
        { intros n. cbn [firstn]. unfold clear_in. cbn [filter]. now rewrite Eb. }
        exists (S k). split_conj.
        -- cbn [length]. lia.
        -- unfold nodes_taken in *. rewrite Hclear.
           destruct Htaken as (H1 & H2 & H3). split_conj; try tauto.
           intros x. rewrite H2. cbn [firstn existsb].
           destruct (x =? i) eqn:Ex; [ | reflexivity ].
           apply Z.eqb_eq in Ex. subst x. now rewrite Eb.
        -- intros [ | j ] Hj; [ exact Ed | ].
           unfold demand_open. rewrite Hclear. apply Hopen. lia.
        -- destruct Hstop as [-> | Hstop]; [ now left | right ].
           unfold demand_open in *. now rewrite Hclear.
      * set (s1 := count_node G job_ptr s (bit_set (sel_bitmap s) i) i).
        assert (Hir : 0 <= i < Z.of_nat (length (sel_bitmap s))) by (apply Hin; now left).
        assert (Hb1 : forall x, bit_test (sel_bitmap s1) x
                                = (x =? i) || bit_test (sel_bitmap s) x).
        { intros x. unfold s1, count_node. cbn [sel_bitmap].
          rewrite bit_test_bit_set, (Z.eqb_sym x i).
          destruct (i =? x); cbn [andb orb]; [ | reflexivity ].
          replace (0 <=? i) with true by (symmetry; apply Z.leb_le; lia).
          replace (i <? Z.of_nat (length (sel_bitmap s))) with true
            by (symmetry; apply Z.ltb_lt; lia).
          reflexivity. }
        assert (Hl1 : length (sel_bitmap s1) = length (sel_bitmap s)).
        { unfold s1, count_node, bit_set. cbn [sel_bitmap]. apply length_zset. }
        assert (Hc1 : sel_max_nodes s1 = sel_max_nodes s - 1
                      /\ sel_rem_nodes s1 = sel_rem_nodes s - 1
                      /\ sel_rem_cpus s1 = sel_rem_cpus s - _get_avail_cpus G job_ptr i
                      /\ sel_alloc_cpus s1 = sel_alloc_cpus s + _get_avail_cpus G job_ptr i
                      /\ sel_total_cpus s1 = sel_total_cpus s + _get_total_cpus G i)
          by (split_conj; reflexivity).
        destruct Hc1 as (Hm1 & Hn1 & Hr1 & Ha1 & Ht1).
        clearbody s1.
        destruct (IH s1 Hnd) as (k & Hk & Htaken & Hopen & Hstop).
        { intros x Hx. rewrite Hl1. apply Hin. now right. }
        assert (Hclear : forall n, clear_in (sel_bitmap s) (firstn (S n) (i :: rest))
                                   = i :: clear_in (sel_bitmap s1) (firstn n rest)).
        { intros n. cbn [firstn]. unfold clear_in at 1. cbn [filter]. rewrite Eb.
          cbn [negb]. f_equal. symmetry. apply clear_in_ext.
          intros x Hx. rewrite Hb1.
          destruct (x =? i) eqn:Ex; [ | reflexivity ].
          apply Z.eqb_eq in Ex. subst x. exfalso. apply Hi.
          rewrite <- (firstn_skipn n rest). apply in_or_app. now left. }
        exists (S k). split; [ cbn [length]; lia | ].
        split; [ | split ].
        -- unfold nodes_taken in *. rewrite Hclear.
           destruct Htaken as (H1 & H2 & H3 & H4 & H5 & H6 & H7).
           set (t := clear_in (sel_bitmap s1) (firstn k rest)) in *.
           cbn [length sum_over fold_right].
           fold (sum_over (_get_avail_cpus G job_ptr) t).
           fold (sum_over (_get_total_cpus G) t).
           split; [ congruence | ].
           split; [ | split_conj; lia ].
           intros x. rewrite H2, Hb1. cbn [firstn existsb].
           destruct (x =? i), (bit_test (sel_bitmap s) x); reflexivity.
        -- intros [ | j ] Hj; [ exact Ed | ].
           unfold demand_open. rewrite Hclear.
           specialize (Hopen j ltac:(lia)). unfold demand_open in Hopen.
           set (t := clear_in (sel_bitmap s1) (firstn j rest)) in *.
           cbn [length sum_over fold_right].
           fold (sum_over (_get_avail_cpus G job_ptr) t). lia.
        -- destruct Hstop as [-> | Hstop]; [ now left | right ].
           unfold demand_open in *. rewrite Hclear.
           set (t := clear_in (sel_bitmap s1) (firstn k rest)) in *.
           cbn [length sum_over fold_right].
           fold (sum_over (_get_avail_cpus G job_ptr) t). lia.
Qed.

Lemma NoDup_up_then_down (r first last : Z) : NoDup (up_then_down r first last).
Proof.
  unfold up_then_down. apply NoDup_app.
  - apply NoDup_index_range.
  - apply NoDup_rev, NoDup_index_range.
  - intros x H1 H2. apply in_index_range in H1. apply in_rev, in_index_range in H2. lia.
Qed.

Lemma in_up_then_down (r first last i : Z) :
  first <= r <= last -> (In i (up_then_down r first last) <-> first <= i <= last).
Proof.
  intros Hr. unfold up_then_down.
  rewrite in_app_iff, <- in_rev, !in_index_range. lia.
Qed.

End CommitOrderProofs.

(** ** The registries in memory *)

Section MemoryProofs.

Context {SL : Slurm} {CT : Slurmctld}.

Lemma cr_load_lt (m : cr_heap) (p : nat) (cr : cr_record) :
  cr_load m p = Some cr -> (p < length m)%nat.
Proof.
  unfold cr_load. intros H.
  destruct (Nat.lt_ge_cases p (length m)) as [Hlt | Hge]; [ exact Hlt | ].
  rewrite nth_overflow in H by exact Hge. discriminate.
Qed.

Lemma cr_load_beyond (m : cr_heap) (p : nat) :
  (length m <= p)%nat -> cr_load m p = None.
Proof. intros H. unfold cr_load. now apply nth_overflow. Qed.

Lemma cr_load_write_same (m : cr_heap) (p : nat) (cr : cr_record) :
  (p < length m)%nat -> cr_load (cr_write m p cr) p = Some cr.
Proof. intros H. unfold cr_load, cr_write. now apply nth_list_set_same. Qed.

Lemma cr_load_write_other (m : cr_heap) (p q : nat) (cr : cr_record) :
  p <> q -> cr_load (cr_write m p cr) q = cr_load m q.
Proof. intros H. unfold cr_load, cr_write. now apply nth_list_set_other. Qed.

Lemma cr_load_xfree_same (m : cr_heap) (p : nat) : cr_load (cr_xfree m p) p = None.
Proof.
  unfold cr_load, cr_xfree.
  destruct (Nat.lt_ge_cases p (length m)) as [Hlt | Hge].
  - now apply nth_list_set_same.
  - apply nth_overflow. now rewrite length_list_set.
Qed.

Lemma cr_load_xfree_other (m : cr_heap) (p q : nat) :
  p <> q -> cr_load (cr_xfree m p) q = cr_load m q.
Proof. intros H. unfold cr_load, cr_xfree. now apply nth_list_set_other. Qed.

Lemma cr_load_xmalloc (m : cr_heap) (cr : cr_record) :
  cr_load (snd (cr_xmalloc m cr)) (fst (cr_xmalloc m cr)) = Some cr /\
  length (snd (cr_xmalloc m cr)) = S (length m) /\
  forall p, (p < length m)%nat -> cr_load (snd (cr_xmalloc m cr)) p = cr_load m p.
Proof.
  unfold cr_xmalloc, cr_load. cbn [fst snd]. split_conj.
  - rewrite app_nth2 by lia. now rewrite Nat.sub_diag.
  - rewrite length_app. cbn [length]. lia.
  - intros p Hp. now apply app_nth1.
Qed.

Lemma only_block_refl (b : nat) (m : cr_heap) : only_block b m m.
Proof. split; auto. Qed.

Lemma only_block_trans (b : nat) (m1 m2 m3 : cr_heap) :
  only_block b m1 m2 -> only_block b m2 m3 -> only_block b m1 m3.
Proof.
  intros [L1 H1] [L2 H2]. split; [ congruence | ].
  intros p Hp. now rewrite H2, H1.
Qed.

(** A removal on the scratch registry at [b] is the removal on its
    record, written back to the block. *)
Lemma rm_job_at_mem_scratch (G : globals) (m : cr_heap) (b : nat) (cr : cr_record)
    (w : world) (k : nat) (remove_all : bool) :
  cr_load m b = Some cr ->
  exists m',
    rm_job_at_mem G m b w k remove_all
    = Some (m', snd (rm_job_at G cr w k remove_all)) /\
    cr_load m' b = Some (fst (rm_job_at G cr w k remove_all)) /\
    only_block b m m'.
Proof.
  intros Hload. unfold rm_job_at_mem. rewrite Hload.
  destruct (rm_job_at G cr w k remove_all) as [cr' w'].
  exists (cr_write m b cr'). cbn [fst snd]. unfold only_block. split_conj.
  - reflexivity.
  - apply cr_load_write_same. now apply (cr_load_lt m b cr).
  - unfold cr_write. apply length_list_set.
  - intros p Hp. apply cr_load_write_other. congruence.
Qed.

Lemma will_run_split_mem_scratch (G : globals) (cands : option (list nat)) (b : nat)
    (jobs : list nat) (m : cr_heap) (exp_cr : cr_record) (w : world) (l : list nat) :
  cr_load m b = Some exp_cr ->
  exists m',
    will_run_split_mem G cands b jobs (m, w, l)
    = Some (m', snd (fst (will_run_split G cands jobs (exp_cr, w, l))),
            snd (will_run_split G cands jobs (exp_cr, w, l))) /\
    cr_load m' b = Some (fst (fst (will_run_split G cands jobs (exp_cr, w, l)))) /\
    only_block b m m'.
Proof.
  revert m exp_cr w l. induction jobs as [ | k rest IH ]; intros m exp_cr w l Hload.
  - exists m. cbn [will_run_split_mem will_run_split fst snd].
    split_conj; auto. apply only_block_refl.
  - cbn [will_run_split_mem will_run_split].
    destruct (negb (IS_JOB_RUNNING (job_at w k)) && negb (IS_JOB_SUSPENDED (job_at w k)));
      [ now apply IH | ].
    destruct (end_time (job_at w k) =? 0); [ now apply IH | ].
    destruct (_is_preemptable k cands); [ | now apply IH ].
    destruct (rm_job_at_mem_scratch G m b exp_cr w k
                (preempt_remove_all (job_at w k)) Hload) as (m1 & -> & Hload1 & Hfr1).
    destruct (rm_job_at G exp_cr w k (preempt_remove_all (job_at w k))) as [exp_cr' w'].
    cbn [fst snd] in *.
    destruct (IH m1 exp_cr' w' l Hload1) as (m' & Heq & Hload' & Hfr').
    exists m'. split_conj; auto.
    now apply (only_block_trans b m m1 m').
Qed.

Ltac same_scratch_now :=
  unfold same_scratch;
  cbn [ms_rc ms_bitmap ms_heap ms_world ps_rc ps_bitmap ps_exp_cr ps_world];
  split_conj; auto.

Lemma will_run_replay_mem_scratch (G : globals) (job_ptr : nat) (orig_map : bitstr_t)
    (min_nodes max_nodes req_nodes max_run_jobs now : Z) (b : nat) (jobs : list nat)
    (st : mem_state) (ps : preempt_state) :
  same_scratch b st ps ->
  exists st',
    will_run_replay_mem G job_ptr orig_map min_nodes max_nodes req_nodes max_run_jobs
      now b jobs st = Some st' /\
    same_scratch b st'
      (will_run_replay G job_ptr orig_map min_nodes max_nodes req_nodes max_run_jobs
         now jobs ps) /\
    only_block b (ms_heap st) (ms_heap st').
Proof.
  revert st ps. induction jobs as [ | k rest IH ]; intros st ps Hsim.
  - exists st. cbn [will_run_replay_mem will_run_replay].
    split_conj; auto; apply only_block_refl.
  - destruct Hsim as (Hrc & Hbm & Hw & Hload).
    cbn [will_run_replay_mem will_run_replay]. rewrite Hw.
    destruct (rm_job_at_mem_scratch G (ms_heap st) b (ps_exp_cr ps) (ps_world ps) k true
                Hload) as (m1 & -> & Hload1 & Hfr1).
    destruct (rm_job_at G (ps_exp_cr ps) (ps_world ps) k true) as [exp_cr w1].
    cbn [fst snd] in *. rewrite Hload1, Hbm.
    destruct (_job_count_bitmap G (gres w1) exp_cr (job_at w1 job_ptr) orig_map
                (ps_bitmap ps) max_run_jobs NO_SHARE_LIMIT SELECT_MODE_RUN_NOW)
      as [i bitmap1].
    destruct (i <? min_nodes).
    + destruct (IH (mk_ms (ms_rc st) bitmap1 m1 w1) (mk_ps (ps_rc ps) bitmap1 exp_cr w1))
        as (st' & Heq & Hsim' & Hfr').
      { same_scratch_now. }
      exists st'. split_conj; auto.
      now apply (only_block_trans b (ms_heap st) m1 (ms_heap st')).
    + destruct (job_test_at G w1 job_ptr bitmap1 min_nodes max_nodes req_nodes)
        as [[rc bitmap2] w2].
      destruct (negb (errno_eqb rc SLURM_SUCCESS)).
      * destruct (IH (mk_ms rc bitmap2 m1 w2) (mk_ps rc bitmap2 exp_cr w2))
          as (st' & Heq & Hsim' & Hfr').
        { same_scratch_now. }
        exists st'. split_conj; auto.
        now apply (only_block_trans b (ms_heap st) m1 (ms_heap st')).
      * eexists. split; [ reflexivity | ]. split; [ same_scratch_now | exact Hfr1 ].
Qed.

Lemma run_now_preempt_mem_scratch (G : globals) (job_ptr : nat) (orig_map : bitstr_t)
    (min_nodes max_nodes req_nodes max_share : Z) (cands : option (list nat)) (b : nat)
    (jobs : list nat) (st : mem_state) (ps : preempt_state) :
  same_scratch b st ps ->
  exists st',
    run_now_preempt_mem G job_ptr orig_map min_nodes max_nodes req_nodes max_share
      cands b jobs st = Some st' /\
    same_scratch b st'
      (run_now_preempt G job_ptr orig_map min_nodes max_nodes req_nodes max_share
         cands jobs ps) /\
    only_block b (ms_heap st) (ms_heap st').
Proof.
  revert st ps. induction jobs as [ | k rest IH ]; intros st ps Hsim.
  - exists st. cbn [run_now_preempt_mem run_now_preempt].
    split_conj; auto; apply only_block_refl.
  - pose proof Hsim as (Hrc & Hbm & Hw & Hload).
    cbn [run_now_preempt_mem run_now_preempt]. rewrite Hw.
    destruct (negb (IS_JOB_RUNNING (job_at (ps_world ps) k))
              && negb (IS_JOB_SUSPENDED (job_at (ps_world ps) k)));
      [ now apply IH | ].
    destruct (_is_preemptable k cands); [ | now apply IH ].
    destruct (rm_job_at_mem_scratch G (ms_heap st) b (ps_exp_cr ps) (ps_world ps) k
                (preempt_remove_all (job_at (ps_world ps) k)) Hload)
      as (m1 & -> & Hload1 & Hfr1).
    destruct (rm_job_at G (ps_exp_cr ps) (ps_world ps) k
                (preempt_remove_all (job_at (ps_world ps) k))) as [exp_cr w1].
    cbn [fst snd] in *. rewrite Hload1, Hbm.
    destruct (_job_count_bitmap G (gres w1) exp_cr (job_at w1 job_ptr) orig_map
                (ps_bitmap ps) (max_share - 1) NO_SHARE_LIMIT SELECT_MODE_RUN_NOW)
      as [j bitmap1].
    destruct (j <? min_nodes).
    + destruct (IH (mk_ms (ms_rc st) bitmap1 m1 w1) (mk_ps (ps_rc ps) bitmap1 exp_cr w1))
        as (st' & Heq & Hsim' & Hfr').
      { same_scratch_now. }
      exists st'. split_conj; auto.
      now apply (only_block_trans b (ms_heap st) m1 (ms_heap st')).
    + destruct (job_test_at G w1 job_ptr bitmap1 min_nodes max_nodes req_nodes)
        as [[rc bitmap2] w2].
      destruct (errno_eqb rc SLURM_SUCCESS).
      * eexists. split; [ reflexivity | ]. split; [ same_scratch_now | exact Hfr1 ].
      * destruct (IH (mk_ms rc bitmap2 m1 w2) (mk_ps rc bitmap2 exp_cr w2))
          as (st' & Heq & Hsim' & Hfr').
        { same_scratch_now. }
        exists st'. split_conj; auto.
        now apply (only_block_trans b (ms_heap st) m1 (ms_heap st')).
Qed.

(** The clone is made in a new block, the loops write that block only,
    and the block is freed: the memory is restored. *)
Lemma scratch_restored (m : cr_heap) (new_cr : cr_record) (m2 : cr_heap) :
  only_block (length m) (snd (cr_xmalloc m new_cr)) m2 ->
  memory_restored m (cr_xfree m2 (length m)).
Proof.
  intros [Hlen Hother].
  destruct (cr_load_xmalloc m new_cr) as (_ & Hl & Hold).
  split.
  - intros p Hp. rewrite cr_load_xfree_other by lia.
    rewrite Hother by lia. now apply Hold.
  - intros p Hp. destruct (Nat.eq_dec p (length m)) as [-> | Hne].
    + apply cr_load_xfree_same.
    + rewrite cr_load_xfree_other by lia. apply cr_load_beyond. lia.
Qed.

Lemma memory_restored_refl (m : cr_heap) : memory_restored m m.
Proof. split; [ reflexivity | apply cr_load_beyond ]. Qed.

End MemoryProofs.

Section MemoryCalls.

Context {SL : Slurm} {CT : Slurmctld}.

(** [_will_run_test] with the registries in memory returns what it
    returns when the registry is passed by value, and restores the
    memory. *)
Lemma will_run_test_mem_restores (G : globals) (m : cr_heap) (a : nat)
    (cr : cr_record) (w : world) (job_ptr : nat) (bitmap : bitstr_t)
    (min_nodes max_nodes max_share req_nodes : Z)
    (cands : option (list nat)) (out : preemptee_out) :
  cr_load m a = Some cr -> cr_ptr w = Some cr ->
  exists r m' w',
    _will_run_test_mem G m (Some a) w job_ptr bitmap min_nodes max_nodes max_share
      req_nodes cands out = Mem_returns r m' w' /\
    _will_run_test G w job_ptr bitmap min_nodes max_nodes max_share req_nodes cands out
    = Returns r w' /\
    memory_restored m m'.
Proof.
  intros Hload Hcr. unfold _will_run_test_mem, _will_run_test.
  rewrite Hload, Hcr.
  destruct (read_time w) as [now w0].
  destruct (_job_count_bitmap G (gres w0) cr (job_at w0 job_ptr) (bit_copy bitmap)
              bitmap (Z.max (max_share - 1) 1) NO_SHARE_LIMIT SELECT_MODE_WILL_RUN)
    as [i bitmap1].
  destruct (if min_nodes <=? i
            then job_test_at G w0 job_ptr bitmap1 min_nodes max_nodes req_nodes
            else (SLURM_ERROR, bitmap1, w0)) as [[rc1 bitmap2] w1].
  destruct ((min_nodes <=? i) && errno_eqb rc1 SLURM_SUCCESS).
  - destruct (read_time w1) as [t w2].
    eexists _, _, _. split; [ reflexivity | ]. split; [ reflexivity | ].
    apply memory_restored_refl.
  - unfold _dup_cr_mem. rewrite Hload.
    destruct (_dup_cr G cr (gres w1)) as [exp_cr0 h].
    pose proof (cr_load_xmalloc m exp_cr0) as (Hnew & _ & _).
    pose proof (scratch_restored m exp_cr0) as Hrestore.
    destruct (cr_xmalloc m exp_cr0) as [b m1] eqn:Ealloc.
    assert (Hb : b = length m) by (unfold cr_xmalloc in Ealloc; congruence).
    cbn [fst snd] in Hnew, Hrestore.
    destruct (will_run_split_mem_scratch G cands b (job_pointers w1) m1 exp_cr0
                (set_gres w1 h) [] Hnew) as (m2 & -> & Hload2 & Hfr2).
    destruct (will_run_split G cands (job_pointers w1) (exp_cr0, set_gres w1 h, []))
      as [[exp_cr1 w2] cr_job_list].
    cbn [fst snd] in *.
    assert (Htest : exists rc2 bitmap3 w3,
               match cands with
               | Some _ =>
                   match cr_load m2 b with
                   | None => None
                   | Some exp =>
                       let '(i', b0) :=
                         _job_count_bitmap G (gres w2) exp (job_at w2 job_ptr)
                           (bit_copy bitmap) bitmap2 (Z.max (max_share - 1) 1)
                           NO_SHARE_LIMIT SELECT_MODE_RUN_NOW in
                       if min_nodes <=? i' then
                         let '(rc, b', w') :=
                           job_test_at G w2 job_ptr b0 min_nodes max_nodes req_nodes in
                         Some (rc, b',
                               if errno_eqb rc SLURM_SUCCESS
                               then set_job w' job_ptr
                                      (set_start_time (job_at w' job_ptr) (now + 1))
                               else w')
                       else Some (rc1, b0, w2)
                   end
               | None => Some (rc1, bitmap2, w2)
               end = Some (rc2, bitmap3, w3) /\
               match cands with
               | Some _ =>
                   let '(i', b0) :=
                     _job_count_bitmap G (gres w2) exp_cr1 (job_at w2 job_ptr)
                       (bit_copy bitmap) bitmap2 (Z.max (max_share - 1) 1)
                       NO_SHARE_LIMIT SELECT_MODE_RUN_NOW in
                   if min_nodes <=? i' then
                     let '(rc, b', w') :=
                       job_test_at G w2 job_ptr b0 min_nodes max_nodes req_nodes in
                     (rc, b',
                      if errno_eqb rc SLURM_SUCCESS
                      then set_job w' job_ptr
                             (set_start_time (job_at w' job_ptr) (now + 1))
                      else w')
                   else (rc1, b0, w2)
               | None => (rc1, bitmap2, w2)
               end = (rc2, bitmap3, w3)).
    { destruct cands as [c | ].
      - rewrite Hload2.
        destruct (_job_count_bitmap G (gres w2) exp_cr1 (job_at w2 job_ptr)
                    (bit_copy bitmap) bitmap2 (Z.max (max_share - 1) 1)
                    NO_SHARE_LIMIT SELECT_MODE_RUN_NOW) as [i' b0].
        destruct (min_nodes <=? i').
        + destruct (job_test_at G w2 job_ptr b0 min_nodes max_nodes req_nodes)
            as [[rc b'] w'].
          eexists _, _, _. split; reflexivity.
        + eexists _, _, _. split; reflexivity.
      - eexists _, _, _. split; reflexivity. }
    destruct Htest as (rc2 & bitmap3 & w3 & -> & ->).
    assert (Hreplay : exists ms,
               (if negb (errno_eqb rc2 SLURM_SUCCESS)
                then will_run_replay_mem G job_ptr (bit_copy bitmap) min_nodes max_nodes
                       req_nodes (Z.max (max_share - 1) 1) now b
                       (list_sort w3 cr_job_list) (mk_ms rc2 bitmap3 m2 w3)
                else Some (mk_ms rc2 bitmap3 m2 w3)) = Some ms /\
               same_scratch b ms
                 (if negb (errno_eqb rc2 SLURM_SUCCESS)
                  then will_run_replay G job_ptr (bit_copy bitmap) min_nodes max_nodes
                         req_nodes (Z.max (max_share - 1) 1) now
                         (list_sort w3 cr_job_list) (mk_ps rc2 bitmap3 exp_cr1 w3)
                  else mk_ps rc2 bitmap3 exp_cr1 w3) /\
               only_block b m2 (ms_heap ms)).
    { destruct (negb (errno_eqb rc2 SLURM_SUCCESS)).
      - apply (will_run_replay_mem_scratch G job_ptr (bit_copy bitmap) min_nodes
                 max_nodes req_nodes (Z.max (max_share - 1) 1) now b
                 (list_sort w3 cr_job_list) (mk_ms rc2 bitmap3 m2 w3)
                 (mk_ps rc2 bitmap3 exp_cr1 w3)).
        unfold same_scratch. cbn. auto.
      - eexists. split; [ reflexivity | ].
        split; [ unfold same_scratch; cbn; auto | apply only_block_refl ]. }
    destruct Hreplay as (ms & -> & (Hrc & Hbm & Hw & Hload3) & Hfr3).
    unfold _free_cr_mem. rewrite Hload3, Hrc, Hbm, Hw.
    eexists _, _, _. split; [ reflexivity | ]. split; [ reflexivity | ].
    subst b. apply Hrestore.
    now apply (only_block_trans (length m) m1 m2 (ms_heap ms)).
Qed.

Lemma run_now_mem_restores (G : globals) (m : cr_heap) (a : nat)
    (cr : cr_record) (w : world) (job_ptr : nat) (bitmap : bitstr_t)
    (min_nodes max_nodes max_share req_nodes : Z)
    (cands : option (list nat)) (out : preemptee_out) :
  cr_load m a = Some cr -> cr_ptr w = Some cr ->
  exists r m' w',
    _run_now_mem G m (Some a) w job_ptr bitmap min_nodes max_nodes max_share
      req_nodes cands out = Mem_returns r m' w' /\
    _run_now G w job_ptr bitmap min_nodes max_nodes max_share req_nodes cands out
    = Returns r w' /\
    memory_restored m m'.
Proof.
  intros Hload Hcr. unfold _run_now_mem, _run_now.
  rewrite Hload, Hcr.
  set (st := fold_left
               (run_now_share G cr job_ptr (bit_copy bitmap) min_nodes max_nodes
                  req_nodes max_share)
               (index_range 0 (max_share - 1)) (mk_rn EINVAL (-1) bitmap w)).
  clearbody st.
  destruct cands as [c | ].
  2: { eexists _, _, _. split; [ reflexivity | ]. split; [ reflexivity | ].
       apply memory_restored_refl. }
  destruct (negb (errno_eqb (rn_rc st) SLURM_SUCCESS)).
  2: { eexists _, _, _. split; [ reflexivity | ]. split; [ reflexivity | ].
       apply memory_restored_refl. }
  unfold _dup_cr_mem. rewrite Hload.
  destruct (_dup_cr G cr (gres (rn_world st))) as [exp_cr h].
  pose proof (cr_load_xmalloc m exp_cr) as (Hnew & _ & _).
  pose proof (scratch_restored m exp_cr) as Hrestore.
  destruct (cr_xmalloc m exp_cr) as [b m1] eqn:Ealloc.
  assert (Hb : b = length m) by (unfold cr_xmalloc in Ealloc; congruence).
  cbn [fst snd] in Hnew, Hrestore.
  destruct (run_now_preempt_mem_scratch G job_ptr (bit_copy bitmap) min_nodes max_nodes
              req_nodes max_share (Some c) b (job_pointers (rn_world st))
              (mk_ms (rn_rc st) (rn_bitmap st) m1 (set_gres (rn_world st) h))
              (mk_ps (rn_rc st) (rn_bitmap st) exp_cr (set_gres (rn_world st) h)))
    as (ms & -> & (Hrc & Hbm & Hw & Hload3) & Hfr3).
  { unfold same_scratch. cbn. auto. }
  unfold _free_cr_mem. rewrite Hload3, Hrc, Hbm, Hw.
  eexists _, _, _. split; [ reflexivity | ]. split; [ reflexivity | ].
  subst b. now apply Hrestore.
Qed.

End MemoryCalls.

(** ** C6: the planners and the registry *)

Section PlannerRegistry.

Context {SL : Slurm} {CT : Slurmctld}.

(** After the lazy build a planner that leaves [cr_ptr] alone leaves
    the registry the call found, or the one just built. *)
Lemma kept_or_built_after {A : Type} (G : globals) (w : world) (job_ptr : nat)
    (d : job_details) (o : outcome A) :
  details (job_at w job_ptr) = Some d ->
  registry_unchanged (built G w) o ->
  registry_kept_or_built G w job_ptr o.
Proof.
  intros Hd Ho. pose proof (built_has_registry G w) as Hb.
  unfold registry_kept_or_built, registry_unchanged in *.
  destruct o as [r w' | ]; [ | congruence ].
  rewrite Hd. unfold built in *.
  destruct (cr_ptr w) eqn:Hcr; [ congruence | ].
  split; [ exact Ho | congruence ].
Qed.

Lemma job_test_kept_or_built (G : globals) (w : world) (job_ptr : nat)
    (bitmap : bitstr_t) (min_nodes max_nodes req_nodes : Z) (mode : select_mode)
    (cands : option (list nat)) (out : preemptee_out) :
  mode = SELECT_MODE_WILL_RUN \/ mode = SELECT_MODE_TEST_ONLY ->
  registry_kept_or_built G w job_ptr
    (select_p_job_test G w job_ptr bitmap min_nodes max_nodes req_nodes mode cands out).
Proof.
  intros Hmode. unfold select_p_job_test.
  destruct (details (job_at w job_ptr)) as [d | ] eqn:Hd.
  2: { unfold registry_kept_or_built. rewrite Hd. now destruct (cr_ptr w). }
  fold (built G w). pose proof (built_has_registry G w) as Hb.
  destruct (cr_ptr (built G w)) as [cr1 | ] eqn:Hcr1; [ | congruence ].
  destruct (bit_set_count bitmap <? min_nodes).
  { apply (kept_or_built_after G w job_ptr d); [ exact Hd | reflexivity ]. }
  destruct (job_max_share G (job_at (built G w) job_ptr)) as [share | ] eqn:Hshare.
  2: { split; [ congruence | exact Hshare ]. }
  destruct Hmode as [-> | ->].
  - apply (kept_or_built_after G w job_ptr d); [ exact Hd | ].
    apply will_run_test_pure.
  - apply (kept_or_built_after G w job_ptr d); [ exact Hd | ].
    pose proof (test_only_pure G (built G w) job_ptr bitmap min_nodes max_nodes
                  req_nodes share) as H.
    destruct (_test_only G (built G w) job_ptr bitmap min_nodes max_nodes req_nodes
                share) as [[rc b] w2 | ]; exact H.
Qed.



End PlannerRegistry.

(** ** Facts about the concrete clusters *)

Section ScenarioFacts.

Import Scenario.

#[local] Existing Instance slurm.
#[local] Existing Instance slurmctld.




(** C4 (the code at the failing input): from the registry built for an
    idle one-node cluster, job 7 is committed with [alloc_all] and then
    released through a job record of the same id whose [job_resrcs] is
    NULL.  The release fails after [_rem_tot_job] and before
    [_rem_run_job]: job 7 stays in the run set and is no longer in the
    total set. *)
Lemma run_set_outlives_failed_release :
  let G := cluster1 1000 0 in
  let '(rc1, cr1, _, h1) :=
    _add_job_to_nodes G registry0 (job_on_node0 7 JOB_RUNNING 1 0 true 0) true tt in
  let '(rc2, cr2, _, _) :=
    _rm_job_from_nodes G cr1 (job_on_node0 7 JOB_RUNNING 1 0 false 0) true h1 in
  cr_ptr (_init_node_cr G (world0 [])) = Some registry0 /\
  rc1 = SLURM_SUCCESS /\ rc2 = SLURM_ERROR /\
  in_run_set cr2 7 /\ ~ in_tot_set cr2 7.
Proof.
  vm_compute. split_conj; try reflexivity.
  - discriminate.
  - now left.
  - intros [_ H]. repeat (destruct H as [H | H]; [ discriminate | ]). exact H.
Qed.

Lemma rm_job_without_resrcs_not_atomic_witness :
  let '(rc, cr', _, _) :=
    _rm_job_from_nodes (cluster1 1000 0) registry_busy
      (job_on_node0 42 JOB_RUNNING 1 0 false 5000) true tt in
  rc = SLURM_ERROR /\ ~ in_tot_set cr' 42 /\ cr' <> registry_busy.
Proof.
  pose proof (rm_job_without_resrcs_not_atomic (cluster1 1000 0) registry_busy
                (job_on_node0 42 JOB_RUNNING 1 0 false 5000) true tt) as H.
  destruct (_rm_job_from_nodes (cluster1 1000 0) registry_busy
              (job_on_node0 42 JOB_RUNNING 1 0 false 5000) true tt)
    as [[[rc cr'] job'] h'].
  assert (Htot : in_tot_set registry_busy
                   (job_id (job_on_node0 42 JOB_RUNNING 1 0 false 5000))).
  { split; [ simpl; lia | now left ]. }
  specialize (H Htot eq_refl).
  destruct H as (H1 & H2 & H3 & _). auto.
Defined.

(** C1 (as stated, refuted): without [CR_MEMORY] in [cr_type], a job
    that asks for 100 units of memory per node is given a node whose
    real memory is 50: the memory test is not made.  With [CR_MEMORY],
    a node whose [alloc_memory] is 4294967290 passes for a job of 10
    units, the unsigned sum being 4. *)
Lemma job_count_bitmap_skips_memory_test :
  (_job_count_bitmap (cluster1 50 0) tt registry0
     (job_on_node0 7 JOB_PENDING 1 100 false 0) [true] [true] 0 0
     SELECT_MODE_RUN_NOW = (1, [true]) /\
   claimed_memory_fits (cluster1 50 0) registry0
     (job_on_node0 7 JOB_PENDING 1 100 false 0) 0 = false) /\
  (_job_count_bitmap (cluster1 50 CR_MEMORY) tt
     (mk_cr [mk_node_cr [mk_part_cr 0 0 0] 4294967290 0 None] [] [])
     (job_on_node0 7 JOB_PENDING 1 10 false 0) [true] [true] 0 0
     SELECT_MODE_RUN_NOW = (1, [true]) /\
   claimed_memory_fits (cluster1 50 CR_MEMORY)
     (mk_cr [mk_node_cr [mk_part_cr 0 0 0] 4294967290 0 None] [] [])
     (job_on_node0 7 JOB_PENDING 1 10 false 0) 0 = false).
Proof.
  split_conj; reflexivity.
Qed.

Lemma job_count_bitmap_correct_witness :
  let '(count, out) :=
    _job_count_bitmap (cluster1 1000 CR_MEMORY) tt registry_busy
      (job_on_node0 7 JOB_PENDING 1 100 false 0) [true] [true] 1 NO_SHARE_LIMIT
      SELECT_MODE_RUN_NOW in
  count = Z.of_nat (length (filter (fun i => bit_test [true] i && bit_test out i)
                              (index_range 0 (Z.of_nat (length [true]) - 1)))).
Proof.
  pose proof (job_count_bitmap_correct (cluster1 1000 CR_MEMORY) tt registry_busy
                (job_on_node0 7 JOB_PENDING 1 100 false 0) [true] [true] 1
                NO_SHARE_LIMIT SELECT_MODE_RUN_NOW) as H.
  destruct (_job_count_bitmap (cluster1 1000 CR_MEMORY) tt registry_busy
              (job_on_node0 7 JOB_PENDING 1 100 false 0) [true] [true] 1
              NO_SHARE_LIMIT SELECT_MODE_RUN_NOW) as [count out].
  refine (proj2 (H _ _)); [ discriminate | simpl; lia ].
Defined.

(** C5 (as stated, refuted): [max_share] is 1 and node 0 runs one job.
    With run cap [max_share - 1 = 0] the filter keeps no node, so a
    first attempt under that cap could not place the job; the code
    places it at the first attempt, with the second reading of the
    clock (1001) as [start_time]: its run cap is 1. *)
Lemma will_run_cap_is_at_least_1 :
  fst (_job_count_bitmap (cluster1 1000 0) tt registry_busy (job_at world_busy 1)
         [true] [true] (1 - 1) NO_SHARE_LIMIT SELECT_MODE_WILL_RUN) = 0 /\
  match _will_run_test (cluster1 1000 0) world_busy 1 [true] 1 1 1 1 None None with
  | Returns (rc, bitmap, _) w' =>
      rc = SLURM_SUCCESS /\ bitmap = [true] /\ start_time (job_at w' 1) = 1001
  | Aborts => False
  end.
Proof.
  split; [ reflexivity | ]. vm_compute. split_conj; reflexivity.
Qed.

Lemma will_run_first_attempt_witness :
  _will_run_test (cluster1 1000 0) world_busy 1 [true] 1 1 1 1 None None
  = Returns (SLURM_SUCCESS, [true], None)
      (mk_world (Some registry_busy)
         [job_on_node0 42 JOB_RUNNING 1 0 true 5000;
          set_start_time
            (set_total_cpus (job_on_node0 7 JOB_PENDING 0 0 false 0) 4) 1001]
         tt 2).
Proof.
  refine (will_run_first_attempt (cluster1 1000 0) world_busy registry_busy 1 [true]
            1 1 1 1 None None 1 [true] [true]
            (set_total_cpus (job_on_node0 7 JOB_PENDING 0 0 false 0) 4)
            _ _ _ _ _).
  - reflexivity.
  - simpl. lia.
  - reflexivity.
  - lia.
  - reflexivity.
Defined.

(** C8 (as stated, refuted): with a mode that is none of the three the
    call does not return an error, it ends the process; and a bitmap
    with too few bits gets [EINVAL] from a call that has first built the
    registry. *)
Lemma job_test_unknown_mode_aborts :
  select_p_job_test (cluster1 1000 0)
    (world0 [job_on_node0 7 JOB_PENDING 1 0 false 0]) 0 [true] 1 1 1
    (SELECT_MODE_OTHER 3) None None = Aborts /\
  match select_p_job_test (cluster1 1000 0)
          (world0 [job_on_node0 7 JOB_PENDING 1 0 false 0]) 0 [false] 1 1 1
          SELECT_MODE_RUN_NOW None None with
  | Returns (rc, _, _) w' =>
      rc = EINVAL /\ cr_ptr w' = Some registry0 /\
      cr_ptr (world0 [job_on_node0 7 JOB_PENDING 1 0 false 0]) = None
  | Aborts => False
  end.
Proof.
  split; [ reflexivity | ]. vm_compute. split_conj; reflexivity.
Qed.

Lemma job_test_invalid_args_witness :
  select_p_job_test (cluster1 1000 0)
    (world0 [job_on_node0 7 JOB_PENDING 1 0 false 0]) 0 [false] 1 1 1
    (SELECT_MODE_OTHER 3) None None
  = Returns (EINVAL, [false], None)
      (built (cluster1 1000 0) (world0 [job_on_node0 7 JOB_PENDING 1 0 false 0])).
Proof.
  refine (proj1 (proj2 (job_test_invalid_args (cluster1 1000 0)
                          (world0 [job_on_node0 7 JOB_PENDING 1 0 false 0]) 0 [false]
                          1 1 1 (SELECT_MODE_OTHER 3) None None)) _ _).
  - discriminate.
  - reflexivity.
Defined.

(** C3 (as stated, refuted): on an idle node, the pair with
    [alloc_all = 0] and [remove_all = false] leaves [tot_job_cnt] at 1;
    and a commit and release (both flags set) of job 42, whose id the
    registry already holds, removes job 42 from the total set. *)
Lemma commit_release_does_not_always_restore :
  (nodes (fst (commit_release (cluster1 1000 0)
                 (job_on_node0 7 JOB_RUNNING 1 0 true 0) false (registry0, tt)))
   = [mk_node_cr [mk_part_cr 0 0 1] 0 0 None] /\
   nodes registry0 = [mk_node_cr [mk_part_cr 0 0 0] 0 0 None]) /\
  (in_tot_set registry_busy 42 /\
   ~ in_tot_set
       (fst (commit_release (cluster1 1000 0)
               (job_on_node0 42 JOB_RUNNING 1 0 true 5000) true (registry_busy, tt)))
       42).
Proof.
  split_conj.
  - reflexivity.
  - reflexivity.
  - split; [ discriminate | now left ].
  - vm_compute. intros [_ H].
    repeat (destruct H as [H | H]; [ discriminate | ]). exact H.
Qed.

Lemma commit_release_restores_witness :
  same_registry
    (fst (commit_release_all (cluster1 1000 CR_MEMORY)
            [job_on_node0 7 JOB_RUNNING 0 100 true 0] true (registry0, tt)))
    registry0.
Proof.
  apply (commit_release_restores (cluster1 1000 CR_MEMORY) registry0
           [job_on_node0 7 JOB_RUNNING 0 100 true 0] tt).
  intros job_ptr [<- | []].
  unfold roundtrip_ok. split_conj.
  - intros [_ []].
  - intros [_ []].
  - intros i Hi.
    assert (Hi0 : i = 0).
    { apply andb_prop in Hi as [Hi _].
      apply bit_test_range in Hi. simpl in Hi. lia. }
    subst i. unfold node_has_room. split_conj; try (vm_compute; congruence).
    + intros _. split; vm_compute; congruence.
    + intros p [<- | []] _. unfold part_has_room.
      split_conj; try (vm_compute; congruence).
  - intros _. discriminate.
  - right. vm_compute. reflexivity.
  - right. vm_compute. reflexivity.
Defined.

End ScenarioFacts.

(** ** Further facts about the concrete clusters *)

Section ClusterFacts.

Import Scenario.

#[local] Existing Instance slurm.
#[local] Existing Instance slurmctld.

#[local] Existing Instance bitstring.
#[local] Existing Instance job_resources.

Lemma add_job_then_test_witness :
  _test_run_job (_add_run_job registry_full 17) 17
  = (17 =? 17) || _test_run_job registry_full 17 /\
  tot_job_ids (_add_run_job registry_full 17) = tot_job_ids registry_full /\
  _test_tot_job (_add_tot_job registry_full 17) 17
  = (17 =? 17) || _test_tot_job registry_full 17 /\
  run_job_ids (_add_tot_job registry_full 17) = run_job_ids registry_full /\
  nodes (_add_run_job registry_full 17) = nodes registry_full /\
  nodes (_add_tot_job registry_full 17) = nodes registry_full.
Proof.
  assert (Hx : 17 <> 0) by lia.
  assert (Hrun : ids_room (run_job_ids registry_full))
    by (right; vm_compute; reflexivity).
  assert (Htot : ids_room (tot_job_ids registry_full))
    by (right; vm_compute; reflexivity).
  pose proof (add_job_then_test registry_full 17 17 Hx Hrun Htot) as H.
  exact H.
Defined.

Lemma run_job_array_capacity_witness :
  length (run_job_ids (_add_run_job registry_full 17))
  = (if existsb (Z.eqb 0) (run_job_ids registry_full)
     then length (run_job_ids registry_full)
     else length (run_job_ids registry_full) + RUN_JOB_INCR)%nat /\
  length (run_job_ids (snd (_rem_run_job registry_full 3)))
  = length (run_job_ids registry_full) /\
  length (run_job_ids (_add_run_job (snd (_rem_run_job registry_full 3)) 17))
  = length (run_job_ids registry_full).
Proof.
  assert (Hroom : ids_room (run_job_ids registry_full))
    by (right; vm_compute; reflexivity).
  assert (Hheld : _test_run_job registry_full 3 = true) by reflexivity.
  pose proof (run_job_array_capacity registry_full 3 17 Hroom) as (H1 & H2 & H3).
  split; [ exact H1 | split; [ exact H2 | exact (H3 Hheld) ] ].
Defined.

Lemma add_job_to_nodes_frame_witness :
  let '(rc, cr1, job1, h1) :=
    _add_job_to_nodes (cluster1 1000 0) registry_full
      (job_on_node0 17 JOB_RUNNING 1 0 true 5000) true tt in
  length (nodes cr1) = length (nodes registry_full) /\
  (forall j, job_touches (job_on_node0 17 JOB_RUNNING 1 0 true 5000) j = false ->
             zth (nodes cr1) j zero_node_cr = zth (nodes registry_full) j zero_node_cr) /\
  (forall x, in_tot_set cr1 x <->
             in_tot_set registry_full x
             \/ (x = job_id (job_on_node0 17 JOB_RUNNING 1 0 true 5000) /\ x <> 0)) /\
  (forall x, in_run_set cr1 x <->
             in_run_set registry_full x
             \/ (true = true
                 /\ x = job_id (job_on_node0 17 JOB_RUNNING 1 0 true 5000) /\ x <> 0)).
Proof.
  assert (Htot : ids_room (tot_job_ids registry_full))
    by (right; vm_compute; reflexivity).
  assert (Hrun : true = true -> ids_room (run_job_ids registry_full))
    by (intros _; right; vm_compute; reflexivity).
  assert (Hr : job_resrcs (job_on_node0 17 JOB_RUNNING 1 0 true 5000) <> None)
    by discriminate.
  pose proof (add_job_to_nodes_frame (cluster1 1000 0) registry_full
                (job_on_node0 17 JOB_RUNNING 1 0 true 5000) true tt Htot Hrun)
    as (_ & H).
  exact (H Hr).
Defined.

Lemma rem_job_then_test_witness :
  (fst (_rem_run_job registry_busy 42) = _test_run_job registry_busy 42 /\
   _test_run_job (snd (_rem_run_job registry_busy 42)) 42
   = negb (42 =? 42) && _test_run_job registry_busy 42 /\
   (_test_run_job registry_busy 42 = false ->
    snd (_rem_run_job registry_busy 42) = registry_busy)) /\
  (fst (_rem_tot_job registry_busy 42) = _test_tot_job registry_busy 42 /\
   _test_tot_job (snd (_rem_tot_job registry_busy 42)) 42
   = negb (42 =? 42) && _test_tot_job registry_busy 42 /\
   (_test_tot_job registry_busy 42 = false ->
    snd (_rem_tot_job registry_busy 42) = registry_busy)).
Proof.
  refine (rem_job_then_test registry_busy 42 42 _). lia.
Defined.

Lemma job_count_bitmap_caps_monotone_witness :
  let '(count, out) :=
    _job_count_bitmap (cluster1 1000 0) tt registry_busy
      (job_on_node0 7 JOB_PENDING 1 0 false 0) [true] (bit_copy [true]) 0 0
      SELECT_MODE_RUN_NOW in
  let '(count', out') :=
    _job_count_bitmap (cluster1 1000 0) tt registry_busy
      (job_on_node0 7 JOB_PENDING 1 0 false 0) [true] (bit_copy [true]) 1 2
      SELECT_MODE_RUN_NOW in
  (forall i, bit_test out i = true -> bit_test out' i = true) /\ count <= count'.
Proof.
  refine (job_count_bitmap_caps_monotone (cluster1 1000 0) tt registry_busy
            (job_on_node0 7 JOB_PENDING 1 0 false 0) [true] 0 0 1 2
            SELECT_MODE_RUN_NOW _ _); lia.
Defined.

Lemma run_within_tot_kept_witness :
  (let '(_, cr1, _, _) :=
     _add_job_to_nodes (cluster1 1000 0) registry_busy
       (job_on_node0 42 JOB_RUNNING 1 0 true 5000) true tt in
   run_within_tot cr1) /\
  (let '(_, cr2, _, _) :=
     _rm_job_from_nodes (cluster1 1000 0) registry_busy
       (job_on_node0 42 JOB_RUNNING 1 0 true 5000) true tt in
   run_within_tot cr2) /\
  run_within_tot (fst (_dup_cr (cluster1 1000 0) registry_busy tt)).
Proof.
  assert (Hinv : run_within_tot registry_busy) by (intros x H; exact H).
  assert (Htot : ids_room (tot_job_ids registry_busy)) by (left; reflexivity).
  assert (Hrun : true = true -> ids_room (run_job_ids registry_busy))
    by (intros _; left; reflexivity).
  assert (Hr : job_resrcs (job_on_node0 42 JOB_RUNNING 1 0 true 5000) <> None)
    by discriminate.
  pose proof (run_within_tot_kept (cluster1 1000 0) registry_busy
                (job_on_node0 42 JOB_RUNNING 1 0 true 5000) true tt Hinv)
    as (H1 & H2 & H3).
  split; [ exact (H1 Htot Hrun) | split; [ exact (H2 Hr) | exact H3 ] ].
Defined.

Lemma init_node_cr_registry_witness :
  exists cr,
    cr_ptr (_init_node_cr (cluster1 1000 0)
              (world0 [job_on_node0 42 JOB_RUNNING 1 0 true 5000])) = Some cr /\
    length (nodes cr) = Z.to_nat (select_node_cnt (cluster1 1000 0)) /\
    (forall x, in_tot_set cr x <->
       x <> 0 /\ exists j, In j (job_list
                                   (world0 [job_on_node0 42 JOB_RUNNING 1 0 true 5000]))
                           /\ job_is_recorded j = true /\ job_id j = x) /\
    (forall x, in_run_set cr x <->
       x <> 0 /\ exists j, In j (job_list
                                   (world0 [job_on_node0 42 JOB_RUNNING 1 0 true 5000]))
                           /\ job_is_recorded j = true
                           /\ job_is_run j = true /\ job_id j = x) /\
    run_within_tot cr.
Proof.
  assert (Hnull : cr_ptr (world0 [job_on_node0 42 JOB_RUNNING 1 0 true 5000]) = None)
    by reflexivity.
  assert (Hjobs : Z.of_nat (length (filter job_is_recorded
                                      (job_list
                                         (world0 [job_on_node0 42 JOB_RUNNING 1 0 true 5000]))))
                  <= 65520)
    by (vm_compute; discriminate).
  pose proof (init_node_cr_registry (cluster1 1000 0)
                (world0 [job_on_node0 42 JOB_RUNNING 1 0 true 5000]) Hnull Hjobs) as H.
  exact H.
Defined.

Lemma job_test_picks_available_witness :
  let '(rc, out, job') := _job_test cluster8 job_s2 (bits [2; 3; 4; 5; 6] 8) 1 8 3 in
  length out = length (bits [2; 3; 4; 5; 6] 8) /\
  (forall i, bit_test out i = true -> bit_test (bits [2; 3; 4; 5; 6] 8) i = true) /\
  (bit_set_count (bits [2; 3; 4; 5; 6] 8) < 1 ->
   (rc, out, job') = (EINVAL, bits [2; 3; 4; 5; 6] 8, job_s2)).
Proof.
  assert (Htopo : no_topology cluster8) by (left; reflexivity).
  pose proof (job_test_picks_available cluster8 job_s2 (bits [2; 3; 4; 5; 6] 8) 1 8 3 Htopo) as H.
  exact H.
Defined.

Lemma job_test_node_limit_witness :
  let '(rc, out, job') := _job_test cluster8 job_s2 (bits [2; 3; 4; 5; 6] 8) 1 8 3 in
  (rc = SLURM_SUCCESS ->
   bit_set_count out <= 8 /\
   total_cpus job' = to_uint32 (node_sum (_get_total_cpus cluster8) out (all_nodes out))) /\
  (rc <> SLURM_SUCCESS -> job' = job_s2).
Proof.
  assert (Htopo : no_topology cluster8) by (left; reflexivity).
  assert (Hmax : 0 <= 8) by lia.
  assert (Hlen : Z.of_nat (length (bits [2; 3; 4; 5; 6] 8)) <= select_node_cnt cluster8)
    by (vm_compute; discriminate).
  pose proof (job_test_node_limit cluster8 job_s2 (bits [2; 3; 4; 5; 6] 8) 1 8 3
           Htopo Hmax Hlen) as H.
  exact H.
Defined.

Lemma job_test_success_is_enough_witness :
  let '(rc, out, job') :=
    _job_test (cluster1 1000 0) (job_on_node0 7 JOB_PENDING 1 0 false 0) [true] 1 1 1 in
  rc = SLURM_SUCCESS ->
  1 <= bit_set_count out /\
  to_int (min_cpus (details_of (job_on_node0 7 JOB_PENDING 1 0 false 0)))
  <= node_sum (_get_avail_cpus (cluster1 1000 0)
                 (job_on_node0 7 JOB_PENDING 1 0 false 0)) out (all_nodes out).
Proof.
  refine (job_test_success_is_enough (cluster1 1000 0)
            (job_on_node0 7 JOB_PENDING 1 0 false 0) [true] 1 1 1 _ _ _ _ _ _).
  - left. reflexivity.
  - reflexivity.
  - lia.
  - lia.
  - lia.
  - vm_compute. discriminate.
Defined.

Lemma job_test_keeps_required_witness :
  let '(rc, out, job') := _job_test cluster8 job_s2 (bits [2; 3; 4; 5; 6] 8) 1 8 3 in
  rc = SLURM_SUCCESS ->
  forall i, bit_test (bits [5] 8) i = true -> bit_test out i = true.
Proof.
  assert (Htopo : no_topology cluster8) by (left; reflexivity).
  assert (Hrb : req_node_bitmap (details_of job_s2) = Some (bits [5] 8)) by reflexivity.
  assert (Hfew : bit_set_count (bits [5] 8) <= 8) by (vm_compute; discriminate).
  pose proof (job_test_keeps_required cluster8 job_s2 (bits [2; 3; 4; 5; 6] 8) (bits [5] 8)
           1 8 3 Htopo Hrb Hfew) as H.
  exact H.
Defined.

Lemma resv_test_picks_node_cnt_witness :
  match select_p_resv_test cluster8_tree (bits [1; 2; 4; 5; 6] 8) 3 with
  | Some out =>
      Z.of_nat (length out) = node_record_count cluster8_tree /\
      bit_set_count out = 3 /\
      (forall i, bit_test out i = true -> bit_test (bits [1; 2; 4; 5; 6] 8) i = true)
  | None => True
  end /\
  (bit_set_count (bits [1; 2; 4; 5; 6] 8) < 3 ->
   select_p_resv_test cluster8_tree (bits [1; 2; 4; 5; 6] 8) 3 = None).
Proof.
  assert (Htable : switch_record_table cluster8_tree
                   = Some [mk_switch 0 (bits [0; 1; 2; 3] 8);
                           mk_switch 0 (bits [4; 5; 6; 7] 8);
                           mk_switch 1 (bits [0; 1; 2; 3; 4; 5; 6; 7] 8)])
    by reflexivity.
  assert (Hswitches : switch_record_cnt cluster8_tree <> 0) by discriminate.
  assert (Hcnt : 0 <= 3 < 2 ^ 31) by lia.
  assert (Hlen : Z.of_nat (length (bits [1; 2; 4; 5; 6] 8))
                 <= node_record_count cluster8_tree)
    by (vm_compute; discriminate).
  pose proof (resv_test_picks_node_cnt cluster8_tree _ (bits [1; 2; 4; 5; 6] 8) 3
           Htable Hswitches Hcnt Hlen) as H.
  exact H.
Defined.

Lemma suspend_resume_counts_witness :
  let '(_, cr1, job1, h1) :=
    _rm_job_from_nodes (cluster1 1000 0) registry_busy
      (job_on_node0 42 JOB_RUNNING 1 0 true 5000) false tt in
  let '(_, cr2, _, _) := _add_job_to_nodes (cluster1 1000 0) cr1 job1 false h1 in
  _test_tot_job cr2 (job_id (job_on_node0 42 JOB_RUNNING 1 0 true 5000)) = true /\
  _test_run_job cr2 (job_id (job_on_node0 42 JOB_RUNNING 1 0 true 5000)) = false /\
  (forall x, x <> job_id (job_on_node0 42 JOB_RUNNING 1 0 true 5000) ->
             (in_run_set cr2 x <-> in_run_set registry_busy x) /\
             (in_tot_set cr2 x <-> in_tot_set registry_busy x)) /\
  length (nodes cr2) = length (nodes registry_busy) /\
  (forall j, 0 <= j < Z.of_nat (length (nodes registry_busy)) ->
             job_touches (job_on_node0 42 JOB_RUNNING 1 0 true 5000) j = true ->
     parts (zth (nodes cr2) j zero_node_cr)
     = walked (parts (zth (nodes registry_busy) j zero_node_cr))
         (part_ptr (job_on_node0 42 JOB_RUNNING 1 0 true 5000))
         (fun p =>
            mk_part_cr (cr_part_ptr p)
              (if _test_run_job registry_busy
                    (job_id (job_on_node0 42 JOB_RUNNING 1 0 true 5000))
                  && (0 <? run_job_cnt p)
               then run_job_cnt p - 1 else run_job_cnt p)
              (cnt_incr (tot_job_cnt p)))).
Proof.
  refine (suspend_resume_counts (cluster1 1000 0) registry_busy
            (job_on_node0 42 JOB_RUNNING 1 0 true 5000) tt _ _ _).
  - discriminate.
  - vm_compute. discriminate.
  - reflexivity.
Defined.

Lemma rm_job_from_one_node_once_witness :
  let '(_, cr1, job1, h1) :=
    _rm_job_from_one_node (cluster1 1000 0) registry_busy
      (job_on_node0 42 JOB_RUNNING 1 0 true 5000) 0 tt in
  _rm_job_from_one_node (cluster1 1000 0) cr1 job1 0 h1 = (SLURM_ERROR, cr1, job1, h1).
Proof.
  refine (rm_job_from_one_node_once (cluster1 1000 0) registry_busy
            (job_on_node0 42 JOB_RUNNING 1 0 true 5000) 0 tt _).
  intros r. split; reflexivity.
Defined.

Lemma job_test_topo_node_limit_witness :
  match job_test_topo_code cluster8_tree
          [mk_switch 0 (bits [0; 1; 2; 3] 8);
           mk_switch 0 (bits [4; 5; 6; 7] 8);
           mk_switch 1 (bits [0; 1; 2; 3; 4; 5; 6; 7] 8)]
          job_s2 (bits [2; 3; 4; 5; 6] 8) 1 8 3 with
  | Topo_returns rc out total =>
      bit_set_count out <= 8 /\
      total = node_sum (_get_total_cpus cluster8_tree) out (all_nodes out)
  | _ => True
  end.
Proof.
  assert (Hmax : 0 <= 8) by lia.
  assert (Hlen : Z.of_nat (length (bits [2; 3; 4; 5; 6] 8))
                 <= node_record_count cluster8_tree)
    by (vm_compute; discriminate).
  pose proof (job_test_topo_node_limit cluster8_tree
                [mk_switch 0 (bits [0; 1; 2; 3] 8);
                 mk_switch 0 (bits [4; 5; 6; 7] 8);
                 mk_switch 1 (bits [0; 1; 2; 3; 4; 5; 6; 7] 8)]
                job_s2 (bits [2; 3; 4; 5; 6] 8) 1 8 3 Hmax Hlen) as H.
  exact H.
Defined.

Lemma job_test_topo_success_is_enough_witness :
  match job_test_topo_code cluster8_tree
          [mk_switch 0 (bits [0; 1; 2; 3] 8);
           mk_switch 0 (bits [4; 5; 6; 7] 8);
           mk_switch 1 (bits [0; 1; 2; 3; 4; 5; 6; 7] 8)]
          job_s2 (bits [2; 3; 4; 5; 6] 8) 1 8 3 with
  | Topo_returns rc out total =>
      rc = SLURM_SUCCESS ->
      1 <= bit_set_count out /\
      to_int (min_cpus (details_of job_s2))
      <= node_sum (_get_avail_cpus cluster8_tree job_s2) out (all_nodes out)
  | _ => True
  end.
Proof.
  assert (Hmin : 0 <= 1 < 2 ^ 31) by lia.
  assert (Hreq : 0 <= 3 < 2 ^ 31) by lia.
  assert (Hmax : 0 <= 8 < 2 ^ 31) by lia.
  assert (Hlen : Z.of_nat (length (bits [2; 3; 4; 5; 6] 8))
                 <= node_record_count cluster8_tree)
    by (vm_compute; discriminate).
  pose proof (job_test_topo_success_is_enough cluster8_tree
                [mk_switch 0 (bits [0; 1; 2; 3] 8);
                 mk_switch 0 (bits [4; 5; 6; 7] 8);
                 mk_switch 1 (bits [0; 1; 2; 3; 4; 5; 6; 7] 8)]
                job_s2 (bits [2; 3; 4; 5; 6] 8) 1 8 3 Hmin Hreq Hmax Hlen) as H.
  exact H.
Defined.


(** Job 42 gives back node 0 of two: the GRES list read from the
    registry is the one of node 1. *)
Lemma rm_job_from_one_node_offset_witness :
  cr_gres_list (zth (nodes registry_pair) 0 zero_node_cr) = None /\
  cr_gres_list (zth (nodes registry_pair) (0 + 1) zero_node_cr) = Some tt /\
  let r := mk_resrcs (Some [true; false]) 4 1 [4] [0] [0] [0] [4] [1] 1 in
  let rank := node_sum (fun _ => 1) (resrcs_bitmap r) (index_range 0 (0 - 1)) in
  one_node_offset r 0 = (0 + 1, rank) /\
  let '(_, _, job1, h1) := _rm_job_from_one_node cluster2 registry_pair job_on_pair 0 tt in
  (exists r1,
      job_resrcs job1 = Some r1 /\
      r1 = build_job_resources_cpu_array
             (set_res_cpus r (zset (res_cpus r) rank 0))) /\
  h1 = gres_plugin_job_dealloc (job_gres_list job_on_pair)
         (match cr_gres_list (zth (nodes registry_pair) (0 + 1) zero_node_cr) with
          | Some g => Some g
          | None => node_gres_list (zth (node_record_table_ptr cluster2) 0 zero_node)
          end)
         rank (job_id job_on_pair) 0 tt.
Proof.
  assert (Htot : _test_tot_job registry_pair (job_id job_on_pair) = true)
    by reflexivity.
  assert (Hr : job_resrcs job_on_pair
               = Some (mk_resrcs (Some [true; false]) 4 1 [4] [0] [0] [0] [4] [1] 1))
    by reflexivity.
  assert (Hset : bit_test (resrcs_bitmap
                             (mk_resrcs (Some [true; false]) 4 1 [4] [0] [0] [0] [4] [1] 1)) 0
                 = true)
    by reflexivity.
  assert (Hnext : 0 + 1 < Z.of_nat (length (nodes registry_pair)))
    by (vm_compute; reflexivity).
  assert (Hcpus : zth (res_cpus (mk_resrcs (Some [true; false]) 4 1 [4] [0] [0] [0] [4] [1] 1))
                    (node_sum (fun _ => 1)
                       (resrcs_bitmap
                          (mk_resrcs (Some [true; false]) 4 1 [4] [0] [0] [0] [4] [1] 1))
                       (index_range 0 (0 - 1))) 0 <> 0)
    by (vm_compute; discriminate).
  pose proof (rm_job_from_one_node_offset cluster2 registry_pair job_on_pair
                (mk_resrcs (Some [true; false]) 4 1 [4] [0] [0] [0] [4] [1] 1) 0 tt
                Htot Hr Hset Hnext) as (H1 & H2).
  split; [ reflexivity | ]. split; [ reflexivity | ].
  split; [ exact H1 | exact (H2 Hcpus) ].
Defined.




End ClusterFacts.
